(** * The tablet Reader of the OLAP storage engine (be/src/olap/reader.cpp)

    A shallow embedding of [CollectIterator], [CollectIterator::ChildCtx]
    and [Reader], and the properties of the read path that the
    specification states about them.

    Conventions.
    - C++ [int], [int32_t], [int64_t] and [uint32_t] values are [Z]; sizes
      and vector indices are [nat].  The conversion of an [int] to the
      [uint32_t] element type of a set is written [to_uint32].
    - A function that can run into undefined behaviour (an index outside a
      vector, a second [delete] of one object, a null pointer followed)
      returns [Fault]; loops take their bound from [fuel] and return
      [OutOfFuel] when it is used up.
    - Out parameters ([bool* eof], [const RowCursor** row], ...) are
      returned next to the status, the object a method is called on is
      passed in and returned. *)

From Stdlib Require Import ZArith Lia.
From stdpp Require Import base tactics option list gmap sets strings sorting numbers.

Local Open Scope Z_scope.

(** ** Outcomes, loops, pointers *)

Inductive fault : Type := OutOfBounds | DoubleFree | NullDeref.

Inductive result (A : Type) : Type :=
| Ok (a : A)
| Fault (f : fault)
| OutOfFuel.
Arguments Ok {A} a.
Arguments Fault {A} f.
Arguments OutOfFuel {A}.

#[global] Instance result_ret : MRet result := fun A a => Ok a.
#[global] Instance result_bind : MBind result := fun A B f m =>
  match m with Ok a => f a | Fault e => Fault e | OutOfFuel => OutOfFuel end.

(** What one turn of a loop body decides: go round again, leave the loop
    ([break], or the loop condition found false), or [return] from the
    enclosing function. *)
Inductive ctrl (S R : Type) : Type :=
| Continue (s : S)
| Break (s : S)
| Return (r : R).
Arguments Continue {S R} s.
Arguments Break {S R} s.
Arguments Return {S R} r.

Fixpoint loop {S R : Type} (n : nat) (body : S -> result (ctrl S R)) (s : S)
  : result (S + R) :=
  match n with
  | O => OutOfFuel
  | Datatypes.S n' =>
      c ← body s;
      match c with
      | Continue s' => loop n' body s'
      | Break s' => Ok (inl s')
      | Return r => Ok (inr r)
      end
  end.

(** A raw owning pointer: null, pointing to a live object, or dangling
    after [delete]. *)
Inductive ptr (A : Type) : Type :=
| nullptr
| live (a : A)
| dangling.
Arguments nullptr {A}.
Arguments live {A} a.
Arguments dangling {A}.

(** [delete p]: nothing for a null pointer, frees a live object, undefined
    on an object already freed. The pointer keeps its address, so what was
    live is dangling afterwards. *)
Definition delete {A : Type} (p : ptr A) : result (ptr A) :=
  match p with
  | nullptr => Ok nullptr
  | live _ => Ok dangling
  | dangling => Fault DoubleFree
  end.

Definition deref {A : Type} (p : ptr A) : result A :=
  match p with
  | live a => Ok a
  | _ => Fault NullDeref
  end.

Fixpoint delete_each {A : Type} (ps : list (ptr A)) : result (list (ptr A)) :=
  match ps with
  | [] => Ok []
  | p :: rest =>
      p' ← delete p;
      rest' ← delete_each rest;
      Ok (p' :: rest')
  end.

Definition to_uint32 (z : Z) : Z := z mod 4294967296.

(** ** Status codes and enumerations *)

Inductive OLAPStatus : Type :=
| OLAP_SUCCESS
| OLAP_ERR_DATA_EOF
| OLAP_ERR_INPUT_PARAMETER_ERROR
| OLAP_ERR_READER_GET_ITERATOR_ERROR
| OLAP_ERR_VERSION_NOT_EXIST
| OLAP_ERR_MALLOC_ERROR
| OLAP_ERR_OTHER (code : Z).

#[global] Instance OLAPStatus_eq_dec : EqDecision OLAPStatus.
Proof. solve_decision. Defined.

Inductive ReaderType : Type :=
| READER_QUERY
| READER_ALTER_TABLE
| READER_BASE_COMPACTION
| READER_CUMULATIVE_COMPACTION
| READER_CHECKSUM.

#[global] Instance ReaderType_eq_dec : EqDecision ReaderType.
Proof. solve_decision. Defined.

Inductive KeysType : Type := DUP_KEYS | UNIQUE_KEYS | AGG_KEYS.

#[global] Instance KeysType_eq_dec : EqDecision KeysType.
Proof. solve_decision. Defined.

Inductive FieldType : Type :=
| OLAP_FIELD_TYPE_TINYINT
| OLAP_FIELD_TYPE_SMALLINT
| OLAP_FIELD_TYPE_INT
| OLAP_FIELD_TYPE_BIGINT
| OLAP_FIELD_TYPE_LARGEINT
| OLAP_FIELD_TYPE_DECIMAL
| OLAP_FIELD_TYPE_CHAR
| OLAP_FIELD_TYPE_VARCHAR
| OLAP_FIELD_TYPE_DATE
| OLAP_FIELD_TYPE_DATETIME
| OLAP_FIELD_TYPE_HLL
| OLAP_FIELD_TYPE_UNKNOWN.

#[global] Instance FieldType_eq_dec : EqDecision FieldType.
Proof. solve_decision. Defined.

Inductive DelCondSatisfied : Type :=
| DEL_SATISFIED
| DEL_NOT_SATISFIED
| DEL_PARTIAL_SATISFIED.

#[global] Instance DelCondSatisfied_eq_dec : EqDecision DelCondSatisfied.
Proof. solve_decision. Defined.

Inductive CondOp : Type :=
| OP_EQ | OP_NE | OP_LT | OP_LE | OP_GT | OP_GE | OP_IN | OP_IS.

#[global] Instance CondOp_eq_dec : EqDecision CondOp.
Proof. solve_decision. Defined.

(** ** Tablet, conditions, parameters *)

Record FieldInfo : Type := {
  type : FieldType;
  is_key : bool;
  is_bf_column : bool
}.

(** The table as the Reader sees it. [get_field_type_by_index] belongs to
    OLAPTable, whose code is not part of reader.cpp: it is a field of the
    table, so that nothing is assumed on what it answers outside the
    schema. *)
Record OLAPTable : Type := {
  tablet_schema : list FieldInfo;
  keys_type : KeysType;
  num_short_key_fields : Z;
  get_field_type_by_index : Z -> FieldType
}.

Record Cond : Type := {
  op : CondOp;
  operand_set : list string
}.

Record CondColumn : Type := {
  conds : list Cond
}.

(** [Conditions::columns()] is a map from column index to CondColumn,
    walked in key order. *)
Record Conditions : Type := {
  columns : list (Z * CondColumn)
}.

Record DeleteConditions : Type := {
  filter_version : Z;
  del_cond : Conditions
}.

Definition OlapTuple : Type := list string.

Record ReaderParams : Type := {
  reader_type : ReaderType;
  aggregation : bool;
  return_columns : list Z;
  start_key : list OlapTuple;
  end_key : list OlapTuple
}.

Record ColumnPredicate : Type := {
  column_id : Z
}.

Record OlapReaderStatistics : Type := {
  rows_stats_filtered : Z;
  rows_del_filtered : Z
}.

Definition incr_rows_del_filtered (s : OlapReaderStatistics) : OlapReaderStatistics :=
  {| rows_stats_filtered := rows_stats_filtered s;
     rows_del_filtered := rows_del_filtered s + 1 |}.

(** Modelled from the spec: [Conditions::finalize] (olap_cond.cpp is not
    part of reader.cpp) frees the per-column conditions; it is taken to
    leave the object empty, so that it can be repeated. *)
Definition Conditions_finalize (c : Conditions) : Conditions :=
  {| columns := [] |}.

(** The element access [tablet_schema()[id]]. *)
Definition schema_at (schema : list FieldInfo) (id : Z) : result FieldInfo :=
  if id <? 0 then Fault OutOfBounds
  else match schema !! Z.to_nat id with
       | Some fi => Ok fi
       | None => Fault OutOfBounds
       end.

(** [std::sort(first, last, std::greater<uint32_t>())]. *)
Definition sort_greater (l : list Z) : list Z := merge_sort (flip Z.le) l.

(** The interface of RowCursor that reader.cpp calls (row_cursor.cpp is
    not part of it). The cursor a method is called on comes first;
    methods that write to it return its new value. *)
Class RowCursorOps (Row : Type) : Type := {
  full_key_cmp : Row -> Row -> Z;
  cmp : Row -> Row -> Z;
  equal : list Z -> Row -> Row -> bool;
  agg_init : Row -> Row -> Row;
  aggregate : list Z -> Row -> Row -> Row;
  finalize_one_merge : list Z -> Row -> Row;
  copy_without_pool : Row -> Row -> Row
}.

(** ** The cursors: RowBlock, ColumnData, ChildCtx, CollectIterator *)

Section Model.

Context {Row : Type} {ops : RowCursorOps Row}.

(** [config::doris_scanner_row_num] and [MAX_OP_IN_FIELD_NUM] are defined
    outside reader.cpp. *)
Variable doris_scanner_row_num : Z.
Variable MAX_OP_IN_FIELD_NUM : nat.

(** The bound of every loop. *)
Variable fuel : nat.

(** A decoded block of rows with its read position (row_block.h is not
    part of reader.cpp; these are the members the cursor calls). *)
Record RowBlock : Type := {
  rows : list Row;
  pos : nat;
  block_status : DelCondSatisfied
}.

Definition has_remaining (b : RowBlock) : bool :=
  bool_decide (pos b < length (rows b))%nat.

Definition get_row (b : RowBlock) (p : nat) : option Row := rows b !! p.

Definition pos_inc (b : RowBlock) : RowBlock :=
  {| rows := rows b; pos := Datatypes.S (pos b); block_status := block_status b |}.

(** One segment (a ColumnData). column_data.cpp is not part of
    reader.cpp: [seek] stands for what [prepare_block_read] answers to a
    key range, namely its status, the first block, and what each later
    [get_next_block] will answer; [next_blocks] is the read position that
    [get_next_block] consumes; [row_cursor_init] is the status of
    [RowCursor::init] on the segment's schema and seek columns. *)
Record ColumnData : Type := {
  version : Z * Z;
  delete_flag : bool;
  row_cursor_init : OLAPStatus;
  seek : option Row -> bool -> option Row -> bool ->
         OLAPStatus * option RowBlock * list (OLAPStatus * option RowBlock);
  next_blocks : list (OLAPStatus * option RowBlock)
}.

Definition set_next_blocks (nb : list (OLAPStatus * option RowBlock)) (d : ColumnData)
  : ColumnData :=
  {| version := version d; delete_flag := delete_flag d;
     row_cursor_init := row_cursor_init d; seek := seek d; next_blocks := nb |}.

Definition prepare_block_read (d : ColumnData) (start_key : option Row)
    (find_last_row : bool) (end_key : option Row) (end_key_find_last_row : bool)
  : OLAPStatus * option RowBlock * ColumnData :=
  let '(res, block, later) := seek d start_key find_last_row end_key end_key_find_last_row in
  (res, block, set_next_blocks later d).

(** Modelled from the spec: [get_next_block(out: RowBlock)] answers OK, EOF
    or an error; past the last block it answers EOF with no block. *)
Definition get_next_block (d : ColumnData) : OLAPStatus * option RowBlock * ColumnData :=
  match next_blocks d with
  | [] => (OLAP_ERR_DATA_EOF, None, d)
  | (res, block) :: later => (res, block, set_next_blocks later d)
  end.

(** The delete handler as the read path uses it (delete_handler.cpp is
    not part of reader.cpp). *)
Record DeleteHandler : Type := {
  del_conds : list DeleteConditions;
  is_filter_data : Z -> Row -> bool
}.

(** Modelled from the spec: [conditions_num()] is the count of loaded
    delete predicates, [get_delete_conditions()] lists them. *)
Definition conditions_num (dh : DeleteHandler) : nat := length (del_conds dh).

Definition get_delete_conditions (dh : DeleteHandler) : list DeleteConditions :=
  del_conds dh.

(** Modelled from the spec: [DeleteHandler::finalize] drops the loaded
    delete predicates; it is taken to leave the handler empty, so that it
    can be repeated. *)
Definition DeleteHandler_finalize (dh : DeleteHandler) : DeleteHandler :=
  {| del_conds := []; is_filter_data := fun _ _ => false |}.

(** [CollectIterator::ChildCtx]. [_current_row] is null or the address of
    [_row_cursor]; it is kept as the row it points to. The back pointer
    [_reader] is used for the delete handler and the statistics, which the
    methods take and return instead. *)
Record ChildCtx : Type := {
  _data : ColumnData;
  _current_row : option Row;
  _is_delete : bool;
  _row_cursor : option Row;
  _row_block : option RowBlock
}.

Definition ChildCtx_new (data : ColumnData) (block : option RowBlock) : ChildCtx :=
  {| _data := data; _current_row := None; _is_delete := delete_flag data;
     _row_cursor := None; _row_block := block |}.

Definition set_data (d : ColumnData) (c : ChildCtx) : ChildCtx :=
  {| _data := d; _current_row := _current_row c; _is_delete := _is_delete c;
     _row_cursor := _row_cursor c; _row_block := _row_block c |}.

Definition set_current_row (r : option Row) (c : ChildCtx) : ChildCtx :=
  {| _data := _data c; _current_row := r; _is_delete := _is_delete c;
     _row_cursor := _row_cursor c; _row_block := _row_block c |}.

Definition set_row_cursor (r : option Row) (c : ChildCtx) : ChildCtx :=
  {| _data := _data c; _current_row := _current_row c; _is_delete := _is_delete c;
     _row_cursor := r; _row_block := _row_block c |}.

Definition set_row_block (b : option RowBlock) (c : ChildCtx) : ChildCtx :=
  {| _data := _data c; _current_row := _current_row c; _is_delete := _is_delete c;
     _row_cursor := _row_cursor c; _row_block := b |}.

Definition ChildCtx_version (c : ChildCtx) : Z := (version (_data c)).2.

(** One turn of the do-while of [_refresh_current_row]. *)
Definition _refresh_current_row_body (dh : DeleteHandler)
    (st : ChildCtx * OlapReaderStatistics)
  : result (ctrl (ChildCtx * OlapReaderStatistics)
                 (OLAPStatus * ChildCtx * OlapReaderStatistics)) :=
  let '(c, stats) := st in
  match _row_block c with
  | None => Fault NullDeref
  | Some b =>
      if has_remaining b then
        match get_row b (pos b) with
        | None => Fault OutOfBounds
        | Some row =>
            let c1 := set_row_cursor (Some row) c in
            if bool_decide (block_status b = DEL_PARTIAL_SATISFIED)
               && is_filter_data dh (version (_data c)).2 row
            then Ok (Continue (set_row_block (Some (pos_inc b)) c1,
                               incr_rows_del_filtered stats))
            else Ok (Return (OLAP_SUCCESS, set_current_row (Some row) c1, stats))
        end
      else
        let '(res, block, d) := get_next_block (_data c) in
        let c1 := set_data d (set_row_block block c) in
        if bool_decide (res <> OLAP_SUCCESS)
        then Ok (Return (res, set_current_row None c1, stats))
        else match block with
             | None => Ok (Break (c1, stats))
             | Some _ => Ok (Continue (c1, stats))
             end
  end.

Definition _refresh_current_row (dh : DeleteHandler) (c : ChildCtx)
    (stats : OlapReaderStatistics)
  : result (OLAPStatus * ChildCtx * OlapReaderStatistics) :=
  r ← loop fuel (_refresh_current_row_body dh) (c, stats);
  match r with
  | inl (c', stats') => Ok (OLAP_ERR_DATA_EOF, set_current_row None c', stats')
  | inr x => Ok x
  end.

Definition ChildCtx_init (dh : DeleteHandler) (c : ChildCtx)
    (stats : OlapReaderStatistics)
  : result (OLAPStatus * ChildCtx * OlapReaderStatistics) :=
  let res := row_cursor_init (_data c) in
  if bool_decide (res <> OLAP_SUCCESS) then Ok (res, c, stats)
  else
    '(res, c', stats') ← _refresh_current_row dh c stats;
    if bool_decide (res <> OLAP_SUCCESS) then Ok (res, c', stats')
    else Ok (OLAP_SUCCESS, c', stats').

Definition ChildCtx_current_row (c : ChildCtx) : option Row * bool :=
  (_current_row c, _is_delete c).

(** [ChildCtx::next]: the out parameters [row] and [delete_flag] follow the
    status. *)
Definition ChildCtx_next (dh : DeleteHandler) (c : ChildCtx)
    (stats : OlapReaderStatistics)
  : result (OLAPStatus * option Row * bool * ChildCtx * OlapReaderStatistics) :=
  match _row_block c with
  | None => Fault NullDeref
  | Some b =>
      '(res, c', stats') ← _refresh_current_row dh (set_row_block (Some (pos_inc b)) c) stats;
      Ok (res, _current_row c', _is_delete c', c', stats')
  end.

(** [CollectIterator]. A [ChildCtx*] is the index of the child in
    [_children], which owns the children. [std::priority_queue] is kept as
    the list of its elements in the order pushed. *)
Record CollectIterator : Type := {
  _merge : bool;
  _heap : list nat;
  _children : list ChildCtx;
  _cur_child : option nat;
  _child_idx : nat
}.

Definition CollectIterator_new : CollectIterator :=
  {| _merge := true; _heap := []; _children := []; _cur_child := None; _child_idx := 0%nat |}.

Definition set_merge (m : bool) (ci : CollectIterator) : CollectIterator :=
  {| _merge := m; _heap := _heap ci; _children := _children ci;
     _cur_child := _cur_child ci; _child_idx := _child_idx ci |}.

Definition set_heap (h : list nat) (ci : CollectIterator) : CollectIterator :=
  {| _merge := _merge ci; _heap := h; _children := _children ci;
     _cur_child := _cur_child ci; _child_idx := _child_idx ci |}.

Definition set_children (cs : list ChildCtx) (ci : CollectIterator) : CollectIterator :=
  {| _merge := _merge ci; _heap := _heap ci; _children := cs;
     _cur_child := _cur_child ci; _child_idx := _child_idx ci |}.

Definition set_cur_child (c : option nat) (ci : CollectIterator) : CollectIterator :=
  {| _merge := _merge ci; _heap := _heap ci; _children := _children ci;
     _cur_child := c; _child_idx := _child_idx ci |}.

Definition set_child_idx (i : nat) (ci : CollectIterator) : CollectIterator :=
  {| _merge := _merge ci; _heap := _heap ci; _children := _children ci;
     _cur_child := _cur_child ci; _child_idx := i |}.

(** [ChildCtxComparator::operator()]. *)
Definition ChildCtxComparator (children : list ChildCtx) (a b : nat) : result bool :=
  match children !! a, children !! b with
  | Some ca, Some cb =>
      match _current_row ca, _current_row cb with
      | Some first, Some second =>
          let cmp_res := full_key_cmp first second in
          if bool_decide (cmp_res <> 0) then Ok (bool_decide (cmp_res > 0))
          else Ok (bool_decide (ChildCtx_version ca > ChildCtx_version cb))
      | _, _ => Fault NullDeref
      end
  | _, _ => Fault OutOfBounds
  end.

(** [top()] of the priority queue: an element that the comparator orders
    before no other one; among several such, the one pushed first. *)
Fixpoint heap_best (children : list ChildCtx) (best : nat) (h : list nat) : result nat :=
  match h with
  | [] => Ok best
  | x :: rest =>
      before ← ChildCtxComparator children best x;
      heap_best children (if before : bool then x else best) rest
  end.

Definition heap_top (children : list ChildCtx) (h : list nat) : result nat :=
  match h with
  | [] => Fault OutOfBounds
  | x :: rest => heap_best children x rest
  end.

Fixpoint remove_first (x : nat) (h : list nat) : list nat :=
  match h with
  | [] => []
  | y :: rest => if bool_decide (x = y) then rest else y :: remove_first x rest
  end.

Definition heap_pop (children : list ChildCtx) (h : list nat) : result (list nat) :=
  t ← heap_top children h;
  Ok (remove_first t h).

Definition heap_push (x : nat) (h : list nat) : list nat := h ++ [x].

(** [CollectIterator::current_row]: the row at the head and, when there is
    one, the delete flag written through the out parameter. *)
Definition CollectIterator_current_row (ci : CollectIterator)
  : result (option Row * option bool) :=
  match _cur_child ci with
  | Some i =>
      match _children ci !! i with
      | Some c => Ok (_current_row c, Some (_is_delete c))
      | None => Fault OutOfBounds
      end
  | None => Ok (None, None)
  end.

Definition add_child (dh : DeleteHandler) (ci : CollectIterator) (data : ColumnData)
    (block : option RowBlock) (stats : OlapReaderStatistics)
  : result (OLAPStatus * CollectIterator * OlapReaderStatistics) :=
  '(res, child, stats') ← ChildCtx_init dh (ChildCtx_new data block) stats;
  if bool_decide (res <> OLAP_SUCCESS) then Ok (res, ci, stats')
  else
    match _current_row child with
    | None => Ok (OLAP_SUCCESS, ci, stats')
    | Some _ =>
        let child_ptr := length (_children ci) in
        let ci1 := set_children (_children ci ++ [child]) ci in
        if _merge ci1 then
          let ci2 := set_heap (heap_push child_ptr (_heap ci1)) ci1 in
          t ← heap_top (_children ci2) (_heap ci2);
          Ok (OLAP_SUCCESS, set_cur_child (Some t) ci2, stats')
        else
          match _cur_child ci1 with
          | None =>
              if bool_decide (_child_idx ci1 < length (_children ci1))%nat
              then Ok (OLAP_SUCCESS, set_cur_child (Some (_child_idx ci1)) ci1, stats')
              else Fault OutOfBounds
          | Some _ => Ok (OLAP_SUCCESS, ci1, stats')
          end
    end.

(** Advance the child [_cur_child] points to, in place. *)
Definition cur_child_next (dh : DeleteHandler) (ci : CollectIterator)
    (stats : OlapReaderStatistics)
  : result (OLAPStatus * option Row * bool * CollectIterator * OlapReaderStatistics) :=
  match _cur_child ci with
  | None => Fault NullDeref
  | Some i =>
      match _children ci !! i with
      | None => Fault OutOfBounds
      | Some c =>
          '(res, row, flag, c', stats') ← ChildCtx_next dh c stats;
          Ok (res, row, flag, set_children (<[i := c']> (_children ci)) ci, stats')
      end
  end.

Definition _merge_next (dh : DeleteHandler) (ci : CollectIterator)
    (stats : OlapReaderStatistics)
  : result (OLAPStatus * option Row * bool * CollectIterator * OlapReaderStatistics) :=
  h ← heap_pop (_children ci) (_heap ci);
  let ci := set_heap h ci in
  '(res, row, flag, ci, stats) ← cur_child_next dh ci stats;
  if bool_decide (res = OLAP_SUCCESS) then
    match _cur_child ci with
    | None => Fault NullDeref
    | Some i =>
        let ci := set_heap (heap_push i (_heap ci)) ci in
        t ← heap_top (_children ci) (_heap ci);
        let ci := set_cur_child (Some t) ci in
        '(row, flag') ← CollectIterator_current_row ci;
        Ok (OLAP_SUCCESS, row, default flag flag', ci, stats)
    end
  else if bool_decide (res = OLAP_ERR_DATA_EOF) then
    if bool_decide (0 < length (_heap ci))%nat then
      t ← heap_top (_children ci) (_heap ci);
      let ci := set_cur_child (Some t) ci in
      '(row, flag') ← CollectIterator_current_row ci;
      Ok (OLAP_SUCCESS, row, default flag flag', ci, stats)
    else Ok (OLAP_ERR_DATA_EOF, row, flag, set_cur_child None ci, stats)
  else Ok (res, row, flag, ci, stats).

Definition _normal_next (dh : DeleteHandler) (ci : CollectIterator)
    (stats : OlapReaderStatistics)
  : result (OLAPStatus * option Row * bool * CollectIterator * OlapReaderStatistics) :=
  '(res, row, flag, ci, stats) ← cur_child_next dh ci stats;
  if bool_decide (res = OLAP_SUCCESS) then Ok (OLAP_SUCCESS, row, flag, ci, stats)
  else if bool_decide (res = OLAP_ERR_DATA_EOF) then
    let ci := set_child_idx (Datatypes.S (_child_idx ci)) ci in
    if bool_decide (_child_idx ci < length (_children ci))%nat then
      let ci := set_cur_child (Some (_child_idx ci)) ci in
      '(row, flag') ← CollectIterator_current_row ci;
      Ok (OLAP_SUCCESS, row, default flag flag', ci, stats)
    else Ok (OLAP_ERR_DATA_EOF, row, flag, set_cur_child None ci, stats)
  else Ok (res, row, flag, ci, stats).

Definition CollectIterator_next (dh : DeleteHandler) (ci : CollectIterator)
    (stats : OlapReaderStatistics)
  : result (OLAPStatus * option Row * bool * CollectIterator * OlapReaderStatistics) :=
  if _merge ci then _merge_next dh ci stats else _normal_next dh ci stats.

(** [CollectIterator::clear]: the children are deleted with it. *)
Definition clear (ci : CollectIterator) : CollectIterator :=
  {| _merge := _merge ci; _heap := []; _children := []; _cur_child := None;
     _child_idx := 0%nat |}.

(** ** The Reader *)

Record KeysParam : Type := {
  range : string;
  end_range : string;
  start_keys : list Row;
  end_keys : list Row
}.

(** What [_unique_key_next_row] did with one key group: for every source
    row folded into it, in the order folded, the version and the delete
    flag of the segment it came from; the flag applied to the group
    ([cur_delete_flag]); the row handed out, if any; and the counter
    [rows_del_filtered] before and after the group was disposed of.
    These records are auxiliary: the Reader appends them and never reads
    them. *)
Record GroupRecord : Type := {
  g_members : list (Z * bool);
  g_flag : bool;
  g_emitted : option Row;
  g_filtered_before : Z;
  g_filtered_after : Z
}.

Record Reader : Type := {
  _olap_table : OLAPTable;
  _reader_type : ReaderType;
  _aggregation : bool;
  _return_columns : list Z;
  _key_cids : list Z;
  _value_cids : list Z;
  _load_bf_columns : gset Z;
  _conditions : Conditions;
  _col_predicates : list (ptr ColumnPredicate);
  _delete_handler : DeleteHandler;
  _own_data_sources : list ColumnData;
  _data_sources : list ColumnData;
  _keys_param : KeysParam;
  _next_key_index : nat;
  _collect_iter : ptr CollectIterator;
  _next_key : option Row;
  _next_delete_flag : bool;
  _merged_rows : Z;
  _stats : OlapReaderStatistics;
  _groups : list GroupRecord
}.

Definition with_return_columns (x : list Z) (r : Reader) : Reader :=
  {| _olap_table := _olap_table r; _reader_type := _reader_type r;
     _aggregation := _aggregation r; _return_columns := x; _key_cids := _key_cids r;
     _value_cids := _value_cids r; _load_bf_columns := _load_bf_columns r;
     _conditions := _conditions r; _col_predicates := _col_predicates r;
     _delete_handler := _delete_handler r; _own_data_sources := _own_data_sources r;
     _data_sources := _data_sources r; _keys_param := _keys_param r;
     _next_key_index := _next_key_index r; _collect_iter := _collect_iter r;
     _next_key := _next_key r; _next_delete_flag := _next_delete_flag r;
     _merged_rows := _merged_rows r; _stats := _stats r; _groups := _groups r |}.

Definition with_key_cids (x : list Z) (r : Reader) : Reader :=
  {| _olap_table := _olap_table r; _reader_type := _reader_type r;
     _aggregation := _aggregation r; _return_columns := _return_columns r;
     _key_cids := x; _value_cids := _value_cids r;
     _load_bf_columns := _load_bf_columns r; _conditions := _conditions r;
     _col_predicates := _col_predicates r; _delete_handler := _delete_handler r;
     _own_data_sources := _own_data_sources r; _data_sources := _data_sources r;
     _keys_param := _keys_param r; _next_key_index := _next_key_index r;
     _collect_iter := _collect_iter r; _next_key := _next_key r;
     _next_delete_flag := _next_delete_flag r; _merged_rows := _merged_rows r;
     _stats := _stats r; _groups := _groups r |}.

Definition with_value_cids (x : list Z) (r : Reader) : Reader :=
  {| _olap_table := _olap_table r; _reader_type := _reader_type r;
     _aggregation := _aggregation r; _return_columns := _return_columns r;
     _key_cids := _key_cids r; _value_cids := x;
     _load_bf_columns := _load_bf_columns r; _conditions := _conditions r;
     _col_predicates := _col_predicates r; _delete_handler := _delete_handler r;
     _own_data_sources := _own_data_sources r; _data_sources := _data_sources r;
     _keys_param := _keys_param r; _next_key_index := _next_key_index r;
     _collect_iter := _collect_iter r; _next_key := _next_key r;
     _next_delete_flag := _next_delete_flag r; _merged_rows := _merged_rows r;
     _stats := _stats r; _groups := _groups r |}.

Definition with_load_bf_columns (x : gset Z) (r : Reader) : Reader :=
  {| _olap_table := _olap_table r; _reader_type := _reader_type r;
     _aggregation := _aggregation r; _return_columns := _return_columns r;
     _key_cids := _key_cids r; _value_cids := _value_cids r; _load_bf_columns := x;
     _conditions := _conditions r; _col_predicates := _col_predicates r;
     _delete_handler := _delete_handler r; _own_data_sources := _own_data_sources r;
     _data_sources := _data_sources r; _keys_param := _keys_param r;
     _next_key_index := _next_key_index r; _collect_iter := _collect_iter r;
     _next_key := _next_key r; _next_delete_flag := _next_delete_flag r;
     _merged_rows := _merged_rows r; _stats := _stats r; _groups := _groups r |}.

Definition with_conditions (x : Conditions) (r : Reader) : Reader :=
  {| _olap_table := _olap_table r; _reader_type := _reader_type r;
     _aggregation := _aggregation r; _return_columns := _return_columns r;
     _key_cids := _key_cids r; _value_cids := _value_cids r;
     _load_bf_columns := _load_bf_columns r; _conditions := x;
     _col_predicates := _col_predicates r; _delete_handler := _delete_handler r;
     _own_data_sources := _own_data_sources r; _data_sources := _data_sources r;
     _keys_param := _keys_param r; _next_key_index := _next_key_index r;
     _collect_iter := _collect_iter r; _next_key := _next_key r;
     _next_delete_flag := _next_delete_flag r; _merged_rows := _merged_rows r;
     _stats := _stats r; _groups := _groups r |}.

Definition with_col_predicates (x : list (ptr ColumnPredicate)) (r : Reader) : Reader :=
  {| _olap_table := _olap_table r; _reader_type := _reader_type r;
     _aggregation := _aggregation r; _return_columns := _return_columns r;
     _key_cids := _key_cids r; _value_cids := _value_cids r;
     _load_bf_columns := _load_bf_columns r; _conditions := _conditions r;
     _col_predicates := x; _delete_handler := _delete_handler r;
     _own_data_sources := _own_data_sources r; _data_sources := _data_sources r;
     _keys_param := _keys_param r; _next_key_index := _next_key_index r;
     _collect_iter := _collect_iter r; _next_key := _next_key r;
     _next_delete_flag := _next_delete_flag r; _merged_rows := _merged_rows r;
     _stats := _stats r; _groups := _groups r |}.

Definition with_delete_handler (x : DeleteHandler) (r : Reader) : Reader :=
  {| _olap_table := _olap_table r; _reader_type := _reader_type r;
     _aggregation := _aggregation r; _return_columns := _return_columns r;
     _key_cids := _key_cids r; _value_cids := _value_cids r;
     _load_bf_columns := _load_bf_columns r; _conditions := _conditions r;
     _col_predicates := _col_predicates r; _delete_handler := x;
     _own_data_sources := _own_data_sources r; _data_sources := _data_sources r;
     _keys_param := _keys_param r; _next_key_index := _next_key_index r;
     _collect_iter := _collect_iter r; _next_key := _next_key r;
     _next_delete_flag := _next_delete_flag r; _merged_rows := _merged_rows r;
     _stats := _stats r; _groups := _groups r |}.

Definition with_own_data_sources (x : list ColumnData) (r : Reader) : Reader :=
  {| _olap_table := _olap_table r; _reader_type := _reader_type r;
     _aggregation := _aggregation r; _return_columns := _return_columns r;
     _key_cids := _key_cids r; _value_cids := _value_cids r;
     _load_bf_columns := _load_bf_columns r; _conditions := _conditions r;
     _col_predicates := _col_predicates r; _delete_handler := _delete_handler r;
     _own_data_sources := x; _data_sources := _data_sources r;
     _keys_param := _keys_param r; _next_key_index := _next_key_index r;
     _collect_iter := _collect_iter r; _next_key := _next_key r;
     _next_delete_flag := _next_delete_flag r; _merged_rows := _merged_rows r;
     _stats := _stats r; _groups := _groups r |}.

Definition with_next_key_index (x : nat) (r : Reader) : Reader :=
  {| _olap_table := _olap_table r; _reader_type := _reader_type r;
     _aggregation := _aggregation r; _return_columns := _return_columns r;
     _key_cids := _key_cids r; _value_cids := _value_cids r;
     _load_bf_columns := _load_bf_columns r; _conditions := _conditions r;
     _col_predicates := _col_predicates r; _delete_handler := _delete_handler r;
     _own_data_sources := _own_data_sources r; _data_sources := _data_sources r;
     _keys_param := _keys_param r; _next_key_index := x;
     _collect_iter := _collect_iter r; _next_key := _next_key r;
     _next_delete_flag := _next_delete_flag r; _merged_rows := _merged_rows r;
     _stats := _stats r; _groups := _groups r |}.

Definition with_collect_iter (x : ptr CollectIterator) (r : Reader) : Reader :=
  {| _olap_table := _olap_table r; _reader_type := _reader_type r;
     _aggregation := _aggregation r; _return_columns := _return_columns r;
     _key_cids := _key_cids r; _value_cids := _value_cids r;
     _load_bf_columns := _load_bf_columns r; _conditions := _conditions r;
     _col_predicates := _col_predicates r; _delete_handler := _delete_handler r;
     _own_data_sources := _own_data_sources r; _data_sources := _data_sources r;
     _keys_param := _keys_param r; _next_key_index := _next_key_index r;
     _collect_iter := x; _next_key := _next_key r;
     _next_delete_flag := _next_delete_flag r; _merged_rows := _merged_rows r;
     _stats := _stats r; _groups := _groups r |}.

Definition with_next_key (x : option Row) (r : Reader) : Reader :=
  {| _olap_table := _olap_table r; _reader_type := _reader_type r;
     _aggregation := _aggregation r; _return_columns := _return_columns r;
     _key_cids := _key_cids r; _value_cids := _value_cids r;
     _load_bf_columns := _load_bf_columns r; _conditions := _conditions r;
     _col_predicates := _col_predicates r; _delete_handler := _delete_handler r;
     _own_data_sources := _own_data_sources r; _data_sources := _data_sources r;
     _keys_param := _keys_param r; _next_key_index := _next_key_index r;
     _collect_iter := _collect_iter r; _next_key := x;
     _next_delete_flag := _next_delete_flag r; _merged_rows := _merged_rows r;
     _stats := _stats r; _groups := _groups r |}.

Definition with_next_delete_flag (x : bool) (r : Reader) : Reader :=
  {| _olap_table := _olap_table r; _reader_type := _reader_type r;
     _aggregation := _aggregation r; _return_columns := _return_columns r;
     _key_cids := _key_cids r; _value_cids := _value_cids r;
     _load_bf_columns := _load_bf_columns r; _conditions := _conditions r;
     _col_predicates := _col_predicates r; _delete_handler := _delete_handler r;
     _own_data_sources := _own_data_sources r; _data_sources := _data_sources r;
     _keys_param := _keys_param r; _next_key_index := _next_key_index r;
     _collect_iter := _collect_iter r; _next_key := _next_key r;
     _next_delete_flag := x; _merged_rows := _merged_rows r; _stats := _stats r;
     _groups := _groups r |}.

Definition with_merged_rows (x : Z) (r : Reader) : Reader :=
  {| _olap_table := _olap_table r; _reader_type := _reader_type r;
     _aggregation := _aggregation r; _return_columns := _return_columns r;
     _key_cids := _key_cids r; _value_cids := _value_cids r;
     _load_bf_columns := _load_bf_columns r; _conditions := _conditions r;
     _col_predicates := _col_predicates r; _delete_handler := _delete_handler r;
     _own_data_sources := _own_data_sources r; _data_sources := _data_sources r;
     _keys_param := _keys_param r; _next_key_index := _next_key_index r;
     _collect_iter := _collect_iter r; _next_key := _next_key r;
     _next_delete_flag := _next_delete_flag r; _merged_rows := x; _stats := _stats r;
     _groups := _groups r |}.

Definition with_stats (x : OlapReaderStatistics) (r : Reader) : Reader :=
  {| _olap_table := _olap_table r; _reader_type := _reader_type r;
     _aggregation := _aggregation r; _return_columns := _return_columns r;
     _key_cids := _key_cids r; _value_cids := _value_cids r;
     _load_bf_columns := _load_bf_columns r; _conditions := _conditions r;
     _col_predicates := _col_predicates r; _delete_handler := _delete_handler r;
     _own_data_sources := _own_data_sources r; _data_sources := _data_sources r;
     _keys_param := _keys_param r; _next_key_index := _next_key_index r;
     _collect_iter := _collect_iter r; _next_key := _next_key r;
     _next_delete_flag := _next_delete_flag r; _merged_rows := _merged_rows r;
     _stats := x; _groups := _groups r |}.

Definition with_groups (x : list GroupRecord) (r : Reader) : Reader :=
  {| _olap_table := _olap_table r; _reader_type := _reader_type r;
     _aggregation := _aggregation r; _return_columns := _return_columns r;
     _key_cids := _key_cids r; _value_cids := _value_cids r;
     _load_bf_columns := _load_bf_columns r; _conditions := _conditions r;
     _col_predicates := _col_predicates r; _delete_handler := _delete_handler r;
     _own_data_sources := _own_data_sources r; _data_sources := _data_sources r;
     _keys_param := _keys_param r; _next_key_index := _next_key_index r;
     _collect_iter := _collect_iter r; _next_key := _next_key r;
     _next_delete_flag := _next_delete_flag r; _merged_rows := _merged_rows r;
     _stats := _stats r; _groups := x |}.

(** [Reader::Reader()], for the table that [init] binds. *)
Definition Reader_new (table : OLAPTable) : Reader :=
  {| _olap_table := table; _reader_type := READER_QUERY; _aggregation := false;
     _return_columns := []; _key_cids := []; _value_cids := [];
     _load_bf_columns := ∅; _conditions := {| columns := [] |};
     _col_predicates := [];
     _delete_handler := {| del_conds := []; is_filter_data := fun _ _ => false |};
     _own_data_sources := []; _data_sources := [];
     _keys_param := {| range := ""; end_range := ""; start_keys := []; end_keys := [] |};
     _next_key_index := 0%nat; _collect_iter := nullptr; _next_key := None;
     _next_delete_flag := false; _merged_rows := 0;
     _stats := {| rows_stats_filtered := 0; rows_del_filtered := 0 |};
     _groups := [] |}.

(** [CollectIterator::init]. *)
Definition CollectIterator_init (r : Reader) (ci : CollectIterator) : CollectIterator :=
  if bool_decide (_reader_type r = READER_QUERY)
     && (_aggregation r || bool_decide (keys_type (_olap_table r) = DUP_KEYS))
  then set_merge false ci
  else ci.

(** *** _init_return_columns *)

Definition add_delete_cond_column (st : gset Z * list Z) (cond_column : Z * CondColumn)
  : gset Z * list Z :=
  let '(column_set, return_cols) := st in
  if bool_decide (to_uint32 cond_column.1 ∈ column_set) then st
  else ({[ to_uint32 cond_column.1 ]} ∪ column_set, return_cols ++ [to_uint32 cond_column.1]).

Definition add_delete_cond_columns (dh : DeleteHandler) (return_cols : list Z) : list Z :=
  (foldl (fun st conds => foldl add_delete_cond_column st (columns (del_cond conds)))
         (list_to_set return_cols, return_cols)
         (get_delete_conditions dh)).2.

Fixpoint classify_columns (schema : list FieldInfo) (ids : list Z)
    (key_cids value_cids : list Z) : result (list Z * list Z) :=
  match ids with
  | [] => Ok (key_cids, value_cids)
  | id :: rest =>
      fi ← schema_at schema id;
      if is_key fi then classify_columns schema rest (key_cids ++ [id]) value_cids
      else classify_columns schema rest key_cids (value_cids ++ [id])
  end.

Definition _init_return_columns (read_params : ReaderParams) (r : Reader)
  : result (OLAPStatus * Reader) :=
  let schema := tablet_schema (_olap_table r) in
  if bool_decide (reader_type read_params = READER_QUERY) then
    let cols := return_columns read_params in
    let cols :=
      if bool_decide (conditions_num (_delete_handler r) <> 0%nat) && aggregation read_params
      then add_delete_cond_columns (_delete_handler r) cols
      else cols in
    '(k, v) ← classify_columns schema (return_columns read_params) (_key_cids r) (_value_cids r);
    Ok (OLAP_SUCCESS,
        with_key_cids (sort_greater k) (with_value_cids v (with_return_columns cols r)))
  else if bool_decide (length (return_columns read_params) = 0%nat) then
    let all := seqZ 0 (Z.of_nat (length schema)) in
    '(k, v) ← classify_columns schema all (_key_cids r) (_value_cids r);
    Ok (OLAP_SUCCESS,
        with_key_cids (sort_greater k)
          (with_value_cids v (with_return_columns (_return_columns r ++ all) r)))
  else if bool_decide (reader_type read_params = READER_CHECKSUM) then
    '(k, v) ← classify_columns schema (return_columns read_params) (_key_cids r) (_value_cids r);
    Ok (OLAP_SUCCESS,
        with_key_cids (sort_greater k)
          (with_value_cids v (with_return_columns (return_columns read_params) r)))
  else Ok (OLAP_ERR_INPUT_PARAMETER_ERROR, r).

(** *** _init_load_bf_columns *)

Definition bf_add_condition_column (s : gset Z) (cond_column : Z * CondColumn) : gset Z :=
  foldl (fun s cond =>
           if bool_decide (op cond = OP_EQ)
              || (bool_decide (op cond = OP_IN)
                  && bool_decide (length (operand_set cond) < MAX_OP_IN_FIELD_NUM)%nat)
           then {[ to_uint32 cond_column.1 ]} ∪ s
           else s)
        s (conds cond_column.2).

(** The loop over the schema that erases the columns without a bloom
    filter stream; [i] is the index of the head of [schema]. *)
Fixpoint bf_remove_no_bf (i : Z) (schema : list FieldInfo) (s : gset Z) : gset Z :=
  match schema with
  | [] => s
  | fi :: rest =>
      bf_remove_no_bf (i + 1) rest (if is_bf_column fi then s else s ∖ {[ i ]})
  end.

Definition min_key_len (keys : list OlapTuple) (min_scan_key_len : Z) : Z :=
  foldl (fun m k => if Z.of_nat (length k) <? m then Z.of_nat (length k) else m)
        min_scan_key_len keys.

(** The inner loop over [j]: [todo] turns are left before
    [j < min_scan_key_len] fails. *)
Fixpoint equal_prefix (todo : nat) (j : Z) (s : OlapTuple) (ends : list OlapTuple) (i : nat)
  : result Z :=
  match todo with
  | O => Ok j
  | Datatypes.S todo' =>
      match ends !! i with
      | None => Fault OutOfBounds
      | Some e =>
          match s !! Z.to_nat j, e !! Z.to_nat j with
          | Some a, Some b =>
              if bool_decide (a <> b) then Ok j
              else equal_prefix todo' (j + 1) s ends i
          | _, _ => Fault OutOfBounds
          end
      end
  end.

Fixpoint max_equal_loop (i : nat) (starts ends : list OlapTuple) (min_scan_key_len : Z)
    (max_equal_index : Z) : result Z :=
  match starts with
  | [] => Ok max_equal_index
  | s :: rest =>
      j ← equal_prefix (Z.to_nat min_scan_key_len) 0 s ends i;
      max_equal_loop (Datatypes.S i) rest ends min_scan_key_len
        (if max_equal_index <? j - 1 then j - 1 else max_equal_index)
  end.

(** [max_equal_index] as computed by lines 1108-1133. *)
Definition max_equal_index_of (table : OLAPTable) (read_params : ReaderParams) : result Z :=
  let min_scan_key_len := Z.of_nat (length (tablet_schema table)) in
  let min_scan_key_len := min_key_len (start_key read_params) min_scan_key_len in
  let min_scan_key_len := min_key_len (end_key read_params) min_scan_key_len in
  max_equal_loop 0 (start_key read_params) (end_key read_params) min_scan_key_len (-1).

(** The set after the first two steps: the condition columns that carry a
    bloom filter. *)
Definition bf_candidates (r : Reader) : gset Z :=
  bf_remove_no_bf 0 (tablet_schema (_olap_table r))
    (foldl bf_add_condition_column (_load_bf_columns r) (columns (_conditions r))).

Definition bf_erase_below (max_equal_index : Z) (s : gset Z) : gset Z :=
  foldl (fun s i => s ∖ {[ i ]}) s (seqZ 0 max_equal_index).

(** The test that guards the last [erase]. *)
Definition bf_erase_max (table : OLAPTable) (max_equal_index : Z) : bool :=
  let type := get_field_type_by_index table max_equal_index in
  (bool_decide (type <> OLAP_FIELD_TYPE_VARCHAR) && bool_decide (type <> OLAP_FIELD_TYPE_HLL))
  || (max_equal_index + 1 >? num_short_key_fields table).

Definition _init_load_bf_columns (read_params : ReaderParams) (r : Reader)
  : result (OLAPStatus * Reader) :=
  let s := bf_candidates r in
  max_equal_index ← max_equal_index_of (_olap_table r) read_params;
  let s := bf_erase_below max_equal_index s in
  let s := if bf_erase_max (_olap_table r) max_equal_index
           then s ∖ {[ to_uint32 max_equal_index ]}
           else s in
  Ok (OLAP_SUCCESS, with_load_bf_columns s r).

(** *** close *)

(** Modelled from the spec: [release_data_sources([Segment])] of the table
    gives the acquired segments back; it is taken to leave the list empty,
    so that it can be repeated. *)
Definition release_data_sources (sources : list ColumnData) : list ColumnData := [].

Definition Reader_close (r : Reader) : result Reader :=
  let r := with_conditions (Conditions_finalize (_conditions r)) r in
  let r := with_delete_handler (DeleteHandler_finalize (_delete_handler r)) r in
  let r := with_own_data_sources (release_data_sources (_own_data_sources r)) r in
  preds ← delete_each (_col_predicates r);
  let r := with_col_predicates preds r in
  ci ← delete (_collect_iter r);
  Ok (with_collect_iter ci r).

(** [Reader::~Reader]. *)
Definition Reader_destroy (r : Reader) : result Reader := Reader_close r.

(** *** _attach_data_to_merge_set *)

(** What the first half of one turn of the driver's loop decides: return
    at once with a status and [eof], or read the range it resolved. *)
Inductive range_step : Type :=
| RangeReturn (res : OLAPStatus) (eof : bool)
| RangeScan (start_key end_key : option Row) (find_last_row end_key_find_last_row : bool).

(** Lines 683-743. *)
Definition attach_resolve_range (first : bool) (r : Reader) : result (range_step * Reader) :=
  let kp := _keys_param r in
  if bool_decide (0 < length (start_keys kp))%nat then
    if bool_decide (length (start_keys kp) <= _next_key_index r)%nat
    then Ok (RangeReturn OLAP_SUCCESS true, r)
    else
      let cur_key_index := _next_key_index r in
      let r := with_next_key_index (Datatypes.S cur_key_index) r in
      match start_keys kp !! cur_key_index with
      | None => Fault OutOfBounds
      | Some start_key =>
          e ← (if bool_decide (0%nat <> length (end_keys kp)) then
                 match end_keys kp !! cur_key_index with
                 | None => Fault OutOfBounds
                 | Some end_key =>
                     if bool_decide (end_range kp = "lt") then Ok (inl (Some end_key, false))
                     else if bool_decide (end_range kp = "le") then Ok (inl (Some end_key, true))
                     else Ok (inr OLAP_ERR_READER_GET_ITERATOR_ERROR)
                 end
               else Ok (inl (None, false)));
          match e with
          | inr res => Ok (RangeReturn res false, r)
          | inl (end_key, end_key_find_last_row) =>
              if bool_decide (range kp = "gt") then
                match end_key with
                | Some ek =>
                    if bool_decide (cmp start_key ek >= 0)
                    then Ok (RangeReturn OLAP_SUCCESS true, r)
                    else Ok (RangeScan (Some start_key) end_key true end_key_find_last_row, r)
                | None => Ok (RangeScan (Some start_key) end_key true end_key_find_last_row, r)
                end
              else if bool_decide (range kp = "ge") then
                match end_key with
                | Some ek =>
                    if bool_decide (cmp start_key ek > 0)
                    then Ok (RangeReturn OLAP_SUCCESS true, r)
                    else Ok (RangeScan (Some start_key) end_key false end_key_find_last_row, r)
                | None => Ok (RangeScan (Some start_key) end_key false end_key_find_last_row, r)
                end
              else if bool_decide (range kp = "eq") then
                Ok (RangeScan (Some start_key) (Some start_key) false true, r)
              else Ok (RangeReturn OLAP_ERR_READER_GET_ITERATOR_ERROR false, r)
          end
      end
  else if bool_decide (first = false) then Ok (RangeReturn OLAP_SUCCESS true, r)
  else Ok (RangeScan None None false false, r).

(** Lines 745-761, the loop over [_data_sources]. A status other than
    [OLAP_SUCCESS] is the one the function returns with. *)
Fixpoint attach_data_sources (dh : DeleteHandler) (sources : list ColumnData)
    (start_key : option Row) (find_last_row : bool)
    (end_key : option Row) (end_key_find_last_row : bool)
    (ci : CollectIterator) (stats : OlapReaderStatistics)
  : result (OLAPStatus * CollectIterator * OlapReaderStatistics) :=
  match sources with
  | [] => Ok (OLAP_SUCCESS, ci, stats)
  | data :: rest =>
      let '(res, block, data') :=
        prepare_block_read data start_key find_last_row end_key end_key_find_last_row in
      if bool_decide (res = OLAP_SUCCESS) then
        '(res, ci', stats') ← add_child dh ci data' block stats;
        if bool_decide (res <> OLAP_SUCCESS) && bool_decide (res <> OLAP_ERR_DATA_EOF)
        then Ok (res, ci', stats')
        else attach_data_sources dh rest start_key find_last_row end_key
               end_key_find_last_row ci' stats'
      else if bool_decide (res = OLAP_ERR_DATA_EOF) then
        attach_data_sources dh rest start_key find_last_row end_key
          end_key_find_last_row ci stats
      else Ok (res, ci, stats)
  end.

(** One turn of the do-while of [_attach_data_to_merge_set]; the state is
    [first] and the Reader, the function returns the status and [eof]. *)
Definition _attach_data_to_merge_set_body (st : bool * Reader)
  : result (ctrl (bool * Reader) (OLAPStatus * bool * Reader)) :=
  let '(first, r) := st in
  ci ← deref (_collect_iter r);
  let r := with_collect_iter (live (clear ci)) r in
  '(step, r) ← attach_resolve_range first r;
  match step with
  | RangeReturn res eof => Ok (Return (res, eof, r))
  | RangeScan start_key end_key find_last_row end_key_find_last_row =>
      ci ← deref (_collect_iter r);
      '(res, ci, stats) ← attach_data_sources (_delete_handler r) (_data_sources r)
                            start_key find_last_row end_key end_key_find_last_row
                            ci (_stats r);
      let r := with_stats stats (with_collect_iter (live ci) r) in
      if bool_decide (res <> OLAP_SUCCESS) then Ok (Return (res, false, r))
      else
        '(row, flag) ← CollectIterator_current_row ci;
        let r := with_next_delete_flag (default (_next_delete_flag r) flag)
                   (with_next_key row r) in
        match row with
        | Some _ => Ok (Break (first, r))
        | None => Ok (Continue (false, r))
        end
  end.

Definition _attach_data_to_merge_set (first : bool) (r : Reader)
  : result (OLAPStatus * bool * Reader) :=
  x ← loop fuel _attach_data_to_merge_set_body (first, r);
  match x with
  | inl (_, r') => Ok (OLAP_SUCCESS, false, r')
  | inr ret => Ok ret
  end.

(** *** Row production *)

(** [_collect_iter->next(&_next_key, &_next_delete_flag)]. *)
Definition Reader_collect_next (r : Reader) : result (OLAPStatus * Reader) :=
  ci ← deref (_collect_iter r);
  '(res, row, flag, ci, stats) ← CollectIterator_next (_delete_handler r) ci (_stats r);
  Ok (res, with_next_delete_flag flag
             (with_next_key row (with_stats stats (with_collect_iter (live ci) r)))).

(** The opening of the three row functions: with no [_next_key], attach
    the next scan range. [Some (res, eof)] is what the function returns
    with at once. *)
Definition Reader_rearm (r : Reader) : result (option (OLAPStatus * bool) * Reader) :=
  match _next_key r with
  | Some _ => Ok (None, r)
  | None =>
      '(res, eof, r) ← _attach_data_to_merge_set false r;
      if bool_decide (res <> OLAP_SUCCESS) then Ok (Some (res, eof), r)
      else if (eof : bool) then Ok (Some (OLAP_SUCCESS, true), r)
      else Ok (None, r)
  end.

Definition _dup_key_next_row (r : Reader) (row_cursor : Row)
  : result (OLAPStatus * bool * Row * Reader) :=
  '(ret, r) ← Reader_rearm r;
  match ret with
  | Some (res, eof) => Ok (res, eof, row_cursor, r)
  | None =>
      match _next_key r with
      | None => Fault NullDeref
      | Some next_key =>
          let row_cursor := copy_without_pool row_cursor next_key in
          '(res, r) ← Reader_collect_next r;
          if bool_decide (res <> OLAP_SUCCESS) && bool_decide (res <> OLAP_ERR_DATA_EOF)
          then Ok (res, false, row_cursor, r)
          else Ok (OLAP_SUCCESS, false, row_cursor, r)
      end
  end.

(** One turn of the do-while of [_agg_key_next_row]; the state is the
    output cursor, [merged_count] and the Reader. *)
Definition _agg_key_next_row_body (st : Row * Z * Reader)
  : result (ctrl (Row * Z * Reader) (OLAPStatus * bool * Row * Reader)) :=
  let '(row_cursor, merged_count, r) := st in
  '(res, r) ← Reader_collect_next r;
  if bool_decide (res <> OLAP_SUCCESS) then
    if bool_decide (res <> OLAP_ERR_DATA_EOF) then Ok (Return (res, false, row_cursor, r))
    else Ok (Break (row_cursor, merged_count, r))
  else if _aggregation r && (merged_count >? doris_scanner_row_num) then
    Ok (Break (row_cursor, merged_count, r))
  else
    match _next_key r with
    | None => Fault NullDeref
    | Some next_key =>
        if negb (equal (_key_cids r) row_cursor next_key)
        then Ok (Break (row_cursor, merged_count, r))
        else Ok (Continue (aggregate (_value_cids r) row_cursor next_key,
                           merged_count + 1, r))
    end.

Definition _agg_key_next_row (r : Reader) (row_cursor : Row)
  : result (OLAPStatus * bool * Row * Reader) :=
  '(ret, r) ← Reader_rearm r;
  match ret with
  | Some (res, eof) => Ok (res, eof, row_cursor, r)
  | None =>
      match _next_key r with
      | None => Fault NullDeref
      | Some next_key =>
          let row_cursor := agg_init row_cursor next_key in
          x ← loop fuel _agg_key_next_row_body (row_cursor, 0, r);
          match x with
          | inr ret => Ok ret
          | inl (row_cursor, merged_count, r) =>
              let r := with_merged_rows (_merged_rows r + merged_count) r in
              Ok (OLAP_SUCCESS, false, finalize_one_merge (_value_cids r) row_cursor, r)
          end
      end
  end.

(** The segment the head row of the iterator comes from: its version and
    its delete flag (for the group records only). *)
Definition head_source (r : Reader) : list (Z * bool) :=
  match _collect_iter r with
  | live ci =>
      match _cur_child ci with
      | Some i =>
          match _children ci !! i with
          | Some c => [(ChildCtx_version c, _is_delete c)]
          | None => []
          end
      | None => []
      end
  | _ => []
  end.

(** One turn of the inner while loop of [_unique_key_next_row]; the state
    is the output cursor, [cur_delete_flag], [merged_count], the members
    of the group so far and the Reader. *)
Definition _unique_key_merge_body (st : Row * bool * Z * list (Z * bool) * Reader)
  : result (ctrl (Row * bool * Z * list (Z * bool) * Reader)
                 (OLAPStatus * bool * Row * Reader)) :=
  let '(row_cursor, cur_delete_flag, merged_count, members, r) := st in
  match _next_key r with
  | None => Ok (Break st)
  | Some _ =>
      '(res, r) ← Reader_collect_next r;
      if bool_decide (res <> OLAP_SUCCESS) then
        if bool_decide (res <> OLAP_ERR_DATA_EOF) then Ok (Return (res, false, row_cursor, r))
        else Ok (Break (row_cursor, cur_delete_flag, merged_count, members, r))
      else if bool_decide (keys_type (_olap_table r) = DUP_KEYS)
              || (_aggregation r && (merged_count >? doris_scanner_row_num)) then
        Ok (Break (finalize_one_merge (_value_cids r) row_cursor,
                   cur_delete_flag, merged_count, members, r))
      else
        match _next_key r with
        | None => Fault NullDeref
        | Some next_key =>
            if negb (equal (_key_cids r) row_cursor next_key)
            then Ok (Break (finalize_one_merge (_value_cids r) row_cursor,
                            cur_delete_flag, merged_count, members, r))
            else Ok (Continue (aggregate (_value_cids r) row_cursor next_key,
                               _next_delete_flag r, merged_count + 1,
                               members ++ head_source r, r))
        end
  end.

(** One turn of the outer do-while of [_unique_key_next_row]. Its
    condition [cur_delete_flag] holds whenever it is reached. *)
Definition _unique_key_next_row_body (st : Row * Reader)
  : result (ctrl (Row * Reader) (OLAPStatus * bool * Row * Reader)) :=
  let '(row_cursor, r) := st in
  '(ret, r) ← Reader_rearm r;
  match ret with
  | Some (res, eof) => Ok (Return (res, eof, row_cursor, r))
  | None =>
      match _next_key r with
      | None => Fault NullDeref
      | Some next_key =>
          let cur_delete_flag := _next_delete_flag r in
          let row_cursor := agg_init row_cursor next_key in
          x ← loop fuel _unique_key_merge_body
                (row_cursor, cur_delete_flag, 0, head_source r, r);
          match x with
          | inr ret => Ok (Return ret)
          | inl (row_cursor, cur_delete_flag, merged_count, members, r) =>
              let r := with_merged_rows (_merged_rows r + merged_count) r in
              let before := rows_del_filtered (_stats r) in
              if negb cur_delete_flag then
                let g := {| g_members := members; g_flag := cur_delete_flag;
                            g_emitted := Some row_cursor;
                            g_filtered_before := before; g_filtered_after := before |} in
                Ok (Return (OLAP_SUCCESS, false, row_cursor, with_groups (_groups r ++ [g]) r))
              else
                let r := with_stats (incr_rows_del_filtered (_stats r)) r in
                let g := {| g_members := members; g_flag := cur_delete_flag;
                            g_emitted := None;
                            g_filtered_before := before;
                            g_filtered_after := rows_del_filtered (_stats r) |} in
                Ok (Continue (row_cursor, with_groups (_groups r ++ [g]) r))
          end
      end
  end.

Definition _unique_key_next_row (r : Reader) (row_cursor : Row)
  : result (OLAPStatus * bool * Row * Reader) :=
  x ← loop fuel _unique_key_next_row_body (row_cursor, r);
  match x with
  | inr ret => Ok ret
  | inl (row_cursor, r) => Ok (OLAP_SUCCESS, false, row_cursor, r)
  end.

(** [Reader::next_row_with_aggregation] calls the function that [init]
    bound to the keys type of the table. *)
Definition next_row_with_aggregation (r : Reader) (row_cursor : Row)
  : result (OLAPStatus * bool * Row * Reader) :=
  match keys_type (_olap_table r) with
  | DUP_KEYS => _dup_key_next_row r row_cursor
  | UNIQUE_KEYS => _unique_key_next_row r row_cursor
  | AGG_KEYS => _agg_key_next_row r row_cursor
  end.

(** The caller's loop: up to [n] calls on one output cursor, until [eof]
    or an error. The rows handed out are collected in order. *)
Fixpoint pull_rows (n : nat) (r : Reader) (row_cursor : Row)
  : result (list Row * OLAPStatus * Reader) :=
  match n with
  | O => Ok ([], OLAP_SUCCESS, r)
  | Datatypes.S n' =>
      '(res, eof, row_cursor, r) ← next_row_with_aggregation r row_cursor;
      if bool_decide (res <> OLAP_SUCCESS) then Ok ([], res, r)
      else if (eof : bool) then Ok ([], OLAP_SUCCESS, r)
      else
        '(out, res, r) ← pull_rows n' r row_cursor;
        Ok (row_cursor :: out, res, r)
  end.

(** A scan: the tail of [_init_params] and of [init] (a new
    CollectIterator, initialised, and the first scan range attached),
    then the caller's loop. *)
Definition scan (n : nat) (r : Reader) (row_cursor : Row)
  : result (list Row * OLAPStatus * Reader) :=
  let r := with_collect_iter (live (CollectIterator_init r CollectIterator_new)) r in
  '(res, eof, r) ← _attach_data_to_merge_set true r;
  if bool_decide (res <> OLAP_SUCCESS) then Ok ([], res, r)
  else pull_rows n r row_cursor.

End Model.

Arguments RowBlock Row : clear implicits.
Arguments ColumnData Row : clear implicits.
Arguments DeleteHandler Row : clear implicits.
Arguments ChildCtx Row : clear implicits.
Arguments CollectIterator Row : clear implicits.
Arguments KeysParam Row : clear implicits.
Arguments GroupRecord Row : clear implicits.
Arguments Reader Row : clear implicits.

(** ** A concrete row cursor

    Modelled from the spec: RowCursor is "a mutable row value bound to a
    schema projection" with a full-key compare, a per-projection equality
    and the aggregation methods. Here a row is the list of its field
    values by column id, the first [nkeys] columns are the key columns,
    every value column sums, and a scan key compares on the fields it
    has. It is the cursor of the examples below. *)

Fixpoint lex_cmp (a b : list Z) : Z :=
  match a, b with
  | x :: a', y :: b' =>
      if x <? y then -1 else if y <? x then 1 else lex_cmp a' b'
  | _, _ => 0
  end.

Definition field_sum (cids : list Z) (dst src : list Z) : list Z :=
  imap (fun i x => if bool_decide (Z.of_nat i ∈ cids) then x + default 0 (src !! i) else x) dst.

(** The key of a row: its first [nkeys] fields, a missing one read as 0. *)
Definition row_key (nkeys : nat) (row : list Z) : list Z :=
  List.map (fun i => default 0 (row !! i)) (seq 0 nkeys).

Definition ZRowOps (nkeys : nat) : RowCursorOps (list Z) :=
  {| full_key_cmp := fun a b => lex_cmp (row_key nkeys a) (row_key nkeys b);
     cmp := lex_cmp;
     equal := fun cids a b =>
       forallb (fun c => bool_decide (a !! Z.to_nat c = b !! Z.to_nat c)) cids;
     agg_init := fun dst src => src;
     aggregate := field_sum;
     finalize_one_merge := fun _ row => row;
     copy_without_pool := fun dst src => src |}.

(** ** Concrete tables, segments and readers of the examples *)

Definition ex_key_column : FieldInfo :=
  {| type := OLAP_FIELD_TYPE_INT; is_key := true; is_bf_column := false |}.

Definition ex_value_column : FieldInfo :=
  {| type := OLAP_FIELD_TYPE_INT; is_key := false; is_bf_column := false |}.

(** A table with the key column 0 and the value column 1. *)
Definition ex_table (kt : KeysType) : OLAPTable :=
  {| tablet_schema := [ex_key_column; ex_value_column];
     keys_type := kt; num_short_key_fields := 1;
     get_field_type_by_index := fun _ => OLAP_FIELD_TYPE_INT |}.

Definition ex_params (rt : ReaderType) (agg : bool) (cols : list Z) : ReaderParams :=
  {| reader_type := rt; aggregation := agg; return_columns := cols;
     start_key := []; end_key := [] |}.

(** A delete handler holding one delete condition, on column 1. *)
Definition ex_delete_handler : DeleteHandler (list Z) :=
  {| del_conds := [ {| filter_version := 3;
                       del_cond := {| columns := [(1, {| conds := [] |})] |} |} ];
     is_filter_data := fun _ _ => false |}.

Definition ex_reader_with_delete : Reader (list Z) :=
  with_delete_handler ex_delete_handler (Reader_new (ex_table AGG_KEYS)).

(** The table of the bloom-filter scenario: the key column 0 is a varchar
    column with a bloom filter and the only short-key column. *)
Definition ex_bf_table : OLAPTable :=
  {| tablet_schema :=
       [ {| type := OLAP_FIELD_TYPE_VARCHAR; is_key := true; is_bf_column := true |};
         ex_value_column ];
     keys_type := AGG_KEYS; num_short_key_fields := 1;
     get_field_type_by_index := fun i =>
       if bool_decide (i = 0) then OLAP_FIELD_TYPE_VARCHAR
       else if bool_decide (i = 1) then OLAP_FIELD_TYPE_INT
       else OLAP_FIELD_TYPE_UNKNOWN |}.

(** A Reader on it with the pushed condition [c0 = 'x']. *)
Definition ex_bf_reader : Reader (list Z) :=
  with_conditions
    {| columns := [(0, {| conds := [ {| op := OP_EQ; operand_set := ["x"%string] |} ] |})] |}
    (Reader_new ex_bf_table).

Definition ex_bf_params : ReaderParams :=
  {| reader_type := READER_QUERY; aggregation := false; return_columns := [0; 1];
     start_key := [["x"%string]]; end_key := [["x"%string]] |}.

(** A block and a segment of the examples. The segment keeps its rows in
    one block and answers a seek with the rows inside the key range
    (after [start_key] when [find_last_row], up to and with [end_key] when
    [end_key_find_last_row]), or with EOF when there is none. *)
Definition ex_block (l : list (list Z)) : RowBlock (list Z) :=
  {| rows := l; pos := 0%nat; block_status := DEL_NOT_SATISFIED |}.

Definition ex_in_range (start_key : option (list Z)) (find_last_row : bool)
    (end_key : option (list Z)) (end_key_find_last_row : bool) (row : list Z) : bool :=
  match start_key with
  | Some k => if find_last_row then 0 <? lex_cmp row k else 0 <=? lex_cmp row k
  | None => true
  end
  && match end_key with
     | Some k => if end_key_find_last_row then lex_cmp row k <=? 0 else lex_cmp row k <? 0
     | None => true
     end.

Definition ex_segment (v : Z) (del : bool) (l : list (list Z)) : ColumnData (list Z) :=
  {| version := (v, v); delete_flag := del; row_cursor_init := OLAP_SUCCESS;
     seek := fun start_key find_last_row end_key end_key_find_last_row =>
       match List.filter (ex_in_range start_key find_last_row end_key end_key_find_last_row) l with
       | [] => (OLAP_ERR_DATA_EOF, None, [])
       | found => (OLAP_SUCCESS, Some (ex_block found), [])
       end;
     next_blocks := [] |}.

Definition ex_keys (range end_range : string) (starts ends : list (list Z))
  : KeysParam (list Z) :=
  {| range := range; end_range := end_range; start_keys := starts; end_keys := ends |}.

(** A Reader as [_init_params] and [_acquire_data_sources] leave it, for
    the table [ex_table]: both columns are returned. *)
Definition ex_reader (kt : KeysType) (rt : ReaderType) (agg : bool)
    (kp : KeysParam (list Z)) (sources : list (ColumnData (list Z))) : Reader (list Z) :=
  {| _olap_table := ex_table kt; _reader_type := rt; _aggregation := agg;
     _return_columns := [0; 1]; _key_cids := [0]; _value_cids := [1];
     _load_bf_columns := ∅; _conditions := {| columns := [] |};
     _col_predicates := [];
     _delete_handler := {| del_conds := []; is_filter_data := fun _ _ => false |};
     _own_data_sources := sources; _data_sources := sources;
     _keys_param := kp;
     _next_key_index := 0%nat; _collect_iter := nullptr; _next_key := None;
     _next_delete_flag := false; _merged_rows := 0;
     _stats := {| rows_stats_filtered := 0; rows_del_filtered := 0 |};
     _groups := [] |}.

Definition ex_no_keys : KeysParam (list Z) := ex_keys "" "" [] [].

(** The scans of the examples: the cursor [ZRowOps 1], the row limit
    16384 of the configuration, loops bounded by 64. *)
Definition ex_scan (n : nat) (r : Reader (list Z))
  : result (list (list Z) * OLAPStatus * Reader (list Z)) :=
  @scan (list Z) (ZRowOps 1) 16384 64 n r [].

(** A Reader that was initialised for a query with one pushed predicate:
    it owns one ColumnPredicate and its CollectIterator. *)
Definition ex_open_reader : Reader (list Z) :=
  with_collect_iter (live CollectIterator_new)
    (with_col_predicates [live {| column_id := 0 |}]
       (ex_reader DUP_KEYS READER_QUERY false ex_no_keys [ex_segment 5 false [[1; 10]]])).

(** A Reader in the middle of a scan of two key ranges with only one end
    key: the first range is done. *)
Definition ex_short_end_keys_reader : Reader (list Z) :=
  with_next_key_index 1
    (with_collect_iter (live CollectIterator_new)
       (ex_reader AGG_KEYS READER_QUERY false
          (ex_keys "ge" "le" [[1]; [3]] [[2]])
          [ex_segment 5 false [[1; 10]; [3; 30]]])).

(** A Reader about to resolve a range whose start key lies after its end
    key. *)
Definition ex_crossed_range_reader (range : string) (start_key end_key : list Z)
  : Reader (list Z) :=
  with_collect_iter (live CollectIterator_new)
    (ex_reader AGG_KEYS READER_QUERY false
       (ex_keys range "le" [start_key] [end_key])
       [ex_segment 5 false [[1; 10]; [3; 30]]]).

(** The unique-keys scenario of the specification: the segment of
    version 5 holds the keys 1 and 2, the segment of version 7 is
    delete-marked and holds the key 1. *)
Definition ex_tombstone_reader : Reader (list Z) :=
  ex_reader UNIQUE_KEYS READER_QUERY false (ex_keys "ge" "le" [[1]] [[2]])
    [ex_segment 5 false [[1; 10]; [2; 20]]; ex_segment 7 true [[1; 0]]].

(** A table with the key columns 0 and 1 and the value column 2, and a
    query on it that returns the columns 0 and 2 only: [_key_cids] is
    [[0]]. The delete-marked segment of version 7 holds the key (1, 1),
    the segment of version 5 the key (1, 2). *)
Definition ex_two_key_table : OLAPTable :=
  {| tablet_schema := [ex_key_column; ex_key_column; ex_value_column];
     keys_type := UNIQUE_KEYS; num_short_key_fields := 2;
     get_field_type_by_index := fun _ => OLAP_FIELD_TYPE_INT |}.

Definition ex_partial_key_reader : Reader (list Z) :=
  {| _olap_table := ex_two_key_table; _reader_type := READER_QUERY; _aggregation := false;
     _return_columns := [0; 2]; _key_cids := [0]; _value_cids := [2];
     _load_bf_columns := ∅; _conditions := {| columns := [] |};
     _col_predicates := [];
     _delete_handler := {| del_conds := []; is_filter_data := fun _ _ => false |};
     _own_data_sources := []; 
     _data_sources := [ex_segment 5 false [[1; 2; 10]]; ex_segment 7 true [[1; 1; 0]]];
     _keys_param := ex_no_keys;
     _next_key_index := 0%nat; _collect_iter := nullptr; _next_key := None;
     _next_delete_flag := false; _merged_rows := 0;
     _stats := {| rows_stats_filtered := 0; rows_del_filtered := 0 |};
     _groups := [] |}.

(** A query with aggregation (concat mode) on the unique-keys table
    [ex_table], over the delete-marked segment of version 7 followed by
    the segment of version 5, both with the key 1. *)
Definition ex_concat_unique_reader : Reader (list Z) :=
  ex_reader UNIQUE_KEYS READER_QUERY true ex_no_keys
    [ex_segment 7 true [[1; 0]]; ex_segment 5 false [[1; 10]]].

(** Aggregate-keys scans that are not in key order. A query with
    aggregation (concat mode) over a segment with the key 2 followed by a
    segment with the key 1; a merge-mode scan of the two ranges [eq 2] and
    [eq 1]; and a query with aggregation over four segments with the key
    1 under a row limit of 1. *)
Definition ex_concat_agg_reader : Reader (list Z) :=
  ex_reader AGG_KEYS READER_QUERY true ex_no_keys
    [ex_segment 5 false [[2; 1]]; ex_segment 7 false [[1; 4]]].

Definition ex_two_ranges_reader : Reader (list Z) :=
  ex_reader AGG_KEYS READER_QUERY false (ex_keys "eq" "" [[2]; [1]] [])
    [ex_segment 5 false [[1; 10]; [2; 20]]].

Definition ex_row_limit_reader : Reader (list Z) :=
  ex_reader AGG_KEYS READER_QUERY true ex_no_keys
    [ex_segment 1 false [[1; 1]]; ex_segment 2 false [[1; 2]];
     ex_segment 3 false [[1; 4]]; ex_segment 4 false [[1; 8]]].

(** The aggregate-keys scenario of the specification: the value column
    sums, the key 1 is in two segments. *)
Definition ex_agg_sum_reader : Reader (list Z) :=
  ex_reader AGG_KEYS READER_QUERY false ex_no_keys
    [ex_segment 5 false [[1; 1]; [2; 2]]; ex_segment 7 false [[1; 4]; [3; 3]]].

(** ** Notions the properties are stated with *)

Definition valid_column (schema : list FieldInfo) (id : Z) : Prop :=
  0 <= id < Z.of_nat (length schema).

Definition key_column (schema : list FieldInfo) (id : Z) : bool :=
  match schema_at schema id with
  | Ok fi => is_key fi
  | _ => false
  end.

(** The guard of the last [erase] of [_init_load_bf_columns], as a
    proposition. *)
Definition erase_condition (table : OLAPTable) (max_equal_index : Z) : Prop :=
  (get_field_type_by_index table max_equal_index <> OLAP_FIELD_TYPE_VARCHAR /\
   get_field_type_by_index table max_equal_index <> OLAP_FIELD_TYPE_HLL)
  \/ max_equal_index + 1 > num_short_key_fields table.

(** The input contract of KeysParam: as many end keys as start keys, or
    no end key at all. *)
Definition keys_contract {Row : Type} (kp : KeysParam Row) : Prop :=
  length (end_keys kp) = length (start_keys kp) \/ end_keys kp = [].

(** What the read path relies on in a row cursor: [full_key_cmp] is the
    three-way comparison of a total preorder, the aggregation methods
    leave the key of the cursor they write to as it is, and [agg_init]
    gives it the key of the source row. [key_cids] and [value_cids] are
    the column lists the Reader passes to them. *)
Class RowCursorLaws {Row : Type} (ops : RowCursorOps Row) (key_cids value_cids : list Z)
  : Prop := {
  full_key_cmp_antisym : forall a b, full_key_cmp a b < 0 <-> full_key_cmp b a > 0;
  full_key_cmp_trans : forall a b c,
    full_key_cmp a b <= 0 -> full_key_cmp b c <= 0 -> full_key_cmp a c <= 0;
  agg_init_key : forall d s, full_key_cmp (agg_init d s) s = 0;
  aggregate_key : forall d s, full_key_cmp (aggregate value_cids d s) d = 0;
  finalize_key : forall d, full_key_cmp (finalize_one_merge value_cids d) d = 0;
  equal_agg_init : forall a d s, equal key_cids a (agg_init d s) = equal key_cids a s;
  equal_aggregate : forall a d s,
    equal key_cids a (aggregate value_cids d s) = equal key_cids a d;
  equal_finalize_l : forall a b,
    equal key_cids (finalize_one_merge value_cids a) b = equal key_cids a b;
  equal_finalize_r : forall a b,
    equal key_cids a (finalize_one_merge value_cids b) = equal key_cids a b
}.

(** Equality on [key_cids] is equality of the full key: the return
    columns hold every key column. *)
Definition key_cids_cover {Row : Type} (ops : RowCursorOps Row) (key_cids : list Z) : Prop :=
  forall a b, equal key_cids a b = true -> full_key_cmp a b = 0.

(** Rows in non-descending full-key order. *)
Definition ascending {Row : Type} {ops : RowCursorOps Row} (l : list Row) : Prop :=
  forall (i j : nat) (a b : Row),
    (i < j)%nat -> l !! i = Some a -> l !! j = Some b -> full_key_cmp a b <= 0.

(** The rows a block still holds, from its read position on. *)
Definition block_rows {Row : Type} (b : option (RowBlock Row)) : list Row :=
  match b with
  | Some b => drop (pos b) (rows b)
  | None => []
  end.

Definition script_rows {Row : Type} (later : list (OLAPStatus * option (RowBlock Row)))
  : list Row :=
  flat_map (fun x => block_rows x.2) later.

(** A segment is sorted when the rows it answers a seek with, block after
    block, are in non-descending full-key order, whatever the range. *)
Definition sorted_segment {Row : Type} {ops : RowCursorOps Row} (d : ColumnData Row) : Prop :=
  forall start_key find_last_row end_key end_key_find_last_row,
    ascending (block_rows (seek d start_key find_last_row end_key end_key_find_last_row).1.2
               ++ script_rows (seek d start_key find_last_row end_key end_key_find_last_row).2).

(** The record of a key group is right when the flag applied is the
    delete flag of the member folded last, no member has a newer version
    than that one, and the group was dropped and counted exactly when the
    flag is set. *)
Definition group_newest_flag {Row : Type} (g : GroupRecord Row) : Prop :=
  exists v, list.last (g_members g) = Some (v, g_flag g) /\
            Forall (fun m => m.1 <= v) (g_members g).

Definition group_dropped_iff_flag {Row : Type} (g : GroupRecord Row) : Prop :=
  (g_flag g = true -> g_emitted g = None /\ g_filtered_after g = g_filtered_before g + 1) /\
  (g_flag g = false -> is_Some (g_emitted g) /\ g_filtered_after g = g_filtered_before g).

(** Consecutive rows in non-descending full-key order, and consecutive
    rows that differ on [key_cids]. *)
Fixpoint keys_non_descending {Row : Type} {ops : RowCursorOps Row} (l : list Row) : Prop :=
  match l with
  | a :: (b :: _) as rest => full_key_cmp a b <= 0 /\ keys_non_descending rest
  | _ => True
  end.

Fixpoint keys_change {Row : Type} {ops : RowCursorOps Row} (key_cids : list Z) (l : list Row)
  : Prop :=
  match l with
  | a :: (b :: _) as rest => equal key_cids a b = false /\ keys_change key_cids rest
  | _ => True
  end.

(** *** The invariants of the merge *)

(** The order of the merge heap: by full key, and by version among rows
    with the same key. *)
Definition entry_le {Row : Type} {ops : RowCursorOps Row} (a b : Row * Z) : Prop :=
  full_key_cmp a.1 b.1 < 0 \/ (full_key_cmp a.1 b.1 = 0 /\ a.2 <= b.2).

(** The current row of the child a pointer leads to, with its version. *)
Definition child_entry {Row : Type} (children : list (ChildCtx Row)) (i : nat)
  : option (Row * Z) :=
  match children !! i with
  | Some c =>
      match _current_row c with
      | Some row => Some (row, ChildCtx_version c)
      | None => None
      end
  | None => None
  end.

(** The rows a cursor has still to hand out, the current one first. *)
Definition child_rows {Row : Type} (c : ChildCtx Row) : list Row :=
  block_rows (_row_block c) ++ script_rows (next_blocks (_data c)).

(** A cursor in the heap stands on the row at the read position of its
    block, and what it has still to hand out is in order. *)
Definition child_ok {Row : Type} {ops : RowCursorOps Row} (c : ChildCtx Row) : Prop :=
  (exists b row, _row_block c = Some b /\ rows b !! pos b = Some row /\
                 _current_row c = Some row) /\
  _is_delete c = delete_flag (_data c) /\
  ascending (child_rows c).

(** The iterator in merge mode: the heap holds distinct live cursors, and
    [_cur_child] is its top. *)
Definition merge_ok {Row : Type} {ops : RowCursorOps Row} (ci : CollectIterator Row) : Prop :=
  _merge ci = true /\ NoDup (_heap ci) /\
  (forall i, i ∈ _heap ci -> exists c, _children ci !! i = Some c /\ child_ok c) /\
  match _heap ci with
  | [] => _cur_child ci = None
  | _ => exists t, heap_top (_children ci) (_heap ci) = Ok t /\ _cur_child ci = Some t
  end.

(** What a cursor keeps through [_refresh_current_row]: the version and
    the delete flag of its segment. *)
Definition same_segment {Row : Type} (c c' : ChildCtx Row) : Prop :=
  _is_delete c' = _is_delete c /\
  delete_flag (_data c') = delete_flag (_data c) /\
  version (_data c') = version (_data c).

(** The row and the delete flag the Reader holds for the head of the
    iterator ([_next_key] and [_next_delete_flag]) are those of the cursor
    [_cur_child] points to; without such a cursor there is no row. *)
Definition head_is {Row : Type} (ci : CollectIterator Row) (row : option Row) (flag : bool)
  : Prop :=
  match _cur_child ci with
  | Some t => exists c, _children ci !! t = Some c /\ row = _current_row c /\
                        flag = _is_delete c
  | None => row = None
  end.

(** What a scan never changes in a Reader. *)
Definition same_config {Row : Type} (r r' : Reader Row) : Prop :=
  _olap_table r' = _olap_table r /\ _reader_type r' = _reader_type r /\
  _aggregation r' = _aggregation r /\
  _key_cids r' = _key_cids r /\ _value_cids r' = _value_cids r /\
  _delete_handler r' = _delete_handler r /\ _data_sources r' = _data_sources r /\
  _keys_param r' = _keys_param r.

(** The Reader between two calls in merge mode: its iterator is a sound
    merge heap and [_next_key], [_next_delete_flag] are the head of it. *)
Definition reader_merge_ok {Row : Type} {ops : RowCursorOps Row} (r : Reader Row) : Prop :=
  exists ci, _collect_iter r = live ci /\ merge_ok ci /\
             head_is ci (_next_key r) (_next_delete_flag r).

(** No scan range is left. *)
Definition ranges_done {Row : Type} (r : Reader Row) : Prop :=
  (length (start_keys (_keys_param r)) <= _next_key_index r)%nat.

(** The head of the Reader's iterator: its current row and the version of
    the segment it comes from. *)
Definition head_entry {Row : Type} (r : Reader Row) : option (Row * Z) :=
  match _collect_iter r with
  | live ci =>
      match _cur_child ci with
      | Some t => child_entry (_children ci) t
      | None => None
      end
  | _ => None
  end.

(** The inner loop of [_unique_key_next_row] in merge mode, at the start
    of a turn: the member folded last is the head of the iterator, it has
    the flag held for the group, the output cursor has its key, and no
    member is newer than it. [r0] is the Reader the loop started with. *)
Definition folding {Row : Type} {ops : RowCursorOps Row} (r0 : Reader Row)
    (st : Row * bool * Z * list (Z * bool) * Reader Row) : Prop :=
  let '(acc, cdf, mc, members, r) := st in
  same_config r0 r /\ _groups r = _groups r0 /\ reader_merge_ok r /\
  exists row v ms,
    _next_key r = Some row /\ head_entry r = Some (row, v) /\
    full_key_cmp acc row = 0 /\
    members = ms ++ [(v, cdf)] /\ Forall (fun m => m.1 <= v) members.

(** The same loop when it is left. *)
Definition folded {Row : Type} {ops : RowCursorOps Row} (r0 : Reader Row)
    (st : Row * bool * Z * list (Z * bool) * Reader Row) : Prop :=
  let '(acc, cdf, mc, members, r) := st in
  same_config r0 r /\ _groups r = _groups r0 /\ reader_merge_ok r /\
  exists v ms, members = ms ++ [(v, cdf)] /\ Forall (fun m => m.1 <= v) members.

(** The loop of [_agg_key_next_row] in merge mode, at the start of a
    turn: the output cursor has the key of the row the group started
    with ([first]), and the head of the iterator does not come before
    that row. [r0] is the Reader the loop started with. *)
Definition agg_folding {Row : Type} {ops : RowCursorOps Row} (key_cids : list Z)
    (r0 : Reader Row) (first : Row) (st : Row * Z * Reader Row) : Prop :=
  let '(acc, mc, r) := st in
  same_config r0 r /\ _next_key_index r = _next_key_index r0 /\ reader_merge_ok r /\
  full_key_cmp acc first = 0 /\
  (forall a, equal key_cids a acc = equal key_cids a first) /\
  exists row v, _next_key r = Some row /\ head_entry r = Some (row, v) /\
                full_key_cmp first row <= 0.

(** The same loop when it is left: a head row that is left does not come
    before the group and, unless the row limit cut the group, differs
    from it on [key_cids]. *)
Definition agg_folded {Row : Type} {ops : RowCursorOps Row} (key_cids : list Z)
    (r0 : Reader Row) (first : Row) (st : Row * Z * Reader Row) : Prop :=
  let '(acc, mc, r) := st in
  same_config r0 r /\ _next_key_index r = _next_key_index r0 /\ reader_merge_ok r /\
  full_key_cmp acc first = 0 /\
  (forall a, equal key_cids a acc = equal key_cids a first) /\
  forall row, _next_key r = Some row ->
    full_key_cmp first row <= 0 /\
    (_aggregation r0 = false -> equal key_cids acc row = false).

(** The row handed out last, if any, before a list of rows. *)
Definition after_previous {Row : Type} (prev : option Row) (out : list Row) : list Row :=
  match prev with
  | Some p => p :: out
  | None => out
  end.

(** *** What a scan has still to do *)

(** The turns [_refresh_current_row] can still take on a cursor: one for
    every row left in its block and, for every block still to come, one
    to fetch it and one for every row it holds. *)
Definition script_work {Row : Type} (later : list (OLAPStatus * option (RowBlock Row)))
  : nat :=
  sum_list_with (fun x => Datatypes.S (length (block_rows x.2))) later.

Definition child_work {Row : Type} (c : ChildCtx Row) : nat :=
  (length (block_rows (_row_block c)) + script_work (next_blocks (_data c)))%nat.

(** The same for the cursors in the heap of the iterator, and for the
    iterator of a Reader. *)
Definition work_at {Row : Type} (children : list (ChildCtx Row)) (i : nat) : nat :=
  match children !! i with
  | Some c => child_work c
  | None => 0%nat
  end.

Definition heap_work {Row : Type} (ci : CollectIterator Row) : nat :=
  sum_list_with (work_at (_children ci)) (_heap ci).

Definition reader_work {Row : Type} (r : Reader Row) : nat :=
  match _collect_iter r with
  | live ci => heap_work ci
  | _ => 0%nat
  end.

(** The scan ranges still to read. *)
Definition ranges_left {Row : Type} (r : Reader Row) : nat :=
  (length (start_keys (_keys_param r)) - _next_key_index r)%nat.

(** A segment that answers a seek with [OLAP_SUCCESS] gives a block. *)
Definition seek_gives_block {Row : Type} (d : ColumnData Row) : Prop :=
  forall start_key find_last_row end_key end_key_find_last_row,
    (seek d start_key find_last_row end_key end_key_find_last_row).1.1 = OLAP_SUCCESS ->
    is_Some (seek d start_key find_last_row end_key end_key_find_last_row).1.2.

(** A Reader in merge mode between two calls, on input that keeps the
    contracts: the iterator is a sound merge heap, the scan keys keep
    their contract, the segments are sorted and give a block when a seek
    succeeds. *)
Definition scan_ready {Row : Type} {ops : RowCursorOps Row} (r : Reader Row) : Prop :=
  reader_merge_ok r /\ keys_contract (_keys_param r) /\
  Forall sorted_segment (_data_sources r) /\
  Forall seek_gives_block (_data_sources r).

(** The inner loop of [_unique_key_next_row] in merge mode, as far as
    the work left is concerned: the loop has not moved the iterator yet,
    or there is less to do than when it started with the Reader [r1]. *)
Definition merging {Row : Type} {ops : RowCursorOps Row} (r1 : Reader Row)
    (st : Row * bool * Z * list (Z * bool) * Reader Row) : Prop :=
  same_config r1 st.2 /\ _next_key_index st.2 = _next_key_index r1 /\
  reader_merge_ok st.2 /\
  (st.2 = r1 \/ (reader_work st.2 < reader_work r1)%nat).

(** ** The initialisation steps beside the read path *)

(** The methods of RowCursor that the initialisation calls on a scan key
    (row_cursor.cpp is not part of reader.cpp). [RowCursor_new] is the
    cursor that [RowCursor()] builds; [init_scan_key] and [from_tuple]
    write to the cursor they are called on and answer a status. *)
Class ScanKeyOps (Row : Type) : Type := {
  RowCursor_new : Row;
  field_count : Row -> Z;
  init_scan_key : list FieldInfo -> OlapTuple -> Row -> OLAPStatus * Row;
  from_tuple : OlapTuple -> Row -> OLAPStatus * Row
}.

(** The methods of ColumnData and of OLAPTable that
    [_acquire_data_sources] calls (column_data.cpp and olap_table.cpp are
    not part of reader.cpp). A setter returns the segment it was called
    on; [acquire_data_sources] returns the vector it was given, with what
    the table added for the version. *)
Class SegmentOps (Row : Type) : Type := {
  acquire_data_sources :
    OLAPTable -> Z * Z -> list (ColumnData Row) -> list (ColumnData Row);
  is_empty : ColumnData Row -> bool;
  zero_num_rows : ColumnData Row -> bool;
  num_rows : ColumnData Row -> Z;
  set_delete_handler : DeleteHandler Row -> ColumnData Row -> ColumnData Row;
  set_read_params :
    list Z -> list Z -> gset Z -> Conditions -> list (ptr ColumnPredicate) -> bool ->
    ColumnData Row -> ColumnData Row;
  delta_pruning_filter : ColumnData Row -> bool;
  delete_pruning_filter : ColumnData Row -> DelCondSatisfied;
  set_delete_status : DelCondSatisfied -> ColumnData Row -> ColumnData Row
}.

Section ModelInit.

Context {Row : Type} {key_ops : ScanKeyOps Row} {seg_ops : SegmentOps Row}.

Definition with_data_sources (x : list (ColumnData Row)) (r : Reader Row) : Reader Row :=
  {| _olap_table := _olap_table r; _reader_type := _reader_type r;
     _aggregation := _aggregation r; _return_columns := _return_columns r;
     _key_cids := _key_cids r; _value_cids := _value_cids r;
     _load_bf_columns := _load_bf_columns r; _conditions := _conditions r;
     _col_predicates := _col_predicates r; _delete_handler := _delete_handler r;
     _own_data_sources := _own_data_sources r; _data_sources := x;
     _keys_param := _keys_param r; _next_key_index := _next_key_index r;
     _collect_iter := _collect_iter r; _next_key := _next_key r;
     _next_delete_flag := _next_delete_flag r; _merged_rows := _merged_rows r;
     _stats := _stats r; _groups := _groups r |}.

(** *** _init_seek_columns *)

(** One of the two loops over the scan keys; [max_key_column_count] is a
    [uint32_t]. *)
Definition max_field_count (keys : list Row) (max_key_column_count : Z) : Z :=
  foldl (fun m key => if field_count key >? m then to_uint32 (field_count key) else m)
        max_key_column_count keys.

(** [column_set] of [_init_seek_columns]: the return columns and the
    columns with a condition. *)
Definition seek_column_set (r : Reader Row) : gset Z :=
  foldl (fun s (it : Z * CondColumn) => {[ to_uint32 it.1 ]} ∪ s)
        (list_to_set (_return_columns r)) (columns (_conditions r)).

(** [_seek_columns] is the member of the Reader that the function appends
    to; it is passed in and returned. *)
Definition _init_seek_columns (r : Reader Row) (_seek_columns : list Z)
  : OLAPStatus * list Z :=
  let column_set := seek_column_set r in
  let max_key_column_count := 0 in
  let max_key_column_count :=
    max_field_count (start_keys (_keys_param r)) max_key_column_count in
  let max_key_column_count :=
    max_field_count (end_keys (_keys_param r)) max_key_column_count in
  (OLAP_SUCCESS,
   foldl (fun sc i =>
            if (i <? max_key_column_count) || bool_decide (i ∈ column_set)
            then sc ++ [i] else sc)
         _seek_columns
         (seqZ 0 (Z.of_nat (length (tablet_schema (_olap_table r)))))).

(** *** _init_keys_param *)

(** KeysParam while [_init_keys_param] fills it: the two vectors hold
    pointers, NULL where no cursor has been allocated. [KeysParam] is the
    same struct with every pointer followed. *)
Record KeysParamPtrs : Type := {
  ptrs_range : string;
  ptrs_end_range : string;
  ptrs_start_keys : list (ptr Row);
  ptrs_end_keys : list (ptr Row)
}.

(** [new(nothrow) RowCursor()]. The allocator is the list of the answers
    it is going to give, [true] for a cursor and [false] for NULL; at its
    end there is no memory left. *)
Definition new_RowCursor (heap : list bool) : ptr Row * list bool :=
  match heap with
  | true :: heap' => (live RowCursor_new, heap')
  | false :: heap' => (nullptr, heap')
  | [] => (nullptr, [])
  end.

(** [std::vector::resize(n, x)]. *)
Definition resize {A : Type} (n : nat) (x : A) (l : list A) : list A :=
  take n l ++ replicate (n - length l) x.

(** One of the two loops over [i]: [tuples] are the scan keys from index
    [i] on, [keys] is the vector written to. *)
Fixpoint init_scan_keys (schema : list FieldInfo) (tuples : list OlapTuple) (i : nat)
    (keys : list (ptr Row)) (heap : list bool)
  : OLAPStatus * list (ptr Row) * list bool :=
  match tuples with
  | [] => (OLAP_SUCCESS, keys, heap)
  | t :: rest =>
      let '(p, heap) := new_RowCursor heap in
      match p with
      | live k =>
          let '(res, k) := init_scan_key schema t k in
          if bool_decide (res <> OLAP_SUCCESS) then (res, <[i := live k]> keys, heap)
          else
            let '(res, k) := from_tuple t k in
            if bool_decide (res <> OLAP_SUCCESS) then (res, <[i := live k]> keys, heap)
            else init_scan_keys schema rest (S i) (<[i := live k]> keys) heap
      | _ => (OLAP_ERR_MALLOC_ERROR, <[i := p]> keys, heap)
      end
  end.

(** [range] and [end_range] are the members of ReaderParams of these
    names. The function returns its status, the new [_next_key_index], the
    new [_keys_param] and the allocator. *)
Definition _init_keys_param (read_params : ReaderParams) (range end_range : string)
    (table : OLAPTable) (kp : KeysParamPtrs) (heap : list bool)
  : OLAPStatus * nat * KeysParamPtrs * list bool :=
  let _next_key_index := 0%nat in
  if bool_decide (length (start_key read_params) = 0%nat)
  then (OLAP_SUCCESS, _next_key_index, kp, heap)
  else
    let start_key_size := length (start_key read_params) in
    let '(res, starts, heap) :=
      init_scan_keys (tablet_schema table) (start_key read_params) 0
        (resize start_key_size nullptr (ptrs_start_keys kp)) heap in
    if bool_decide (res <> OLAP_SUCCESS)
    then (res, _next_key_index,
          {| ptrs_range := range; ptrs_end_range := end_range;
             ptrs_start_keys := starts; ptrs_end_keys := ptrs_end_keys kp |}, heap)
    else
      let end_key_size := length (end_key read_params) in
      let '(res, ends, heap) :=
        init_scan_keys (tablet_schema table) (end_key read_params) 0
          (resize end_key_size nullptr (ptrs_end_keys kp)) heap in
      (res, _next_key_index,
       {| ptrs_range := range; ptrs_end_range := end_range;
          ptrs_start_keys := starts; ptrs_end_keys := ends |}, heap).

(** *** _acquire_data_sources *)

Definition add_rows_stats_filtered (n : Z) (s : OlapReaderStatistics) : OlapReaderStatistics :=
  {| rows_stats_filtered := rows_stats_filtered s + n;
     rows_del_filtered := rows_del_filtered s |}.

Definition add_rows_del_filtered (n : Z) (s : OlapReaderStatistics) : OlapReaderStatistics :=
  {| rows_stats_filtered := rows_stats_filtered s;
     rows_del_filtered := rows_del_filtered s + n |}.

(** The body of the loop over the segments. The segment is reached
    through a pointer: what the setters did to it shows in the vector
    walked, which is returned first, next to [_data_sources] and
    [_stats]. *)
Definition acquire_body (r : Reader Row) (_seek_columns : list Z) (is_using_cache : bool)
    (st : list (ColumnData Row) * list (ColumnData Row) * OlapReaderStatistics)
    (i_data : ColumnData Row)
  : list (ColumnData Row) * list (ColumnData Row) * OlapReaderStatistics :=
  let '(walked, data_sources, stats) := st in
  if is_empty i_data || zero_num_rows i_data then (walked ++ [i_data], data_sources, stats)
  else
    let i_data := set_delete_handler (_delete_handler r) i_data in
    let i_data :=
      set_read_params (_return_columns r) _seek_columns (_load_bf_columns r)
        (_conditions r) (_col_predicates r) is_using_cache i_data in
    if delta_pruning_filter i_data
    then (walked ++ [i_data], data_sources, add_rows_stats_filtered (num_rows i_data) stats)
    else
      let ret := delete_pruning_filter i_data in
      if bool_decide (ret = DEL_SATISFIED)
      then (walked ++ [i_data], data_sources, add_rows_del_filtered (num_rows i_data) stats)
      else
        let i_data :=
          if bool_decide (ret = DEL_PARTIAL_SATISFIED)
          then set_delete_status DEL_PARTIAL_SATISFIED i_data
          else set_delete_status DEL_NOT_SATISFIED i_data in
        (walked ++ [i_data], data_sources ++ [i_data], stats).

(** [olap_data_arr] is the member of ReaderParams of this name, [_version]
    and [_seek_columns] are members of the Reader. The function returns
    its status, the Reader, and [olap_data_arr] as the call left the
    segments it points to. *)
Definition _acquire_data_sources (read_params : ReaderParams)
    (olap_data_arr : list (ColumnData Row)) (_version : Z * Z) (_seek_columns : list Z)
    (r : Reader Row)
  : OLAPStatus * Reader Row * list (ColumnData Row) :=
  let is_using_cache := bool_decide (reader_type read_params = READER_QUERY) in
  if bool_decide (reader_type read_params = READER_ALTER_TABLE)
     || bool_decide (reader_type read_params = READER_BASE_COMPACTION)
     || bool_decide (reader_type read_params = READER_CUMULATIVE_COMPACTION)
  then
    let '(walked, data_sources, stats) :=
      foldl (acquire_body r _seek_columns is_using_cache)
            ([], _data_sources r, _stats r) olap_data_arr in
    (OLAP_SUCCESS, with_stats stats (with_data_sources data_sources r), walked)
  else
    let own := acquire_data_sources (_olap_table r) _version (_own_data_sources r) in
    let r := with_own_data_sources own r in
    if bool_decide (length own < 1)%nat
    then (OLAP_ERR_VERSION_NOT_EXIST, r, olap_data_arr)
    else
      let '(walked, data_sources, stats) :=
        foldl (acquire_body r _seek_columns is_using_cache)
              ([], _data_sources r, _stats r) own in
      (OLAP_SUCCESS,
       with_stats stats (with_data_sources data_sources (with_own_data_sources walked r)),
       olap_data_arr).

End ModelInit.

Arguments KeysParamPtrs Row : clear implicits.

(** A delete handler that filters the rows whose first field is below 3,
    and a cursor on a partially deleted block of three rows. *)
Definition ex_filter_handler : DeleteHandler (list Z) :=
  {| del_conds := [ {| filter_version := 3;
                       del_cond := {| columns := [(0, {| conds := [] |})] |} |} ];
     is_filter_data := fun _ row => match row with k :: _ => k <? 3 | [] => false end |}.

Definition ex_partial_block (l : list (list Z)) : RowBlock (list Z) :=
  {| rows := l; pos := 0%nat; block_status := DEL_PARTIAL_SATISFIED |}.

Definition ex_partial_cursor : ChildCtx (list Z) :=
  ChildCtx_new (ex_segment 5 false [])
    (Some (ex_partial_block [[1; 10]; [2; 20]; [3; 30]; [4; 40]])).

(** Scan keys over rows that are lists of integers: a key has one field
    for each value of its tuple, as many as the schema has at most, and
    [from_tuple] stores the length of each value. *)
Definition ZScanKeyOps : ScanKeyOps (list Z) :=
  {| RowCursor_new := [];
     field_count := fun key => Z.of_nat (length key);
     init_scan_key := fun schema t key =>
       if bool_decide (length t <= length schema)%nat
       then (OLAP_SUCCESS, replicate (length t) 0)
       else (OLAP_ERR_INPUT_PARAMETER_ERROR, key);
     from_tuple := fun t key =>
       if bool_decide (length t = length key)
       then (OLAP_SUCCESS, (fun s => Z.of_nat (String.length s)) <$> t)
       else (OLAP_ERR_OTHER (-1), key) |}.

(** A reader of [ex_table] that returns the value column only and has one
    scan range, with a start key of one field. *)
Definition ex_seek_reader : Reader (list Z) :=
  with_return_columns [1] (ex_reader AGG_KEYS READER_QUERY false (ex_keys "ge" "le" [[5]] [[9]]) []).

(** A request for one scan range, from the key ["a"] up to ["bb"]. *)
Definition ex_range_params : ReaderParams :=
  {| reader_type := READER_QUERY; aggregation := false; return_columns := [0; 1];
     start_key := [["a"%string]]; end_key := [["bb"%string]] |}.

(** The [_keys_param] of a Reader that has not been initialised. *)
Definition ex_no_key_ptrs : KeysParamPtrs (list Z) :=
  {| ptrs_range := ""; ptrs_end_range := ""; ptrs_start_keys := []; ptrs_end_keys := [] |}.

(** A request with two start keys and one end key only. *)
Definition ex_missing_end_key_params : ReaderParams :=
  {| reader_type := READER_QUERY; aggregation := false; return_columns := [0; 1];
     start_key := [["a"%string]; ["b"%string]]; end_key := [["c"%string]] |}.

(** A Reader at the end of its only scan range. *)
Definition ex_finished_reader : Reader (list Z) :=
  with_next_key_index 1 (ex_crossed_range_reader "ge" [1] [2]).

(** An example of the storage layer. The table holds the segments
    [stored] and gives those of the version range asked for. A segment
    counts the rows of its first block; it is pruned by the conditions
    when every row has a key above 100, and the delete conditions take
    the rows with a key below 3. [set_delete_status] gives the status to
    the block that a seek answers. *)
Definition ex_rows (d : ColumnData (list Z)) : list (list Z) :=
  match seek d None false None false with
  | (_, Some b, _) => rows b
  | _ => []
  end.

Definition ex_key_below (bound : Z) (row : list Z) : bool :=
  match row with k :: _ => k <? bound | [] => false end.

Definition ex_set_status (st : DelCondSatisfied) (b : RowBlock (list Z)) : RowBlock (list Z) :=
  {| rows := rows b; pos := pos b; block_status := st |}.

Definition ex_SegmentOps (stored : list (ColumnData (list Z))) : SegmentOps (list Z) :=
  {| acquire_data_sources := fun _ v own =>
       own ++ List.filter (fun d => (v.1 <=? (version d).1) && ((version d).2 <=? v.2)) stored;
     is_empty := fun _ => false;
     zero_num_rows := fun d => bool_decide (length (ex_rows d) = 0%nat);
     num_rows := fun d => Z.of_nat (length (ex_rows d));
     set_delete_handler := fun _ d => d;
     set_read_params := fun _ _ _ _ _ _ d => d;
     delta_pruning_filter := fun d => forallb (fun row => negb (ex_key_below 101 row)) (ex_rows d);
     delete_pruning_filter := fun d =>
       if forallb (ex_key_below 3) (ex_rows d) then DEL_SATISFIED
       else if existsb (ex_key_below 3) (ex_rows d) then DEL_PARTIAL_SATISFIED
       else DEL_NOT_SATISFIED;
     set_delete_status := fun st d =>
       {| version := version d; delete_flag := delete_flag d;
          row_cursor_init := row_cursor_init d;
          seek := fun start_key find_last_row end_key end_key_find_last_row =>
            let '(res, block, later) :=
              seek d start_key find_last_row end_key end_key_find_last_row in
            (res, ex_set_status st <$> block, later);
          next_blocks := next_blocks d |} |}.

(** Four stored segments: one deleted as a whole, one in part, one pruned
    by the conditions, one without rows. *)
Definition ex_stored : list (ColumnData (list Z)) :=
  [ ex_segment 1 false [[1; 10]; [2; 20]];
    ex_segment 2 false [[2; 5]; [7; 70]];
    ex_segment 3 false [[200; 1]];
    ex_segment 4 false [] ].

(** A cursor that stands on the first row of its block, and an iterator
    in merge mode over two such cursors, with the heap top at the first. *)
Definition ex_standing_cursor (v : Z) (l : list (list Z)) : ChildCtx (list Z) :=
  {| _data := ex_segment v false l; _current_row := head l; _is_delete := false;
     _row_cursor := head l; _row_block := Some (ex_block l) |}.

Definition ex_merge_iterator : CollectIterator (list Z) :=
  {| _merge := true; _heap := [0; 1]%nat;
     _children := [ex_standing_cursor 5 [[1; 10]; [3; 30]]; ex_standing_cursor 7 [[2; 20]]];
     _cur_child := Some 0%nat; _child_idx := 0%nat |}.

(** A query on a DUP_KEYS table over two segments, for the keys from 1
    to 3. *)
Definition ex_dup_query_reader : Reader (list Z) :=
  ex_reader DUP_KEYS READER_QUERY false (ex_keys "ge" "le" [[1]] [[3]])
    [ex_segment 5 false [[1; 10]; [3; 30]; [4; 40]]; ex_segment 7 false [[2; 20]]].

(** A base compaction of the same DUP_KEYS table, over all keys. *)
Definition ex_dup_compaction_reader : Reader (list Z) :=
  ex_reader DUP_KEYS READER_BASE_COMPACTION false ex_no_keys
    [ex_segment 5 false [[1; 10]; [3; 30]; [4; 40]]; ex_segment 7 false [[2; 20]]].

(** *** Further notions *)

(** The state of the loop of [_refresh_current_row] on the cursor [c],
    entered with the statistics [stats]: the rows passed over so far are
    rows the delete handler filters, each counted once. *)
Definition skipping {Row : Type} (dh : DeleteHandler Row) (c : ChildCtx Row)
    (stats : OlapReaderStatistics) (st : ChildCtx Row * OlapReaderStatistics) : Prop :=
  version (_data st.1) = version (_data c) /\
  exists skipped : list Row,
    child_rows c = skipped ++ child_rows st.1 /\
    Forall (fun row => is_filter_data dh (ChildCtx_version c) row = true) skipped /\
    rows_del_filtered st.2 = rows_del_filtered stats + Z.of_nat (length skipped) /\
    rows_stats_filtered st.2 = rows_stats_filtered stats.

(** A condition that lets its column use the bloom filter: an equality,
    or an IN list shorter than [MAX_OP_IN_FIELD_NUM]. *)
Definition bf_condition (MAX_OP_IN_FIELD_NUM : nat) (cond : Cond) : Prop :=
  op cond = OP_EQ \/
  (op cond = OP_IN /\ (length (operand_set cond) < MAX_OP_IN_FIELD_NUM)%nat).

(** The column ids (as the [uint32_t] they are inserted as) that have such
    a condition. *)
Definition has_bf_condition (MAX_OP_IN_FIELD_NUM : nat) (conditions : Conditions) (c : Z) : Prop :=
  exists col cc cond,
    (col, cc) ∈ columns conditions /\ cond ∈ conds cc /\
    bf_condition MAX_OP_IN_FIELD_NUM cond /\ c = to_uint32 col.

(** The scan keys make the loop over [j] read [end_key[i]]: the schema and
    every scan key have one field at least. *)
Definition reads_end_key (table : OLAPTable) (read_params : ReaderParams) : Prop :=
  tablet_schema table <> [] /\
  Forall (fun k => k <> []) (start_key read_params) /\
  Forall (fun k => k <> []) (end_key read_params).

(** What makes a column a seek column: it is returned, it has a
    condition, or it is a field of some scan key. *)
Definition seek_wanted {Row : Type} {key_ops : ScanKeyOps Row} (r : Reader Row) (c : Z) : Prop :=
  c ∈ _return_columns r \/
  (exists col cc, (col, cc) ∈ columns (_conditions r) /\ c = to_uint32 col) \/
  (exists key, key ∈ start_keys (_keys_param r) ++ end_keys (_keys_param r) /\
               c < field_count key).

(** [field_count()] answers a count that a [uint32_t] holds. *)
Definition field_count_fits {Row : Type} {key_ops : ScanKeyOps Row} (key : Row) : Prop :=
  0 <= field_count key < 4294967296.

(** What the body of the loop of [_init_keys_param] does to a cursor just
    allocated: [init_scan_key], then [from_tuple] unless that failed. *)
Definition build_scan_key {Row : Type} {key_ops : ScanKeyOps Row}
    (schema : list FieldInfo) (t : OlapTuple) : OLAPStatus * Row :=
  let '(res, key) := init_scan_key schema t RowCursor_new in
  if bool_decide (res <> OLAP_SUCCESS) then (res, key) else from_tuple t key.

(** KeysParam with every pointer live. *)
Definition KeysParam_ptrs {Row : Type} (kp : KeysParam Row) : KeysParamPtrs Row :=
  {| ptrs_range := range kp; ptrs_end_range := end_range kp;
     ptrs_start_keys := live <$> start_keys kp; ptrs_end_keys := live <$> end_keys kp |}.

(** A segment as the loop of [_acquire_data_sources] has it when it asks
    the pruning filters: with the delete handler and the read parameters
    of the Reader set. *)
Definition prepared {Row : Type} {seg_ops : SegmentOps Row} (r : Reader Row)
    (_seek_columns : list Z) (is_using_cache : bool) (d : ColumnData Row) : ColumnData Row :=
  set_read_params (_return_columns r) _seek_columns (_load_bf_columns r)
    (_conditions r) (_col_predicates r) is_using_cache
    (set_delete_handler (_delete_handler r) d).

(** What becomes of a segment in [_acquire_data_sources]. *)
Inductive segment_fate : Type :=
| SegmentEmpty
| SegmentStatsFiltered
| SegmentDelFiltered
| SegmentKept (status : DelCondSatisfied).

#[global] Instance segment_fate_eq_dec : EqDecision segment_fate.
Proof. solve_decision. Defined.

Definition fate_of {Row : Type} {seg_ops : SegmentOps Row} (r : Reader Row)
    (_seek_columns : list Z) (is_using_cache : bool) (d : ColumnData Row) : segment_fate :=
  if is_empty d || zero_num_rows d then SegmentEmpty
  else if delta_pruning_filter (prepared r _seek_columns is_using_cache d)
       then SegmentStatsFiltered
       else match delete_pruning_filter (prepared r _seek_columns is_using_cache d) with
            | DEL_SATISFIED => SegmentDelFiltered
            | DEL_PARTIAL_SATISFIED => SegmentKept DEL_PARTIAL_SATISFIED
            | DEL_NOT_SATISFIED => SegmentKept DEL_NOT_SATISFIED
            end.

(** The segment as the loop leaves it. *)
Definition segment_after {Row : Type} {seg_ops : SegmentOps Row} (r : Reader Row)
    (_seek_columns : list Z) (is_using_cache : bool) (d : ColumnData Row) : ColumnData Row :=
  match fate_of r _seek_columns is_using_cache d with
  | SegmentEmpty => d
  | SegmentKept status => set_delete_status status (prepared r _seek_columns is_using_cache d)
  | _ => prepared r _seek_columns is_using_cache d
  end.

Definition is_kept (f : segment_fate) : Prop :=
  match f with SegmentKept _ => True | _ => False end.

#[global] Instance is_kept_dec (f : segment_fate) : Decision (is_kept f).
Proof. destruct f; simpl; apply _. Defined.

(** The rows of the segments of one fate, as [num_rows] counts them when
    the loop asks. *)
Definition rows_of_fate {Row : Type} {seg_ops : SegmentOps Row} (r : Reader Row)
    (_seek_columns : list Z) (is_using_cache : bool) (f : segment_fate)
    (sources : list (ColumnData Row)) : Z :=
  foldr Z.add 0
    ((fun d => num_rows (prepared r _seek_columns is_using_cache d)) <$>
     filter (fun d => fate_of r _seek_columns is_using_cache d = f) sources).

(** The reader types that bring their segments with them. *)
Definition brings_sources (rt : ReaderType) : Prop :=
  rt = READER_ALTER_TABLE \/ rt = READER_BASE_COMPACTION \/ rt = READER_CUMULATIVE_COMPACTION.

(** The segments that [_acquire_data_sources] walks. *)
Definition sources_walked {Row : Type} {seg_ops : SegmentOps Row} (read_params : ReaderParams) (olap_data_arr : list (ColumnData Row))
    (_version : Z * Z) (r : Reader Row) : list (ColumnData Row) :=
  if bool_decide (reader_type read_params = READER_ALTER_TABLE)
     || bool_decide (reader_type read_params = READER_BASE_COMPACTION)
     || bool_decide (reader_type read_params = READER_CUMULATIVE_COMPACTION)
  then olap_data_arr
  else acquire_data_sources (_olap_table r) _version (_own_data_sources r).

(** *** Reading without merge *)

(** The delete handler takes the row: its block is partially deleted and
    the handler filters the row at the version of the segment. *)
Definition row_filtered {Row : Type} (dh : DeleteHandler Row) (v : Z) (b : RowBlock Row)
    (row : Row) : bool :=
  bool_decide (block_status b = DEL_PARTIAL_SATISFIED) && is_filter_data dh v row.

(** The rows of a block, from its read position on, that the delete
    handler leaves; the same for the blocks still to come, and for a
    cursor. *)
Definition visible_block {Row : Type} (dh : DeleteHandler Row) (v : Z)
    (b : option (RowBlock Row)) : list Row :=
  match b with
  | Some b => List.filter (fun row => negb (row_filtered dh v b row)) (drop (pos b) (rows b))
  | None => []
  end.

Definition visible_script {Row : Type} (dh : DeleteHandler Row) (v : Z)
    (later : list (OLAPStatus * option (RowBlock Row))) : list Row :=
  flat_map (fun x => visible_block dh v x.2) later.

Definition visible {Row : Type} (dh : DeleteHandler Row) (c : ChildCtx Row) : list Row :=
  visible_block dh (ChildCtx_version c) (_row_block c)
  ++ visible_script dh (ChildCtx_version c) (next_blocks (_data c)).

(** The blocks still to come are all there: [get_next_block] answers
    [OLAP_SUCCESS] with a block until it answers EOF. *)
Definition clean_script {Row : Type} (later : list (OLAPStatus * option (RowBlock Row)))
  : Prop :=
  Forall (fun x => x.1 = OLAP_SUCCESS /\ is_Some x.2) later.

(** A segment answers the seek of a range cleanly: with EOF, or with
    [OLAP_SUCCESS], a block and a clean script; and a cursor can be
    initialised on it. *)
Definition clean_seek {Row : Type} (d : ColumnData Row) (start_key : option Row)
    (find_last_row : bool) (end_key : option Row) (end_key_find_last_row : bool) : Prop :=
  row_cursor_init d = OLAP_SUCCESS /\
  ((seek d start_key find_last_row end_key end_key_find_last_row).1.1 = OLAP_ERR_DATA_EOF \/
   ((seek d start_key find_last_row end_key end_key_find_last_row).1.1 = OLAP_SUCCESS /\
    is_Some (seek d start_key find_last_row end_key end_key_find_last_row).1.2 /\
    clean_script (seek d start_key find_last_row end_key end_key_find_last_row).2)).

(** The rows that a segment gives for a range and the delete handler
    leaves. *)
Definition visible_seek {Row : Type} (dh : DeleteHandler Row) (d : ColumnData Row)
    (start_key : option Row) (find_last_row : bool) (end_key : option Row)
    (end_key_find_last_row : bool) : list Row :=
  let '(res, block, later) := seek d start_key find_last_row end_key end_key_find_last_row in
  if bool_decide (res = OLAP_SUCCESS)
  then visible_block dh (version d).2 block ++ visible_script dh (version d).2 later
  else [].

(** A cursor that stands on a row the delete handler leaves, with a clean
    script. *)
Definition standing {Row : Type} (dh : DeleteHandler Row) (c : ChildCtx Row) : Prop :=
  (exists b row, _row_block c = Some b /\ rows b !! pos b = Some row /\
                 _current_row c = Some row /\
                 row_filtered dh (ChildCtx_version c) b row = false) /\
  clean_script (next_blocks (_data c)).

(** The iterator without merge: [_cur_child] is the child at
    [_child_idx], the children from there on stand on a row, and there is
    no current child only when no child is left. *)
Definition concat_ok {Row : Type} (dh : DeleteHandler Row) (ci : CollectIterator Row) : Prop :=
  _merge ci = false /\
  match _cur_child ci with
  | Some t => t = _child_idx ci /\ (t < length (_children ci))%nat
  | None => (length (_children ci) <= _child_idx ci)%nat
  end /\
  Forall (standing dh) (drop (_child_idx ci) (_children ci)).

(** The rows the iterator has still to hand out. *)
Definition pending {Row : Type} (dh : DeleteHandler Row) (ci : CollectIterator Row)
  : list Row :=
  flat_map (visible dh) (drop (_child_idx ci) (_children ci)).

Definition reader_concat_ok {Row : Type} (r : Reader Row) : Prop :=
  exists ci, _collect_iter r = live ci /\ concat_ok (_delete_handler r) ci /\
             head_is ci (_next_key r) (_next_delete_flag r).

Definition reader_pending {Row : Type} (r : Reader Row) : list Row :=
  match _collect_iter r with
  | live ci => pending (_delete_handler r) ci
  | _ => []
  end.

(** The rows a caller gets who passes one output cursor to call after
    call: each is the copy of a source row into the cursor as the call
    before left it. *)
Fixpoint copies {Row : Type} {ops : RowCursorOps Row} (row_cursor : Row) (l : list Row)
  : list Row :=
  match l with
  | [] => []
  | row :: rest =>
      copy_without_pool row_cursor row :: copies (copy_without_pool row_cursor row) rest
  end.

(** The invariant of the loop of [_refresh_current_row] on a cursor with
    a clean script: the rows to come are those of the cursor it started
    with. *)
Definition refreshing {Row : Type} (dh : DeleteHandler Row) (c : ChildCtx Row)
    (st : ChildCtx Row * OlapReaderStatistics) : Prop :=
  clean_script (next_blocks (_data st.1)) /\
  visible dh st.1 = visible dh c /\
  ChildCtx_version st.1 = ChildCtx_version c /\
  _is_delete st.1 = _is_delete c.

(** The iterator while the driver fills it without merge: the read
    position is the first child, which is the current one as soon as
    there is a child, and every child stands on a row. *)
Definition filling {Row : Type} (dh : DeleteHandler Row) (ci : CollectIterator Row) : Prop :=
  _merge ci = false /\ _child_idx ci = 0%nat /\
  _cur_child ci = (if bool_decide (_children ci = []) then None else Some 0%nat) /\
  Forall (standing dh) (_children ci).

(** *** Reading with merge, row by row *)

(** The iterator in merge mode over cursors that stand on a row and have
    their rows to come in key order: the heap holds distinct live cursors
    and [_cur_child] is its top. *)
Definition merge_standing {Row : Type} {ops : RowCursorOps Row} (dh : DeleteHandler Row)
    (ci : CollectIterator Row) : Prop :=
  _merge ci = true /\ NoDup (_heap ci) /\
  (forall i, i ∈ _heap ci ->
     exists c, _children ci !! i = Some c /\ standing dh c /\ ascending (visible dh c)) /\
  match _heap ci with
  | [] => _cur_child ci = None
  | _ => exists t, heap_top (_children ci) (_heap ci) = Ok t /\ _cur_child ci = Some t
  end.

(** The rows the cursors of the heap have still to hand out, cursor
    after cursor in the order of the heap. *)
Definition visible_at {Row : Type} (dh : DeleteHandler Row) (children : list (ChildCtx Row))
    (i : nat) : list Row :=
  match children !! i with
  | Some c => visible dh c
  | None => []
  end.

Definition heap_pending {Row : Type} (dh : DeleteHandler Row) (ci : CollectIterator Row)
  : list Row :=
  _heap ci ≫= visible_at dh (_children ci).

Definition reader_merge_standing {Row : Type} {ops : RowCursorOps Row} (r : Reader Row)
  : Prop :=
  exists ci, _collect_iter r = live ci /\ merge_standing (_delete_handler r) ci /\
             head_is ci (_next_key r) (_next_delete_flag r).

Definition reader_heap_pending {Row : Type} (r : Reader Row) : list Row :=
  match _collect_iter r with
  | live ci => heap_pending (_delete_handler r) ci
  | _ => []
  end.

(** * Properties *)

(** ** Loops and outcomes *)

Lemma bind_Ok {A B : Type} (m : result A) (f : A -> result B) (b : B) :
  m ≫= f = Ok b -> exists a, m = Ok a /\ f a = Ok b.
Proof. destruct m as [a| |]; simpl; intros H; try discriminate. eauto. Qed.

(** The invariant rule for [loop]: an invariant of the body carries over
    to whatever the loop ends with. *)
Lemma loop_invariant {S R : Type} (body : S -> result (ctrl S R))
    (I : S -> Prop) (Qb : S -> Prop) (Qr : R -> Prop) :
  (forall s c, I s -> body s = Ok c ->
     match c with Continue s' => I s' | Break s' => Qb s' | Return r => Qr r end) ->
  forall n s x, I s -> loop n body s = Ok x ->
     match x with inl s' => Qb s' | inr r => Qr r end.
Proof.
  intros Hbody n. induction n as [|n IH]; intros s x HI Hl; simpl in Hl; [discriminate|].
  apply bind_Ok in Hl as (c & Hc & Hl).
  specialize (Hbody s c HI Hc).
  destruct c as [s'|s'|r].
  - exact (IH s' x Hbody Hl).
  - injection Hl as <-. exact Hbody.
  - injection Hl as <-. exact Hbody.
Qed.

(** Apply the invariant rule to a loop that ended: [lem] is the lemma on
    the body, [Hinit] the proof of the invariant at the start. *)
Ltac loop_inv Hloop lem Hinit Hfin :=
  match type of Hloop with
  | loop ?n ?body ?s = Ok ?x =>
      pose proof (loop_invariant body _ _ _ lem n s x Hinit Hloop) as Hfin
  end.

(** More turns, and a body that returns what it returned and possibly
    more, do not change what a loop that ended has returned. *)
Lemma loop_mono {S R : Type} (body body' : S -> result (ctrl S R)) (n n' : nat) :
  (n <= n')%nat ->
  (forall s c, body s = Ok c -> body' s = Ok c) ->
  forall s x, loop n body s = Ok x -> loop n' body' s = Ok x.
Proof.
  intros Hle Hbody. revert n' Hle.
  induction n as [|n IH]; intros n' Hle s x Hl; simpl in Hl; [discriminate|].
  destruct n' as [|n']; [lia|]. simpl.
  apply bind_Ok in Hl as (c & Hc & Hl). rewrite (Hbody s c Hc). simpl.
  destruct c; auto. apply IH; [lia|done].
Qed.

(** A loop returns when its body does and every further turn comes with
    a smaller measure, [m1] first and [m2] next. The body may hold loops
    of its own, which the same fuel bounds. *)
Lemma loop_returns {S R : Type} (m1 m2 : S -> nat) (I : S -> Prop)
    (body : nat -> S -> result (ctrl S R)) :
  (forall s, I s -> exists fuel0 c,
     (forall fuel, (fuel0 <= fuel)%nat -> body fuel s = Ok c) /\
     match c with
     | Continue s' =>
         I s' /\ ((m1 s' < m1 s)%nat \/ (m1 s' = m1 s /\ (m2 s' < m2 s)%nat))
     | _ => True
     end) ->
  forall s, I s ->
    exists fuel0 x, forall fuel n, (fuel0 <= fuel)%nat -> (fuel0 <= n)%nat ->
      loop n (body fuel) s = Ok x.
Proof.
  intros Hbody.
  assert (H : forall a b s, m1 s = a -> m2 s = b -> I s ->
            exists fuel0 x, forall fuel n, (fuel0 <= fuel)%nat -> (fuel0 <= n)%nat ->
              loop n (body fuel) s = Ok x).
  { induction a as [a IHa] using lt_wf_ind. induction b as [b IHb] using lt_wf_ind.
    intros s Ha Hb HI. destruct (Hbody s HI) as (f0 & c & Hc & Hpost).
    destruct c as [s'|s'|ret].
    - destruct Hpost as [HI' Hlt].
      assert (exists fuel1 x, forall fuel n, (fuel1 <= fuel)%nat -> (fuel1 <= n)%nat ->
                loop n (body fuel) s' = Ok x) as (f1 & x & Hx).
      { destruct Hlt as [Hlt|[Heq Hlt]].
        - apply (IHa (m1 s') ltac:(lia) (m2 s') s' eq_refl eq_refl HI').
        - apply (IHb (m2 s') ltac:(lia) s' ltac:(lia) eq_refl HI'). }
      exists (Datatypes.S (Nat.max f0 f1)), x. intros fuel n Hf Hn.
      destruct n as [|n]; [lia|]. simpl. rewrite Hc by lia. simpl.
      apply Hx; lia.
    - exists (Datatypes.S f0), (inl s'). intros fuel n Hf Hn.
      destruct n as [|n]; [lia|]. simpl. rewrite Hc by lia. reflexivity.
    - exists (Datatypes.S f0), (inr ret). intros fuel n Hf Hn.
      destruct n as [|n]; [lia|]. simpl. rewrite Hc by lia. reflexivity. }
  intros s HI. by eapply H.
Qed.

(** ** Return columns *)

Lemma schema_at_valid (schema : list FieldInfo) (id : Z) :
  valid_column schema id -> exists fi, schema_at schema id = Ok fi.
Proof.
  intros [H0 H1]. unfold schema_at.
  destruct (id <? 0) eqn:E; [apply Z.ltb_lt in E; lia|].
  destruct (schema !! Z.to_nat id) as [fi|] eqn:El; [eauto|].
  apply lookup_ge_None in El. lia.
Qed.

Lemma classify_columns_ok (schema : list FieldInfo) (ids k v : list Z) :
  Forall (valid_column schema) ids ->
  classify_columns schema ids k v =
    Ok (k ++ filter (fun id => key_column schema id = true) ids,
        v ++ filter (fun id => key_column schema id = false) ids).
Proof.
  intros H. revert k v. induction H as [|id ids Hid _ IH]; intros k v; simpl.
  - by rewrite !app_nil_r.
  - destruct (schema_at_valid _ _ Hid) as [fi Hfi].
    assert (Hk : key_column schema id = is_key fi) by (unfold key_column; by rewrite Hfi).
    rewrite Hfi. simpl. rewrite !filter_cons.
    destruct (is_key fi) eqn:Ek; rewrite IH.
    + rewrite decide_True by done. rewrite decide_False by congruence.
      by rewrite <- app_assoc.
    + rewrite decide_False by congruence. rewrite decide_True by done.
      by rewrite <- app_assoc.
Qed.

Lemma seqZ_valid (schema : list FieldInfo) :
  Forall (valid_column schema) (seqZ 0 (Z.of_nat (length schema))).
Proof.
  apply list.Forall_forall. intros x Hx. apply elem_of_seqZ in Hx. unfold valid_column. lia.
Qed.

Lemma sort_greater_perm (l : list Z) : sort_greater l ≡ₚ l.
Proof. apply merge_sort_Permutation. Qed.

Lemma add_delete_cond_column_app (st : gset Z * list Z) (cc : Z * CondColumn) :
  exists extra, (add_delete_cond_column st cc).2 = st.2 ++ extra.
Proof.
  destruct st as [s l]. unfold add_delete_cond_column.
  case_bool_decide; simpl; [exists []; by rewrite app_nil_r | eauto].
Qed.

Lemma add_delete_cond_columns_app {Row : Type} (dh : DeleteHandler Row) (l : list Z) :
  exists extra, add_delete_cond_columns dh l = l ++ extra.
Proof.
  unfold add_delete_cond_columns.
  generalize (list_to_set l : gset Z). generalize (get_delete_conditions dh).
  intros dcs. 
  assert (Hin : forall (ccs : list (Z * CondColumn)) (st : gset Z * list Z),
             exists extra, (foldl add_delete_cond_column st ccs).2 = st.2 ++ extra).
  { induction ccs as [|cc ccs IH]; intros st; simpl.
    - exists []. by rewrite app_nil_r.
    - destruct (IH (add_delete_cond_column st cc)) as [e1 He1].
      destruct (add_delete_cond_column_app st cc) as [e2 He2].
      exists (e2 ++ e1). rewrite He1, He2. by rewrite app_assoc. }
  assert (Hout : forall (st : gset Z * list Z),
             exists extra,
               (foldl (fun st conds => foldl add_delete_cond_column st (columns (del_cond conds)))
                      st dcs).2 = st.2 ++ extra).
  { induction dcs as [|dc dcs IH]; intros st; simpl.
    - exists []. by rewrite app_nil_r.
    - destruct (IH (foldl add_delete_cond_column st (columns (del_cond dc)))) as [e1 He1].
      destruct (Hin (columns (del_cond dc)) st) as [e2 He2].
      exists (e2 ++ e1). rewrite He1, He2. by rewrite app_assoc. }
  intros s. apply (Hout (s, l)).
Qed.

(** C3, as amended. For every reader type other than QUERY: with an empty
    [return_columns] list, [_init_return_columns] succeeds and appends all
    schema columns, in schema order, to the return columns (which are
    empty in a Reader being initialised); with a list that is not empty
    and a reader type that is not CHECKSUM either, it fails with
    [OLAP_ERR_INPUT_PARAMETER_ERROR] and leaves the Reader as it was. *)
Theorem init_return_columns_rules {Row : Type} (read_params : ReaderParams) (r : Reader Row) :
  reader_type read_params <> READER_QUERY ->
  (return_columns read_params = [] ->
   exists r', _init_return_columns read_params r = Ok (OLAP_SUCCESS, r') /\
     _return_columns r' =
       _return_columns r ++ seqZ 0 (Z.of_nat (length (tablet_schema (_olap_table r)))))
  /\
  (return_columns read_params <> [] ->
   reader_type read_params <> READER_CHECKSUM ->
   _init_return_columns read_params r = Ok (OLAP_ERR_INPUT_PARAMETER_ERROR, r)).
Proof.
  intros Hq. split.
  - intros He. unfold _init_return_columns.
    rewrite bool_decide_false by done. rewrite He. simpl.
    rewrite classify_columns_ok by apply seqZ_valid. simpl. eauto.
  - intros Hne Hc. unfold _init_return_columns.
    rewrite bool_decide_false by done.
    rewrite bool_decide_false by (destruct (return_columns read_params); simpl; done).
    by rewrite bool_decide_false.
Qed.

Lemma init_return_columns_rules_witness :
  (exists r', _init_return_columns (ex_params READER_ALTER_TABLE false [])
                (Reader_new (ex_table AGG_KEYS) : Reader (list Z)) = Ok (OLAP_SUCCESS, r') /\
     _return_columns r' = [] ++ seqZ 0 2)
  /\ _init_return_columns (ex_params READER_BASE_COMPACTION false [1])
       (Reader_new (ex_table AGG_KEYS) : Reader (list Z))
     = Ok (OLAP_ERR_INPUT_PARAMETER_ERROR, Reader_new (ex_table AGG_KEYS)).
Proof.
  split.
  - apply (init_return_columns_rules (ex_params READER_ALTER_TABLE false [])
             (Reader_new (ex_table AGG_KEYS))); [discriminate | reflexivity].
  - apply (init_return_columns_rules (ex_params READER_BASE_COMPACTION false [1])
             (Reader_new (ex_table AGG_KEYS))); discriminate.
Defined.

(** C3 as stated fails for QUERY: with an empty [return_columns] list the
    return columns stay empty, although the schema has the columns 0 and 1. *)
Lemma init_return_columns_query_empty :
  return_columns (ex_params READER_QUERY false []) = [] /\
  exists r', _init_return_columns (ex_params READER_QUERY false [])
               (Reader_new (ex_table AGG_KEYS) : Reader (list Z)) = Ok (OLAP_SUCCESS, r') /\
    _return_columns r' = [] /\
    _return_columns r' <> seqZ 0 (Z.of_nat (length (tablet_schema (ex_table AGG_KEYS)))).
Proof.
  split; [reflexivity|]. eexists. split; [reflexivity|]. split; [reflexivity|].
  vm_compute. discriminate.
Qed.

(** C9. In a QUERY init with aggregation and at least one delete
    condition, on a Reader whose key and value column lists are still empty
    and with return columns inside the schema: the return columns become
    the caller's list followed by the delete-condition columns that were
    missing, while [_key_cids] and [_value_cids] hold exactly the caller's
    columns, split by [is_key]; a column that was only appended is in
    neither list. *)
Theorem init_return_columns_split_from_params {Row : Type}
    (read_params : ReaderParams) (r : Reader Row) :
  reader_type read_params = READER_QUERY ->
  aggregation read_params = true ->
  conditions_num (_delete_handler r) <> 0%nat ->
  _key_cids r = [] -> _value_cids r = [] ->
  Forall (valid_column (tablet_schema (_olap_table r))) (return_columns read_params) ->
  exists r' extra,
    _init_return_columns read_params r = Ok (OLAP_SUCCESS, r') /\
    _return_columns r' = add_delete_cond_columns (_delete_handler r) (return_columns read_params) /\
    _return_columns r' = return_columns read_params ++ extra /\
    _key_cids r' ≡ₚ filter (fun id => key_column (tablet_schema (_olap_table r)) id = true)
                      (return_columns read_params) /\
    _value_cids r' = filter (fun id => key_column (tablet_schema (_olap_table r)) id = false)
                       (return_columns read_params) /\
    (forall c, (c ∈ _key_cids r' \/ c ∈ _value_cids r') <-> c ∈ return_columns read_params) /\
    (forall c, c ∈ _return_columns r' -> c ∉ return_columns read_params ->
               (c ∉ _key_cids r') /\ (c ∉ _value_cids r')).
Proof.
  intros Hq Ha Hn Hk Hv Hvalid.
  destruct (add_delete_cond_columns_app (_delete_handler r) (return_columns read_params))
    as [extra Hextra].
  unfold _init_return_columns.
  rewrite bool_decide_true by done. rewrite Ha, Hk, Hv.
  rewrite bool_decide_true by done. simpl.
  rewrite classify_columns_ok by done. simpl.
  eexists _, extra. split; [reflexivity|]. simpl.
  assert (Hmem : forall c,
    (c ∈ sort_greater (filter (fun id => key_column (tablet_schema (_olap_table r)) id = true)
                        (return_columns read_params))
     \/ c ∈ filter (fun id => key_column (tablet_schema (_olap_table r)) id = false)
            (return_columns read_params))
    <-> c ∈ return_columns read_params).
  { intros c. rewrite sort_greater_perm. rewrite !list_elem_of_filter.
    destruct (key_column (tablet_schema (_olap_table r)) c); intuition congruence. }
  split; [done|]. split; [done|]. split; [apply sort_greater_perm|].
  split; [done|]. split; [exact Hmem|].
  intros c _ Hnot. split; intros Hin; apply Hnot, Hmem; auto.
Qed.

Lemma init_return_columns_split_from_params_witness :
  exists r' extra,
    _init_return_columns (ex_params READER_QUERY true [0]) ex_reader_with_delete
      = Ok (OLAP_SUCCESS, r') /\
    _return_columns r' =
      add_delete_cond_columns (_delete_handler ex_reader_with_delete)
        (return_columns (ex_params READER_QUERY true [0])) /\
    _return_columns r' = return_columns (ex_params READER_QUERY true [0]) ++ extra /\
    _key_cids r' ≡ₚ
      filter (fun id => key_column (tablet_schema (_olap_table ex_reader_with_delete)) id = true)
        (return_columns (ex_params READER_QUERY true [0])) /\
    _value_cids r' =
      filter (fun id => key_column (tablet_schema (_olap_table ex_reader_with_delete)) id = false)
        (return_columns (ex_params READER_QUERY true [0])) /\
    (forall c, (c ∈ _key_cids r' \/ c ∈ _value_cids r')
               <-> c ∈ return_columns (ex_params READER_QUERY true [0])) /\
    (forall c, c ∈ _return_columns r' ->
               c ∉ return_columns (ex_params READER_QUERY true [0]) ->
               (c ∉ _key_cids r') /\ (c ∉ _value_cids r')).
Proof.
  apply (init_return_columns_split_from_params (ex_params READER_QUERY true [0])
           ex_reader_with_delete);
    [reflexivity | reflexivity | discriminate | reflexivity | reflexivity |].
  repeat constructor; vm_compute; congruence.
Defined.

(** ** Bloom-filter columns *)

Lemma elem_of_erase_all (l : list Z) (s : gset Z) (c : Z) :
  c ∈ foldl (fun s i => s ∖ {[ i ]}) s l <-> c ∈ s /\ c ∉ l.
Proof.
  revert s. induction l as [|i l IH]; intros s; simpl.
  - split; [intros H; split; [done|apply not_elem_of_nil] | tauto].
  - rewrite IH, not_elem_of_cons, elem_of_difference, elem_of_singleton. tauto.
Qed.

Lemma elem_of_bf_erase_below (max_equal_index : Z) (s : gset Z) (c : Z) :
  c ∈ bf_erase_below max_equal_index s <-> c ∈ s /\ ~ (0 <= c < max_equal_index).
Proof.
  unfold bf_erase_below. rewrite elem_of_erase_all, elem_of_seqZ.
  split; intros [H1 H2]; split; auto; lia.
Qed.

Lemma bf_erase_max_spec (table : OLAPTable) (max_equal_index : Z) :
  bf_erase_max table max_equal_index = true <-> erase_condition table max_equal_index.
Proof.
  unfold bf_erase_max, erase_condition.
  rewrite orb_true_iff, andb_true_iff, !bool_decide_eq_true, Z.gtb_lt. 
  split; (intros [H|H]; [left; exact H | right; lia]).
Qed.

Lemma min_key_len_le (keys : list OlapTuple) (m : Z) :
  min_key_len keys m <= m /\
  Forall (fun k => min_key_len keys m <= Z.of_nat (length k)) keys.
Proof.
  revert m. induction keys as [|k keys IH]; intros m; simpl; [split; [lia|constructor]|].
  destruct (IH (if Z.of_nat (length k) <? m then Z.of_nat (length k) else m)) as [H1 H2].
  split; [destruct (Z.ltb_spec (Z.of_nat (length k)) m); lia|].
  constructor; [destruct (Z.ltb_spec (Z.of_nat (length k)) m); lia|exact H2].
Qed.

Lemma equal_prefix_returns (todo : nat) :
  forall (j : Z) (s e : OlapTuple) (ends : list OlapTuple) (i : nat),
    ends !! i = Some e -> 0 <= j ->
    j + Z.of_nat todo <= Z.of_nat (length s) ->
    j + Z.of_nat todo <= Z.of_nat (length e) ->
    exists j', equal_prefix todo j s ends i = Ok j'.
Proof.
  induction todo as [|todo IH]; intros j s e ends i He Hj Hs Hl; cbn [equal_prefix]; [by eexists|].
  rewrite He.
  destruct (s !! Z.to_nat j) as [a|] eqn:Ea; [|apply lookup_ge_None_1 in Ea; lia].
  destruct (e !! Z.to_nat j) as [b|] eqn:Eb; [|apply lookup_ge_None_1 in Eb; lia].
  case_bool_decide; [by eexists|]. eapply IH; [done|lia..].
Qed.

Lemma max_equal_loop_returns (starts : list OlapTuple) :
  forall (i : nat) (ends : list OlapTuple) (m mei : Z),
    Forall (fun k => m <= Z.of_nat (length k)) starts ->
    Forall (fun k => m <= Z.of_nat (length k)) ends ->
    (i + length starts <= length ends)%nat ->
    exists mei', max_equal_loop i starts ends m mei = Ok mei'.
Proof.
  induction starts as [|s starts IH]; intros i ends m mei Hs He Hlen; cbn [max_equal_loop]; [by eexists|].
  simpl in Hlen. apply list.Forall_cons in Hs as [Hs Hrest].
  destruct (lookup_lt_is_Some_2 ends i) as [e Hi]; [lia|].
  assert (Hm : m <= Z.of_nat (length e)).
  { rewrite list.Forall_forall in He. apply He. by eapply list_elem_of_lookup_2. }
  destruct (equal_prefix_returns (Z.to_nat m) 0 s e ends i Hi) as [j ->]; [lia..|].
  simpl. apply IH; [done|done|lia].
Qed.

(** [_init_load_bf_columns] returns when every start key has its end key:
    the loop over the scan keys stays inside both tuples. *)
Lemma init_load_bf_columns_returns {Row : Type} (MAX_OP_IN_FIELD_NUM : nat)
    (read_params : ReaderParams) (r : Reader Row) :
  (length (start_key read_params) <= length (end_key read_params))%nat ->
  exists r', _init_load_bf_columns MAX_OP_IN_FIELD_NUM read_params r = Ok (OLAP_SUCCESS, r').
Proof.
  intros Hlen. unfold _init_load_bf_columns, max_equal_index_of.
  set (m0 := Z.of_nat (length (tablet_schema (_olap_table r)))).
  set (m1 := min_key_len (start_key read_params) m0).
  set (m2 := min_key_len (end_key read_params) m1).
  destruct (min_key_len_le (start_key read_params) m0) as [_ Hs].
  destruct (min_key_len_le (end_key read_params) m1) as [Hm He].
  destruct (max_equal_loop_returns (start_key read_params) 0 (end_key read_params) m2 (-1))
    as [mei ->]; [| |lia|by eexists].
  - eapply list.Forall_impl; [exact Hs|]. simpl. intros k Hk. fold m1 in Hk. lia.
  - exact He.
Qed.

(** C7. When [_init_load_bf_columns] returns, with [max_equal_index] as
    it computed it: no column id from 0 up to [max_equal_index - 1] is
    left in [_load_bf_columns]; [max_equal_index] itself (as the
    [uint32_t] it is erased as) is not left in it when its field type is
    neither VARCHAR nor HLL or [max_equal_index + 1] exceeds
    [num_short_key_fields]; and otherwise nothing but the columns below
    [max_equal_index] was taken from the candidates, so that
    [max_equal_index] is kept if it was one. It does return, with
    [OLAP_SUCCESS], when every start key has its end key. *)
Theorem init_load_bf_columns_erased {Row : Type} (MAX_OP_IN_FIELD_NUM : nat)
    (read_params : ReaderParams) (r : Reader Row) :
  (forall (res : OLAPStatus) (r' : Reader Row),
     _init_load_bf_columns MAX_OP_IN_FIELD_NUM read_params r = Ok (res, r') ->
     exists max_equal_index,
       max_equal_index_of (_olap_table r) read_params = Ok max_equal_index /\
       (forall c, 0 <= c < max_equal_index -> c ∉ _load_bf_columns r') /\
       (erase_condition (_olap_table r) max_equal_index ->
          to_uint32 max_equal_index ∉ _load_bf_columns r') /\
       (~ erase_condition (_olap_table r) max_equal_index ->
          forall c, c ∈ _load_bf_columns r' <->
                    c ∈ bf_candidates MAX_OP_IN_FIELD_NUM r /\ ~ (0 <= c < max_equal_index))) /\
  ((length (start_key read_params) <= length (end_key read_params))%nat ->
   exists r', _init_load_bf_columns MAX_OP_IN_FIELD_NUM read_params r = Ok (OLAP_SUCCESS, r')).
Proof.
  split; [|apply init_load_bf_columns_returns].
  unfold _init_load_bf_columns. intros res r' H.
  apply bind_Ok in H as (mei & Hmei & H). injection H as <- <-.
  exists mei. split; [done|]. simpl.
  destruct (bf_erase_max (_olap_table r) mei) eqn:E.
  - apply bf_erase_max_spec in E. split; [|split].
    + intros c Hc. rewrite elem_of_difference, elem_of_bf_erase_below. tauto.
    + intros _. rewrite elem_of_difference, elem_of_singleton. tauto.
    + tauto.
  - assert (~ erase_condition (_olap_table r) mei) as Hn.
    { rewrite <- bf_erase_max_spec. congruence. }
    split; [|split].
    + intros c Hc. rewrite elem_of_bf_erase_below. tauto.
    + tauto.
    + intros _ c. apply elem_of_bf_erase_below.
Qed.

Lemma init_load_bf_columns_erased_witness :
  (exists max_equal_index,
     max_equal_index_of (_olap_table ex_bf_reader) ex_bf_params = Ok max_equal_index /\
     (forall c, 0 <= c < max_equal_index ->
        c ∉ _load_bf_columns (with_load_bf_columns {[ 0 ]} ex_bf_reader)) /\
     (erase_condition (_olap_table ex_bf_reader) max_equal_index ->
        to_uint32 max_equal_index ∉ _load_bf_columns (with_load_bf_columns {[ 0 ]} ex_bf_reader)) /\
     (~ erase_condition (_olap_table ex_bf_reader) max_equal_index ->
        forall c, c ∈ _load_bf_columns (with_load_bf_columns {[ 0 ]} ex_bf_reader) <->
                  c ∈ bf_candidates 100 ex_bf_reader /\ ~ (0 <= c < max_equal_index))) /\
  (exists r', _init_load_bf_columns 100 ex_bf_params ex_bf_reader = Ok (OLAP_SUCCESS, r')).
Proof.
  pose proof (init_load_bf_columns_erased 100 ex_bf_params ex_bf_reader) as [Hpart Hret].
  split.
  - apply (Hpart OLAP_SUCCESS (with_load_bf_columns {[ 0 ]} ex_bf_reader)).
    vm_compute. reflexivity.
  - apply Hret. vm_compute. lia.
Defined.



(** ** close *)

Lemma delete_each_live {A : Type} (ps : list (ptr A)) :
  Forall (fun p => exists a, p = live a) ps ->
  delete_each ps = Ok (List.map (fun _ => dangling) ps).
Proof.
  induction 1 as [|p ps [a ->] _ IH]; simpl; [done|]. by rewrite IH.
Qed.

Lemma delete_each_dangling {A : Type} (p : ptr A) (ps : list (ptr A)) :
  delete_each (dangling :: ps) = Fault DoubleFree.
Proof. reflexivity. Qed.

(** C5 fails on the code. On a Reader whose predicates and CollectIterator
    are live (as [init] leaves them), [close] succeeds once; called again,
    as [~Reader] does after an explicit [close], it deletes an object that
    is already deleted. *)
Theorem close_twice_double_free {Row : Type} (r : Reader Row) (ci : CollectIterator Row) :
  _collect_iter r = live ci ->
  Forall (fun p => exists a, p = live a) (_col_predicates r) ->
  exists r1, Reader_close r = Ok r1 /\
    _collect_iter r1 = dangling /\
    Reader_destroy r1 = Fault DoubleFree.
Proof.
  intros Hci Hp. unfold Reader_destroy, Reader_close. simpl.
  rewrite (delete_each_live _ Hp). simpl. rewrite Hci. simpl.
  eexists. split; [reflexivity|]. split; [reflexivity|]. simpl.
  destruct (_col_predicates r) as [|p ps]; simpl; reflexivity.
Qed.

Lemma close_twice_double_free_witness :
  exists r1, Reader_close ex_open_reader = Ok r1 /\
    _collect_iter r1 = dangling /\
    Reader_destroy r1 = Fault DoubleFree.
Proof.
  apply (close_twice_double_free ex_open_reader CollectIterator_new); [reflexivity|].
  repeat constructor. eexists; reflexivity.
Defined.

(** ** add_child *)

Section Cursors.

Context {Row : Type} {ops : RowCursorOps Row}.
Variable fuel : nat.

Lemma refresh_body_status (dh : DeleteHandler Row)
    (st : ChildCtx Row * OlapReaderStatistics)
    (k : ctrl (ChildCtx Row * OlapReaderStatistics)
              (OLAPStatus * ChildCtx Row * OlapReaderStatistics)) :
  _refresh_current_row_body dh st = Ok k ->
  match k with
  | Continue _ => True
  | Break _ => True
  | Return ret => ret.1.1 = OLAP_SUCCESS <-> is_Some (_current_row ret.1.2)
  end.
Proof.
  destruct st as [c0 s0]. unfold _refresh_current_row_body. intros Hb.
  destruct (_row_block c0) as [b|]; [|discriminate].
  destruct (has_remaining b).
  - destruct (get_row b (pos b)) as [row|]; [|discriminate].
    destruct (bool_decide (block_status b = DEL_PARTIAL_SATISFIED)
              && is_filter_data dh (version (_data c0)).2 row);
      injection Hb as <-; simpl; [done|]. split; [eauto|done].
  - destruct (get_next_block (_data c0)) as [[res0 blk] d].
    case_bool_decide.
    + injection Hb as <-. simpl. split; [done|]. intros [? ?]; discriminate.
    + destruct blk; injection Hb as <-; done.
Qed.

(** [_refresh_current_row] returns [OLAP_SUCCESS] exactly when it leaves a
    current row. *)
Lemma refresh_current_row_status (dh : DeleteHandler Row) (c c' : ChildCtx Row)
    (stats stats' : OlapReaderStatistics) (res : OLAPStatus) :
  _refresh_current_row fuel dh c stats = Ok (res, c', stats') ->
  (res = OLAP_SUCCESS <-> is_Some (_current_row c')).
Proof.
  unfold _refresh_current_row. intros H.
  apply bind_Ok in H as (x & Hloop & H).
  pose proof (loop_invariant (_refresh_current_row_body dh)
    (fun _ => True) (fun _ => True)
    (fun ret => ret.1.1 = OLAP_SUCCESS <-> is_Some (_current_row ret.1.2))
    (fun st k _ Hk => refresh_body_status dh st k Hk)
    fuel (c, stats) x I Hloop) as Hinv.
  destruct x as [[c0 s0]|[[res0 c0] s0]].
  - injection H as <- <- <-. simpl. split; [discriminate|]. intros [? ?]; discriminate.
  - injection H as <- <- <-. exact Hinv.
Qed.

(** C4, as amended. When the cursor that [add_child] built and
    initialised for a segment has no current row, [add_child] returns the
    status of that initialisation, which is not [OLAP_SUCCESS]
    ([OLAP_ERR_DATA_EOF] for a segment without a row, or the error of the
    read), and the iterator is as before: nothing was pushed into the heap
    or appended to the children. *)
Theorem add_child_without_row (dh : DeleteHandler Row) (ci : CollectIterator Row)
    (data : ColumnData Row) (block : option (RowBlock Row))
    (stats stats' : OlapReaderStatistics) (res : OLAPStatus) (child : ChildCtx Row) :
  ChildCtx_init fuel dh (ChildCtx_new data block) stats = Ok (res, child, stats') ->
  _current_row child = None ->
  res <> OLAP_SUCCESS /\
  add_child fuel dh ci data block stats = Ok (res, ci, stats').
Proof.
  intros Hinit Hnone.
  assert (Hres : res <> OLAP_SUCCESS).
  { unfold ChildCtx_init in Hinit. case_bool_decide as Hrc.
    - injection Hinit as <- <- <-. exact Hrc.
    - apply bind_Ok in Hinit as ([[res0 c0] s0] & Hr & Hinit).
      apply refresh_current_row_status in Hr.
      case_bool_decide as Hres0; injection Hinit as <- <- <-; [done|].
      intros _. destruct Hr as [Hr _]. 
      destruct Hr as [? Hr]; [by destruct (decide (res0 = OLAP_SUCCESS))|].
      congruence. }
  split; [exact Hres|].
  unfold add_child. rewrite Hinit. cbn [mbind result_bind].
  by case_bool_decide.
Qed.

(** The branch of [add_child] that returns [OLAP_SUCCESS] for a cursor
    without a current row is never taken: a cursor whose initialisation
    succeeded has a current row. *)
Lemma ChildCtx_init_success_has_row (dh : DeleteHandler Row) (c c' : ChildCtx Row)
    (stats stats' : OlapReaderStatistics) :
  ChildCtx_init fuel dh c stats = Ok (OLAP_SUCCESS, c', stats') ->
  is_Some (_current_row c').
Proof.
  unfold ChildCtx_init. case_bool_decide as Hrc.
  - intros H. injection H as H _ _. congruence.
  - intros H. apply bind_Ok in H as ([[res0 c0] s0] & Hr & H).
    apply refresh_current_row_status in Hr.
    case_bool_decide as Hres0; [injection H as E _ _; congruence|].
    injection H as <- <-.
    apply Hr. by destruct (decide (res0 = OLAP_SUCCESS)).
Qed.

End Cursors.

(** A segment whose seek found an empty block and that has no further
    block. *)
Lemma add_child_without_row_witness :
  OLAP_ERR_DATA_EOF <> OLAP_SUCCESS /\
  @add_child _ (ZRowOps 1) 8 (_delete_handler ex_open_reader) CollectIterator_new
    (ex_segment 5 false []) (Some (ex_block [])) (_stats ex_open_reader)
  = Ok (OLAP_ERR_DATA_EOF, CollectIterator_new, _stats ex_open_reader).
Proof.
  apply (@add_child_without_row _ (ZRowOps 1) 8 (_delete_handler ex_open_reader)
           CollectIterator_new (ex_segment 5 false []) (Some (ex_block []))
           (_stats ex_open_reader) (_stats ex_open_reader) OLAP_ERR_DATA_EOF
           (set_current_row None
              (set_data (ex_segment 5 false [])
                 (set_row_block None (ChildCtx_new (ex_segment 5 false []) (Some (ex_block []))))))).
  - vm_compute. reflexivity.
  - reflexivity.
Defined.

(** C4 as stated fails: for a segment whose cursor has no current row
    after its initialisation, [add_child] does not return [OLAP_SUCCESS]
    but [OLAP_ERR_DATA_EOF]. *)
Lemma add_child_empty_segment_eof :
  (exists child stats',
     @ChildCtx_init _ 8 (_delete_handler ex_open_reader)
        (ChildCtx_new (ex_segment 5 false []) (Some (ex_block []))) (_stats ex_open_reader)
       = Ok (OLAP_ERR_DATA_EOF, child, stats') /\ _current_row child = None) /\
  (forall stats', 
     @add_child _ (ZRowOps 1) 8 (_delete_handler ex_open_reader) CollectIterator_new
       (ex_segment 5 false []) (Some (ex_block [])) (_stats ex_open_reader)
     <> Ok (OLAP_SUCCESS, CollectIterator_new, stats')).
Proof.
  split.
  - eexists _, _. split; vm_compute; reflexivity.
  - intros stats'. vm_compute. discriminate.
Qed.

(** ** The scan-range driver *)

Section Driver.

Context {Row : Type} {ops : RowCursorOps Row}.
Variable fuel : nat.

(** C6. When the range to resolve has an end key, [end_range] is "lt" or
    "le", and either [range] is "gt" with [start_key >= end_key] or
    [range] is "ge" with [start_key > end_key], the driver returns
    [OLAP_SUCCESS] with [eof] set on its first turn. The Reader it leaves
    has the range consumed and the iterator cleared: no segment was asked
    for a block and no cursor was added. *)
Theorem attach_crossed_range_eof (first : bool) (r : Reader Row) (ci : CollectIterator Row)
    (start_key end_key : Row) :
  _collect_iter r = live ci ->
  start_keys (_keys_param r) !! _next_key_index r = Some start_key ->
  end_keys (_keys_param r) !! _next_key_index r = Some end_key ->
  end_range (_keys_param r) = "lt"%string \/ end_range (_keys_param r) = "le"%string ->
  (range (_keys_param r) = "gt"%string /\ cmp start_key end_key >= 0) \/
  (range (_keys_param r) = "ge"%string /\ cmp start_key end_key > 0) ->
  exists r',
    _attach_data_to_merge_set (Datatypes.S fuel) first r = Ok (OLAP_SUCCESS, true, r') /\
    r' = with_next_key_index (Datatypes.S (_next_key_index r))
           (with_collect_iter (live (clear ci)) r) /\
    (exists ci', _collect_iter r' = live ci' /\ _children ci' = [] /\ _heap ci' = [] /\
                 _cur_child ci' = None) /\
    _stats r' = _stats r /\ _data_sources r' = _data_sources r.
Proof.
  intros Hci Hs He Her Hr.
  eexists. split; [|split; [reflexivity|]].
  - unfold _attach_data_to_merge_set. cbn [loop].
    unfold _attach_data_to_merge_set_body. rewrite Hci. cbn [deref mbind result_bind].
    unfold attach_resolve_range. cbn [_keys_param with_collect_iter _next_key_index].
    pose proof (lookup_lt_Some _ _ _ Hs) as Hlt.
    pose proof (lookup_lt_Some _ _ _ He) as Hlte.
    rewrite bool_decide_true by lia.
    rewrite bool_decide_false by lia.
    rewrite Hs.
    rewrite (bool_decide_eq_true_2 (0%nat <> length (end_keys (_keys_param r)))) by lia.
    rewrite He.
    assert (Hend : exists b,
      (if bool_decide (end_range (_keys_param r) = "lt"%string)
       then Ok (inl (Some end_key, false))
       else if bool_decide (end_range (_keys_param r) = "le"%string)
            then Ok (inl (Some end_key, true))
            else Ok (inr OLAP_ERR_READER_GET_ITERATOR_ERROR))
      = (Ok (inl (Some end_key, b)) : result (option Row * bool + OLAPStatus))).
    { destruct Her as [-> | ->]; [exists false | exists true]; reflexivity. }
    destruct Hend as [b ->]. cbn [mbind result_bind].
    destruct Hr as [[-> Hc]|[-> Hc]].
    + rewrite (bool_decide_eq_true_2 ("gt"%string = "gt"%string)) by done.
      rewrite (bool_decide_eq_true_2 (cmp start_key end_key >= 0)) by done.
      reflexivity.
    + rewrite (bool_decide_eq_false_2 ("ge"%string = "gt"%string)) by done.
      rewrite (bool_decide_eq_true_2 ("ge"%string = "ge"%string)) by done.
      rewrite (bool_decide_eq_true_2 (cmp start_key end_key > 0)) by done.
      reflexivity.
  - split; [|split; reflexivity]. eexists. split; [reflexivity|]. done.
Qed.

Lemma attach_resolve_range_keys (first : bool) (r r' : Reader Row) (step : range_step) :
  attach_resolve_range first r = Ok (step, r') -> _keys_param r' = _keys_param r.
Proof.
  unfold attach_resolve_range. intros H.
  repeat (case_bool_decide || case_match || simplify_eq/= ||
          match goal with
          | H : _ ≫= _ = Ok _ |- _ => apply bind_Ok in H as (? & ? & ?)
          end); done.
Qed.

(** Under the contract, resolving a range never leaves the key vectors:
    it always answers, and it leaves the keys as they are, so that this
    holds again for the next range. *)
Lemma attach_resolve_range_in_bounds (first : bool) (r : Reader Row) :
  keys_contract (_keys_param r) ->
  exists step r', attach_resolve_range first r = Ok (step, r') /\
                  _keys_param r' = _keys_param r.
Proof.
  intros Hc.
  assert (exists x, attach_resolve_range first r = Ok x) as [[step r'] H].
  { unfold attach_resolve_range.
    destruct (decide (0 < length (start_keys (_keys_param r)))%nat) as [H1|H1];
      [rewrite bool_decide_true by done
      |rewrite bool_decide_false by done; case_bool_decide; eauto].
    destruct (decide (length (start_keys (_keys_param r)) <= _next_key_index r)%nat)
      as [H2|H2];
      [rewrite bool_decide_true by done; eauto | rewrite bool_decide_false by done].
    destruct (start_keys (_keys_param r) !! _next_key_index r) as [sk|] eqn:Hs;
      [|apply lookup_ge_None in Hs; lia].
    assert (exists e,
      (if bool_decide (0%nat <> length (end_keys (_keys_param r))) then
         match end_keys (_keys_param r) !! _next_key_index r with
         | None => Fault OutOfBounds
         | Some end_key =>
             if bool_decide (end_range (_keys_param r) = "lt"%string)
             then Ok (inl (Some end_key, false))
             else if bool_decide (end_range (_keys_param r) = "le"%string)
                  then Ok (inl (Some end_key, true))
                  else Ok (inr OLAP_ERR_READER_GET_ITERATOR_ERROR)
         end
       else Ok (inl (None, false)))
      = (Ok e : result (option Row * bool + OLAPStatus))) as [e ->].
    { case_bool_decide as H3; [|eauto].
      destruct (end_keys (_keys_param r) !! _next_key_index r) as [ek|] eqn:He.
      - repeat case_bool_decide; eauto.
      - apply lookup_ge_None in He. destruct Hc as [Hc|Hc]; [lia|].
        rewrite Hc in H3. done. }
    cbn [mbind result_bind].
    destruct e as [[[ek|] b]|res]; repeat case_bool_decide; eauto. }
  exists step, r'. split; [done|]. by eapply attach_resolve_range_keys.
Qed.

End Driver.

Lemma attach_crossed_range_eof_witness :
  exists r',
    @_attach_data_to_merge_set _ (ZRowOps 1) 1 false (ex_crossed_range_reader "gt" [2] [2])
      = Ok (OLAP_SUCCESS, true, r') /\
    r' = with_next_key_index 1
           (with_collect_iter (live (clear CollectIterator_new))
              (ex_crossed_range_reader "gt" [2] [2])) /\
    (exists ci', _collect_iter r' = live ci' /\ _children ci' = [] /\ _heap ci' = [] /\
                 _cur_child ci' = None) /\
    _stats r' = _stats (ex_crossed_range_reader "gt" [2] [2]) /\
    _data_sources r' = _data_sources (ex_crossed_range_reader "gt" [2] [2]).
Proof.
  apply (@attach_crossed_range_eof _ (ZRowOps 1) 0%nat false
           (ex_crossed_range_reader "gt" [2] [2]) CollectIterator_new [2] [2]);
    [reflexivity | reflexivity | reflexivity | right; reflexivity |].
  left. split; [reflexivity | vm_compute; discriminate].
Defined.

(** C8. Under the contract of KeysParam every turn of the driver resolves
    its range inside the key vectors, [end_keys[cur_key_index]] included,
    and leaves the keys as they are for the next turn. The access has no
    check of its own: with two start keys and one end key, the second
    range indexes [end_keys] outside its bounds, in the turn itself and in
    a whole scan. *)
Theorem attach_end_keys_bounds :
  (forall (Row : Type) (ops : RowCursorOps Row) (first : bool) (r : Reader Row),
     keys_contract (_keys_param r) ->
     exists step r', attach_resolve_range first r = Ok (step, r') /\
                     _keys_param r' = _keys_param r) /\
  (0 < length (end_keys (_keys_param ex_short_end_keys_reader))
     < length (start_keys (_keys_param ex_short_end_keys_reader)))%nat /\
  @attach_resolve_range _ (ZRowOps 1) false ex_short_end_keys_reader = Fault OutOfBounds /\
  @_attach_data_to_merge_set _ (ZRowOps 1) 64 false ex_short_end_keys_reader
    = Fault OutOfBounds /\
  ex_scan 8 (ex_reader AGG_KEYS READER_QUERY false
               (ex_keys "ge" "le" [[1]; [3]] [[2]])
               [ex_segment 5 false [[1; 10]; [3; 30]]]) = Fault OutOfBounds.
Proof.
  split; [intros Row ops first r; apply attach_resolve_range_in_bounds|].
  split; [vm_compute; lia|].
  split; [reflexivity|]. split; vm_compute; reflexivity.
Qed.

Lemma attach_end_keys_bounds_witness :
  exists step r',
    @attach_resolve_range _ (ZRowOps 1) false (ex_crossed_range_reader "ge" [1] [2])
      = Ok (step, r') /\
    _keys_param r' = _keys_param (ex_crossed_range_reader "ge" [1] [2]).
Proof.
  apply (proj1 attach_end_keys_bounds (list Z) (ZRowOps 1) false
           (ex_crossed_range_reader "ge" [1] [2])).
  left. reflexivity.
Defined.

(** ** The order of the merge *)

Section Order.

Context {Row : Type} {ops : RowCursorOps Row}.
Context (key_cids value_cids : list Z).
Context {laws : RowCursorLaws ops key_cids value_cids}.

Lemma full_key_cmp_refl (a : Row) : full_key_cmp a a = 0.
Proof. pose proof (full_key_cmp_antisym a a). lia. Qed.

Lemma full_key_cmp_sym0 (a b : Row) : full_key_cmp a b = 0 -> full_key_cmp b a = 0.
Proof.
  pose proof (full_key_cmp_antisym a b). pose proof (full_key_cmp_antisym b a). lia.
Qed.

Lemma full_key_cmp_eq_le (a b c : Row) :
  full_key_cmp a b = 0 -> full_key_cmp b c <= 0 -> full_key_cmp a c <= 0.
Proof. intros H1 H2. apply (full_key_cmp_trans a b c); lia. Qed.

Lemma full_key_cmp_le_eq (a b c : Row) :
  full_key_cmp a b <= 0 -> full_key_cmp b c = 0 -> full_key_cmp a c <= 0.
Proof. intros H1 H2. apply (full_key_cmp_trans a b c); lia. Qed.

Lemma full_key_cmp_eq_trans (a b c : Row) :
  full_key_cmp a b = 0 -> full_key_cmp b c = 0 -> full_key_cmp a c = 0.
Proof.
  intros H1 H2.
  pose proof (full_key_cmp_sym0 _ _ H1). pose proof (full_key_cmp_sym0 _ _ H2).
  pose proof (full_key_cmp_trans a b c). pose proof (full_key_cmp_trans c b a).
  pose proof (full_key_cmp_antisym a c). pose proof (full_key_cmp_antisym c a). lia.
Qed.

Lemma entry_le_refl (a : Row * Z) : entry_le a a.
Proof. right. split; [apply full_key_cmp_refl | lia]. Qed.

Lemma entry_le_total (a b : Row * Z) : ~ entry_le a b -> entry_le b a.
Proof.
  unfold entry_le. intros H.
  pose proof (full_key_cmp_antisym a.1 b.1). pose proof (full_key_cmp_antisym b.1 a.1). lia.
Qed.

Lemma entry_le_trans (a b c : Row * Z) : entry_le a b -> entry_le b c -> entry_le a c.
Proof.
  unfold entry_le. intros H1 H2.
  pose proof (full_key_cmp_antisym a.1 b.1). pose proof (full_key_cmp_antisym b.1 a.1).
  pose proof (full_key_cmp_antisym b.1 c.1). pose proof (full_key_cmp_antisym c.1 b.1).
  pose proof (full_key_cmp_antisym a.1 c.1). pose proof (full_key_cmp_antisym c.1 a.1).
  pose proof (full_key_cmp_trans a.1 b.1 c.1). pose proof (full_key_cmp_trans c.1 b.1 a.1).
  pose proof (full_key_cmp_trans b.1 c.1 a.1). pose proof (full_key_cmp_trans c.1 a.1 b.1).
  pose proof (full_key_cmp_trans b.1 a.1 c.1). pose proof (full_key_cmp_trans a.1 c.1 b.1).
  lia.
Qed.

(** Within one key the merge order is the order of the versions. *)
Lemma entry_le_same_key (a b : Row * Z) :
  entry_le a b -> full_key_cmp a.1 b.1 = 0 -> a.2 <= b.2.
Proof. unfold entry_le. lia. Qed.

Lemma entry_le_key (a b : Row * Z) : entry_le a b -> full_key_cmp a.1 b.1 <= 0.
Proof. unfold entry_le. lia. Qed.

Lemma key_le_entry_le (a b : Row) (v : Z) : full_key_cmp a b <= 0 -> entry_le (a, v) (b, v).
Proof. unfold entry_le. simpl. lia. Qed.

(** The comparator orders [a] before [b] exactly when [b] comes strictly
    first in the merge order. *)
Lemma ChildCtxComparator_spec (children : list (ChildCtx Row)) (a b : nat) (before : bool) :
  ChildCtxComparator children a b = Ok before ->
  exists ea eb, child_entry children a = Some ea /\ child_entry children b = Some eb /\
                (before = true <-> ~ entry_le ea eb).
Proof.
  unfold ChildCtxComparator, child_entry, entry_le.
  destruct (children !! a) as [ca|]; [|discriminate].
  destruct (children !! b) as [cb|]; [|discriminate].
  destruct (_current_row ca) as [ra|]; [|discriminate].
  destruct (_current_row cb) as [rb|]; [|discriminate].
  intros H. eexists _, _. split; [reflexivity|]. split; [reflexivity|]. simpl.
  case_bool_decide as Hc; injection H as <-; rewrite bool_decide_eq_true; lia.
Qed.

Lemma classic_entry_le (a b : Row * Z) : entry_le a b \/ ~ entry_le a b.
Proof. unfold entry_le. lia. Qed.

Lemma heap_best_spec (children : list (ChildCtx Row)) (h : list nat) :
  forall (best t : nat) (eb : Row * Z),
    heap_best children best h = Ok t ->
    child_entry children best = Some eb ->
    t ∈ best :: h /\
    exists et, child_entry children t = Some et /\ entry_le et eb /\
      forall x, x ∈ h -> exists ex, child_entry children x = Some ex /\ entry_le et ex.
Proof.
  induction h as [|x rest IH]; intros best t eb Hb Heb; simpl in Hb.
  - injection Hb as <-. split; [left|]. exists eb. split; [done|].
    split; [apply entry_le_refl|]. intros x Hx. by apply elem_of_nil in Hx.
  - apply bind_Ok in Hb as (before & Hcmp & Hb).
    apply ChildCtxComparator_spec in Hcmp as (eb' & ex & Hb' & Hx & Hbefore).
    rewrite Heb in Hb'. injection Hb' as <-.
    destruct before.
    + assert (entry_le ex eb) as Hle by (apply entry_le_total; tauto).
      destruct (IH x t ex Hb Hx) as (Hin & et & Het & Hle' & Hall).
      split; [right; exact Hin|]. exists et. split; [done|].
      split; [by eapply entry_le_trans|].
      intros y Hy. apply elem_of_cons in Hy as [->|Hy]; [eauto|by apply Hall].
    + assert (entry_le eb ex) as Hle.
      { destruct (classic_entry_le eb ex) as [?|Hn]; [done|]. 
        destruct Hbefore as [_ Hbefore]. by specialize (Hbefore Hn). }
      destruct (IH best t eb Hb Heb) as (Hin & et & Het & Hle' & Hall).
      split.
      { apply elem_of_cons in Hin as [->|Hin]; [left|right; right; exact Hin]. }
      exists et. split; [done|]. split; [done|].
      intros y Hy. apply elem_of_cons in Hy as [->|Hy]; [|by apply Hall].
      exists ex. split; [done|]. by eapply entry_le_trans.
Qed.

End Order.

(** ** Cursors over sorted segments *)

Section SortedCursors.

Context {Row : Type} {ops : RowCursorOps Row}.
Context (key_cids value_cids : list Z).
Context {laws : RowCursorLaws ops key_cids value_cids}.
Variable fuel : nat.

Lemma ascending_suffix (pre l : list Row) : ascending (pre ++ l) -> ascending l.
Proof.
  intros H i j a b Hij Ha Hb.
  apply (H (length pre + i)%nat (length pre + j)%nat); [lia| |];
    by rewrite lookup_app_r, Nat.add_comm, Nat.add_sub by lia.
Qed.

Lemma ascending_head (a : Row) (l : list Row) (b : Row) :
  ascending (a :: l) -> b ∈ l -> full_key_cmp a b <= 0.
Proof.
  intros H Hb. apply list_elem_of_lookup in Hb as [j Hj].
  apply (H 0%nat (Datatypes.S j)); [lia|done|done].
Qed.

Lemma script_rows_cons (x : OLAPStatus * option (RowBlock Row))
    (later : list (OLAPStatus * option (RowBlock Row))) :
  script_rows (x :: later) = block_rows x.2 ++ script_rows later.
Proof. reflexivity. Qed.

Lemma has_remaining_row (b : RowBlock Row) :
  has_remaining b = true -> exists row, get_row b (pos b) = Some row.
Proof.
  unfold has_remaining, get_row. rewrite bool_decide_eq_true. intros H.
  by apply lookup_lt_is_Some_2.
Qed.

Lemma no_remaining_rows (b : RowBlock Row) :
  has_remaining b = false -> block_rows (Some b) = [].
Proof.
  unfold has_remaining, block_rows. rewrite bool_decide_eq_false. intros H.
  apply drop_ge. lia.
Qed.

Lemma refresh_body_rows (dh : DeleteHandler Row) (c : ChildCtx Row)
    (st : ChildCtx Row * OlapReaderStatistics)
    (k : ctrl (ChildCtx Row * OlapReaderStatistics)
              (OLAPStatus * ChildCtx Row * OlapReaderStatistics)) :
  (same_segment c st.1 /\ exists pre, child_rows c = pre ++ child_rows st.1) ->
  _refresh_current_row_body dh st = Ok k ->
  match k with
  | Continue st => same_segment c st.1 /\ exists pre, child_rows c = pre ++ child_rows st.1
  | Break st => same_segment c st.1
  | Return ret =>
      same_segment c ret.1.2 /\
      (ret.1.1 = OLAP_SUCCESS ->
       (exists pre, child_rows c = pre ++ child_rows ret.1.2) /\
       exists b row, _row_block ret.1.2 = Some b /\ rows b !! pos b = Some row /\
                     _current_row ret.1.2 = Some row)
  end.
Proof.
  destruct st as [c0 s0]. simpl.
  intros [Hseg [pre Hpre]] Hb. unfold _refresh_current_row_body in Hb.
  destruct (_row_block c0) as [b|] eqn:Hblk; [|discriminate].
  destruct (has_remaining b) eqn:Hrem.
  - destruct (has_remaining_row b Hrem) as [row Hrow]. rewrite Hrow in Hb.
    assert (Hdrop : child_rows c0 =
                    row :: drop (Datatypes.S (pos b)) (rows b)
                        ++ script_rows (next_blocks (_data c0))).
    { unfold child_rows. rewrite Hblk. simpl. by rewrite (drop_S _ _ _ Hrow). }
    destruct (bool_decide (block_status b = DEL_PARTIAL_SATISFIED)
              && is_filter_data dh (version (_data c0)).2 row);
      injection Hb as <-; simpl.
    + split; [exact Hseg|]. exists (pre ++ [row]).
      rewrite Hpre, Hdrop. unfold child_rows. simpl. by rewrite <- app_assoc.
    + split; [exact Hseg|]. intros _. split.
      * exists pre. rewrite Hpre. reflexivity.
      * exists b, row. done.
  - destruct (get_next_block (_data c0)) as [[res0 blk] d] eqn:Hnext.
    assert (Hd : delete_flag d = delete_flag (_data c0) /\ version d = version (_data c0)).
    { unfold get_next_block in Hnext.
      destruct (next_blocks (_data c0)) as [|[r1 b1] later];
        injection Hnext as <- <- <-; done. }
    assert (Hseg' : same_segment c (set_data d (set_row_block blk c0))).
    { destruct Hseg as (H1 & H2 & H3). destruct Hd as [Hd1 Hd2].
      unfold same_segment. simpl. rewrite Hd1, Hd2. done. }
    case_bool_decide as Hres.
    + injection Hb as <-. simpl. split; [exact Hseg'|]. done.
    + assert (Hrows : child_rows c0 = child_rows (set_data d (set_row_block blk c0))).
      { unfold child_rows. rewrite Hblk, (no_remaining_rows b Hrem). simpl.
        unfold get_next_block in Hnext.
        destruct (next_blocks (_data c0)) as [|[r1 b1] later];
          injection Hnext as <- <- <-; [done|]. simpl. reflexivity. }
      destruct blk; injection Hb as <-; simpl; [|exact Hseg'].
      split; [exact Hseg'|]. exists pre. by rewrite Hpre, Hrows.
Qed.

Lemma refresh_rows (dh : DeleteHandler Row) (c c' : ChildCtx Row)
    (stats stats' : OlapReaderStatistics) (res : OLAPStatus) :
  _refresh_current_row fuel dh c stats = Ok (res, c', stats') ->
  same_segment c c' /\
  (res = OLAP_SUCCESS ->
   (exists pre, child_rows c = pre ++ child_rows c') /\
   exists b row, _row_block c' = Some b /\ rows b !! pos b = Some row /\
                 _current_row c' = Some row).
Proof.
  unfold _refresh_current_row. intros H.
  apply bind_Ok in H as (x & Hloop & H).
  pose proof (loop_invariant (_refresh_current_row_body dh)
    (fun st => same_segment c st.1 /\ exists pre, child_rows c = pre ++ child_rows st.1)
    (fun st => same_segment c st.1)
    (fun ret => same_segment c ret.1.2 /\
       (ret.1.1 = OLAP_SUCCESS ->
        (exists pre, child_rows c = pre ++ child_rows ret.1.2) /\
        exists b row, _row_block ret.1.2 = Some b /\ rows b !! pos b = Some row /\
                      _current_row ret.1.2 = Some row))) as Hinv.
  specialize (Hinv (refresh_body_rows dh c)).
  assert (Hinit : same_segment c c /\ exists pre, child_rows c = pre ++ child_rows c).
  { split; [done|]. by exists []. }
  specialize (Hinv fuel (c, stats) x Hinit Hloop).
  destruct x as [[c0 s0]|[[res0 c0] s0]].
  - injection H as <- <- <-. simpl in *. split; [exact Hinv|]. discriminate.
  - injection H as <- <- <-. exact Hinv.
Qed.

(** Advancing a cursor that is in order: on success it is in order again
    and stands on a row that is not before the one it left. *)
Lemma ChildCtx_next_sorted (dh : DeleteHandler Row) (c c' : ChildCtx Row)
    (stats stats' : OlapReaderStatistics) (res : OLAPStatus)
    (row : option Row) (flag : bool) :
  child_ok c ->
  ChildCtx_next fuel dh c stats = Ok (res, row, flag, c', stats') ->
  row = _current_row c' /\ flag = _is_delete c' /\ same_segment c c' /\
  (res = OLAP_SUCCESS ->
   child_ok c' /\
   exists r0 r1, _current_row c = Some r0 /\ _current_row c' = Some r1 /\
                 full_key_cmp r0 r1 <= 0) /\
  (res <> OLAP_SUCCESS -> _current_row c' = None).
Proof.
  intros [(b & r0 & Hblk & Hrow & Hcur) [Hdel Hasc]] H.
  unfold ChildCtx_next in H. rewrite Hblk in H.
  apply bind_Ok in H as ([[res0 c0] s0] & Href & H). injection H as <- <- <- <- <-.
  pose proof (refresh_current_row_status fuel _ _ _ _ _ _ Href) as Hstatus.
  apply refresh_rows in Href as [Hseg Hsucc].
  assert (Hrows : child_rows c =
                  r0 :: child_rows (set_row_block (Some (pos_inc b)) c)).
  { unfold child_rows. rewrite Hblk. simpl. by rewrite (drop_S _ _ _ Hrow). }
  split; [done|]. split; [done|]. split; [exact Hseg|]. split.
  - intros Hres. destruct (Hsucc Hres) as [[pre Hpre] (b1 & r1 & Hb1 & Hr1 & Hc1)].
    rewrite Hpre in Hrows.
    assert (Hasc' : ascending (child_rows c0)).
    { rewrite Hrows in Hasc. apply (ascending_suffix (r0 :: pre)). exact Hasc. }
    split.
    + split; [by exists b1, r1|]. split; [|exact Hasc'].
      destruct Hseg as (H1 & H2 & H3). simpl in *. congruence.
    + exists r0, r1. split; [done|]. split; [done|].
      rewrite Hrows in Hasc. apply (ascending_head r0 (pre ++ child_rows c0)); [done|].
      apply elem_of_app. right. unfold child_rows. rewrite Hb1. simpl.
      rewrite (drop_S _ _ _ Hr1). left.
  - intros Hres. destruct (_current_row c0) eqn:E; [|done].
    exfalso. apply Hres, Hstatus. eauto.
Qed.

End SortedCursors.

(** ** The merge heap *)

Section MergeHeap.

Context {Row : Type} {ops : RowCursorOps Row}.
Context (key_cids value_cids : list Z).
Context {laws : RowCursorLaws ops key_cids value_cids}.
Variable fuel : nat.

Lemma child_ok_entry (children : list (ChildCtx Row)) (i : nat) (c : ChildCtx Row) :
  children !! i = Some c -> child_ok c ->
  exists row, _current_row c = Some row /\
              child_entry children i = Some (row, ChildCtx_version c).
Proof.
  intros Hi [(b & row & _ & _ & Hcur) _]. exists row. split; [done|].
  unfold child_entry. by rewrite Hi, Hcur.
Qed.

Lemma heap_top_min (children : list (ChildCtx Row)) (h : list nat) (t : nat) :
  (forall x, x ∈ h -> is_Some (child_entry children x)) ->
  heap_top children h = Ok t ->
  t ∈ h /\
  exists et, child_entry children t = Some et /\
    forall x, x ∈ h -> exists ex, child_entry children x = Some ex /\ entry_le et ex.
Proof.
  destruct h as [|x rest]; [discriminate|]. intros Hall Htop. simpl in Htop.
  destruct (Hall x) as [ex Hex]; [left|].
  destruct (heap_best_spec key_cids value_cids children rest x t ex Htop Hex)
    as (Hin & et & Het & Hle & Hrest).
  split; [done|]. exists et. split; [done|].
  intros y Hy. apply elem_of_cons in Hy as [->|Hy]; [eauto|by apply Hrest].
Qed.

Lemma elem_of_remove_first (t x : nat) (h : list nat) :
  x ∈ remove_first t h -> x ∈ h.
Proof.
  induction h as [|y h IH]; simpl; [done|].
  case_bool_decide; [by right|].
  intros Hx. apply elem_of_cons in Hx as [->|Hx]; [left|right; auto].
Qed.

Lemma remove_first_NoDup (t : nat) (h : list nat) :
  NoDup h -> NoDup (remove_first t h) /\ t ∉ remove_first t h.
Proof.
  induction 1 as [|y h Hy Hnd IH]; simpl.
  - split; [constructor|apply not_elem_of_nil].
  - case_bool_decide as E; [subst; done|].
    destruct IH as [IH1 IH2]. split.
    + constructor; [|done]. intros Hin. by apply Hy, (elem_of_remove_first t).
    + apply not_elem_of_cons. done.
Qed.

(** The members of the heap other than the cursor that moved are as they
    were. *)
Lemma heap_members_after_update (children : list (ChildCtx Row)) (h : list nat)
    (t : nat) (c' : ChildCtx Row) :
  t ∉ h ->
  (forall i, i ∈ h -> exists c, children !! i = Some c /\ child_ok c) ->
  forall i, i ∈ h ->
    (exists c, <[t := c']> children !! i = Some c /\ child_ok c) /\
    child_entry (<[t := c']> children) i = child_entry children i.
Proof.
  intros Ht Hall i Hi. assert (t <> i) by (intros ->; done).
  unfold child_entry. rewrite list_lookup_insert_ne by done. split; [auto|done].
Qed.

Lemma merge_next_sorted (dh : DeleteHandler Row) (ci ci' : CollectIterator Row)
    (stats stats' : OlapReaderStatistics) (res : OLAPStatus) (row : option Row)
    (flag : bool) (t : nat) (e : Row * Z) :
  merge_ok ci ->
  _cur_child ci = Some t ->
  child_entry (_children ci) t = Some e ->
  _merge_next fuel dh ci stats = Ok (res, row, flag, ci', stats') ->
  (res = OLAP_SUCCESS ->
   merge_ok ci' /\ head_is ci' row flag /\
   exists t' e', _cur_child ci' = Some t' /\ child_entry (_children ci') t' = Some e' /\
                 entry_le e e') /\
  (res = OLAP_ERR_DATA_EOF ->
   merge_ok ci' /\ head_is ci' row flag /\ _cur_child ci' = None).
Proof.
  intros (Hm & Hnd & Hch & Htop) Hcur He H. unfold _merge_next in H.
  destruct (_heap ci) as [|x0 h0] eqn:Hheap; [congruence|].
  destruct Htop as (t0 & Htop & Hcur0).
  assert (t0 = t) as -> by congruence. clear Hcur0.
  assert (Hentries : forall x, x ∈ x0 :: h0 -> is_Some (child_entry (_children ci) x)).
  { intros x Hx. destruct (Hch x Hx) as (c & Hc & Hok).
    destruct (child_ok_entry _ _ _ Hc Hok) as (r & _ & Hr). eauto. }
  destruct (heap_top_min _ _ _ Hentries Htop) as (Htin & et & Het & Hmin).
  rewrite He in Het. injection Het as <-.
  unfold heap_pop in H. rewrite Htop in H. cbn [mbind result_bind] in H.
  set (h1 := remove_first t (x0 :: h0)) in *.
  destruct (remove_first_NoDup t _ Hnd) as [Hnd1 Hnot1]. fold h1 in Hnd1, Hnot1.
  assert (Hsub : forall x, x ∈ h1 -> x ∈ x0 :: h0) by (intros x; apply elem_of_remove_first).
  apply bind_Ok in H as ([[[[res0 row0] flag0] ci1] stats1] & Hnext & H).
  unfold cur_child_next in Hnext. cbn [_cur_child set_heap _children] in Hnext.
  rewrite Hcur in Hnext.
  destruct (Hch t Htin) as (c & Hc & Hcok). rewrite Hc in Hnext.
  apply bind_Ok in Hnext as ([[[[res1 row1] flag1] c'] stats2] & Hcn & Hnext).
  injection Hnext as <- <- <- <- <-.
  destruct (ChildCtx_next_sorted fuel _ _ _ _ _ _ _ _ Hcok Hcn)
    as (Hrow1 & Hflag1 & Hseg & Hsucc & Hfail).
  destruct (child_ok_entry _ _ _ Hc Hcok) as (r0 & Hr0 & He0).
  rewrite He in He0. injection He0 as ->.
  pose proof (heap_members_after_update (_children ci) h1 t c' Hnot1
                (fun i Hi => Hch i (Hsub i Hi))) as Hkeep.
  assert (Hlt : (t < length (_children ci))%nat) by (by eapply lookup_lt_Some).
  (* a head taken among the cursors that did not move *)
  assert (Hold : forall t', t' ∈ h1 ->
            exists e', child_entry (<[t := c']> (_children ci)) t' = Some e' /\
                       entry_le (r0, ChildCtx_version c) e').
  { intros t' Ht'. destruct (Hkeep t' Ht') as [_ Heq]. rewrite Heq.
    destruct (Hmin t' (Hsub t' Ht')) as (e' & He' & Hle). eauto. }
  cbn [_cur_child set_children set_heap _heap _children] in H.
  case_bool_decide as Hres1.
  - (* the cursor moved to its next row *)
    subst res1. destruct (Hsucc eq_refl) as (Hcok' & r0' & r1 & Hr0' & Hr1 & Hle01).
    rewrite Hr0 in Hr0'. injection Hr0' as <-.
    rewrite Hcur in H.
    apply bind_Ok in H as (t' & Htop' & H).
    cbn [_cur_child set_children set_heap set_cur_child _heap _children] in H, Htop'.
    apply bind_Ok in H as ([row2 flag2] & Hcr & H). injection H as <- <- <- <- <-.
    assert (Hmem : forall i, i ∈ heap_push t h1 ->
              exists c0, <[t := c']> (_children ci) !! i = Some c0 /\ child_ok c0).
    { intros i Hi. apply elem_of_app in Hi as [Hi|Hi].
      - by apply Hkeep.
      - apply list_elem_of_singleton in Hi as ->. exists c'.
        split; [by apply list_lookup_insert_eq|done]. }
    assert (Hentries' : forall x, x ∈ heap_push t h1 ->
              is_Some (child_entry (<[t := c']> (_children ci)) x)).
    { intros x Hx. destruct (Hmem x Hx) as (c0 & Hc0 & Hok0).
      destruct (child_ok_entry _ _ _ Hc0 Hok0) as (r & _ & Hr). eauto. }
    destruct (heap_top_min _ _ _ Hentries' Htop') as (Htin' & et' & Het' & _).
    split; [|discriminate]. intros _.
    destruct (Hmem t' Htin') as (ct' & Hct' & Hokt').
    unfold CollectIterator_current_row in Hcr.
    cbn [_cur_child set_children set_heap set_cur_child _heap _children] in Hcr.
    rewrite Hct' in Hcr. injection Hcr as <- <-.
    split; [|split].
    + split; [exact Hm|]. split.
      { cbn [_cur_child set_children set_heap set_cur_child _heap _children].
        unfold heap_push. apply list.NoDup_app. split; [done|]. split; [|apply NoDup_singleton].
        intros x Hx Hx'. apply list_elem_of_singleton in Hx' as ->. done. }
      split; [exact Hmem|].
      cbn [_cur_child set_children set_heap set_cur_child _heap _children].
      destruct (heap_push t h1) eqn:Hpush; [by apply app_eq_nil in Hpush as [_ ?]|].
      eauto.
    + unfold head_is. cbn [_cur_child set_children set_heap set_cur_child _heap _children].
      exists ct'. done.
    + exists t', et'. split; [done|]. split; [exact Het'|].
      apply elem_of_app in Htin' as [Hin|Hin].
      * destruct (Hold t' Hin) as (e' & He' & Hle).
        cbn [_cur_child set_children set_heap set_cur_child _heap _children] in Het'.
        congruence.
      * apply list_elem_of_singleton in Hin as ->.
        cbn [_cur_child set_children set_heap set_cur_child _heap _children] in Het'.
        unfold child_entry in Het'. rewrite list_lookup_insert_eq in Het' by done.
        rewrite Hr1 in Het'. injection Het' as <-.
        destruct Hseg as (_ & _ & Hv). unfold ChildCtx_version. rewrite Hv.
        apply key_le_entry_le. exact Hle01.
  - case_bool_decide as Heof.
    + (* the cursor is exhausted *)
      subst res1. specialize (Hfail Hres1).
      case_bool_decide as Hsize.
      * apply bind_Ok in H as (t' & Htop' & H).
        cbn [_cur_child set_children set_heap set_cur_child _heap _children] in H, Htop'.
        apply bind_Ok in H as ([row2 flag2] & Hcr & H). injection H as <- <- <- <- <-.
        assert (Hentries' : forall x, x ∈ h1 ->
                  is_Some (child_entry (<[t := c']> (_children ci)) x)).
        { intros x Hx. destruct (Hold x Hx) as (e' & He' & _). eauto. }
        destruct (heap_top_min _ _ _ Hentries' Htop') as (Htin' & et' & Het' & _).
        split; [|discriminate]. intros _.
        destruct (Hkeep t' Htin') as [(ct' & Hct' & Hokt') _].
        unfold CollectIterator_current_row in Hcr.
        cbn [_cur_child set_children set_heap set_cur_child _heap _children] in Hcr.
        rewrite Hct' in Hcr. injection Hcr as <- <-.
        split; [|split].
        -- split; [exact Hm|]. split; [exact Hnd1|].
           split; [intros i Hi; by apply Hkeep|].
           cbn [_cur_child set_children set_heap set_cur_child _heap _children].
           destruct h1 eqn:Hh1; [by apply elem_of_nil in Htin'|]. eauto.
        -- unfold head_is.
           cbn [_cur_child set_children set_heap set_cur_child _heap _children].
           exists ct'. done.
        -- exists t', et'. split; [done|]. split; [exact Het'|].
           destruct (Hold t' Htin') as (e' & He' & Hle).
           cbn [_cur_child set_children set_heap set_cur_child _heap _children] in Het'.
           congruence.
      * injection H as <- <- <- <- <-. split; [discriminate|]. intros _.
        assert (h1 = []) as Hh1.
        { destruct h1; [done|]. simpl in Hsize. lia. }
        split; [|split].
        -- split; [exact Hm|]. 
           cbn [_cur_child set_children set_heap set_cur_child _heap _children].
           rewrite Hh1. split; [constructor|]. split; [|done].
           intros i Hi. by apply elem_of_nil in Hi.
        -- unfold head_is.
           cbn [_cur_child set_children set_heap set_cur_child _heap _children].
           congruence.
        -- reflexivity.
    + injection H as <- <- <- <- <-. split; intros; congruence.
Qed.

End MergeHeap.

(** ** Attaching sorted segments *)

Section Attach.

Context {Row : Type} {ops : RowCursorOps Row}.
Context (key_cids value_cids : list Z).
Context {laws : RowCursorLaws ops key_cids value_cids}.
Variable fuel : nat.

Lemma same_config_refl (r : Reader Row) : same_config r r.
Proof. unfold same_config. tauto. Qed.

Lemma same_config_trans (r1 r2 r3 : Reader Row) :
  same_config r1 r2 -> same_config r2 r3 -> same_config r1 r3.
Proof. unfold same_config. intuition congruence. Qed.

Lemma merge_ok_clear (ci : CollectIterator Row) : _merge ci = true -> merge_ok (clear ci).
Proof.
  intros Hm. split; [exact Hm|]. split; [constructor|]. split; [|reflexivity].
  intros i Hi. by apply elem_of_nil in Hi.
Qed.

Lemma merge_ok_merge (ci : CollectIterator Row) : merge_ok ci -> _merge ci = true.
Proof. by intros [? _]. Qed.

Lemma ChildCtx_init_sorted (dh : DeleteHandler Row) (data : ColumnData Row)
    (block : option (RowBlock Row)) (stats stats' : OlapReaderStatistics)
    (child : ChildCtx Row) :
  ascending (block_rows block ++ script_rows (next_blocks data)) ->
  ChildCtx_init fuel dh (ChildCtx_new data block) stats = Ok (OLAP_SUCCESS, child, stats') ->
  child_ok child.
Proof.
  intros Hasc H. unfold ChildCtx_init in H.
  case_bool_decide as Hrc; [injection H as H _ _; simpl in *; congruence|].
  apply bind_Ok in H as ([[res0 c0] s0] & Href & H).
  case_bool_decide as Hres0; [injection H as H _ _; congruence|].
  injection H as <- <-.
  assert (res0 = OLAP_SUCCESS) as -> by (by destruct (decide (res0 = OLAP_SUCCESS))).
  apply refresh_rows in Href as [(H1 & H2 & H3) Hsucc].
  destruct (Hsucc eq_refl) as [[pre Hpre] Hcur].
  split; [exact Hcur|]. split.
  - simpl in *. congruence.
  - apply (ascending_suffix pre). rewrite <- Hpre. exact Hasc.
Qed.

Lemma add_child_merge_ok (dh : DeleteHandler Row) (ci ci' : CollectIterator Row)
    (data : ColumnData Row) (block : option (RowBlock Row))
    (stats stats' : OlapReaderStatistics) (res : OLAPStatus) :
  merge_ok ci ->
  ascending (block_rows block ++ script_rows (next_blocks data)) ->
  add_child fuel dh ci data block stats = Ok (res, ci', stats') ->
  merge_ok ci'.
Proof.
  intros Hok Hasc H. unfold add_child in H.
  apply bind_Ok in H as ([[res0 child] s0] & Hinit & H).
  case_bool_decide as Hres0; [by injection H as <- <- <-|].
  assert (res0 = OLAP_SUCCESS) as -> by (by destruct (decide (res0 = OLAP_SUCCESS))).
  pose proof (ChildCtx_init_sorted _ _ _ _ _ _ Hasc Hinit) as Hchild.
  destruct (_current_row child) as [row|] eqn:Hrow; [|by injection H as <- <- <-].
  destruct Hok as (Hm & Hnd & Hch & Htop).
  cbn [_merge set_children] in H. rewrite Hm in H.
  apply bind_Ok in H as (t & Ht & H). injection H as <- <- <-.
  cbn [_children _heap set_heap set_children] in Ht.
  assert (Hvalid : forall i, i ∈ _heap ci -> (i < length (_children ci))%nat).
  { intros i Hi. destruct (Hch i Hi) as (c & Hc & _). by eapply lookup_lt_Some. }
  split; [exact Hm|].
  cbn [_children _heap _cur_child set_heap set_children set_cur_child].
  split; [|split].
  - unfold heap_push. apply list.NoDup_app. split; [done|]. split; [|apply NoDup_singleton].
    intros x Hx Hx'. apply list_elem_of_singleton in Hx' as ->.
    specialize (Hvalid _ Hx). lia.
  - intros i Hi. apply elem_of_app in Hi as [Hi|Hi].
    + destruct (Hch i Hi) as (c & Hc & Hcok). exists c. split; [|done].
      by apply lookup_app_l_Some.
    + apply list_elem_of_singleton in Hi as ->. exists child. split; [|done].
      rewrite lookup_app_r by lia. by rewrite Nat.sub_diag.
  - destruct (heap_push (length (_children ci)) (_heap ci)) eqn:Hp;
      [by apply app_eq_nil in Hp as [_ ?]|]. eauto.
Qed.

Lemma attach_data_sources_merge_ok (dh : DeleteHandler Row) (sources : list (ColumnData Row))
    (start_key : option Row) (find_last_row : bool) (end_key : option Row)
    (end_key_find_last_row : bool) :
  Forall sorted_segment sources ->
  forall (ci ci' : CollectIterator Row) (stats stats' : OlapReaderStatistics)
         (res : OLAPStatus),
    merge_ok ci ->
    attach_data_sources fuel dh sources start_key find_last_row end_key
      end_key_find_last_row ci stats = Ok (res, ci', stats') ->
    merge_ok ci'.
Proof.
  induction 1 as [|d sources Hd _ IH]; intros ci ci' stats stats' res Hok H; simpl in H.
  - by injection H as <- <- <-.
  - specialize (Hd start_key find_last_row end_key end_key_find_last_row).
    unfold prepare_block_read in H.
    destruct (seek d start_key find_last_row end_key end_key_find_last_row)
      as [[res0 block] later].
    simpl in Hd. cbn [fst snd] in H.
    case_bool_decide as Hres0.
    + apply bind_Ok in H as ([[res1 ci1] stats1] & Hadd & H).
      assert (merge_ok ci1) as Hok1.
      { eapply add_child_merge_ok; [exact Hok| |exact Hadd]. exact Hd. }
      destruct (bool_decide (res1 <> OLAP_SUCCESS) && bool_decide (res1 <> OLAP_ERR_DATA_EOF)).
      * by injection H as <- <- <-.
      * eapply IH; eauto.
    + case_bool_decide; [eapply IH; eauto|]. by injection H as <- <- <-.
Qed.

Lemma current_row_head (ci : CollectIterator Row) (row : option Row) (flag : option bool)
    (old : bool) :
  CollectIterator_current_row ci = Ok (row, flag) ->
  head_is ci row (default old flag).
Proof.
  unfold CollectIterator_current_row, head_is.
  destruct (_cur_child ci) as [t|]; [|by intros [= <- <-]].
  destruct (_children ci !! t) as [c|]; [|discriminate].
  intros [= <- <-]. exists c. done.
Qed.

(** What resolving a range does to the Reader: the index of the next
    range can only grow, and with at most one range none is left
    afterwards. *)
Lemma attach_resolve_range_frame (first : bool) (r r' : Reader Row) (step : range_step) :
  attach_resolve_range first r = Ok (step, r') ->
  same_config r r' /\ _collect_iter r' = _collect_iter r /\
  _next_key r' = _next_key r /\ _next_delete_flag r' = _next_delete_flag r /\
  _stats r' = _stats r /\ _groups r' = _groups r /\ _merged_rows r' = _merged_rows r /\
  (_next_key_index r <= _next_key_index r')%nat /\
  ((length (start_keys (_keys_param r)) <= 1)%nat -> ranges_done r') /\
  (ranges_done r -> first = false -> step = RangeReturn OLAP_SUCCESS true /\ r' = r).
Proof.
  unfold attach_resolve_range, ranges_done. intros H.
  destruct (decide (0 < length (start_keys (_keys_param r)))%nat) as [H1|H1];
    [rewrite bool_decide_true in H by done | rewrite bool_decide_false in H by done].
  - destruct (decide (length (start_keys (_keys_param r)) <= _next_key_index r)%nat)
      as [H2|H2];
      [rewrite bool_decide_true in H by done | rewrite bool_decide_false in H by done].
    + injection H as <- <-. repeat split; auto; lia.
    + assert (exists s, step = s /\ r' = with_next_key_index (Datatypes.S (_next_key_index r)) r)
        as (s & _ & ->).
      { destruct (start_keys (_keys_param r) !! _next_key_index r); [|discriminate].
        apply bind_Ok in H as (e & _ & H).
        destruct e as [[ek b]|res];
          repeat (case_bool_decide || case_match || simplify_eq/=); eauto. }
      simpl. repeat split; auto; try lia.
  - assert (r' = r) as ->.
    { case_bool_decide; by injection H as _ <-. }
    repeat split; auto; try lia.
    rewrite bool_decide_true in H by done. by injection H as <-.
Qed.

Lemma attach_resolve_range_return (first : bool) (r r' : Reader Row)
    (res : OLAPStatus) (eof : bool) :
  attach_resolve_range first r = Ok (RangeReturn res eof, r') ->
  res = OLAP_SUCCESS -> eof = true.
Proof.
  unfold attach_resolve_range. intros H ->.
  repeat (case_bool_decide || case_match || simplify_eq/= ||
          match goal with
          | H : _ ≫= _ = Ok _ |- _ => apply bind_Ok in H as (? & ? & ?)
          end); done.
Qed.

(** The driver in merge mode over sorted segments. It is entered without
    a head row; when it returns [OLAP_SUCCESS] the iterator is a sound
    merge heap again, with a head row unless [eof] is set. *)
Lemma attach_merge_ok (first : bool) (r r' : Reader Row) (ci : CollectIterator Row)
    (res : OLAPStatus) (eof : bool) :
  _collect_iter r = live ci -> _merge ci = true ->
  _next_key r = None ->
  Forall sorted_segment (_data_sources r) ->
  _attach_data_to_merge_set fuel first r = Ok (res, eof, r') ->
  same_config r r' /\ _groups r' = _groups r /\
  (_next_key_index r <= _next_key_index r')%nat /\
  ((length (start_keys (_keys_param r)) <= 1)%nat -> ranges_done r') /\
  (res = OLAP_SUCCESS ->
   reader_merge_ok r' /\
   (if eof then _next_key r' = None else is_Some (_next_key r'))).
Proof.
  intros Hci Hm Hnk Hsorted H. unfold _attach_data_to_merge_set in H.
  apply bind_Ok in H as (x & Hloop & H).
  set (I := fun (st : bool * Reader Row) =>
              same_config r st.2 /\ _groups st.2 = _groups r /\
              (_next_key_index r <= _next_key_index st.2)%nat /\
              (exists ci0, _collect_iter st.2 = live ci0 /\ _merge ci0 = true) /\
              _next_key st.2 = None /\
              (st.1 = false \/ st.2 = r)).
  set (Qb := fun (st : bool * Reader Row) =>
              same_config r st.2 /\ _groups st.2 = _groups r /\
              (_next_key_index r <= _next_key_index st.2)%nat /\
              ((length (start_keys (_keys_param r)) <= 1)%nat -> ranges_done st.2) /\
              reader_merge_ok st.2 /\ is_Some (_next_key st.2)).
  set (Qr := fun (ret : OLAPStatus * bool * Reader Row) =>
              same_config r ret.2 /\ _groups ret.2 = _groups r /\
              (_next_key_index r <= _next_key_index ret.2)%nat /\
              ((length (start_keys (_keys_param r)) <= 1)%nat -> ranges_done ret.2) /\
              (ret.1.1 = OLAP_SUCCESS ->
               reader_merge_ok ret.2 /\
               (if ret.1.2 then _next_key ret.2 = None else is_Some (_next_key ret.2)))).
  assert (Hbody : forall st c, I st -> _attach_data_to_merge_set_body fuel st = Ok c ->
            match c with Continue s' => I s' | Break s' => Qb s' | Return ret => Qr ret end).
  { clear Hloop H x. intros [first0 r0] c (Hcfg & Hgr & Hidx & (ci0 & Hci0 & Hm0) & Hnk0 & Hfirst) Hb.
    simpl in Hcfg, Hgr, Hidx, Hci0, Hnk0, Hfirst.
    unfold _attach_data_to_merge_set_body in Hb. rewrite Hci0 in Hb.
    cbn [deref mbind result_bind] in Hb.
    apply bind_Ok in Hb as ([step r1] & Hres & Hb).
    pose proof (attach_resolve_range_frame _ _ _ _ Hres)
      as (Hcfg1 & Hci1 & Hnk1 & Hfl1 & Hst1 & Hgr1 & _ & Hidx1 & Hdone1 & _).
    simpl in Hci1, Hnk1, Hfl1, Hst1, Hgr1, Hidx1, Hdone1.
    assert (Hcfg01 : same_config r r1).
    { eapply same_config_trans; [exact Hcfg|].
      eapply same_config_trans; [|exact Hcfg1]. unfold same_config. simpl. tauto. }
    assert (Hlen : (length (start_keys (_keys_param r)) <= 1)%nat -> ranges_done r1).
    { intros Hl. apply Hdone1. destruct Hcfg as (_ & _ & _ & _ & _ & _ & _ & Hkp).
      simpl. by rewrite Hkp. }
    destruct step as [res0 eof0|sk ek flr ekflr].
    - injection Hb as <-. unfold Qr. simpl.
      split; [exact Hcfg01|]. split; [congruence|]. split; [lia|]. split; [exact Hlen|].
      intros ->. split.
      + exists (clear ci0). split; [done|]. split; [by apply merge_ok_clear|].
        unfold head_is. simpl. congruence.
      + rewrite (attach_resolve_range_return _ _ _ _ _ Hres eq_refl). congruence.
    - rewrite Hci1 in Hb. cbn [deref mbind result_bind] in Hb.
      apply bind_Ok in Hb as ([[res0 ci2] stats2] & Hadd & Hb).
      assert (merge_ok ci2) as Hok2.
      { eapply attach_data_sources_merge_ok; [| |exact Hadd].
        - destruct Hcfg01 as (_ & _ & _ & _ & _ & _ & Hds & _). by rewrite Hds.
        - by apply merge_ok_clear. }
      case_bool_decide as Hres0.
      + injection Hb as <-. unfold Qr. simpl.
        split; [unfold same_config in *; simpl; tauto|]. split; [congruence|].
        split; [lia|]. split; [exact Hlen|]. done.
      + apply bind_Ok in Hb as ([row flag] & Hcr & Hb).
        pose proof (current_row_head ci2 row flag
                      (_next_delete_flag (with_stats stats2 (with_collect_iter (live ci2) r1)))
                      Hcr) as Hhead.
        destruct row as [row|]; injection Hb as <-.
        * unfold Qb. simpl.
          split; [unfold same_config in *; simpl; tauto|]. split; [congruence|].
          split; [lia|]. split; [exact Hlen|]. split; [|eauto].
          exists ci2. simpl. done.
        * unfold I. simpl.
          split; [unfold same_config in *; simpl; tauto|]. split; [congruence|].
          split; [lia|]. split; [|split; [done|by left]].
          exists ci2. split; [done|]. by apply merge_ok_merge. }
  assert (Hinit : I (first, r)).
  { unfold I. simpl. split; [apply same_config_refl|]. split; [done|]. split; [lia|].
    split; [eauto|]. split; [done|by right]. }
  pose proof (loop_invariant _ I Qb Qr Hbody fuel (first, r) x Hinit Hloop) as Hfin.
  destruct x as [[first1 r1]|[[res1 eof1] r1]].
  - injection H as <- <- <-. destruct Hfin as (H1 & H2 & H3 & H4 & H5 & H6).
    split; [exact H1|]. split; [exact H2|]. split; [exact H3|]. split; [exact H4|].
    intros _. split; [exact H5|exact H6].
  - injection H as <- <- <-. exact Hfin.
Qed.

End Attach.

(** ** Pulling rows from the merge *)

Section MergeSteps.

Context {Row : Type} {ops : RowCursorOps Row}.
Context (key_cids value_cids : list Z).
Context {laws : RowCursorLaws ops key_cids value_cids}.
Variable fuel : nat.

(** With a head row, the head of the iterator is that row, and the
    segment recorded for it is the one of [_cur_child]. *)
Lemma head_facts (r : Reader Row) (row : Row) :
  reader_merge_ok r -> _next_key r = Some row ->
  exists v, head_entry r = Some (row, v) /\ head_source r = [(v, _next_delete_flag r)].
Proof.
  intros (ci & Hci & Hok & Hhead) Hnk. unfold head_is in Hhead.
  unfold head_entry, head_source. rewrite Hci.
  destruct (_cur_child ci) as [t|]; [|congruence].
  destruct Hhead as (c & Hc & Hrow & Hflag).
  exists (ChildCtx_version c). unfold child_entry. rewrite Hc, <- Hrow, Hnk, Hflag. done.
Qed.

Lemma collect_next_merge (r r' : Reader Row) (res : OLAPStatus) (e : Row * Z) :
  reader_merge_ok r -> head_entry r = Some e ->
  Reader_collect_next fuel r = Ok (res, r') ->
  same_config r r' /\ _groups r' = _groups r /\
  _next_key_index r' = _next_key_index r /\ _merged_rows r' = _merged_rows r /\
  (res = OLAP_SUCCESS ->
   reader_merge_ok r' /\ exists e', head_entry r' = Some e' /\ entry_le e e') /\
  (res = OLAP_ERR_DATA_EOF -> reader_merge_ok r' /\ _next_key r' = None).
Proof.
  intros (ci & Hci & Hok & Hhead) He H. unfold Reader_collect_next in H.
  rewrite Hci in H. cbn [deref mbind result_bind] in H.
  apply bind_Ok in H as ([[[[res0 row] flag] ci'] stats'] & Hnext & H).
  injection H as <- <-.
  split; [unfold same_config; simpl; tauto|]. simpl.
  split; [done|]. split; [done|]. split; [done|].
  unfold head_entry in He. rewrite Hci in He.
  destruct (_cur_child ci) as [t|] eqn:Hcur; [|discriminate].
  unfold CollectIterator_next in Hnext. rewrite (merge_ok_merge _ Hok) in Hnext.
  destruct (merge_next_sorted key_cids value_cids fuel _ _ _ _ _ _ _ _ _ _ Hok Hcur He Hnext)
    as [Hs Heof].
  split.
  - intros Hres. destruct (Hs Hres) as (Hok' & Hhead' & t' & e' & Hcur' & He' & Hle).
    split.
    + exists ci'. done.
    + exists e'. split; [|done]. unfold head_entry. simpl. by rewrite Hcur'.
  - intros Hres. destruct (Heof Hres) as (Hok' & Hhead' & Hcur').
    split.
    + exists ci'. done.
    + unfold head_is in Hhead'. by rewrite Hcur' in Hhead'.
Qed.

(** With no range left, the driver called for a further range answers
    [eof]. *)
Lemma attach_ranges_done (r r' : Reader Row) (res : OLAPStatus) (eof : bool) :
  ranges_done r ->
  _attach_data_to_merge_set fuel false r = Ok (res, eof, r') ->
  res = OLAP_SUCCESS /\ eof = true /\ _next_key r' = _next_key r /\
  _next_delete_flag r' = _next_delete_flag r.
Proof.
  intros Hdone H. unfold _attach_data_to_merge_set in H.
  destruct fuel as [|n]; [discriminate|]. cbn [loop] in H.
  apply bind_Ok in H as (x & Hloop & H).
  apply bind_Ok in Hloop as (c & Hbody & Hloop).
  unfold _attach_data_to_merge_set_body in Hbody.
  apply bind_Ok in Hbody as (ci & Hci & Hbody).
  apply bind_Ok in Hbody as ([step r1] & Hres & Hbody).
  apply attach_resolve_range_frame in Hres as (_ & _ & _ & _ & _ & _ & _ & _ & _ & Hret).
  destruct Hret as [-> ->]; [exact Hdone|reflexivity|].
  injection Hbody as <-. injection Hloop as <-. injection H as <- <- <-. done.
Qed.

(** The opening of the row functions in merge mode over sorted segments. *)
Lemma rearm_merge (r r' : Reader Row) (ret : option (OLAPStatus * bool)) :
  reader_merge_ok r ->
  Forall sorted_segment (_data_sources r) ->
  Reader_rearm fuel r = Ok (ret, r') ->
  same_config r r' /\ _groups r' = _groups r /\
  (ranges_done r -> ranges_done r') /\
  match ret with
  | Some (res, eof) => res = OLAP_SUCCESS -> reader_merge_ok r' /\ eof = true
  | None =>
      reader_merge_ok r' /\ is_Some (_next_key r') /\
      (ranges_done r -> r' = r)
  end.
Proof.
  intros Hok Hsorted H. unfold Reader_rearm in H.
  destruct (_next_key r) as [row|] eqn:Hnk.
  - injection H as <- <-. split; [apply same_config_refl|]. split; [done|].
    split; [done|]. split; [done|]. split; [rewrite Hnk; eauto|done].
  - apply bind_Ok in H as ([[res eof] r1] & Hatt & H).
    destruct Hok as (ci & Hci & Hmok & Hhead).
    pose proof (fun Hd => attach_ranges_done r r1 res eof Hd Hatt) as Hdone.
    destruct (attach_merge_ok fuel _ _ _ _ _ _ Hci (merge_ok_merge _ Hmok)
                Hnk Hsorted Hatt) as (Hcfg & Hgr & Hidx & _ & Hsucc).
    assert (Hmono : ranges_done r -> ranges_done r1).
    { unfold ranges_done. destruct Hcfg as (_ & _ & _ & _ & _ & _ & _ & ->). lia. }
    case_bool_decide as Hres.
    + injection H as <- <-. split; [done|]. split; [done|]. split; [done|]. done.
    + assert (res = OLAP_SUCCESS) as -> by (by destruct (decide (res = OLAP_SUCCESS))).
      destruct (Hsucc eq_refl) as [Hok1 Hnk1].
      destruct eof; injection H as <- <-.
      * split; [done|]. split; [done|]. split; [done|]. done.
      * split; [done|]. split; [done|]. split; [done|]. split; [done|].
        split; [done|]. intros Hd. by destruct (Hdone Hd) as (_ & ? & _).
Qed.

End MergeSteps.

(** ** What every scan keeps *)

Section Frame.

Context {Row : Type} {ops : RowCursorOps Row}.
Variable doris_scanner_row_num : Z.
Variable fuel : nat.

Lemma collect_next_frame (r r' : Reader Row) (res : OLAPStatus) :
  Reader_collect_next fuel r = Ok (res, r') ->
  same_config r r' /\ _groups r' = _groups r /\ _next_key_index r' = _next_key_index r.
Proof.
  unfold Reader_collect_next. intros H.
  apply bind_Ok in H as (ci & _ & H).
  apply bind_Ok in H as ([[[[res0 row] flag] ci'] stats'] & _ & H).
  injection H as <- <-. unfold same_config. simpl. tauto.
Qed.

Lemma attach_frame (first : bool) (r r' : Reader Row) (res : OLAPStatus) (eof : bool) :
  _attach_data_to_merge_set fuel first r = Ok (res, eof, r') ->
  same_config r r' /\ _groups r' = _groups r.
Proof.
  unfold _attach_data_to_merge_set. intros H.
  apply bind_Ok in H as (x & Hloop & H).
  set (I := fun (st : bool * Reader Row) => same_config r st.2 /\ _groups st.2 = _groups r).
  set (Qr := fun (ret : OLAPStatus * bool * Reader Row) =>
               same_config r ret.2 /\ _groups ret.2 = _groups r).
  assert (Hbody : forall st c, I st -> _attach_data_to_merge_set_body fuel st = Ok c ->
            match c with Continue s' => I s' | Break s' => I s' | Return ret => Qr ret end).
  { clear. intros [first0 r0] c [Hcfg Hgr] Hb. simpl in Hcfg, Hgr.
    unfold _attach_data_to_merge_set_body in Hb.
    apply bind_Ok in Hb as (ci0 & _ & Hb).
    apply bind_Ok in Hb as ([step r1] & Hres & Hb).
    apply attach_resolve_range_frame in Hres as (Hcfg1 & _ & _ & _ & _ & Hgr1 & _).
    simpl in Hgr1.
    assert (Hcfg01 : same_config r r1).
    { eapply same_config_trans; [exact Hcfg|].
      eapply same_config_trans; [|exact Hcfg1]. unfold same_config. simpl. tauto. }
    destruct step as [res0 eof0|sk ek flr ekflr].
    - injection Hb as <-. split; [done|]. simpl. congruence.
    - apply bind_Ok in Hb as (ci1 & _ & Hb).
      apply bind_Ok in Hb as ([[res0 ci2] stats2] & _ & Hb).
      case_bool_decide.
      + injection Hb as <-. split; simpl; [unfold same_config in *; simpl; tauto|congruence].
      + apply bind_Ok in Hb as ([row flag] & _ & Hb).
        destruct row; injection Hb as <-;
          (split; simpl; [unfold same_config in *; simpl; tauto|congruence]). }
  assert (Hinit : I (first, r)) by (split; [apply same_config_refl|done]).
  pose proof (loop_invariant _ I I Qr Hbody fuel (first, r) x Hinit Hloop) as Hfin.
  destruct x as [[first1 r1]|[[res1 eof1] r1]]; injection H as <- <- <-; exact Hfin.
Qed.

(** The opening of the row functions returns at once only with an error
    or with [eof]. *)
Lemma rearm_frame (r r' : Reader Row) (ret : option (OLAPStatus * bool)) :
  Reader_rearm fuel r = Ok (ret, r') ->
  same_config r r' /\ _groups r' = _groups r /\
  match ret with
  | Some (res, eof) => res <> OLAP_SUCCESS \/ eof = true
  | None => True
  end.
Proof.
  unfold Reader_rearm. intros H.
  destruct (_next_key r).
  - injection H as <- <-. split; [apply same_config_refl|done].
  - apply bind_Ok in H as ([[res eof] r1] & Hatt & H).
    apply attach_frame in Hatt as [Hcfg Hgr].
    case_bool_decide; [injection H as <- <-; auto|].
    destruct eof; injection H as <- <-; auto.
Qed.

Lemma same_config_keys_type (r r' : Reader Row) :
  same_config r r' -> keys_type (_olap_table r') = keys_type (_olap_table r).
Proof. by intros (-> & _). Qed.

(** *** The groups of [_unique_key_next_row], in every mode *)

Lemma unique_merge_body_frame (r0 : Reader Row)
    (st : Row * bool * Z * list (Z * bool) * Reader Row)
    (c : ctrl (Row * bool * Z * list (Z * bool) * Reader Row)
              (OLAPStatus * bool * Row * Reader Row)) :
  (same_config r0 st.2 /\ _groups st.2 = _groups r0) ->
  _unique_key_merge_body doris_scanner_row_num fuel st = Ok c ->
  match c with
  | Continue s' => same_config r0 s'.2 /\ _groups s'.2 = _groups r0
  | Break s' => same_config r0 s'.2 /\ _groups s'.2 = _groups r0
  | Return ret =>
      ret.1.1.1 <> OLAP_SUCCESS /\ ret.1.1.2 = false /\
      same_config r0 ret.2 /\ _groups ret.2 = _groups r0
  end.
Proof.
  destruct st as [[[[acc cdf] mc] members] r]. simpl. intros [Hcfg Hgr] H.
  unfold _unique_key_merge_body in H.
  destruct (_next_key r) as [head|]; [|by injection H as <-].
  apply bind_Ok in H as ([res r1] & Hnext & H).
  apply collect_next_frame in Hnext as (Hcfg1 & Hgr1 & _).
  assert (same_config r0 r1) by (by eapply same_config_trans).
  assert (_groups r1 = _groups r0) by congruence.
  case_bool_decide as Hres.
  - case_bool_decide; injection H as <-; simpl; done.
  - destruct (bool_decide (keys_type (_olap_table r1) = DUP_KEYS)
              || _aggregation r1 && (mc >? doris_scanner_row_num));
      [by injection H as <-|].
    destruct (_next_key r1) as [next_key|]; [|discriminate].
    destruct (negb (equal (_key_cids r1) acc next_key)); by injection H as <-.
Qed.

Lemma unique_body_groups (E0 : list Row) (r0 : Reader Row) (st : Row * Reader Row)
    (c : ctrl (Row * Reader Row) (OLAPStatus * bool * Row * Reader Row)) :
  (same_config r0 st.2 /\ Forall group_dropped_iff_flag (_groups st.2) /\
   omap g_emitted (_groups st.2) = E0) ->
  _unique_key_next_row_body doris_scanner_row_num fuel st = Ok c ->
  match c with
  | Continue s' =>
      same_config r0 s'.2 /\ Forall group_dropped_iff_flag (_groups s'.2) /\
      omap g_emitted (_groups s'.2) = E0
  | Break s' => False
  | Return ret =>
      same_config r0 ret.2 /\ Forall group_dropped_iff_flag (_groups ret.2) /\
      omap g_emitted (_groups ret.2) =
        E0 ++ (if bool_decide (ret.1.1.1 = OLAP_SUCCESS) && negb ret.1.1.2
               then [ret.1.2] else [])
  end.
Proof.
  destruct st as [cursor r]. simpl. intros (Hcfg & Hall & Hem) H.
  unfold _unique_key_next_row_body in H.
  apply bind_Ok in H as ([ret r1] & Hrearm & H).
  apply rearm_frame in Hrearm as (Hcfg1 & Hgr1 & Hret).
  assert (Hcfg01 : same_config r0 r1) by (by eapply same_config_trans).
  destruct ret as [[res eof]|].
  - injection H as <-. simpl. split; [done|]. rewrite Hgr1. split; [done|].
    destruct Hret as [Hres| ->].
    + rewrite bool_decide_false by done. simpl. by rewrite app_nil_r.
    + rewrite andb_false_r. by rewrite app_nil_r.
  - destruct (_next_key r1) as [next_key|]; [|discriminate].
    apply bind_Ok in H as (x & Hloop & H).
    loop_inv Hloop (unique_merge_body_frame r1)
      (conj (same_config_refl r1) (eq_refl (_groups r1))) Hfin.
    destruct x as [[[[[acc cdf] mc] members] r2]|[[[res eof] row] r2]].
    + simpl in Hfin. destruct Hfin as [Hcfg2 Hgr2].
      assert (Hcfg02 : same_config r0 r2) by (by eapply same_config_trans).
      destruct cdf; simpl in H; injection H as <-; simpl.
      * split; [unfold same_config in *; simpl; tauto|].
        rewrite Hgr2, Hgr1. split.
        { apply list.Forall_app. split; [done|]. apply Forall_singleton.
          split; simpl; [done|discriminate]. }
        rewrite omap_app. simpl. by rewrite app_nil_r.
      * split; [unfold same_config in *; simpl; tauto|].
        rewrite Hgr2, Hgr1. split.
        { apply list.Forall_app. split; [done|]. apply Forall_singleton.
          split; simpl; [discriminate|eauto]. }
        rewrite omap_app. simpl. by rewrite Hem.
    + simpl in Hfin. destruct Hfin as (Hres & Heof & Hcfg2 & Hgr2).
      injection H as <-. simpl.
      split; [by eapply same_config_trans|]. rewrite Hgr2, Hgr1. split; [done|].
      rewrite bool_decide_false by done. simpl. by rewrite app_nil_r.
Qed.

Lemma unique_next_row_groups (r r' : Reader Row) (cursor row : Row)
    (res : OLAPStatus) (eof : bool) :
  Forall group_dropped_iff_flag (_groups r) ->
  _unique_key_next_row doris_scanner_row_num fuel r cursor = Ok (res, eof, row, r') ->
  same_config r r' /\ Forall group_dropped_iff_flag (_groups r') /\
  omap g_emitted (_groups r') =
    omap g_emitted (_groups r) ++
    (if bool_decide (res = OLAP_SUCCESS) && negb eof then [row] else []).
Proof.
  intros Hall H. unfold _unique_key_next_row in H.
  apply bind_Ok in H as (x & Hloop & H).
  loop_inv Hloop (unique_body_groups (omap g_emitted (_groups r)) r)
    (conj (same_config_refl r) (conj Hall (eq_refl (omap g_emitted (_groups r))))) Hfin.
  destruct x as [[c1 r1]|[[[res1 eof1] row1] r1]]; [done|].
  injection H as <- <- <- <-. exact Hfin.
Qed.

(** Every row a scan of a unique-keys table hands out is the row of a
    group whose flag is not set, and every group was dropped and counted
    exactly when its flag is set. *)
Lemma pull_rows_unique_groups (n : nat) :
  forall (r r' : Reader Row) (cursor : Row) (out : list Row) (res : OLAPStatus),
    keys_type (_olap_table r) = UNIQUE_KEYS ->
    Forall group_dropped_iff_flag (_groups r) ->
    pull_rows doris_scanner_row_num fuel n r cursor = Ok (out, res, r') ->
    Forall group_dropped_iff_flag (_groups r') /\
    omap g_emitted (_groups r') = omap g_emitted (_groups r) ++ out.
Proof.
  induction n as [|n IH]; intros r r' cursor out res Hkt Hall H; simpl in H.
  - injection H as <- <- <-. by rewrite app_nil_r.
  - apply bind_Ok in H as ([[[res1 eof1] row1] r1] & Hnext & H).
    unfold next_row_with_aggregation in Hnext. rewrite Hkt in Hnext.
    apply unique_next_row_groups in Hnext as (Hcfg & Hall1 & Hem1); [|done].
    case_bool_decide as Hres1.
    + injection H as <- <- <-. rewrite bool_decide_false in Hem1 by done. done.
    + assert (res1 = OLAP_SUCCESS) as -> by (by destruct (decide (res1 = OLAP_SUCCESS))).
      rewrite bool_decide_true in Hem1 by done.
      destruct eof1; simpl in Hem1.
      * by injection H as <- <- <-.
      * apply bind_Ok in H as ([[out2 res2] r2] & Hrest & H). injection H as <- <- <-.
        apply IH in Hrest as [Hall2 Hem2];
          [|by rewrite (same_config_keys_type _ _ Hcfg)|done].
        split; [done|]. rewrite Hem2, Hem1. by rewrite <- app_assoc.
Qed.

End Frame.

(** ** Unique keys in merge mode *)

Section UniqueMerge.

Context {Row : Type} {ops : RowCursorOps Row}.
Context (key_cids value_cids : list Z).
Context {laws : RowCursorLaws ops key_cids value_cids}.
Hypothesis cover : key_cids_cover ops key_cids.
Variable doris_scanner_row_num : Z.
Variable fuel : nat.

Lemma reader_merge_ok_ext (r r' : Reader Row) :
  _collect_iter r' = _collect_iter r -> _next_key r' = _next_key r ->
  _next_delete_flag r' = _next_delete_flag r ->
  reader_merge_ok r -> reader_merge_ok r'.
Proof. unfold reader_merge_ok. intros -> -> ->. done. Qed.

Lemma unique_merge_body_newest (r0 : Reader Row)
    (st : Row * bool * Z * list (Z * bool) * Reader Row)
    (c : ctrl (Row * bool * Z * list (Z * bool) * Reader Row)
              (OLAPStatus * bool * Row * Reader Row)) :
  _key_cids r0 = key_cids -> _value_cids r0 = value_cids ->
  folding r0 st ->
  _unique_key_merge_body doris_scanner_row_num fuel st = Ok c ->
  match c with
  | Continue s' => folding r0 s'
  | Break s' => folded r0 s'
  | Return ret =>
      ret.1.1.1 <> OLAP_SUCCESS /\ same_config r0 ret.2 /\ _groups ret.2 = _groups r0
  end.
Proof.
  intros Hkc Hvc. destruct st as [[[[acc cdf] mc] members] r].
  intros (Hcfg & Hgr & Hok & row & v & ms & Hnk & Hhe & Hacc & Hmem & Hall) H.
  unfold _unique_key_merge_body in H. rewrite Hnk in H.
  apply bind_Ok in H as ([res r1] & Hnext & H).
  destruct (collect_next_merge key_cids value_cids fuel _ _ _ _ Hok Hhe Hnext)
    as (Hcfg1 & Hgr1 & _ & _ & Hsucc & Heof).
  assert (Hcfg01 : same_config r0 r1) by (by eapply same_config_trans).
  assert (Hgr01 : _groups r1 = _groups r0) by congruence.
  case_bool_decide as Hres.
  - case_bool_decide as Hres'.
    + injection H as <-. simpl. done.
    + assert (res = OLAP_ERR_DATA_EOF) as ->
        by (by destruct (decide (res = OLAP_ERR_DATA_EOF))).
      injection H as <-. destruct (Heof eq_refl) as [Hok1 _].
      split; [done|]. split; [done|]. split; [done|]. eauto.
  - assert (res = OLAP_SUCCESS) as -> by (by destruct (decide (res = OLAP_SUCCESS))).
    destruct (Hsucc eq_refl) as (Hok1 & e' & He' & Hle).
    destruct (bool_decide (keys_type (_olap_table r1) = DUP_KEYS)
              || _aggregation r1 && (mc >? doris_scanner_row_num)).
    { injection H as <-. split; [done|]. split; [done|]. split; [done|]. eauto. }
    destruct (_next_key r1) as [next_key|] eqn:Hnk1; [|discriminate].
    destruct (head_facts r1 next_key Hok1 Hnk1) as (v' & Hhe1 & Hsrc).
    rewrite Hhe1 in He'. injection He' as <-.
    assert (Hk1 : _key_cids r1 = key_cids).
    { destruct Hcfg01 as (_ & _ & _ & -> & _). exact Hkc. }
    assert (Hv1 : _value_cids r1 = value_cids).
    { destruct Hcfg01 as (_ & _ & _ & _ & -> & _). exact Hvc. }
    rewrite Hk1, Hv1 in H.
    destruct (equal key_cids acc next_key) eqn:Heq; simpl in H; injection H as <-.
    + (* the next row has the key of the group: it is folded *)
      pose proof (cover _ _ Heq) as Hacc1.
      assert (Hrows : full_key_cmp row next_key = 0).
      { eapply (full_key_cmp_eq_trans key_cids value_cids); [|exact Hacc1].
        by apply (full_key_cmp_sym0 key_cids value_cids). }
      pose proof (entry_le_same_key _ _ Hle Hrows) as Hv. simpl in Hv.
      split; [done|]. split; [done|]. split; [done|].
      exists next_key, v', members. split; [done|]. split; [done|]. split.
      { eapply (full_key_cmp_eq_trans key_cids value_cids); [apply aggregate_key|done]. }
      rewrite Hsrc. split; [done|].
      apply list.Forall_app. split.
      * eapply list.Forall_impl; [exact Hall|]. simpl. intros m Hm. lia.
      * apply Forall_singleton. simpl. lia.
    + split; [done|]. split; [done|]. split; [done|]. eauto.
Qed.

Lemma unique_body_newest (r0 : Reader Row) (st : Row * Reader Row)
    (c : ctrl (Row * Reader Row) (OLAPStatus * bool * Row * Reader Row)) :
  _key_cids r0 = key_cids -> _value_cids r0 = value_cids ->
  Forall sorted_segment (_data_sources r0) ->
  (same_config r0 st.2 /\ reader_merge_ok st.2 /\
   Forall group_newest_flag (_groups st.2)) ->
  _unique_key_next_row_body doris_scanner_row_num fuel st = Ok c ->
  match c with
  | Continue s' =>
      same_config r0 s'.2 /\ reader_merge_ok s'.2 /\
      Forall group_newest_flag (_groups s'.2)
  | Break s' => False
  | Return ret =>
      same_config r0 ret.2 /\ Forall group_newest_flag (_groups ret.2) /\
      (ret.1.1.1 = OLAP_SUCCESS -> reader_merge_ok ret.2)
  end.
Proof.
  intros Hkc Hvc Hsorted. destruct st as [cursor r]. simpl.
  intros (Hcfg & Hok & Hall) H.
  unfold _unique_key_next_row_body in H.
  apply bind_Ok in H as ([ret r1] & Hrearm & H).
  assert (Hsorted' : Forall sorted_segment (_data_sources r)).
  { destruct Hcfg as (_ & _ & _ & _ & _ & _ & -> & _). exact Hsorted. }
  destruct (rearm_merge fuel _ _ _ Hok Hsorted' Hrearm)
    as (Hcfg1 & Hgr1 & _ & Hret).
  assert (Hcfg01 : same_config r0 r1) by (by eapply same_config_trans).
  destruct ret as [[res eof]|].
  - injection H as <-. simpl. split; [done|]. rewrite Hgr1. split; [done|].
    intros Hres. by destruct (Hret Hres).
  - destruct Hret as (Hok1 & _ & _).
    destruct (_next_key r1) as [next_key|] eqn:Hnk1; [|discriminate].
    destruct (head_facts r1 next_key Hok1 Hnk1) as (v & Hhe1 & Hsrc).
    apply bind_Ok in H as (x & Hloop & H).
    assert (Hinit : folding r1
              (agg_init cursor next_key, _next_delete_flag r1, 0, head_source r1, r1)).
    { split; [apply same_config_refl|]. split; [done|]. split; [done|].
      exists next_key, v, []. split; [done|]. split; [done|].
      split; [apply agg_init_key|]. rewrite Hsrc. split; [done|].
      apply Forall_singleton. simpl. lia. }
    assert (Hk1 : _key_cids r1 = key_cids).
    { destruct Hcfg01 as (_ & _ & _ & -> & _). exact Hkc. }
    assert (Hv1 : _value_cids r1 = value_cids).
    { destruct Hcfg01 as (_ & _ & _ & _ & -> & _). exact Hvc. }
    loop_inv Hloop (fun st c => unique_merge_body_newest r1 st c Hk1 Hv1) Hinit Hfin.
    destruct x as [[[[[acc cdf] mc] members] r2]|[[[res eof] row] r2]].
    + destruct Hfin as (Hcfg2 & Hgr2 & Hok2 & v2 & ms2 & Hmem & Hle).
      assert (Hcfg02 : same_config r0 r2) by (by eapply same_config_trans).
      assert (Hnew : forall (emitted : option Row) (before after : Z),
                @group_newest_flag Row
                  {| g_members := members; g_flag := cdf; g_emitted := emitted;
                     g_filtered_before := before; g_filtered_after := after |}).
      { intros emitted before after. exists v2. simpl. split; [|done].
        rewrite Hmem. apply last_snoc. }
      destruct cdf; simpl in H; injection H as <-; simpl.
      * split; [unfold same_config in *; simpl; tauto|]. split.
        { eapply reader_merge_ok_ext; [| | |exact Hok2]; reflexivity. }
        rewrite Hgr2, Hgr1. apply list.Forall_app. split; [done|].
        apply Forall_singleton. apply Hnew.
      * split; [unfold same_config in *; simpl; tauto|]. split.
        { rewrite Hgr2, Hgr1. apply list.Forall_app. split; [done|].
          apply Forall_singleton. apply Hnew. }
        intros _. eapply reader_merge_ok_ext; [| | |exact Hok2]; reflexivity.
    + simpl in Hfin. destruct Hfin as (Hres & Hcfg2 & Hgr2).
      injection H as <-. simpl.
      split; [by eapply same_config_trans|]. rewrite Hgr2, Hgr1. split; [done|].
      intros ?. done.
Qed.

Lemma unique_next_row_newest (r r' : Reader Row) (cursor row : Row)
    (res : OLAPStatus) (eof : bool) :
  _key_cids r = key_cids -> _value_cids r = value_cids ->
  Forall sorted_segment (_data_sources r) ->
  reader_merge_ok r -> Forall group_newest_flag (_groups r) ->
  _unique_key_next_row doris_scanner_row_num fuel r cursor = Ok (res, eof, row, r') ->
  same_config r r' /\ Forall group_newest_flag (_groups r') /\
  (res = OLAP_SUCCESS -> reader_merge_ok r').
Proof.
  intros Hkc Hvc Hsorted Hok Hall H. unfold _unique_key_next_row in H.
  apply bind_Ok in H as (x & Hloop & H).
  loop_inv Hloop (fun st c => unique_body_newest r st c Hkc Hvc Hsorted)
    (conj (same_config_refl r) (conj Hok Hall)) Hfin.
  destruct x as [[c1 r1]|[[[res1 eof1] row1] r1]]; [done|].
  injection H as <- <- <- <-. exact Hfin.
Qed.

Lemma pull_rows_unique_newest (n : nat) :
  forall (r r' : Reader Row) (cursor : Row) (out : list Row) (res : OLAPStatus),
    keys_type (_olap_table r) = UNIQUE_KEYS ->
    _key_cids r = key_cids -> _value_cids r = value_cids ->
    Forall sorted_segment (_data_sources r) ->
    reader_merge_ok r -> Forall group_newest_flag (_groups r) ->
    pull_rows doris_scanner_row_num fuel n r cursor = Ok (out, res, r') ->
    Forall group_newest_flag (_groups r').
Proof.
  induction n as [|n IH]; intros r r' cursor out res Hkt Hkc Hvc Hsorted Hok Hall H;
    simpl in H.
  - by injection H as <- <- <-.
  - apply bind_Ok in H as ([[[res1 eof1] row1] r1] & Hnext & H).
    unfold next_row_with_aggregation in Hnext. rewrite Hkt in Hnext.
    apply unique_next_row_newest in Hnext as (Hcfg & Hall1 & Hok1); try done.
    case_bool_decide as Hres1; [by injection H as <- <- <-|].
    assert (res1 = OLAP_SUCCESS) as -> by (by destruct (decide (res1 = OLAP_SUCCESS))).
    destruct eof1; [by injection H as <- <- <-|].
    apply bind_Ok in H as ([[out2 res2] r2] & Hrest & H). injection H as <- <- <-.
    pose proof Hcfg as (Ht & _ & _ & Hk & Hv & _ & Hd & _).
    eapply IH; [| | | | | |exact Hrest]; try congruence; auto.
Qed.

End UniqueMerge.

(** ** The cursor of the examples keeps the laws *)

Lemma lex_cmp_one (x y : Z) :
  lex_cmp [x] [y] = if x <? y then -1 else if y <? x then 1 else 0.
Proof. simpl. destruct (x <? y); [done|]. by destruct (y <? x). Qed.

Lemma ZRow_full_key_cmp (a b : list Z) :
  @full_key_cmp _ (ZRowOps 1) a b =
    if default 0 (a !! 0%nat) <? default 0 (b !! 0%nat) then -1
    else if default 0 (b !! 0%nat) <? default 0 (a !! 0%nat) then 1 else 0.
Proof. apply lex_cmp_one. Qed.

Lemma field_sum_key (d s : list Z) : field_sum [1] d s !! 0%nat = d !! 0%nat.
Proof. destruct d as [|x d]; reflexivity. Qed.

Lemma ZRow_equal (a b : list Z) :
  @equal _ (ZRowOps 1) [0] a b = bool_decide (a !! 0%nat = b !! 0%nat).
Proof. simpl. by rewrite andb_true_r. Qed.

Ltac ltb_cases :=
  repeat match goal with
         | |- context [?x <? ?y] => destruct (Z.ltb_spec x y)
         | H : context [?x <? ?y] |- _ => destruct (Z.ltb_spec x y)
         end; try lia.

#[global] Instance ZRowOps_laws : RowCursorLaws (ZRowOps 1) [0] [1].
Proof.
  split.
  - intros a b. rewrite !ZRow_full_key_cmp. ltb_cases.
  - intros a b c. rewrite !ZRow_full_key_cmp. ltb_cases.
  - intros d s. change (agg_init d s) with s. rewrite ZRow_full_key_cmp. ltb_cases.
  - intros d s. rewrite ZRow_full_key_cmp.
    change (aggregate [1] d s) with (field_sum [1] d s). rewrite field_sum_key. ltb_cases.
  - intros d. change (finalize_one_merge [1] d) with d. rewrite ZRow_full_key_cmp.
    ltb_cases.
  - intros a d s. reflexivity.
  - intros a d s. rewrite !ZRow_equal.
    change (aggregate [1] d s) with (field_sum [1] d s). by rewrite field_sum_key.
  - intros a b. reflexivity.
  - intros a b. reflexivity.
Qed.

Lemma ZRowOps_cover : key_cids_cover (ZRowOps 1) [0].
Proof.
  intros a b. rewrite ZRow_equal, ZRow_full_key_cmp, bool_decide_eq_true. intros ->.
  rewrite Z.ltb_irrefl. reflexivity.
Qed.

Lemma ascending_nil {Row : Type} {ops : RowCursorOps Row} : ascending (@nil Row).
Proof. intros i j a b _ H. by rewrite lookup_nil in H. Qed.

Lemma ascending_cons {Row : Type} {ops : RowCursorOps Row} (x : Row) (l : list Row) :
  Forall (fun y => full_key_cmp x y <= 0) l -> ascending l -> ascending (x :: l).
Proof.
  intros Hx Hl i j a b Hij Ha Hb.
  destruct j as [|j]; [lia|]. simpl in Hb.
  destruct i as [|i]; simpl in Ha.
  - injection Ha as <-. rewrite list.Forall_forall in Hx. apply Hx.
    by eapply list_elem_of_lookup_2.
  - apply (Hl i j); [lia|done|done].
Qed.

Lemma ascending_inv {Row : Type} {ops : RowCursorOps Row} (x : Row) (l : list Row) :
  ascending (x :: l) -> Forall (fun y => full_key_cmp x y <= 0) l /\ ascending l.
Proof.
  intros H. split.
  - apply list.Forall_forall. intros y Hy. apply list_elem_of_lookup in Hy as [j Hj].
    apply (H 0%nat (Datatypes.S j)); [lia|done|done].
  - intros i j a b Hij Ha Hb.
    apply (H (Datatypes.S i) (Datatypes.S j)); [lia|done|done].
Qed.

Lemma ascending_filter {Row : Type} {ops : RowCursorOps Row} (f : Row -> bool)
    (l : list Row) :
  ascending l -> ascending (List.filter f l).
Proof.
  induction l as [|x l IH]; intros H; simpl; [done|].
  apply ascending_inv in H as [Hx Hl].
  destruct (f x); [|auto].
  apply ascending_cons; [|auto].
  rewrite list.Forall_forall in Hx. apply list.Forall_forall. intros y Hy.
  apply Hx. apply list_elem_of_In in Hy. apply List.filter_In in Hy as [Hy _].
  by apply list_elem_of_In.
Qed.

(** A segment of the examples with its rows in key order is sorted. *)
Lemma ex_segment_sorted (nkeys : nat) (v : Z) (del : bool) (l : list (list Z)) :
  @ascending _ (ZRowOps nkeys) l -> @sorted_segment _ (ZRowOps nkeys) (ex_segment v del l).
Proof.
  intros Hl sk flr ek ekflr. simpl.
  pose proof (@ascending_filter _ (ZRowOps nkeys) (ex_in_range sk flr ek ekflr) l Hl) as Hf.
  destruct (List.filter (ex_in_range sk flr ek ekflr) l) as [|x found]; simpl.
  - apply ascending_nil.
  - by rewrite app_nil_r.
Qed.

(** A segment of the examples gives a block whenever a seek succeeds. *)
Lemma ex_segment_gives_block (v : Z) (del : bool) (l : list (list Z)) :
  seek_gives_block (ex_segment v del l).
Proof.
  intros sk flr ek ekflr. simpl.
  destruct (List.filter (ex_in_range sk flr ek ekflr) l); simpl; [discriminate|eauto].
Qed.

(** ** The mode of a scan *)

Lemma scan_merge_mode {Row : Type} (r : Reader Row) :
  keys_type (_olap_table r) <> DUP_KEYS ->
  _reader_type r <> READER_QUERY \/ _aggregation r = false ->
  _merge (CollectIterator_init r CollectIterator_new) = true.
Proof.
  intros Hk Hm. unfold CollectIterator_init.
  destruct Hm as [Hm|Hm].
  - by rewrite bool_decide_false.
  - rewrite Hm. rewrite (bool_decide_false (keys_type (_olap_table r) = DUP_KEYS)) by done.
    by rewrite andb_false_r.
Qed.


(** ** Aggregate keys in merge mode *)

Section AggMerge.

Context {Row : Type} {ops : RowCursorOps Row}.
Context (key_cids value_cids : list Z).
Context {laws : RowCursorLaws ops key_cids value_cids}.
Variable doris_scanner_row_num : Z.
Variable fuel : nat.

Lemma agg_body_folding (r0 : Reader Row) (first : Row) (st : Row * Z * Reader Row)
    (c : ctrl (Row * Z * Reader Row) (OLAPStatus * bool * Row * Reader Row)) :
  _key_cids r0 = key_cids -> _value_cids r0 = value_cids ->
  agg_folding key_cids r0 first st ->
  _agg_key_next_row_body doris_scanner_row_num fuel st = Ok c ->
  match c with
  | Continue s' => agg_folding key_cids r0 first s'
  | Break s' => agg_folded key_cids r0 first s'
  | Return ret => ret.1.1.1 <> OLAP_SUCCESS /\ same_config r0 ret.2
  end.
Proof.
  intros Hkc Hvc. destruct st as [[acc mc] r].
  intros (Hcfg & Hidx & Hok & Hacc & Heq & row & v & Hnk & Hhe & Hle) H.
  unfold _agg_key_next_row_body in H.
  apply bind_Ok in H as ([res r1] & Hnext & H).
  destruct (collect_next_merge key_cids value_cids fuel _ _ _ _ Hok Hhe Hnext)
    as (Hcfg1 & _ & Hidx1 & _ & Hsucc & Heof).
  assert (Hcfg01 : same_config r0 r1) by (by eapply same_config_trans).
  assert (Hidx01 : _next_key_index r1 = _next_key_index r0) by congruence.
  case_bool_decide as Hres.
  - case_bool_decide as Hres'.
    + injection H as <-. simpl. done.
    + assert (res = OLAP_ERR_DATA_EOF) as ->
        by (by destruct (decide (res = OLAP_ERR_DATA_EOF))).
      injection H as <-. destruct (Heof eq_refl) as [Hok1 Hnone].
      repeat (split; [done|]). intros row'. rewrite Hnone. discriminate.
  - assert (res = OLAP_SUCCESS) as -> by (by destruct (decide (res = OLAP_SUCCESS))).
    destruct (Hsucc eq_refl) as (Hok1 & e' & He' & Hle').
    assert (Hhead : forall row', _next_key r1 = Some row' ->
              exists v', head_entry r1 = Some (row', v') /\ full_key_cmp first row' <= 0).
    { intros row' Hrow'. destruct (head_facts r1 row' Hok1 Hrow') as (v' & Hhe1 & _).
      exists v'. split; [done|]. rewrite Hhe1 in He'. injection He' as <-.
      apply entry_le_key in Hle'. simpl in Hle'.
      by eapply full_key_cmp_trans. }
    destruct (_aggregation r1) eqn:Hagg; simpl in H.
    + destruct (mc >? doris_scanner_row_num).
      * (* the row limit cuts the group *)
        injection H as <-. repeat (split; [done|]).
        intros row' Hrow'. destruct (Hhead row' Hrow') as (_ & _ & ?).
        split; [done|]. destruct Hcfg01 as (_ & _ & Ha & _). congruence.
      * destruct (_next_key r1) as [next_key|] eqn:Hnk1; [|discriminate].
        destruct (Hhead next_key eq_refl) as (v' & Hhe1 & Hfirst).
        assert (Hk1 : _key_cids r1 = key_cids).
        { destruct Hcfg01 as (_ & _ & _ & -> & _). exact Hkc. }
        assert (Hv1 : _value_cids r1 = value_cids).
        { destruct Hcfg01 as (_ & _ & _ & _ & -> & _). exact Hvc. }
        rewrite Hk1, Hv1 in H.
        destruct (equal key_cids acc next_key) eqn:Hequal; simpl in H; injection H as <-.
        -- repeat (split; [done|]). split.
           { eapply (full_key_cmp_eq_trans key_cids value_cids); [apply aggregate_key|done]. }
           split; [intros a; by rewrite equal_aggregate|].
           exists next_key, v'. rewrite Hnk1. done.
        -- repeat (split; [done|]). intros row'. rewrite Hnk1. intros [= <-]. done.
    + destruct (_next_key r1) as [next_key|] eqn:Hnk1; [|discriminate].
      destruct (Hhead next_key eq_refl) as (v' & Hhe1 & Hfirst).
      assert (Hk1 : _key_cids r1 = key_cids).
      { destruct Hcfg01 as (_ & _ & _ & -> & _). exact Hkc. }
      assert (Hv1 : _value_cids r1 = value_cids).
      { destruct Hcfg01 as (_ & _ & _ & _ & -> & _). exact Hvc. }
      rewrite Hk1, Hv1 in H.
      destruct (equal key_cids acc next_key) eqn:Hequal; simpl in H; injection H as <-.
      * repeat (split; [done|]). split.
        { eapply (full_key_cmp_eq_trans key_cids value_cids); [apply aggregate_key|done]. }
        split; [intros a; by rewrite equal_aggregate|].
        exists next_key, v'. rewrite Hnk1. done.
      * repeat (split; [done|]). intros row'. rewrite Hnk1. intros [= <-]. done.
Qed.

(** One call of [_agg_key_next_row] in merge mode: the iterator is left
    a sound merge heap. With no range left, the row handed out has the
    key of the head row the call found, and the head row it leaves does
    not come before it. *)
Lemma agg_next_row_order (r r' : Reader Row) (cursor row : Row)
    (res : OLAPStatus) (eof : bool) :
  _key_cids r = key_cids -> _value_cids r = value_cids ->
  Forall sorted_segment (_data_sources r) ->
  reader_merge_ok r ->
  _agg_key_next_row doris_scanner_row_num fuel r cursor = Ok (res, eof, row, r') ->
  same_config r r' /\
  (res = OLAP_SUCCESS -> reader_merge_ok r') /\
  (ranges_done r -> res = OLAP_SUCCESS -> eof = false ->
   ranges_done r' /\
   exists first, _next_key r = Some first /\ full_key_cmp row first = 0 /\
     (forall a, equal key_cids a row = equal key_cids a first) /\
     forall next, _next_key r' = Some next ->
       full_key_cmp row next <= 0 /\
       (_aggregation r = false -> equal key_cids row next = false)).
Proof.
  intros Hkc Hvc Hsorted Hok H. unfold _agg_key_next_row in H.
  apply bind_Ok in H as ([ret r1] & Hrearm & H).
  destruct (rearm_merge fuel _ _ _ Hok Hsorted Hrearm) as (Hcfg1 & _ & _ & Hret).
  destruct ret as [[res1 eof1]|].
  - injection H as <- <- <- <-. split; [done|]. split.
    + intros Hres. by destruct (Hret Hres).
    + intros _ Hres Heof. destruct (Hret Hres) as [_ ?]. congruence.
  - destruct Hret as (Hok1 & _ & Hsame).
    destruct (_next_key r1) as [first|] eqn:Hnk; [|discriminate].
    destruct (head_facts r1 first Hok1 Hnk) as (v & Hhe & _).
    apply bind_Ok in H as (x & Hloop & H).
    assert (Hkc1 : _key_cids r1 = key_cids).
    { destruct Hcfg1 as (_ & _ & _ & -> & _). exact Hkc. }
    assert (Hvc1 : _value_cids r1 = value_cids).
    { destruct Hcfg1 as (_ & _ & _ & _ & -> & _). exact Hvc. }
    assert (Hinit : agg_folding key_cids r1 first (agg_init cursor first, 0, r1)).
    { split; [apply same_config_refl|]. split; [done|]. split; [done|].
      split; [apply agg_init_key|]. split; [intros a; apply equal_agg_init|].
      exists first, v. split; [done|]. split; [done|].
      rewrite (full_key_cmp_refl key_cids value_cids). lia. }
    loop_inv Hloop (fun st c => agg_body_folding r1 first st c Hkc1 Hvc1) Hinit Hfin.
    destruct x as [[[acc mc] r2]|[[[res2 eof2] row2] r2]].
    + destruct Hfin as (Hcfg2 & Hidx2 & Hok2 & Hacc & Heq & Hnext).
      injection H as <- <- <- <-.
      assert (Hok' : reader_merge_ok (with_merged_rows (_merged_rows r2 + mc) r2)).
      { eapply reader_merge_ok_ext; [| | |exact Hok2]; reflexivity. }
      split.
      { eapply same_config_trans; [exact Hcfg1|].
        unfold same_config in *; simpl; tauto. }
      split; [done|]. intros Hdone _ _. specialize (Hsame Hdone). subst r1.
      split.
      { unfold ranges_done in *. simpl. destruct Hcfg2 as (_ & _ & _ & _ & _ & _ & _ & ->).
        by rewrite Hidx2. }
      assert (Hv2 : _value_cids r2 = value_cids).
      { destruct Hcfg2 as (_ & _ & _ & _ & -> & _). exact Hvc. }
      simpl. rewrite Hv2.
      exists first. split; [done|]. split.
      { eapply (full_key_cmp_eq_trans key_cids value_cids); [apply finalize_key|done]. }
      split; [intros a; by rewrite equal_finalize_r|].
      intros next Hn. destruct (Hnext next Hn) as [Hle Hne]. split.
      * eapply (full_key_cmp_eq_le key_cids value_cids); [|exact Hle].
        eapply (full_key_cmp_eq_trans key_cids value_cids); [apply finalize_key|done].
      * intros Ha. rewrite equal_finalize_l. by apply Hne.
    + simpl in Hfin. destruct Hfin as [Hres Hcfg2]. injection H as <- <- <- <-.
      split; [by eapply same_config_trans|]. split; intros; done.
Qed.

(** The caller's loop over an aggregate-keys table in merge mode, with no
    range left: the rows handed out follow the row handed out before
    ([prev]) in key order. *)
Lemma pull_rows_agg_order (n : nat) :
  forall (r r' : Reader Row) (cursor : Row) (prev : option Row)
         (out : list Row) (res : OLAPStatus),
    keys_type (_olap_table r) = AGG_KEYS ->
    _key_cids r = key_cids -> _value_cids r = value_cids ->
    Forall sorted_segment (_data_sources r) ->
    reader_merge_ok r -> ranges_done r ->
    (forall p next, prev = Some p -> _next_key r = Some next ->
       full_key_cmp p next <= 0 /\
       (_aggregation r = false -> equal key_cids p next = false)) ->
    pull_rows doris_scanner_row_num fuel n r cursor = Ok (out, res, r') ->
    keys_non_descending (after_previous prev out) /\
    (_aggregation r = false -> keys_change key_cids (after_previous prev out)).
Proof.
  induction n as [|n IH]; intros r r' cursor prev out res Hkt Hkc Hvc Hsorted Hok Hdone Hprev H.
  - injection H as <- <- <-. by destruct prev.
  - cbn [pull_rows] in H.
    apply bind_Ok in H as ([[[res1 eof1] row1] r1] & Hnext & H).
    unfold next_row_with_aggregation in Hnext. rewrite Hkt in Hnext.
    destruct (agg_next_row_order _ _ _ _ _ _ Hkc Hvc Hsorted Hok Hnext)
      as (Hcfg1 & Hok1 & Hsucc).
    case_bool_decide as Hres; [injection H as <- <- <-; by destruct prev|].
    assert (res1 = OLAP_SUCCESS) as -> by (by destruct (decide (res1 = OLAP_SUCCESS))).
    destruct eof1; [injection H as <- <- <-; by destruct prev|].
    specialize (Hok1 eq_refl).
    destruct (Hsucc Hdone eq_refl eq_refl) as (Hdone1 & first & Hfirst & Hrow & Heq & Hnx).
    apply bind_Ok in H as ([[out2 res2] r2] & Hrest & H). injection H as <- <- <-.
    pose proof Hcfg1 as (Ht1 & _ & Ha1 & Hk1 & Hv1 & _ & Hd1 & _).
    assert (Hrec : keys_non_descending (after_previous (Some row1) out2) /\
                   (_aggregation r1 = false ->
                    keys_change key_cids (after_previous (Some row1) out2))).
    { eapply (IH r1 r2 row1 (Some row1) out2 res2); try congruence.
      intros p next [= <-] Hn. rewrite Ha1. by apply Hnx. }
    simpl in Hrec. destruct Hrec as [Hnd Hch]. rewrite Ha1 in Hch.
    destruct prev as [p|]; simpl; [|done].
    destruct (Hprev p first eq_refl Hfirst) as [Hle Hne].
    split.
    + split; [|done].
      eapply (full_key_cmp_le_eq key_cids value_cids); [exact Hle|].
      by apply (full_key_cmp_sym0 key_cids value_cids).
    + intros Ha. split; [|by apply Hch]. rewrite Heq. by apply Hne.
Qed.

End AggMerge.


(** ** More fuel *)

(** What a function has returned with some fuel, it returns with more. *)
Section FuelMono.

Context {Row : Type} {ops : RowCursorOps Row}.
Variable doris_scanner_row_num : Z.
Variables fuel fuel' : nat.
Hypothesis more : (fuel <= fuel')%nat.

Ltac step H x H1 :=
  let H2 := fresh in
  apply bind_Ok in H; destruct H as (x & H1 & H2); rename H2 into H.

Lemma refresh_mono (dh : DeleteHandler Row) (c : ChildCtx Row)
    (stats : OlapReaderStatistics) x :
  _refresh_current_row fuel dh c stats = Ok x ->
  _refresh_current_row fuel' dh c stats = Ok x.
Proof.
  unfold _refresh_current_row. intros Hf. step Hf y Hy.
  by rewrite (loop_mono _ _ _ _ more (fun _ _ Hb => Hb) _ _ Hy).
Qed.

Lemma ChildCtx_init_mono (dh : DeleteHandler Row) (c : ChildCtx Row)
    (stats : OlapReaderStatistics) x :
  ChildCtx_init fuel dh c stats = Ok x -> ChildCtx_init fuel' dh c stats = Ok x.
Proof.
  unfold ChildCtx_init. case_bool_decide; [done|]. intros Hf. step Hf y Hy.
  by rewrite (refresh_mono _ _ _ _ Hy).
Qed.

Lemma ChildCtx_next_mono (dh : DeleteHandler Row) (c : ChildCtx Row)
    (stats : OlapReaderStatistics) x :
  ChildCtx_next fuel dh c stats = Ok x -> ChildCtx_next fuel' dh c stats = Ok x.
Proof.
  unfold ChildCtx_next. destruct (_row_block c); [|done]. intros Hf. step Hf y Hy.
  by rewrite (refresh_mono _ _ _ _ Hy).
Qed.

Lemma add_child_mono (dh : DeleteHandler Row) (ci : CollectIterator Row)
    (data : ColumnData Row) (block : option (RowBlock Row))
    (stats : OlapReaderStatistics) x :
  add_child fuel dh ci data block stats = Ok x ->
  add_child fuel' dh ci data block stats = Ok x.
Proof.
  unfold add_child. intros Hf. step Hf y Hy. by rewrite (ChildCtx_init_mono _ _ _ _ Hy).
Qed.

Lemma cur_child_next_mono (dh : DeleteHandler Row) (ci : CollectIterator Row)
    (stats : OlapReaderStatistics) x :
  cur_child_next fuel dh ci stats = Ok x -> cur_child_next fuel' dh ci stats = Ok x.
Proof.
  unfold cur_child_next. destruct (_cur_child ci) as [i|]; [|done].
  destruct (_children ci !! i); [|done]. intros Hf. step Hf y Hy.
  by rewrite (ChildCtx_next_mono _ _ _ _ Hy).
Qed.

Lemma CollectIterator_next_mono (dh : DeleteHandler Row) (ci : CollectIterator Row)
    (stats : OlapReaderStatistics) x :
  CollectIterator_next fuel dh ci stats = Ok x ->
  CollectIterator_next fuel' dh ci stats = Ok x.
Proof.
  unfold CollectIterator_next, _merge_next, _normal_next. destruct (_merge ci); intros Hf.
  - step Hf h Hh. rewrite Hh. simpl. step Hf y Hy. by rewrite (cur_child_next_mono _ _ _ _ Hy).
  - step Hf y Hy. by rewrite (cur_child_next_mono _ _ _ _ Hy).
Qed.

Lemma attach_data_sources_mono (dh : DeleteHandler Row) (sources : list (ColumnData Row))
    (start_key : option Row) (find_last_row : bool) (end_key : option Row)
    (end_key_find_last_row : bool) :
  forall (ci : CollectIterator Row) (stats : OlapReaderStatistics) x,
    attach_data_sources fuel dh sources start_key find_last_row end_key
      end_key_find_last_row ci stats = Ok x ->
    attach_data_sources fuel' dh sources start_key find_last_row end_key
      end_key_find_last_row ci stats = Ok x.
Proof.
  induction sources as [|data rest IH]; intros ci stats x Hf; simpl in *; [done|].
  destruct (prepare_block_read data start_key find_last_row end_key end_key_find_last_row)
    as [[res block] data'].
  case_bool_decide; [|case_bool_decide; auto].
  step Hf y Hy. rewrite (add_child_mono _ _ _ _ _ _ Hy). simpl.
  destruct y as [[res1 ci1] stats1].
  destruct (bool_decide (res1 <> OLAP_SUCCESS) && bool_decide (res1 <> OLAP_ERR_DATA_EOF));
    auto.
Qed.

Lemma attach_body_mono (st : bool * Reader Row) c :
  _attach_data_to_merge_set_body fuel st = Ok c ->
  _attach_data_to_merge_set_body fuel' st = Ok c.
Proof.
  unfold _attach_data_to_merge_set_body. destruct st as [first r]. intros Hf.
  step Hf ci Hci. rewrite Hci. simpl. step Hf y Hy. rewrite Hy. simpl.
  destruct y as [[res eof|sk ek flr ekflr] r1]; [done|].
  step Hf ci1 Hci1. rewrite Hci1. simpl. step Hf z Hz.
  by rewrite (attach_data_sources_mono _ _ _ _ _ _ _ _ _ Hz).
Qed.

Lemma attach_mono (first : bool) (r : Reader Row) x :
  _attach_data_to_merge_set fuel first r = Ok x ->
  _attach_data_to_merge_set fuel' first r = Ok x.
Proof.
  unfold _attach_data_to_merge_set. intros Hf. step Hf y Hy.
  by rewrite (loop_mono _ _ _ _ more attach_body_mono _ _ Hy).
Qed.

Lemma collect_next_mono (r : Reader Row) x :
  Reader_collect_next fuel r = Ok x -> Reader_collect_next fuel' r = Ok x.
Proof.
  unfold Reader_collect_next. intros Hf. step Hf ci Hci. rewrite Hci. simpl. step Hf y Hy.
  by rewrite (CollectIterator_next_mono _ _ _ _ Hy).
Qed.

Lemma rearm_mono (r : Reader Row) x :
  Reader_rearm fuel r = Ok x -> Reader_rearm fuel' r = Ok x.
Proof.
  unfold Reader_rearm. destruct (_next_key r); [done|]. intros Hf. step Hf y Hy.
  by rewrite (attach_mono _ _ _ Hy).
Qed.

Lemma dup_key_next_row_mono (r : Reader Row) (cursor : Row) x :
  _dup_key_next_row fuel r cursor = Ok x -> _dup_key_next_row fuel' r cursor = Ok x.
Proof.
  unfold _dup_key_next_row. intros Hf. step Hf y Hy. rewrite (rearm_mono _ _ Hy). simpl.
  destruct y as [[[res eof]|] r1]; [done|].
  destruct (_next_key r1); [|done]. step Hf z Hz. by rewrite (collect_next_mono _ _ Hz).
Qed.

Lemma agg_body_mono (st : Row * Z * Reader Row) c :
  _agg_key_next_row_body doris_scanner_row_num fuel st = Ok c ->
  _agg_key_next_row_body doris_scanner_row_num fuel' st = Ok c.
Proof.
  unfold _agg_key_next_row_body. destruct st as [[acc mc] r]. intros Hf.
  step Hf y Hy. by rewrite (collect_next_mono _ _ Hy).
Qed.

Lemma agg_key_next_row_mono (r : Reader Row) (cursor : Row) x :
  _agg_key_next_row doris_scanner_row_num fuel r cursor = Ok x ->
  _agg_key_next_row doris_scanner_row_num fuel' r cursor = Ok x.
Proof.
  unfold _agg_key_next_row. intros Hf. step Hf y Hy. rewrite (rearm_mono _ _ Hy). simpl.
  destruct y as [[[res eof]|] r1]; [done|].
  destruct (_next_key r1); [|done]. step Hf z Hz.
  by rewrite (loop_mono _ _ _ _ more agg_body_mono _ _ Hz).
Qed.

Lemma unique_merge_body_mono (st : Row * bool * Z * list (Z * bool) * Reader Row) c :
  _unique_key_merge_body doris_scanner_row_num fuel st = Ok c ->
  _unique_key_merge_body doris_scanner_row_num fuel' st = Ok c.
Proof.
  unfold _unique_key_merge_body. destruct st as [[[[acc cdf] mc] members] r].
  destruct (_next_key r); [|done]. intros Hf.
  step Hf y Hy. by rewrite (collect_next_mono _ _ Hy).
Qed.

Lemma unique_body_mono (st : Row * Reader Row) c :
  _unique_key_next_row_body doris_scanner_row_num fuel st = Ok c ->
  _unique_key_next_row_body doris_scanner_row_num fuel' st = Ok c.
Proof.
  unfold _unique_key_next_row_body. destruct st as [cursor r]. intros Hf.
  step Hf y Hy. rewrite (rearm_mono _ _ Hy). simpl.
  destruct y as [[[res eof]|] r1]; [done|].
  destruct (_next_key r1); [|done]. step Hf z Hz.
  by rewrite (loop_mono _ _ _ _ more unique_merge_body_mono _ _ Hz).
Qed.

Lemma unique_key_next_row_mono (r : Reader Row) (cursor : Row) x :
  _unique_key_next_row doris_scanner_row_num fuel r cursor = Ok x ->
  _unique_key_next_row doris_scanner_row_num fuel' r cursor = Ok x.
Proof.
  unfold _unique_key_next_row. intros Hf. step Hf y Hy.
  by rewrite (loop_mono _ _ _ _ more unique_body_mono _ _ Hy).
Qed.

Lemma next_row_mono (r : Reader Row) (cursor : Row) x :
  next_row_with_aggregation doris_scanner_row_num fuel r cursor = Ok x ->
  next_row_with_aggregation doris_scanner_row_num fuel' r cursor = Ok x.
Proof.
  unfold next_row_with_aggregation. destruct (keys_type (_olap_table r)).
  - apply dup_key_next_row_mono.
  - apply unique_key_next_row_mono.
  - apply agg_key_next_row_mono.
Qed.

Lemma pull_rows_mono (n : nat) :
  forall (r : Reader Row) (cursor : Row) x,
    pull_rows doris_scanner_row_num fuel n r cursor = Ok x ->
    pull_rows doris_scanner_row_num fuel' n r cursor = Ok x.
Proof.
  induction n as [|n IH]; intros r cursor x Hf; [done|]. cbn [pull_rows] in *.
  step Hf y Hy. rewrite (next_row_mono _ _ _ Hy). simpl.
  destruct y as [[[res eof] row] r1].
  case_bool_decide; [done|]. destruct eof; [done|].
  step Hf z Hz. by rewrite (IH _ _ _ Hz).
Qed.

Lemma scan_mono (n : nat) (r : Reader Row) (cursor : Row) x :
  scan doris_scanner_row_num fuel n r cursor = Ok x ->
  scan doris_scanner_row_num fuel' n r cursor = Ok x.
Proof.
  unfold scan. intros Hf. step Hf y Hy. rewrite (attach_mono _ _ _ Hy). simpl.
  destruct y as [[res eof] r1]. case_bool_decide; [done|]. by apply pull_rows_mono.
Qed.

End FuelMono.

(** ** Scans in merge mode return *)

Section Returns.

Context {Row : Type} {ops : RowCursorOps Row}.

Lemma script_work_cons (x : OLAPStatus * option (RowBlock Row))
    (later : list (OLAPStatus * option (RowBlock Row))) :
  script_work (x :: later) = Datatypes.S (length (block_rows x.2) + script_work later).
Proof. reflexivity. Qed.

Lemma block_rows_pos_inc (b : RowBlock Row) :
  (pos b < length (rows b))%nat ->
  Datatypes.S (length (block_rows (Some (pos_inc b)))) = length (block_rows (Some b)).
Proof. intros H. simpl. rewrite !length_drop. lia. Qed.

Lemma block_rows_pos_inc_le (b : RowBlock Row) :
  (length (block_rows (Some (pos_inc b))) <= length (block_rows (Some b)))%nat.
Proof. simpl. rewrite !length_drop. lia. Qed.

(** One turn of [_refresh_current_row] on a cursor with a block: it ends,
    and a further turn finds a block and less to do. *)
Lemma refresh_body_returns (dh : DeleteHandler Row) (c : ChildCtx Row)
    (stats : OlapReaderStatistics) :
  is_Some (_row_block c) ->
  exists x, _refresh_current_row_body dh (c, stats) = Ok x /\
    match x with
    | Continue s' => is_Some (_row_block s'.1) /\ (child_work s'.1 < child_work c)%nat
    | Break s' => (child_work s'.1 <= child_work c)%nat
    | Return ret => (child_work ret.1.2 <= child_work c)%nat
    end.
Proof.
  intros [b Hb]. unfold _refresh_current_row_body. rewrite Hb.
  unfold child_work at 2 4 6. rewrite Hb.
  destruct (has_remaining b) eqn:Hrem.
  - unfold has_remaining in Hrem. apply bool_decide_eq_true in Hrem.
    unfold get_row. destruct (rows b !! pos b) as [row|] eqn:Hrow;
      [|apply lookup_ge_None in Hrow; lia].
    destruct (bool_decide (block_status b = DEL_PARTIAL_SATISFIED)
              && is_filter_data dh (version (_data c)).2 row).
    + eexists. split; [reflexivity|]. simpl. split; [by eexists|].
      unfold child_work. simpl. rewrite !length_drop. lia.
    + eexists. split; [reflexivity|]. simpl. unfold child_work. simpl. rewrite Hb. done.
  - unfold has_remaining in Hrem. apply bool_decide_eq_false in Hrem.
    unfold get_next_block.
    destruct (next_blocks (_data c)) as [|[res block] later] eqn:Hnb.
    + eexists. split; [reflexivity|]. simpl. unfold child_work. simpl. rewrite Hnb. simpl. lia.
    + rewrite script_work_cons. simpl.
      case_bool_decide.
      * eexists. split; [reflexivity|]. simpl. unfold child_work. simpl.
        destruct block; simpl; rewrite ?length_drop; lia.
      * destruct block as [b'|]; (eexists; split; [reflexivity|]); simpl.
        -- split; [by eexists|]. unfold child_work. simpl. rewrite !length_drop. lia.
        -- unfold child_work. simpl. lia.
Qed.

Lemma refresh_returns (dh : DeleteHandler Row) (c : ChildCtx Row)
    (stats : OlapReaderStatistics) :
  is_Some (_row_block c) ->
  exists fuel0 x, forall fuel, (fuel0 <= fuel)%nat ->
    _refresh_current_row fuel dh c stats = Ok x.
Proof.
  intros Hb.
  destruct (loop_returns (fun s => child_work s.1) (fun _ => 0%nat)
              (fun s => is_Some (_row_block s.1))
              (fun _ => _refresh_current_row_body dh)) with (s := (c, stats))
    as (f0 & x & Hx); [|done|].
  - intros [c1 stats1] H1. simpl in H1.
    destruct (refresh_body_returns dh c1 stats1 H1) as (x & Hx & Hpost).
    exists 0%nat, x. split; [done|]. destruct x as [s'| |]; [|done..].
    simpl. destruct Hpost. split; [done|]. by left.
  - unfold _refresh_current_row.
    destruct x as [[c' stats']|ret]; eexists f0, _; intros fuel Hf;
      rewrite (Hx fuel fuel Hf Hf); reflexivity.
Qed.

(** [_refresh_current_row] leaves a cursor with no more to do than it
    found. *)
Lemma refresh_work (fuel : nat) (dh : DeleteHandler Row) (c c' : ChildCtx Row)
    (stats stats' : OlapReaderStatistics) (res : OLAPStatus) :
  _refresh_current_row fuel dh c stats = Ok (res, c', stats') ->
  (child_work c' <= child_work c)%nat.
Proof.
  unfold _refresh_current_row. intros H. apply bind_Ok in H as (x & Hloop & H).
  assert (Hbody : forall (s : ChildCtx Row * OlapReaderStatistics) x,
            (child_work s.1 <= child_work c)%nat ->
            _refresh_current_row_body dh s = Ok x ->
            match x with
            | Continue s' => (child_work s'.1 <= child_work c)%nat
            | Break s' => (child_work s'.1 <= child_work c)%nat
            | Return ret => (child_work ret.1.2 <= child_work c)%nat
            end).
  { intros [c1 stats1] y Hle Hy. simpl in Hle.
    destruct (_row_block c1) as [b|] eqn:Hb.
    - destruct (refresh_body_returns dh c1 stats1) as (y' & Hy' & Hpost); [by eexists|].
      rewrite Hy in Hy'. injection Hy' as <-. destruct y; simpl in *; lia.
    - unfold _refresh_current_row_body in Hy. rewrite Hb in Hy. discriminate. }
  assert (Hinit : (child_work (c, stats).1 <= child_work c)%nat) by done.
  loop_inv Hloop Hbody Hinit Hfin.
  destruct x as [[c1 stats1]|[[res1 c1] stats1]]; injection H as <- <- <-; simpl in Hfin.
  - unfold child_work in *. simpl. done.
  - done.
Qed.

End Returns.

Section CursorsReturn.

Context {Row : Type} {ops : RowCursorOps Row}.
Context (key_cids value_cids : list Z).
Context {laws : RowCursorLaws ops key_cids value_cids}.

Lemma ChildCtx_next_returns (dh : DeleteHandler Row) (c : ChildCtx Row)
    (stats : OlapReaderStatistics) :
  child_ok c ->
  exists fuel0 x, forall fuel, (fuel0 <= fuel)%nat -> ChildCtx_next fuel dh c stats = Ok x.
Proof.
  intros [(b & row & Hb & _) _].
  destruct (refresh_returns dh (set_row_block (Some (pos_inc b)) c) stats)
    as (f0 & [[res c'] stats'] & Hx); [by eexists|].
  eexists f0, _. intros fuel Hf. unfold ChildCtx_next. rewrite Hb, (Hx fuel Hf). reflexivity.
Qed.

(** Advancing a cursor leaves it less to do. *)
Lemma ChildCtx_next_work (fuel : nat) (dh : DeleteHandler Row) (c c' : ChildCtx Row)
    (stats stats' : OlapReaderStatistics) (res : OLAPStatus) (row : option Row)
    (flag : bool) :
  child_ok c ->
  ChildCtx_next fuel dh c stats = Ok (res, row, flag, c', stats') ->
  (child_work c' < child_work c)%nat.
Proof.
  intros [(b & r0 & Hb & Hrow & _) _] H. unfold ChildCtx_next in H. rewrite Hb in H.
  apply bind_Ok in H as ([[res0 c0] s0] & Href & H). injection H as <- <- <- <- <-.
  apply refresh_work in Href. apply lookup_lt_Some in Hrow.
  pose proof (block_rows_pos_inc b Hrow) as Hinc.
  unfold child_work in *. rewrite Hb. simpl in *. lia.
Qed.

Lemma ChildCtx_init_returns (dh : DeleteHandler Row) (data : ColumnData Row)
    (block : RowBlock Row) (stats : OlapReaderStatistics) :
  exists fuel0 x, forall fuel, (fuel0 <= fuel)%nat ->
    ChildCtx_init fuel dh (ChildCtx_new data (Some block)) stats = Ok x.
Proof.
  destruct (decide (row_cursor_init data = OLAP_SUCCESS)) as [Hi|Hi].
  - destruct (refresh_returns dh (ChildCtx_new data (Some block)) stats)
      as (f0 & [[res c'] stats'] & Hx); [by eexists|].
    destruct (decide (res = OLAP_SUCCESS)) as [Hr|Hr];
      eexists f0, _; intros fuel Hf; unfold ChildCtx_init; simpl;
      rewrite (bool_decide_eq_false_2 (row_cursor_init data <> OLAP_SUCCESS)) by tauto;
      rewrite (Hx fuel Hf); simpl.
    + rewrite bool_decide_false by tauto. reflexivity.
    + rewrite bool_decide_true by done. reflexivity.
  - eexists 0%nat, _. intros fuel _. unfold ChildCtx_init. simpl.
    rewrite bool_decide_true by done. reflexivity.
Qed.

(** The comparator and the top of the heap are defined on cursors that
    stand on a row. *)
Lemma ChildCtxComparator_returns (children : list (ChildCtx Row)) (a b : nat) :
  is_Some (child_entry children a) -> is_Some (child_entry children b) ->
  exists before, ChildCtxComparator children a b = Ok before.
Proof.
  unfold child_entry, ChildCtxComparator. intros [ea Ha] [eb Hb].
  destruct (children !! a) as [ca|]; [|discriminate].
  destruct (children !! b) as [cb|]; [|discriminate].
  destruct (_current_row ca); [|discriminate].
  destruct (_current_row cb); [|discriminate].
  case_bool_decide; eauto.
Qed.

Lemma heap_best_returns (children : list (ChildCtx Row)) (h : list nat) :
  forall best,
    is_Some (child_entry children best) ->
    (forall x, x ∈ h -> is_Some (child_entry children x)) ->
    exists t, heap_best children best h = Ok t.
Proof.
  induction h as [|x rest IH]; intros best Hb Hall; simpl; [eauto|].
  destruct (ChildCtxComparator_returns children best x Hb) as [before ->];
    [apply Hall; left|].
  simpl. apply IH.
  - destruct before; [apply Hall; left|done].
  - intros y Hy. apply Hall. by right.
Qed.

Lemma heap_top_returns (children : list (ChildCtx Row)) (h : list nat) :
  h <> [] ->
  (forall x, x ∈ h -> is_Some (child_entry children x)) ->
  exists t, heap_top children h = Ok t /\ t ∈ h.
Proof.
  intros Hne Hall. destruct h as [|x rest]; [done|].
  destruct (heap_best_returns children rest x) as [t Ht].
  - apply Hall. left.
  - intros y Hy. apply Hall. by right.
  - exists t. split; [exact Ht|].
    destruct (Hall x) as [ex Hex]; [left|].
    by destruct (heap_best_spec key_cids value_cids children rest x t ex Ht Hex).
Qed.

Lemma sum_remove_first (f : nat -> nat) (t : nat) (h : list nat) :
  t ∈ h -> sum_list_with f h = (f t + sum_list_with f (remove_first t h))%nat.
Proof.
  induction h as [|y h IH]; intros Hin; [by apply elem_of_nil in Hin|]. simpl.
  case_bool_decide as E; [by subst|].
  apply elem_of_cons in Hin as [->|Hin]; [done|]. rewrite (IH Hin). simpl. lia.
Qed.

Lemma sum_list_with_ext_in (f g : nat -> nat) (h : list nat) :
  (forall x, x ∈ h -> f x = g x) -> sum_list_with f h = sum_list_with g h.
Proof.
  induction h as [|y h IH]; intros Hfg; [done|]. simpl.
  rewrite (Hfg y) by left. rewrite IH; [done|]. intros x Hx. apply Hfg. by right.
Qed.

(** The heap after its top cursor [t] moved to [c']: what is left to do
    for the other cursors has not changed. *)
Lemma heap_work_others (children : list (ChildCtx Row)) (t : nat) (c' : ChildCtx Row)
    (h : list nat) :
  t ∉ h ->
  sum_list_with (work_at (<[t := c']> children)) h = sum_list_with (work_at children) h.
Proof.
  intros Ht. apply sum_list_with_ext_in. intros x Hx. unfold work_at.
  rewrite list_lookup_insert_ne; [done|]. intros ->. done.
Qed.

End CursorsReturn.

Section MergeReturns.

Context {Row : Type} {ops : RowCursorOps Row}.
Context (key_cids value_cids : list Z).
Context {laws : RowCursorLaws ops key_cids value_cids}.

Lemma child_ok_work (c : ChildCtx Row) : child_ok c -> (0 < child_work c)%nat.
Proof.
  intros [(b & row & Hb & Hrow & _) _]. apply lookup_lt_Some in Hrow.
  unfold child_work. rewrite Hb. simpl. rewrite length_drop. lia.
Qed.

(** In merge mode [next] returns, and it leaves the cursors of the heap
    less to do. *)
Lemma merge_next_returns (dh : DeleteHandler Row) (ci : CollectIterator Row)
    (stats : OlapReaderStatistics) (t : nat) :
  merge_ok ci -> _cur_child ci = Some t ->
  exists fuel0 x,
    (forall fuel, (fuel0 <= fuel)%nat -> CollectIterator_next fuel dh ci stats = Ok x) /\
    (heap_work x.1.2 < heap_work ci)%nat.
Proof.
  intros (Hm & Hnd & Hch & Htop) Hcur.
  destruct (_heap ci) as [|x0 h0] eqn:Hheap; [congruence|].
  destruct Htop as (t0 & Htop & Hcur0).
  assert (t0 = t) as -> by congruence. clear Hcur0.
  assert (Hentries : forall x, x ∈ x0 :: h0 -> is_Some (child_entry (_children ci) x)).
  { intros x Hx. destruct (Hch x Hx) as (c & Hc & Hok).
    destruct (child_ok_entry _ _ _ Hc Hok) as (r & _ & Hr). eauto. }
  destruct (heap_top_min key_cids value_cids _ _ _ Hentries Htop) as (Htin & _).
  set (h1 := remove_first t (x0 :: h0)) in *.
  destruct (remove_first_NoDup t _ Hnd) as [Hnd1 Hnot1]. fold h1 in Hnd1, Hnot1.
  assert (Hsub : forall x, x ∈ h1 -> x ∈ x0 :: h0) by (intros x; apply elem_of_remove_first).
  destruct (Hch t Htin) as (c & Hc & Hcok).
  destruct (ChildCtx_next_returns dh c stats Hcok)
    as (f0 & [[[[res1 row1] flag1] c'] stats1] & Hnext).
  pose proof (Hnext f0 (le_n _)) as Hcn.
  destruct (ChildCtx_next_sorted f0 _ _ _ _ _ _ _ _ Hcok Hcn)
    as (_ & _ & _ & Hsucc & _).
  pose proof (ChildCtx_next_work f0 _ _ _ _ _ _ _ _ Hcok Hcn) as Hless.
  pose proof (child_ok_work c Hcok) as Hpos.
  pose proof (heap_members_after_update (_children ci) h1 t c' Hnot1
                (fun i Hi => Hch i (Hsub i Hi))) as Hkeep.
  assert (Hlt : (t < length (_children ci))%nat) by (by eapply lookup_lt_Some).
  assert (Hwork : heap_work ci
                  = (child_work c + sum_list_with (work_at (_children ci)) h1)%nat).
  { unfold heap_work. rewrite Hheap, (sum_remove_first _ t) by done.
    unfold work_at at 1. by rewrite Hc. }
  assert (Hothers : sum_list_with (work_at (<[t := c']> (_children ci))) h1
                    = sum_list_with (work_at (_children ci)) h1)
    by (by apply heap_work_others).
  assert (Hold : forall x, x ∈ h1 ->
            is_Some (child_entry (<[t := c']> (_children ci)) x)).
  { intros x Hx. destruct (Hkeep x Hx) as [_ ->]. apply Hentries, Hsub, Hx. }
  assert (Hpre : forall fuel, (f0 <= fuel)%nat ->
            CollectIterator_next fuel dh ci stats =
            let ci1 := set_children (<[t := c']> (_children ci)) (set_heap h1 ci) in
            if bool_decide (res1 = OLAP_SUCCESS) then
              let ci2 := set_heap (heap_push t (_heap ci1)) ci1 in
              t' ← heap_top (_children ci2) (_heap ci2);
              let ci3 := set_cur_child (Some t') ci2 in
              '(row, flag') ← CollectIterator_current_row ci3;
              Ok (OLAP_SUCCESS, row, default flag1 flag', ci3, stats1)
            else if bool_decide (res1 = OLAP_ERR_DATA_EOF) then
              if bool_decide (0 < length (_heap ci1))%nat then
                t' ← heap_top (_children ci1) (_heap ci1);
                let ci3 := set_cur_child (Some t') ci1 in
                '(row, flag') ← CollectIterator_current_row ci3;
                Ok (OLAP_SUCCESS, row, default flag1 flag', ci3, stats1)
              else Ok (OLAP_ERR_DATA_EOF, row1, flag1, set_cur_child None ci1, stats1)
            else Ok (res1, row1, flag1, ci1, stats1)).
  { intros fuel Hf. unfold CollectIterator_next. rewrite Hm.
    unfold _merge_next, heap_pop. rewrite Hheap, Htop. cbn [mbind result_bind].
    unfold cur_child_next. cbn [_cur_child set_heap _children].
    rewrite Hcur, Hc, (Hnext fuel Hf). cbn [mbind result_bind].
    cbn [_cur_child set_children set_heap _heap _children]. rewrite Hcur. reflexivity. }
  assert (Hcr : forall t', is_Some (child_entry (<[t := c']> (_children ci)) t') ->
            exists ct', <[t := c']> (_children ci) !! t' = Some ct').
  { intros t' [e He]. unfold child_entry in He.
    destruct (<[t := c']> (_children ci) !! t'); [eauto|discriminate]. }
  destruct (decide (res1 = OLAP_SUCCESS)) as [Hres|Hres].
  - destruct (Hsucc Hres) as (Hcok' & _).
    assert (Hall : forall x, x ∈ heap_push t h1 ->
              is_Some (child_entry (<[t := c']> (_children ci)) x)).
    { intros x Hx. apply elem_of_app in Hx as [Hx|Hx]; [by apply Hold|].
      apply list_elem_of_singleton in Hx as ->.
      destruct (child_ok_entry (<[t := c']> (_children ci)) t c') as (r & _ & Hr);
        [by apply list_lookup_insert_eq|done|eauto]. }
    destruct (heap_top_returns key_cids value_cids (<[t := c']> (_children ci))
                (heap_push t h1)) as (t' & Htop' & Hin');
      [by intros E; apply app_eq_nil in E as [_ ?]|done|].
    destruct (Hcr t' (Hall t' Hin')) as (ct' & Hct').
    eexists f0, _. split.
    + intros fuel Hf. rewrite (Hpre fuel Hf). cbn zeta.
      rewrite bool_decide_true by done.
      cbn [_cur_child set_children set_heap _heap _children].
      rewrite Htop'. cbn [mbind result_bind].
      unfold CollectIterator_current_row.
      cbn [_cur_child set_children set_heap set_cur_child _heap _children].
      rewrite Hct'. reflexivity.
    + rewrite Hwork. unfold heap_work. simpl. unfold heap_push.
      rewrite sum_list_with_app, Hothers. simpl.
      unfold work_at at 2. rewrite list_lookup_insert_eq by done. lia.
  - destruct (decide (res1 = OLAP_ERR_DATA_EOF)) as [Heof|Heof].
    + destruct (decide (0 < length h1)%nat) as [Hsize|Hsize].
      * destruct (heap_top_returns key_cids value_cids (<[t := c']> (_children ci)) h1)
          as (t' & Htop' & Hin'); [by destruct h1; [simpl in Hsize; lia|]|done|].
        destruct (Hcr t' (Hold t' Hin')) as (ct' & Hct').
        eexists f0, _. split.
        -- intros fuel Hf. rewrite (Hpre fuel Hf). cbn zeta.
           rewrite bool_decide_false by done. rewrite bool_decide_true by done.
           cbn [_cur_child set_children set_heap _heap _children].
           rewrite (bool_decide_eq_true_2 (0 < length h1)%nat) by done.
           rewrite Htop'. cbn [mbind result_bind].
           unfold CollectIterator_current_row.
           cbn [_cur_child set_children set_heap set_cur_child _heap _children].
           rewrite Hct'. reflexivity.
        -- rewrite Hwork. unfold heap_work. simpl. rewrite Hothers. lia.
      * eexists f0, _. split.
        -- intros fuel Hf. rewrite (Hpre fuel Hf). cbn zeta.
           rewrite bool_decide_false by done. rewrite bool_decide_true by done.
           cbn [_cur_child set_children set_heap _heap _children].
           rewrite (bool_decide_eq_false_2 (0 < length h1)%nat) by done.
           reflexivity.
        -- rewrite Hwork. unfold heap_work. simpl. rewrite Hothers. lia.
    + eexists f0, _. split.
      * intros fuel Hf. rewrite (Hpre fuel Hf). cbn zeta.
        rewrite bool_decide_false by done. rewrite bool_decide_false by done.
        reflexivity.
      * rewrite Hwork. unfold heap_work. simpl. rewrite Hothers. lia.
Qed.

End MergeReturns.

Section ReaderReturns.

Context {Row : Type} {ops : RowCursorOps Row}.
Context (key_cids value_cids : list Z).
Context {laws : RowCursorLaws ops key_cids value_cids}.
Variable doris_scanner_row_num : Z.

Lemma head_entry_next_key (r : Reader Row) (e : Row * Z) :
  reader_merge_ok r -> head_entry r = Some e -> _next_key r = Some e.1.
Proof.
  intros (ci & Hci & _ & Hhead). unfold head_entry, head_is in *. rewrite Hci.
  destruct (_cur_child ci) as [t|]; [|discriminate].
  destruct Hhead as (c & Hc & -> & _). unfold child_entry. rewrite Hc.
  destruct (_current_row c); [|discriminate]. by intros [= <-].
Qed.

Lemma collect_next_returns (r : Reader Row) :
  reader_merge_ok r -> is_Some (_next_key r) ->
  exists fuel0 res r',
    (forall fuel, (fuel0 <= fuel)%nat -> Reader_collect_next fuel r = Ok (res, r')) /\
    (reader_work r' < reader_work r)%nat.
Proof.
  intros (ci & Hci & Hok & Hhead) [row Hrow].
  assert (exists t, _cur_child ci = Some t) as [t Hcur].
  { unfold head_is in Hhead. destruct (_cur_child ci); [eauto|congruence]. }
  destruct (merge_next_returns key_cids value_cids (_delete_handler r) ci (_stats r) t Hok Hcur)
    as (f0 & [[[[res row1] flag1] ci1] stats1] & Hnext & Hless).
  eexists f0, res, _. split.
  - intros fuel Hf. unfold Reader_collect_next. rewrite Hci. cbn [deref mbind result_bind].
    rewrite (Hnext fuel Hf). reflexivity.
  - unfold reader_work. simpl. rewrite Hci. exact Hless.
Qed.

(** The work left does not depend on the fuel a step was taken with. *)
Lemma collect_next_work (fuel : nat) (r r' : Reader Row) (res : OLAPStatus) :
  reader_merge_ok r -> is_Some (_next_key r) ->
  Reader_collect_next fuel r = Ok (res, r') ->
  (reader_work r' < reader_work r)%nat.
Proof.
  intros Hok Hnk H.
  destruct (collect_next_returns r Hok Hnk) as (f0 & res0 & r0 & Hx & Hless).
  pose proof (Hx (Nat.max fuel f0) ltac:(lia)) as H1.
  pose proof (collect_next_mono fuel (Nat.max fuel f0) ltac:(lia) _ _ H) as H2.
  congruence.
Qed.

Lemma agg_loop_returns (r0 : Reader Row) (first : Row) (st : Row * Z * Reader Row) :
  _key_cids r0 = key_cids -> _value_cids r0 = value_cids ->
  agg_folding key_cids r0 first st ->
  exists fuel0 x, forall fuel, (fuel0 <= fuel)%nat ->
    loop fuel (_agg_key_next_row_body doris_scanner_row_num fuel) st = Ok x.
Proof.
  intros Hkc Hvc Hst.
  destruct (loop_returns (fun s : Row * Z * Reader Row => reader_work s.2) (fun _ => 0%nat)
              (agg_folding key_cids r0 first)
              (fun fuel => _agg_key_next_row_body doris_scanner_row_num fuel))
    with (s := st) as (f0 & x & Hx); [|done|].
  - intros [[acc mc] r] HI.
    pose proof HI as (Hcfg & Hidx & Hok & Hacc & Heq & row & v & Hnk & Hhe & Hle).
    destruct (collect_next_returns r Hok) as (f0 & res & r1 & Hnext & Hless); [by eexists|].
    assert (Hsame : forall fuel, (f0 <= fuel)%nat ->
              _agg_key_next_row_body doris_scanner_row_num fuel (acc, mc, r)
              = _agg_key_next_row_body doris_scanner_row_num f0 (acc, mc, r)).
    { intros fuel Hf. unfold _agg_key_next_row_body.
      by rewrite (Hnext fuel Hf), (Hnext f0 (le_n _)). }
    assert (exists c, _agg_key_next_row_body doris_scanner_row_num f0 (acc, mc, r) = Ok c)
      as [c Hc].
    { unfold _agg_key_next_row_body. rewrite (Hnext f0 (le_n _)). cbn [mbind result_bind].
      destruct (collect_next_merge key_cids value_cids f0 _ _ _ _ Hok Hhe (Hnext f0 (le_n _)))
        as (_ & _ & _ & _ & Hsucc & _).
      case_bool_decide as Hres; [case_bool_decide; eauto|].
      destruct (_aggregation r1 && (mc >? doris_scanner_row_num)); [eauto|].
      assert (res = OLAP_SUCCESS) as -> by (by destruct (decide (res = OLAP_SUCCESS))).
      destruct (Hsucc eq_refl) as (Hok1 & e' & He' & _).
      rewrite (head_entry_next_key r1 e' Hok1 He').
      destruct (negb (equal (_key_cids r1) acc e'.1)); eauto. }
    exists f0, c. split; [intros fuel Hf; by rewrite Hsame|].
    pose proof (agg_body_folding key_cids value_cids doris_scanner_row_num f0 r0 first
                  (acc, mc, r) c Hkc Hvc HI Hc) as Hpost.
    destruct c as [[[acc' mc'] r']| |]; [|done..].
    split; [exact Hpost|]. left. simpl.
    unfold _agg_key_next_row_body in Hc. rewrite (Hnext f0 (le_n _)) in Hc.
    cbn [mbind result_bind] in Hc.
    repeat case_match; simplify_eq. exact Hless.
  - exists f0, x. intros fuel Hf. by apply Hx.
Qed.

End ReaderReturns.

Section AttachReturns.

Context {Row : Type} {ops : RowCursorOps Row}.
Context (key_cids value_cids : list Z).
Context {laws : RowCursorLaws ops key_cids value_cids}.

Lemma merge_ok_current_row (ci : CollectIterator Row) :
  merge_ok ci -> exists x, CollectIterator_current_row ci = Ok x.
Proof.
  intros (_ & _ & Hch & Htop). unfold CollectIterator_current_row.
  destruct (_heap ci) as [|x0 h0] eqn:Hheap.
  - rewrite Htop. eauto.
  - destruct Htop as (t & Htop & ->).
    assert (Hentries : forall x, x ∈ x0 :: h0 -> is_Some (child_entry (_children ci) x)).
    { intros x Hx. destruct (Hch x Hx) as (c & Hc & Hok).
      destruct (child_ok_entry _ _ _ Hc Hok) as (r & _ & Hr). eauto. }
    destruct (heap_top_min key_cids value_cids _ _ _ Hentries Htop) as (Htin & _).
    destruct (Hch t Htin) as (c & -> & _). eauto.
Qed.

Lemma add_child_returns (dh : DeleteHandler Row) (ci : CollectIterator Row)
    (data : ColumnData Row) (block : RowBlock Row) (stats : OlapReaderStatistics) :
  merge_ok ci ->
  exists fuel0 x, forall fuel, (fuel0 <= fuel)%nat ->
    add_child fuel dh ci data (Some block) stats = Ok x.
Proof.
  intros (Hm & Hnd & Hch & Htop).
  destruct (ChildCtx_init_returns dh data block stats) as (f0 & [[res child] stats'] & Hinit).
  destruct (decide (res = OLAP_SUCCESS)) as [Hres|Hres].
  - destruct (_current_row child) as [row|] eqn:Hrow.
    + destruct (heap_top_returns key_cids value_cids (_children ci ++ [child])
                  (heap_push (length (_children ci)) (_heap ci))) as (t & Ht & _).
      * intros E. by apply app_eq_nil in E as [_ ?].
      * intros x Hx. unfold child_entry. apply elem_of_app in Hx as [Hx|Hx].
        -- destruct (Hch x Hx) as (c & Hc & (b & r & _ & _ & Hcur) & _).
           rewrite lookup_app_l by (by eapply lookup_lt_Some). rewrite Hc, Hcur. eauto.
        -- apply list_elem_of_singleton in Hx as ->.
           rewrite lookup_app_r by done. rewrite Nat.sub_diag. simpl. rewrite Hrow. eauto.
      * eexists f0, _. intros fuel Hf. unfold add_child. rewrite (Hinit fuel Hf).
        cbn [mbind result_bind]. rewrite bool_decide_false by tauto. rewrite Hrow.
        cbn [_merge set_children set_heap _heap _children]. rewrite Hm, Ht. reflexivity.
    + eexists f0, _. intros fuel Hf. unfold add_child. rewrite (Hinit fuel Hf).
      cbn [mbind result_bind]. rewrite bool_decide_false by tauto. rewrite Hrow.
      reflexivity.
  - eexists f0, _. intros fuel Hf. unfold add_child. rewrite (Hinit fuel Hf).
    cbn [mbind result_bind]. rewrite bool_decide_true by done. reflexivity.
Qed.

Lemma attach_data_sources_returns (dh : DeleteHandler Row) (sources : list (ColumnData Row))
    (start_key : option Row) (find_last_row : bool) (end_key : option Row)
    (end_key_find_last_row : bool) :
  Forall sorted_segment sources -> Forall seek_gives_block sources ->
  forall (ci : CollectIterator Row) (stats : OlapReaderStatistics),
    merge_ok ci ->
    exists fuel0 x, forall fuel, (fuel0 <= fuel)%nat ->
      attach_data_sources fuel dh sources start_key find_last_row end_key
        end_key_find_last_row ci stats = Ok x.
Proof.
  induction sources as [|d sources IH]; intros Hsorted Hgives ci stats Hok.
  - by eexists 0%nat, _.
  - apply list.Forall_cons in Hsorted as [Hd Hsorted].
    apply list.Forall_cons in Hgives as [Hg Hgives].
    specialize (Hd start_key find_last_row end_key end_key_find_last_row).
    specialize (Hg start_key find_last_row end_key end_key_find_last_row).
    specialize (IH Hsorted Hgives).
    cbn [attach_data_sources]. unfold prepare_block_read.
    destruct (seek d start_key find_last_row end_key end_key_find_last_row)
      as [[res0 block] later].
    simpl in Hd, Hg.
    destruct (decide (res0 = OLAP_SUCCESS)) as [Hres0|Hres0].
    + destruct (Hg Hres0) as [b ->].
      destruct (add_child_returns dh ci (set_next_blocks later d) b stats Hok)
        as (f1 & [[res1 ci1] stats1] & Hadd).
      assert (merge_ok ci1) as Hok1.
      { eapply (add_child_merge_ok f1); [exact Hok| |exact (Hadd f1 (le_n _))]. exact Hd. }
      destruct (bool_decide (res1 <> OLAP_SUCCESS) && bool_decide (res1 <> OLAP_ERR_DATA_EOF))
        eqn:Herr.
      * eexists f1, _. intros fuel Hf. rewrite bool_decide_true by done.
        rewrite (Hadd fuel Hf). cbn [mbind result_bind]. rewrite Herr. reflexivity.
      * destruct (IH ci1 stats1 Hok1) as (f2 & x & Hx).
        exists (Nat.max f1 f2), x. intros fuel Hf. rewrite bool_decide_true by done.
        rewrite (Hadd fuel) by lia. cbn [mbind result_bind]. rewrite Herr.
        apply Hx. lia.
    + destruct (decide (res0 = OLAP_ERR_DATA_EOF)) as [Heof|Heof].
      * destruct (IH ci stats Hok) as (f2 & x & Hx).
        exists f2, x. intros fuel Hf. rewrite bool_decide_false by done.
        rewrite bool_decide_true by done. by apply Hx.
      * eexists 0%nat, _. intros fuel _. rewrite bool_decide_false by done.
        rewrite bool_decide_false by done. reflexivity.
Qed.

(** A range that is read is one range less to read; a full scan is
    read once. *)
Lemma attach_resolve_range_scan (first : bool) (r r' : Reader Row)
    (sk ek : option Row) (flr ekflr : bool) :
  attach_resolve_range first r = Ok (RangeScan sk ek flr ekflr, r') ->
  (ranges_left r' < ranges_left r + (if first then 1 else 0))%nat /\
  (first = false -> (ranges_left r' < ranges_left r)%nat).
Proof.
  unfold attach_resolve_range, ranges_left. intros H.
  destruct (decide (0 < length (start_keys (_keys_param r)))%nat) as [H1|H1];
    [rewrite bool_decide_true in H by done | rewrite bool_decide_false in H by done].
  - destruct (decide (length (start_keys (_keys_param r)) <= _next_key_index r)%nat)
      as [H2|H2];
      [rewrite bool_decide_true in H by done | rewrite bool_decide_false in H by done].
    + discriminate.
    + assert (r' = with_next_key_index (Datatypes.S (_next_key_index r)) r) as ->.
      { destruct (start_keys (_keys_param r) !! _next_key_index r); [|discriminate].
        apply bind_Ok in H as (e & _ & H).
        destruct e as [[ek0 b]|res];
          repeat (case_bool_decide || case_match || simplify_eq/=); eauto. }
      simpl. split; [destruct first|]; lia.
  - case_bool_decide as Hf; [discriminate|]. injection H as _ _ _ _ <-.
    destruct first; [|done]. split; [lia|done].
Qed.

(** The driver returns, in merge mode, when the scan keys keep their
    contract and a seek that succeeds gives a block. *)
Lemma attach_returns (first : bool) (r : Reader Row) (ci : CollectIterator Row) :
  _collect_iter r = live ci -> _merge ci = true ->
  keys_contract (_keys_param r) ->
  Forall sorted_segment (_data_sources r) ->
  Forall seek_gives_block (_data_sources r) ->
  exists fuel0 x, forall fuel, (fuel0 <= fuel)%nat ->
    _attach_data_to_merge_set fuel first r = Ok x.
Proof.
  intros Hci Hm Hkeys Hsorted Hgives.
  set (Inv := fun (st : bool * Reader Row) =>
              (exists ci0, _collect_iter st.2 = live ci0 /\ _merge ci0 = true) /\
              keys_contract (_keys_param st.2) /\
              Forall sorted_segment (_data_sources st.2) /\
              Forall seek_gives_block (_data_sources st.2)).
  destruct (loop_returns
              (fun st : bool * Reader Row =>
                 (ranges_left st.2 + (if st.1 then 1 else 0))%nat)
              (fun _ => 0%nat) Inv
              (fun fuel => _attach_data_to_merge_set_body fuel))
    with (s := (first, r)) as (f0 & x & Hx).
  - intros [first0 r0] ((ci0 & Hci0 & Hm0) & Hk0 & Hs0 & Hg0).
    simpl in Hci0, Hm0, Hk0, Hs0, Hg0.
    set (r1 := with_collect_iter (live (clear ci0)) r0).
    destruct (attach_resolve_range_in_bounds first0 r1) as (step & r2 & Hres & Hk2);
      [exact Hk0|].
    pose proof (attach_resolve_range_frame _ _ _ _ Hres)
      as ((_ & _ & _ & _ & _ & _ & Hds2 & _) & Hci2 & _).
    simpl in Hci2, Hds2, Hk2.
    assert (Hpre : forall fuel,
              _attach_data_to_merge_set_body fuel (first0, r0) =
              match step with
              | RangeReturn res eof => Ok (Return (res, eof, r2))
              | RangeScan start_key end_key find_last_row end_key_find_last_row =>
                  '(res, ci, stats) ← attach_data_sources fuel (_delete_handler r2)
                                        (_data_sources r2) start_key find_last_row end_key
                                        end_key_find_last_row (clear ci0) (_stats r2);
                  let r := with_stats stats (with_collect_iter (live ci) r2) in
                  if bool_decide (res <> OLAP_SUCCESS) then Ok (Return (res, false, r))
                  else
                    '(row, flag) ← CollectIterator_current_row ci;
                    let r := with_next_delete_flag (default (_next_delete_flag r) flag)
                               (with_next_key row r) in
                    match row with
                    | Some _ => Ok (Break (first0, r))
                    | None => Ok (Continue (false, r))
                    end
              end).
    { intros fuel. unfold _attach_data_to_merge_set_body. rewrite Hci0.
      cbn [deref mbind result_bind]. fold r1. rewrite Hres. cbn [mbind result_bind].
      destruct step; [done|]. rewrite Hci2. reflexivity. }
    destruct step as [res eof|sk ek flr ekflr].
    + exists 0%nat, (Return (res, eof, r2)). split; [intros fuel _; apply Hpre|done].
    + destruct (attach_data_sources_returns (_delete_handler r2) (_data_sources r2)
                  sk flr ek ekflr) with (ci := clear ci0) (stats := _stats r2)
        as (f0 & [[res0 ci3] stats3] & Hadd).
      { by rewrite Hds2. }
      { by rewrite Hds2. }
      { by apply merge_ok_clear. }
      assert (merge_ok ci3) as Hok3.
      { eapply (attach_data_sources_merge_ok f0); [| |exact (Hadd f0 (le_n _))].
        - by rewrite Hds2.
        - by apply merge_ok_clear. }
      destruct (decide (res0 = OLAP_SUCCESS)) as [Hres0|Hres0].
      * destruct (merge_ok_current_row ci3 Hok3) as ([row flag] & Hrow).
        destruct row as [row|].
        -- eexists f0, _. split.
           { intros fuel Hf. cbn beta. rewrite Hpre, (Hadd fuel Hf).
             cbn [mbind result_bind]. cbn zeta.
             rewrite bool_decide_false by tauto. rewrite Hrow. reflexivity. }
           done.
        -- eexists f0, _. split.
           ++ intros fuel Hf. cbn beta. rewrite Hpre, (Hadd fuel Hf). cbn [mbind result_bind]. cbn zeta.
              rewrite bool_decide_false by tauto. rewrite Hrow. reflexivity.
           ++ simpl. split.
              ** split; [exists ci3; split; [done|by apply merge_ok_merge]|].
                 simpl. rewrite Hk2, Hds2. done.
              ** left. apply attach_resolve_range_scan in Hres as [Hlt _].
                 unfold ranges_left in *. simpl in *. lia.
      * eexists f0, _. split.
        { intros fuel Hf. cbn beta. rewrite Hpre, (Hadd fuel Hf).
          cbn [mbind result_bind]. cbn zeta.
          rewrite bool_decide_true by done. reflexivity. }
        done.
  - unfold Inv. simpl. split; [by exists ci|done].
  - unfold _attach_data_to_merge_set.
    destruct x as [[first1 r1]|ret]; eexists f0, _; intros fuel Hf;
      rewrite (Hx fuel fuel Hf Hf); reflexivity.
Qed.

End AttachReturns.

Section ScanReturns.

Context {Row : Type} {ops : RowCursorOps Row}.
Context (key_cids value_cids : list Z).
Context {laws : RowCursorLaws ops key_cids value_cids}.
Variable doris_scanner_row_num : Z.

Lemma scan_ready_ext (r r' : Reader Row) :
  same_config r r' -> reader_merge_ok r' -> scan_ready r -> scan_ready r'.
Proof.
  intros (_ & _ & _ & _ & _ & _ & Hd & Hk) Hok (_ & H1 & H2 & H3).
  unfold scan_ready. rewrite Hd, Hk. done.
Qed.

Lemma rearm_returns (r : Reader Row) :
  scan_ready r ->
  exists fuel0 x, forall fuel, (fuel0 <= fuel)%nat -> Reader_rearm fuel r = Ok x.
Proof.
  intros ((ci & Hci & Hok & _) & Hkeys & Hsorted & Hgives). unfold Reader_rearm.
  destruct (_next_key r); [by eexists 0%nat, _|].
  destruct (attach_returns key_cids value_cids false r ci Hci (merge_ok_merge _ Hok)
              Hkeys Hsorted Hgives) as (f0 & [[res eof] r1] & Hatt).
  destruct (decide (res = OLAP_SUCCESS)) as [Hres|Hres].
  - destruct eof; eexists f0, _; intros fuel Hf; rewrite (Hatt fuel Hf);
      cbn [mbind result_bind]; rewrite bool_decide_false by tauto; reflexivity.
  - eexists f0, _. intros fuel Hf. rewrite (Hatt fuel Hf).
    cbn [mbind result_bind]. rewrite bool_decide_true by done. reflexivity.
Qed.

Lemma agg_next_row_returns (r : Reader Row) (cursor : Row) :
  _key_cids r = key_cids -> _value_cids r = value_cids ->
  scan_ready r ->
  exists fuel0 x, forall fuel, (fuel0 <= fuel)%nat ->
    _agg_key_next_row doris_scanner_row_num fuel r cursor = Ok x.
Proof.
  intros Hkc Hvc Hready.
  destruct (rearm_returns r Hready) as (f0 & [ret r1] & Hrearm).
  pose proof Hready as (Hok & _ & Hsorted & _).
  destruct (rearm_merge f0 _ _ _ Hok Hsorted (Hrearm f0 (le_n _)))
    as (Hcfg1 & _ & _ & Hret).
  destruct ret as [[res eof]|].
  - eexists f0, _. intros fuel Hf. unfold _agg_key_next_row.
    rewrite (Hrearm fuel Hf). reflexivity.
  - destruct Hret as (Hok1 & [first Hnk] & _).
    destruct (head_facts r1 first Hok1 Hnk) as (v & Hhe & _).
    assert (Hkc1 : _key_cids r1 = key_cids).
    { destruct Hcfg1 as (_ & _ & _ & -> & _). exact Hkc. }
    assert (Hvc1 : _value_cids r1 = value_cids).
    { destruct Hcfg1 as (_ & _ & _ & _ & -> & _). exact Hvc. }
    destruct (agg_loop_returns key_cids value_cids doris_scanner_row_num r1 first
                (agg_init cursor first, 0, r1) Hkc1 Hvc1) as (f1 & x & Hloop).
    { split; [apply same_config_refl|]. split; [done|]. split; [done|].
      split; [apply agg_init_key|]. split; [intros a; apply equal_agg_init|].
      exists first, v. split; [done|]. split; [done|].
      rewrite (full_key_cmp_refl key_cids value_cids). lia. }
    destruct x as [[[acc mc] r2]|ret]; eexists (Nat.max f0 f1), _; intros fuel Hf;
      unfold _agg_key_next_row; rewrite (Hrearm fuel) by lia;
      cbn [mbind result_bind]; rewrite Hnk, (Hloop fuel) by lia; reflexivity.
Qed.

End ScanReturns.

Section UniqueReturns.

Context {Row : Type} {ops : RowCursorOps Row}.
Context (key_cids value_cids : list Z).
Context {laws : RowCursorLaws ops key_cids value_cids}.
Variable doris_scanner_row_num : Z.

Lemma ranges_left_same (r r' : Reader Row) :
  same_config r r' -> _next_key_index r' = _next_key_index r ->
  ranges_left r' = ranges_left r.
Proof.
  intros (_ & _ & _ & _ & _ & _ & _ & Hk) Hi. unfold ranges_left. by rewrite Hk, Hi.
Qed.

Lemma unique_merge_body_work (fuel : nat) (r1 : Reader Row)
    (st : Row * bool * Z * list (Z * bool) * Reader Row)
    (c : ctrl (Row * bool * Z * list (Z * bool) * Reader Row)
              (OLAPStatus * bool * Row * Reader Row)) :
  merging r1 st ->
  _unique_key_merge_body doris_scanner_row_num fuel st = Ok c ->
  match c with
  | Continue s' => merging r1 s' /\ (reader_work s'.2 < reader_work st.2)%nat
  | Break s' =>
      same_config r1 s'.2 /\ _next_key_index s'.2 = _next_key_index r1 /\
      reader_merge_ok s'.2 /\
      ((reader_work s'.2 < reader_work r1)%nat \/ _next_key r1 = None)
  | Return ret => ret.1.1.1 <> OLAP_SUCCESS /\ same_config r1 ret.2
  end.
Proof.
  destruct st as [[[[acc cdf] mc] members] r]. unfold merging. simpl.
  intros (Hcfg & Hidx & Hok & Hwork) H.
  unfold _unique_key_merge_body in H.
  destruct (_next_key r) as [head|] eqn:Hnk.
  - apply bind_Ok in H as ([res r2] & Hnext & H).
    destruct (head_facts r head Hok Hnk) as (v & Hhe & _).
    destruct (collect_next_merge key_cids value_cids fuel _ _ _ _ Hok Hhe Hnext)
      as (Hcfg2 & _ & Hidx2 & _ & Hsucc & Heof).
    pose proof (collect_next_work key_cids value_cids fuel r r2 res Hok
                  ltac:(by eexists) Hnext) as Hless.
    assert (Hcfg12 : same_config r1 r2) by (by eapply same_config_trans).
    assert (Hidx12 : _next_key_index r2 = _next_key_index r1) by congruence.
    assert (Hless1 : (reader_work r2 < reader_work r1)%nat).
    { destruct Hwork as [->|?]; lia. }
    case_bool_decide as Hres.
    + case_bool_decide as Hres'; injection H as <-; simpl; [done|].
      assert (res = OLAP_ERR_DATA_EOF) as ->
        by (by destruct (decide (res = OLAP_ERR_DATA_EOF))).
      destruct (Heof eq_refl) as [Hok2 _]. auto.
    + assert (res = OLAP_SUCCESS) as -> by (by destruct (decide (res = OLAP_SUCCESS))).
      destruct (Hsucc eq_refl) as (Hok2 & _).
      destruct (bool_decide (keys_type (_olap_table r2) = DUP_KEYS)
                || _aggregation r2 && (mc >? doris_scanner_row_num));
        [injection H as <-; simpl; auto|].
      destruct (_next_key r2) as [next_key|]; [|discriminate].
      destruct (negb (equal (_key_cids r2) acc next_key)); injection H as <-; simpl; auto.
      split; [|done]. auto.
  - injection H as <-. simpl. split; [done|]. split; [done|]. split; [done|].
    destruct Hwork as [->|?]; auto.
Qed.

Lemma unique_merge_body_merging (fuel : nat) (r1 : Reader Row)
    (st : Row * bool * Z * list (Z * bool) * Reader Row)
    (c : ctrl (Row * bool * Z * list (Z * bool) * Reader Row)
              (OLAPStatus * bool * Row * Reader Row)) :
  merging r1 st ->
  _unique_key_merge_body doris_scanner_row_num fuel st = Ok c ->
  match c with
  | Continue s' => merging r1 s'
  | Break s' =>
      same_config r1 s'.2 /\ _next_key_index s'.2 = _next_key_index r1 /\
      reader_merge_ok s'.2 /\
      ((reader_work s'.2 < reader_work r1)%nat \/ _next_key r1 = None)
  | Return ret => ret.1.1.1 <> OLAP_SUCCESS /\ same_config r1 ret.2
  end.
Proof.
  intros Hst Hc. pose proof (unique_merge_body_work fuel r1 st c Hst Hc) as Hpost.
  destruct c; [by destruct Hpost|done|done].
Qed.

Lemma unique_merge_loop_returns (r1 : Reader Row)
    (st : Row * bool * Z * list (Z * bool) * Reader Row) :
  merging r1 st ->
  exists fuel0 x, forall fuel, (fuel0 <= fuel)%nat ->
    loop fuel (_unique_key_merge_body doris_scanner_row_num fuel) st = Ok x.
Proof.
  intros Hst.
  destruct (loop_returns
              (fun s : Row * bool * Z * list (Z * bool) * Reader Row => reader_work s.2)
              (fun _ => 0%nat) (merging r1)
              (fun fuel => _unique_key_merge_body doris_scanner_row_num fuel))
    with (s := st) as (f0 & x & Hx); [|done|].
  - intros [[[[acc cdf] mc] members] r] HI.
    pose proof HI as (Hcfg & Hidx & Hok & Hwork). simpl in Hcfg, Hidx, Hok, Hwork.
    destruct (_next_key r) as [head|] eqn:Hnk.
    + destruct (collect_next_returns key_cids value_cids r Hok)
        as (f0 & res & r2 & Hnext & Hless); [by eexists|].
      destruct (head_facts r head Hok Hnk) as (v & Hhe & _).
      assert (Hsame : forall fuel, (f0 <= fuel)%nat ->
                _unique_key_merge_body doris_scanner_row_num fuel (acc, cdf, mc, members, r)
                = _unique_key_merge_body doris_scanner_row_num f0 (acc, cdf, mc, members, r)).
      { intros fuel Hf. unfold _unique_key_merge_body. rewrite Hnk.
        by rewrite (Hnext fuel Hf), (Hnext f0 (le_n _)). }
      assert (exists c, _unique_key_merge_body doris_scanner_row_num f0
                          (acc, cdf, mc, members, r) = Ok c) as [c Hc].
      { unfold _unique_key_merge_body. rewrite Hnk, (Hnext f0 (le_n _)).
        cbn [mbind result_bind].
        destruct (collect_next_merge key_cids value_cids f0 _ _ _ _ Hok Hhe
                    (Hnext f0 (le_n _))) as (_ & _ & _ & _ & Hsucc & _).
        case_bool_decide as Hres; [case_bool_decide; eauto|].
        destruct (bool_decide (keys_type (_olap_table r2) = DUP_KEYS)
                  || _aggregation r2 && (mc >? doris_scanner_row_num)); [eauto|].
        assert (res = OLAP_SUCCESS) as -> by (by destruct (decide (res = OLAP_SUCCESS))).
        destruct (Hsucc eq_refl) as (Hok2 & e' & He' & _).
        rewrite (head_entry_next_key r2 e' Hok2 He').
        destruct (negb (equal (_key_cids r2) acc e'.1)); eauto. }
      exists f0, c. split; [intros fuel Hf; cbn beta; by rewrite Hsame|].
      pose proof (unique_merge_body_work f0 r1 _ c HI Hc) as Hpost.
      destruct c as [s'| |]; [|done..].
      destruct Hpost as [Hm Hw]. split; [exact Hm|]. left. exact Hw.
    + eexists 0%nat, _. split.
      { intros fuel _. cbn beta. unfold _unique_key_merge_body. rewrite Hnk. reflexivity. }
      done.
  - exists f0, x. intros fuel Hf. by apply Hx.
Qed.

(** The driver called for a further range: when it comes back with a
    head row, a range has been consumed. *)
Lemma attach_ranges_left (fuel : nat) (r r' : Reader Row) :
  _attach_data_to_merge_set fuel false r = Ok (OLAP_SUCCESS, false, r') ->
  (ranges_left r' < ranges_left r)%nat.
Proof.
  unfold _attach_data_to_merge_set. intros H.
  apply bind_Ok in H as (x & Hloop & H).
  assert (Hbody : forall (st : bool * Reader Row) c,
            (st.1 = false /\ (ranges_left st.2 <= ranges_left r)%nat) ->
            _attach_data_to_merge_set_body fuel st = Ok c ->
            match c with
            | Continue s' => s'.1 = false /\ (ranges_left s'.2 <= ranges_left r)%nat
            | Break s' => (ranges_left s'.2 < ranges_left r)%nat
            | Return ret => ret.1.1 = OLAP_SUCCESS -> ret.1.2 = true
            end).
  { intros [first0 r0] c [Hfirst Hle] Hb. simpl in Hfirst, Hle. subst first0.
    unfold _attach_data_to_merge_set_body in Hb.
    apply bind_Ok in Hb as (ci0 & Hci0 & Hb).
    apply bind_Ok in Hb as ([step r1] & Hres & Hb).
    destruct step as [res0 eof0|sk ek flr ekflr].
    - injection Hb as <-. simpl. by apply (attach_resolve_range_return _ _ _ _ _ Hres).
    - apply attach_resolve_range_scan in Hres as [_ Hlt]. specialize (Hlt eq_refl).
      unfold ranges_left in Hlt. simpl in Hlt.
      apply bind_Ok in Hb as (ci1 & Hci1 & Hb).
      apply bind_Ok in Hb as ([[res0 ci2] stats2] & Hadd & Hb).
      case_bool_decide as Hres0; [injection Hb as <-; simpl; congruence|].
      apply bind_Ok in Hb as ([row flag] & Hcr & Hb).
      destruct row; injection Hb as <-; unfold ranges_left in *; simpl; [lia|].
      split; [done|lia]. }
  assert (Hinit : (false, r).1 = false /\ (ranges_left (false, r).2 <= ranges_left r)%nat)
    by (split; [done|simpl; lia]).
  loop_inv Hloop Hbody Hinit Hfin.
  destruct x as [[first1 r1]|[[res1 eof1] r1]].
  - injection H as <-. exact Hfin.
  - injection H as -> -> ->. simpl in Hfin. specialize (Hfin eq_refl). discriminate.
Qed.

Lemma rearm_ranges (fuel : nat) (r r' : Reader Row) :
  Reader_rearm fuel r = Ok (None, r') ->
  (r' = r /\ is_Some (_next_key r)) \/ (ranges_left r' < ranges_left r)%nat.
Proof.
  unfold Reader_rearm. destruct (_next_key r) as [row|].
  - intros [= <-]. left. eauto.
  - intros H. apply bind_Ok in H as ([[res eof] r1] & Hatt & H).
    case_bool_decide as Hres; [discriminate|].
    assert (res = OLAP_SUCCESS) as -> by (by destruct (decide (res = OLAP_SUCCESS))).
    destruct eof; [discriminate|]. injection H as <-.
    right. by eapply attach_ranges_left.
Qed.

(** One turn of the outer loop of [_unique_key_next_row] in merge mode:
    the iterator is left a sound merge heap, and a further turn finds a
    range less to read or, with as many ranges, less to do in the heap. *)
Lemma unique_body_work (fuel : nat) (r0 : Reader Row) (st : Row * Reader Row)
    (c : ctrl (Row * Reader Row) (OLAPStatus * bool * Row * Reader Row)) :
  Forall sorted_segment (_data_sources r0) ->
  same_config r0 st.2 /\ reader_merge_ok st.2 ->
  _unique_key_next_row_body doris_scanner_row_num fuel st = Ok c ->
  match c with
  | Continue s' =>
      (same_config r0 s'.2 /\ reader_merge_ok s'.2) /\
      ((ranges_left s'.2 < ranges_left st.2)%nat \/
       (ranges_left s'.2 = ranges_left st.2 /\
        (reader_work s'.2 < reader_work st.2)%nat))
  | Break s' => False
  | Return ret =>
      same_config r0 ret.2 /\ (ret.1.1.1 = OLAP_SUCCESS -> reader_merge_ok ret.2)
  end.
Proof.
  destruct st as [cursor r]. simpl. intros Hsorted [Hcfg Hok] H.
  unfold _unique_key_next_row_body in H.
  apply bind_Ok in H as ([ret r1] & Hrearm & H).
  assert (Hsorted' : Forall sorted_segment (_data_sources r)).
  { destruct Hcfg as (_ & _ & _ & _ & _ & _ & -> & _). exact Hsorted. }
  destruct (rearm_merge fuel _ _ _ Hok Hsorted' Hrearm) as (Hcfg1 & _ & _ & Hret).
  assert (Hcfg01 : same_config r0 r1) by (by eapply same_config_trans).
  destruct ret as [[res eof]|].
  - injection H as <-. simpl. split; [done|]. intros Hres. by destruct (Hret Hres).
  - destruct Hret as (Hok1 & Hsome & _).
    apply rearm_ranges in Hrearm.
    destruct (_next_key r1) as [next_key|] eqn:Hnk1; [|discriminate].
    apply bind_Ok in H as (x & Hloop & H).
    assert (Hinit : merging r1
              (agg_init cursor next_key, _next_delete_flag r1, 0, head_source r1, r1)).
    { split; [apply same_config_refl|]. split; [done|]. split; [done|]. by left. }
    loop_inv Hloop (unique_merge_body_merging fuel r1) Hinit Hfin.
    destruct x as [[[[[acc cdf] mc] members] r2]|[[[res eof] row] r2]].
    + simpl in Hfin. destruct Hfin as (Hcfg2 & Hidx2 & Hok2 & Hwork).
      destruct Hwork as [Hwork|Hnone]; [|congruence].
      assert (Hcfg02 : same_config r0 r2) by (by eapply same_config_trans).
      pose proof (ranges_left_same _ _ Hcfg2 Hidx2) as Hranges.
      destruct cdf; simpl in H; injection H as <-; simpl.
      * split.
        { split; [unfold same_config in *; simpl; tauto|].
          eapply reader_merge_ok_ext; [| | |exact Hok2]; reflexivity. }
        unfold ranges_left, reader_work in *. simpl.
        destruct Hrearm as [[-> _]|Hlt]; [right|left]; lia.
      * split; [unfold same_config in *; simpl; tauto|]. intros _.
        eapply reader_merge_ok_ext; [| | |exact Hok2]; reflexivity.
    + simpl in Hfin. destruct Hfin as [Hres Hcfg2]. injection H as <-. simpl.
      split; [by eapply same_config_trans|]. intros ?. done.
Qed.

Lemma unique_body_returns (cursor : Row) (r : Reader Row) :
  scan_ready r ->
  exists fuel0 c, forall fuel, (fuel0 <= fuel)%nat ->
    _unique_key_next_row_body doris_scanner_row_num fuel (cursor, r) = Ok c.
Proof.
  intros Hready.
  destruct (rearm_returns key_cids value_cids r Hready) as (f0 & [ret r1] & Hrearm).
  pose proof Hready as (Hok & _ & Hsorted & _).
  destruct (rearm_merge f0 _ _ _ Hok Hsorted (Hrearm f0 (le_n _)))
    as (Hcfg1 & _ & _ & Hret).
  destruct ret as [[res eof]|].
  - eexists f0, _. intros fuel Hf. unfold _unique_key_next_row_body.
    rewrite (Hrearm fuel Hf). reflexivity.
  - destruct Hret as (Hok1 & [first Hnk] & _).
    destruct (unique_merge_loop_returns r1
                (agg_init cursor first, _next_delete_flag r1, 0, head_source r1, r1))
      as (f1 & x & Hloop).
    { split; [apply same_config_refl|]. split; [done|]. split; [done|]. by left. }
    destruct x as [[[[[acc cdf] mc] members] r2]|ret];
      [destruct cdf|]; eexists (Nat.max f0 f1), _; intros fuel Hf;
      unfold _unique_key_next_row_body; rewrite (Hrearm fuel) by lia;
      cbn [mbind result_bind]; rewrite Hnk, (Hloop fuel) by lia; reflexivity.
Qed.

Lemma unique_next_row_returns (r : Reader Row) (cursor : Row) :
  scan_ready r ->
  exists fuel0 x, forall fuel, (fuel0 <= fuel)%nat ->
    _unique_key_next_row doris_scanner_row_num fuel r cursor = Ok x.
Proof.
  intros Hready.
  destruct (loop_returns (fun s : Row * Reader Row => ranges_left s.2)
              (fun s : Row * Reader Row => reader_work s.2)
              (fun s : Row * Reader Row => scan_ready s.2)
              (fun fuel => _unique_key_next_row_body doris_scanner_row_num fuel))
    with (s := (cursor, r)) as (f0 & x & Hx); [|done|].
  - intros [cursor1 r1] H1. simpl in H1.
    destruct (unique_body_returns cursor1 r1 H1) as (f0 & c & Hc).
    exists f0, c. split; [exact Hc|].
    pose proof H1 as (Hok1 & _ & Hsorted1 & _).
    pose proof (unique_body_work f0 r1 (cursor1, r1) c Hsorted1
                  (conj (same_config_refl r1) Hok1) (Hc f0 (le_n _)))
      as Hpost.
    destruct c as [[cursor2 r2]| |]; [|done..].
    destruct Hpost as [[Hcfg Hok2] Hless]. simpl in *. split; [|exact Hless].
    by eapply scan_ready_ext.
  - unfold _unique_key_next_row.
    destruct x as [[cursor1 r1]|ret]; eexists f0, _; intros fuel Hf;
      rewrite (Hx fuel fuel Hf Hf); reflexivity.
Qed.

Lemma unique_next_row_ok (fuel : nat) (r r' : Reader Row) (cursor row : Row)
    (res : OLAPStatus) (eof : bool) :
  Forall sorted_segment (_data_sources r) -> reader_merge_ok r ->
  _unique_key_next_row doris_scanner_row_num fuel r cursor = Ok (res, eof, row, r') ->
  same_config r r' /\ (res = OLAP_SUCCESS -> reader_merge_ok r').
Proof.
  intros Hsorted Hok H. unfold _unique_key_next_row in H.
  apply bind_Ok in H as (x & Hloop & H).
  assert (Hbody : forall (st : Row * Reader Row) c,
            same_config r st.2 /\ reader_merge_ok st.2 ->
            _unique_key_next_row_body doris_scanner_row_num fuel st = Ok c ->
            match c with
            | Continue s' => same_config r s'.2 /\ reader_merge_ok s'.2
            | Break s' => False
            | Return ret =>
                same_config r ret.2 /\ (ret.1.1.1 = OLAP_SUCCESS -> reader_merge_ok ret.2)
            end).
  { intros st c Hst Hc. pose proof (unique_body_work fuel r st c Hsorted Hst Hc) as Hpost.
    destruct c; [by destruct Hpost|done|done]. }
  assert (Hinit : same_config r (cursor, r).2 /\ reader_merge_ok (cursor, r).2).
  { split; [apply same_config_refl|done]. }
  loop_inv Hloop Hbody Hinit Hfin.
  destruct x as [[c1 r1]|[[[res1 eof1] row1] r1]]; [done|].
  injection H as <- <- <- <-. exact Hfin.
Qed.

End UniqueReturns.

Section PullReturns.

Context {Row : Type} {ops : RowCursorOps Row}.
Context (key_cids value_cids : list Z).
Context {laws : RowCursorLaws ops key_cids value_cids}.
Variable doris_scanner_row_num : Z.

Lemma next_row_returns (r : Reader Row) (cursor : Row) :
  keys_type (_olap_table r) <> DUP_KEYS ->
  _key_cids r = key_cids -> _value_cids r = value_cids ->
  scan_ready r ->
  exists fuel0 res eof row r',
    (forall fuel, (fuel0 <= fuel)%nat ->
       next_row_with_aggregation doris_scanner_row_num fuel r cursor
       = Ok (res, eof, row, r')) /\
    same_config r r' /\ (res = OLAP_SUCCESS -> reader_merge_ok r').
Proof.
  intros Hkt Hkc Hvc Hready. pose proof Hready as (Hok & _ & Hsorted & _).
  unfold next_row_with_aggregation.
  destruct (keys_type (_olap_table r)); [done| |].
  - destruct (unique_next_row_returns key_cids value_cids doris_scanner_row_num r cursor
                Hready) as (f0 & [[[res eof] row] r1] & Hnext).
    exists f0, res, eof, row, r1. split; [exact Hnext|].
    exact (unique_next_row_ok key_cids value_cids doris_scanner_row_num f0 _ _ _ _ _ _
             Hsorted Hok (Hnext f0 (le_n _))).
  - destruct (agg_next_row_returns key_cids value_cids doris_scanner_row_num r cursor
                Hkc Hvc Hready) as (f0 & [[[res eof] row] r1] & Hnext).
    exists f0, res, eof, row, r1. split; [exact Hnext|].
    destruct (agg_next_row_order key_cids value_cids doris_scanner_row_num f0 _ _ _ _ _ _
                Hkc Hvc Hsorted Hok (Hnext f0 (le_n _))) as (Hcfg1 & Hok1 & _).
    done.
Qed.

Lemma pull_rows_returns (n : nat) :
  forall (r : Reader Row) (cursor : Row),
    keys_type (_olap_table r) <> DUP_KEYS ->
    _key_cids r = key_cids -> _value_cids r = value_cids ->
    scan_ready r ->
    exists fuel0 x, forall fuel, (fuel0 <= fuel)%nat ->
      pull_rows doris_scanner_row_num fuel n r cursor = Ok x.
Proof.
  induction n as [|n IH]; intros r cursor Hkt Hkc Hvc Hready; [by eexists 0%nat, _|].
  destruct (next_row_returns r cursor Hkt Hkc Hvc Hready)
    as (f0 & res & eof & row & r1 & Hstep & Hcfg1 & Hok1).
  destruct (decide (res = OLAP_SUCCESS)) as [Hres|Hres].
  - destruct eof.
    + eexists f0, _. intros fuel Hf. cbn [pull_rows]. rewrite (Hstep fuel Hf).
      cbn [mbind result_bind]. rewrite bool_decide_false by tauto. reflexivity.
    + pose proof Hcfg1 as (Ht & _ & _ & Hk & Hv & _).
      destruct (IH r1 row) as (f1 & [[out res2] r2] & Hrest); try congruence.
      { eapply scan_ready_ext; [exact Hcfg1|by apply Hok1|exact Hready]. }
      eexists (Nat.max f0 f1), _. intros fuel Hf. cbn [pull_rows].
      rewrite (Hstep fuel) by lia.
      cbn [mbind result_bind]. rewrite bool_decide_false by tauto.
      rewrite (Hrest fuel) by lia. reflexivity.
  - eexists f0, _. intros fuel Hf. cbn [pull_rows]. rewrite (Hstep fuel Hf).
    cbn [mbind result_bind]. rewrite bool_decide_true by done. reflexivity.
Qed.

(** A scan in merge mode returns: with enough fuel for its loops, [scan]
    gives the rows of up to [n] calls, the status and the Reader. *)
Lemma scan_returns (n : nat) (r : Reader Row) (cursor : Row) :
  keys_type (_olap_table r) <> DUP_KEYS ->
  _key_cids r = key_cids -> _value_cids r = value_cids ->
  _reader_type r <> READER_QUERY \/ _aggregation r = false ->
  _next_key r = None ->
  keys_contract (_keys_param r) ->
  Forall sorted_segment (_data_sources r) ->
  Forall seek_gives_block (_data_sources r) ->
  exists fuel0 out res r', forall fuel, (fuel0 <= fuel)%nat ->
    scan doris_scanner_row_num fuel n r cursor = Ok (out, res, r').
Proof.
  intros Hkt Hkc Hvc Hmode Hnk Hkeys Hsorted Hgives.
  assert (Hm : _merge (CollectIterator_init r CollectIterator_new) = true)
    by (by apply scan_merge_mode).
  set (r0 := with_collect_iter (live (CollectIterator_init r CollectIterator_new)) r).
  destruct (attach_returns key_cids value_cids true r0
              (CollectIterator_init r CollectIterator_new) eq_refl Hm Hkeys Hsorted Hgives)
    as (f0 & [[res0 eof0] r1] & Hatt).
  destruct (attach_merge_ok f0 true r0 r1 (CollectIterator_init r CollectIterator_new)
              res0 eof0 eq_refl Hm Hnk Hsorted (Hatt f0 (le_n _)))
    as (Hcfg1 & _ & _ & _ & Hsucc).
  destruct (decide (res0 = OLAP_SUCCESS)) as [Hres0|Hres0].
  - destruct (Hsucc Hres0) as [Hok1 _].
    pose proof Hcfg1 as (Ht & _ & _ & Hk & Hv & _ & Hd & Hkp).
    simpl in Ht, Hk, Hv, Hd, Hkp.
    destruct (pull_rows_returns n r1 cursor) as (f1 & [[out res] r2] & Hrest);
      try congruence.
    { split; [done|]. rewrite Hkp, Hd. done. }
    exists (Nat.max f0 f1), out, res, r2. intros fuel Hf. unfold scan. fold r0.
    rewrite (Hatt fuel) by lia. cbn [mbind result_bind].
    rewrite bool_decide_false by tauto. apply Hrest. lia.
  - eexists f0, _, _, _. intros fuel Hf. unfold scan. fold r0.
    rewrite (Hatt fuel Hf). cbn [mbind result_bind].
    rewrite bool_decide_true by done. reflexivity.
Qed.

End PullReturns.

(** ** Scans of a unique-keys table *)




(** ** Scans of an aggregate-keys table *)




(** ** Further properties of the cursors *)

Section CursorSkips.

Context {Row : Type} {ops : RowCursorOps Row}.
Variable fuel : nat.

Lemma refresh_body_skips (dh : DeleteHandler Row) (c : ChildCtx Row)
    (stats : OlapReaderStatistics)
    (st : ChildCtx Row * OlapReaderStatistics)
    (k : ctrl (ChildCtx Row * OlapReaderStatistics)
              (OLAPStatus * ChildCtx Row * OlapReaderStatistics)) :
  skipping dh c stats st ->
  _refresh_current_row_body dh st = Ok k ->
  match k with
  | Continue st' => skipping dh c stats st'
  | Break st' => skipping dh c stats st'
  | Return ret =>
      skipping dh c stats (ret.1.2, ret.2) /\
      match _current_row ret.1.2 with
      | Some row =>
          ret.1.1 = OLAP_SUCCESS /\
          exists b, _row_block ret.1.2 = Some b /\ rows b !! pos b = Some row /\
            (block_status b = DEL_PARTIAL_SATISFIED ->
             is_filter_data dh (ChildCtx_version c) row = false)
      | None => ret.1.1 <> OLAP_SUCCESS
      end
  end.
Proof.
  destruct st as [c0 s0]. unfold skipping. simpl.
  intros (Hv & skipped & Hrows & Hall & Hdel & Hst) Hb.
  unfold _refresh_current_row_body in Hb.
  destruct (_row_block c0) as [b|] eqn:Hblk; [|discriminate].
  destruct (has_remaining b) eqn:Hrem.
  - destruct (has_remaining_row b Hrem) as [row Hrow]. rewrite Hrow in Hb.
    assert (Hdrop : child_rows c0 =
                    row :: drop (Datatypes.S (pos b)) (rows b)
                        ++ script_rows (next_blocks (_data c0))).
    { unfold child_rows. rewrite Hblk. simpl. by rewrite (drop_S _ _ _ Hrow). }
    destruct (bool_decide (block_status b = DEL_PARTIAL_SATISFIED)) eqn:Hpart; simpl in Hb.
    + destruct (is_filter_data dh (version (_data c0)).2 row) eqn:Hfilter;
        injection Hb as <-; simpl.
      * split; [exact Hv|]. exists (skipped ++ [row]). split.
        { rewrite Hrows, Hdrop. unfold child_rows. simpl. by rewrite <- app_assoc. }
        split.
        { apply list.Forall_app. split; [done|]. apply Forall_singleton.
          unfold ChildCtx_version. by rewrite <- Hv. }
        rewrite length_app. simpl. split; [lia|done].
      * split; [split; [exact Hv|]; exists skipped; done|].
        split; [done|]. exists b. split; [done|]. split; [done|]. intros _.
        unfold ChildCtx_version. by rewrite <- Hv.
    + injection Hb as <-. simpl.
      split; [split; [exact Hv|]; exists skipped; done|].
      split; [done|]. exists b. split; [done|]. split; [done|].
      apply bool_decide_eq_false in Hpart. done.
  - destruct (get_next_block (_data c0)) as [[res0 blk] d] eqn:Hnext.
    assert (Hd : version d = version (_data c0) /\
                 child_rows c0 = child_rows (set_data d (set_row_block blk c0))).
    { unfold child_rows. rewrite Hblk, (no_remaining_rows b Hrem). simpl.
      unfold get_next_block in Hnext.
      destruct (next_blocks (_data c0)) as [|[r1 b1] later] eqn:Hnb;
        injection Hnext as <- <- <-; simpl; [by rewrite Hnb|done]. }
    destruct Hd as [Hd Hsame].
    assert (Hskip : version d = version (_data c) /\
              exists skipped0 : list Row,
                child_rows c = skipped0 ++ child_rows (set_data d (set_row_block blk c0)) /\
                Forall (fun row => is_filter_data dh (ChildCtx_version c) row = true) skipped0 /\
                rows_del_filtered s0 = rows_del_filtered stats + Z.of_nat (length skipped0) /\
                rows_stats_filtered s0 = rows_stats_filtered stats).
    { split; [congruence|]. exists skipped. rewrite <- Hsame. done. }
    case_bool_decide as Hres.
    + injection Hb as <-. simpl. done.
    + destruct blk; injection Hb as <-; simpl; exact Hskip.
Qed.


End CursorSkips.


(** ** Further properties of the scan-range driver *)

Section DriverEdges.

Context {Row : Type} {ops : RowCursorOps Row}.
Variable doris_scanner_row_num : Z.
Variable fuel : nat.

Lemma attach_exhausted (first : bool) (r : Reader Row) (ci : CollectIterator Row) :
  _collect_iter r = live ci ->
  (if first then (0 < length (start_keys (_keys_param r)))%nat else True) ->
  ranges_done r ->
  _attach_data_to_merge_set (Datatypes.S fuel) first r
  = Ok (OLAP_SUCCESS, true, with_collect_iter (live (clear ci)) r).
Proof.
  intros Hci Hfirst Hdone. unfold ranges_done in Hdone.
  unfold _attach_data_to_merge_set. cbn [loop].
  unfold _attach_data_to_merge_set_body. rewrite Hci. cbn [deref mbind result_bind].
  unfold attach_resolve_range. cbn [_keys_param with_collect_iter _next_key_index].
  destruct (decide (0 < length (start_keys (_keys_param r)))%nat) as [H1|H1].
  - rewrite bool_decide_true by done. rewrite bool_decide_true by done. reflexivity.
  - rewrite bool_decide_false by done. destruct first; [done|]. reflexivity.
Qed.

(** X2. Once every scan range is consumed, a call of any of the three
    row functions with no head row answers [OLAP_SUCCESS] with [eof],
    reads no segment, leaves the output cursor and the counters as they
    are and only clears the iterator: the end of a scan is answered again
    and again. *)
Theorem next_row_after_last_range (r : Reader Row) (ci : CollectIterator Row)
    (row_cursor : Row) :
  _collect_iter r = live ci ->
  _next_key r = None ->
  ranges_done r ->
  let r' := with_collect_iter (live (clear ci)) r in
  next_row_with_aggregation doris_scanner_row_num (Datatypes.S fuel) r row_cursor
    = Ok (OLAP_SUCCESS, true, row_cursor, r') /\
  next_row_with_aggregation doris_scanner_row_num (Datatypes.S fuel) r' row_cursor
    = Ok (OLAP_SUCCESS, true, row_cursor, r').
Proof.
  intros Hci Hnk Hdone r'.
  assert (Hrearm : forall r0 ci0, _collect_iter r0 = live ci0 -> _next_key r0 = None ->
            ranges_done r0 ->
            Reader_rearm (Datatypes.S fuel) r0
            = Ok (Some (OLAP_SUCCESS, true), with_collect_iter (live (clear ci0)) r0)).
  { intros r0 ci0 H0 H1 H2. unfold Reader_rearm. rewrite H1.
    rewrite (attach_exhausted false r0 ci0 H0 I H2). reflexivity. }
  assert (Hrow : forall r0 ci0, _collect_iter r0 = live ci0 -> _next_key r0 = None ->
            ranges_done r0 ->
            next_row_with_aggregation doris_scanner_row_num (Datatypes.S fuel) r0 row_cursor
            = Ok (OLAP_SUCCESS, true, row_cursor, with_collect_iter (live (clear ci0)) r0)).
  { intros r0 ci0 H0 H1 H2. unfold next_row_with_aggregation.
    destruct (keys_type (_olap_table r0)).
    - unfold _dup_key_next_row. by rewrite (Hrearm r0 ci0).
    - unfold _unique_key_next_row. cbn [loop]. unfold _unique_key_next_row_body.
      by rewrite (Hrearm r0 ci0).
    - unfold _agg_key_next_row. by rewrite (Hrearm r0 ci0). }
  split; [by apply Hrow|].
  rewrite (Hrow r' (clear ci)); [|done..]. reflexivity.
Qed.

(** X3. A range token that the driver does not know ends the call with
    [OLAP_ERR_READER_GET_ITERATOR_ERROR] after the range was consumed and
    before any segment is read: an [end_range] other than "lt" and "le"
    when there are end keys, a [range] other than "gt", "ge" and "eq"
    otherwise. *)
Theorem attach_unknown_range_token (first : bool) (r : Reader Row)
    (ci : CollectIterator Row) (start_key : Row) :
  _collect_iter r = live ci ->
  start_keys (_keys_param r) !! _next_key_index r = Some start_key ->
  (exists end_key, end_keys (_keys_param r) !! _next_key_index r = Some end_key /\
     end_range (_keys_param r) <> "lt"%string /\ end_range (_keys_param r) <> "le"%string)
  \/ ((end_keys (_keys_param r) = [] \/
       (exists end_key, end_keys (_keys_param r) !! _next_key_index r = Some end_key /\
          (end_range (_keys_param r) = "lt"%string \/
           end_range (_keys_param r) = "le"%string))) /\
      range (_keys_param r) <> "gt"%string /\ range (_keys_param r) <> "ge"%string /\
      range (_keys_param r) <> "eq"%string) ->
  _attach_data_to_merge_set (Datatypes.S fuel) first r
  = Ok (OLAP_ERR_READER_GET_ITERATOR_ERROR, false,
        with_next_key_index (Datatypes.S (_next_key_index r))
          (with_collect_iter (live (clear ci)) r)).
Proof.
  intros Hci Hs Hbad. pose proof (lookup_lt_Some _ _ _ Hs) as Hlt.
  unfold _attach_data_to_merge_set. cbn [loop].
  unfold _attach_data_to_merge_set_body. rewrite Hci. cbn [deref mbind result_bind].
  unfold attach_resolve_range. cbn [_keys_param with_collect_iter _next_key_index].
  rewrite bool_decide_true by lia. rewrite bool_decide_false by lia. rewrite Hs.
  destruct Hbad as [(ek & He & Hlt' & Hle')|(Hend & Hgt & Hge & Heq)].
  - pose proof (lookup_lt_Some _ _ _ He) as Hlte.
    rewrite (bool_decide_eq_true_2 (0%nat <> length (end_keys (_keys_param r)))) by lia.
    rewrite He.
    rewrite (bool_decide_eq_false_2 (end_range (_keys_param r) = "lt"%string)) by done.
    rewrite (bool_decide_eq_false_2 (end_range (_keys_param r) = "le"%string)) by done.
    reflexivity.
  - assert (exists e,
      (if bool_decide (0%nat <> length (end_keys (_keys_param r))) then
         match end_keys (_keys_param r) !! _next_key_index r with
         | None => Fault OutOfBounds
         | Some end_key =>
             if bool_decide (end_range (_keys_param r) = "lt"%string)
             then Ok (inl (Some end_key, false))
             else if bool_decide (end_range (_keys_param r) = "le"%string)
                  then Ok (inl (Some end_key, true))
                  else Ok (inr OLAP_ERR_READER_GET_ITERATOR_ERROR)
         end
       else Ok (inl (None, false)))
      = (Ok (inl e) : result (option Row * bool + OLAPStatus))) as [[ek b] ->].
    { destruct Hend as [Hnil|(ek & He & Her)].
      - rewrite Hnil. simpl. eauto.
      - pose proof (lookup_lt_Some _ _ _ He) as Hlte.
        rewrite (bool_decide_eq_true_2 (0%nat <> length (end_keys (_keys_param r)))) by lia.
        rewrite He. destruct Her as [-> | ->]; simpl; eauto. }
    cbn [mbind result_bind].
    rewrite (bool_decide_eq_false_2 (range (_keys_param r) = "gt"%string)) by done.
    rewrite (bool_decide_eq_false_2 (range (_keys_param r) = "ge"%string)) by done.
    rewrite (bool_decide_eq_false_2 (range (_keys_param r) = "eq"%string)) by done.
    reflexivity.
Qed.

End DriverEdges.

Lemma next_row_after_last_range_witness :
  @next_row_with_aggregation _ (ZRowOps 1) 16384 1 ex_finished_reader []
  = Ok (OLAP_SUCCESS, true, [],
        with_collect_iter (live (clear CollectIterator_new)) ex_finished_reader).
Proof.
  destruct (@next_row_after_last_range _ (ZRowOps 1) 16384 0 ex_finished_reader
              CollectIterator_new []) as [H _].
  - reflexivity.
  - reflexivity.
  - unfold ranges_done. simpl. lia.
  - exact H.
Defined.

Lemma attach_unknown_range_token_witness :
  @_attach_data_to_merge_set _ (ZRowOps 1) 1 true (ex_crossed_range_reader "xx" [1] [2])
  = Ok (OLAP_ERR_READER_GET_ITERATOR_ERROR, false,
        with_next_key_index 1
          (with_collect_iter (live (clear CollectIterator_new))
             (ex_crossed_range_reader "xx" [1] [2]))).
Proof.
  apply (@attach_unknown_range_token _ (ZRowOps 1) 0 true (ex_crossed_range_reader "xx" [1] [2])
           CollectIterator_new [1]).
  - reflexivity.
  - reflexivity.
  - right. split; [right; exists [2]; split; [reflexivity|by right]|]. done.
Defined.

(** ** Further properties of close *)

Lemma delete_each_again {A : Type} (ps ps' : list (ptr A)) :
  delete_each ps = Ok ps' ->
  (Forall (fun p => p = nullptr) ps /\ ps' = ps /\ delete_each ps' = Ok ps') \/
  (~ Forall (fun p => p = nullptr) ps /\ delete_each ps' = Fault DoubleFree).
Proof.
  revert ps'. induction ps as [|p ps IH]; intros ps' H; simpl in H.
  - injection H as <-. left. split; [constructor|done].
  - apply bind_Ok in H as (p' & Hp & H). apply bind_Ok in H as (rest & Hrest & H).
    injection H as <-.
    destruct p as [|a|]; simpl in Hp; [|injection Hp as <-|discriminate].
    + injection Hp as <-. destruct (IH rest Hrest) as [(Hall & -> & Hagain)|[Hn Hagain]].
      * left. split; [by constructor|]. split; [done|]. simpl. by rewrite Hagain.
      * right. split.
        { intros Hall. apply list.Forall_cons in Hall as [_ Hall]. done. }
        simpl. by rewrite Hagain.
    + right. split; [|reflexivity].
      intros Hall. apply list.Forall_cons in Hall as [? _]. discriminate.
Qed.

(** X4. A second [close] (the one of the destructor after an explicit
    [close], say) goes through, and changes nothing, exactly when the
    Reader owned neither a predicate nor an iterator at the first one;
    in every other case it deletes an object a second time. *)
Theorem close_again {Row : Type} (r r1 : Reader Row) :
  Reader_close r = Ok r1 ->
  (_collect_iter r = nullptr /\ Forall (fun p => p = nullptr) (_col_predicates r) ->
   Reader_close r1 = Ok r1) /\
  (~ (_collect_iter r = nullptr /\ Forall (fun p => p = nullptr) (_col_predicates r)) ->
   Reader_close r1 = Fault DoubleFree).
Proof.
  unfold Reader_close. cbn [_col_predicates with_own_data_sources with_delete_handler
    with_conditions]. intros H.
  apply bind_Ok in H as (preds & Hpreds & H).
  cbn [_collect_iter with_col_predicates with_own_data_sources with_delete_handler
    with_conditions] in H.
  apply bind_Ok in H as (ci & Hci & H). injection H as <-.
  cbn [_col_predicates _collect_iter with_collect_iter with_col_predicates
    with_own_data_sources with_delete_handler with_conditions].
  destruct (delete_each_again _ _ Hpreds) as [(Hall & -> & Hagain)|[Hall Hagain]].
  - rewrite Hagain. cbn [mbind result_bind]. split.
    + intros [Hit _]. rewrite Hit in Hci. injection Hci as <-. reflexivity.
    + intros Hn. destruct (_collect_iter r) as [|a|]; simpl in Hci;
        [tauto|injection Hci as <-; reflexivity|discriminate].
  - rewrite Hagain. split; [tauto|reflexivity].
Qed.

Lemma close_again_witness :
  exists r1, Reader_close ex_open_reader = Ok r1 /\ Reader_close r1 = Fault DoubleFree.
Proof.
  destruct (Reader_close ex_open_reader) as [r1| |] eqn:E; [|vm_compute in E; discriminate..].
  exists r1. split; [done|]. apply (close_again _ _ E). intros [H _]. discriminate H.
Defined.

(** ** Further properties of the return columns *)

Lemma schema_at_invalid (schema : list FieldInfo) (id : Z) :
  ~ valid_column schema id -> schema_at schema id = Fault OutOfBounds.
Proof.
  unfold valid_column, schema_at. intros H.
  destruct (id <? 0) eqn:E; [done|]. apply Z.ltb_ge in E.
  destruct (schema !! Z.to_nat id) as [fi|] eqn:El; [|done].
  apply lookup_lt_Some in El. lia.
Qed.

Lemma valid_column_dec (schema : list FieldInfo) (id : Z) :
  valid_column schema id \/ ~ valid_column schema id.
Proof. unfold valid_column. lia. Qed.

(** The classification reads [tablet_schema()[id]] for every id, in
    order: it goes through exactly when every id is inside the schema. *)
Lemma classify_columns_cases (schema : list FieldInfo) (ids : list Z) :
  forall k v,
    (Forall (valid_column schema) ids /\
     classify_columns schema ids k v =
       Ok (k ++ filter (fun id => key_column schema id = true) ids,
           v ++ filter (fun id => key_column schema id = false) ids)) \/
    (~ Forall (valid_column schema) ids /\
     classify_columns schema ids k v = Fault OutOfBounds).
Proof.
  induction ids as [|id ids IH]; intros k v.
  - left. split; [constructor|]. by apply classify_columns_ok.
  - destruct (valid_column_dec schema id) as [Hid|Hid].
    + destruct (schema_at_valid _ _ Hid) as [fi Hfi].
      destruct (IH (if is_key fi then k ++ [id] else k)
                   (if is_key fi then v else v ++ [id])) as [[Hall Hc]|[Hall Hc]].
      * left. split; [by constructor|]. apply classify_columns_ok. by constructor.
      * right. split.
        { intros H. apply list.Forall_cons in H as [_ H]. done. }
        simpl. rewrite Hfi. simpl. destruct (is_key fi); exact Hc.
    + right. split.
      { intros H. apply list.Forall_cons in H as [H _]. done. }
      simpl. by rewrite (schema_at_invalid _ _ Hid).
Qed.

Lemma sort_greater_sorted (l : list Z) : StronglySorted (flip Z.le) (sort_greater l).
Proof.
  apply StronglySorted_merge_sort.
  - intros x y z. unfold flip. lia.
  - intros x y. unfold flip. lia.
Qed.

(** X5. When [_init_return_columns] succeeds, [_key_cids] is in
    descending order of column id, whatever the order the caller gave,
    while [_value_cids] keeps the order given. The ids classified are the
    caller's return columns (for a QUERY, and for a CHECKSUM with a list
    that is not empty) or all schema columns (for an empty list of another
    reader type); they are added to the ids that were there before, the
    key columns among them to [_key_cids], the others to [_value_cids]. *)
Theorem init_return_columns_key_order {Row : Type} (read_params : ReaderParams)
    (r r' : Reader Row) :
  _init_return_columns read_params r = Ok (OLAP_SUCCESS, r') ->
  exists ids,
    (ids = return_columns read_params \/
     (reader_type read_params <> READER_QUERY /\ return_columns read_params = [] /\
      ids = seqZ 0 (Z.of_nat (length (tablet_schema (_olap_table r)))))) /\
    Forall (valid_column (tablet_schema (_olap_table r))) ids /\
    StronglySorted (flip Z.le) (_key_cids r') /\
    _key_cids r' ≡ₚ
      _key_cids r ++ filter (fun id => key_column (tablet_schema (_olap_table r)) id = true) ids /\
    _value_cids r' =
      _value_cids r ++ filter (fun id => key_column (tablet_schema (_olap_table r)) id = false) ids.
Proof.
  unfold _init_return_columns. intros H.
  assert (Hgo : forall ids cols,
            (classify_columns (tablet_schema (_olap_table r)) ids (_key_cids r) (_value_cids r)
             ≫= λ '(k, v), Ok (OLAP_SUCCESS,
                  with_key_cids (sort_greater k) (with_value_cids v (with_return_columns cols r))))
            = Ok (OLAP_SUCCESS, r') ->
            Forall (valid_column (tablet_schema (_olap_table r))) ids /\
            StronglySorted (flip Z.le) (_key_cids r') /\
            _key_cids r' ≡ₚ
              _key_cids r ++ filter (fun id => key_column (tablet_schema (_olap_table r)) id = true) ids /\
            _value_cids r' =
              _value_cids r ++ filter (fun id => key_column (tablet_schema (_olap_table r)) id = false) ids).
  { intros ids cols Hc.
    destruct (classify_columns_cases (tablet_schema (_olap_table r)) ids
                (_key_cids r) (_value_cids r)) as [[Hall Heq]|[_ Heq]];
      rewrite Heq in Hc; [|discriminate].
    simpl in Hc. injection Hc as <-. simpl.
    split; [done|]. split; [apply sort_greater_sorted|]. split; [apply sort_greater_perm|done]. }
  case_bool_decide as Hq.
  - eexists. split; [left; reflexivity|]. by eapply Hgo.
  - case_bool_decide as He.
    + eexists. split; [right; split; [done|split; [|reflexivity]]|by eapply Hgo].
      by destruct (return_columns read_params).
    + case_bool_decide as Hc; [|discriminate].
      eexists. split; [left; reflexivity|]. by eapply Hgo.
Qed.

(** X6. The classification indexes the schema with every return column
    the caller gave, without a check: for a QUERY, and for a CHECKSUM
    with a list that is not empty, [_init_return_columns] goes through
    (and succeeds) exactly when every id is a column of the schema, and
    reads outside the schema vector otherwise. *)
Theorem init_return_columns_bounds {Row : Type} (read_params : ReaderParams)
    (r : Reader Row) :
  reader_type read_params = READER_QUERY \/
  (reader_type read_params = READER_CHECKSUM /\ return_columns read_params <> []) ->
  (Forall (valid_column (tablet_schema (_olap_table r))) (return_columns read_params) ->
   exists r', _init_return_columns read_params r = Ok (OLAP_SUCCESS, r')) /\
  (~ Forall (valid_column (tablet_schema (_olap_table r))) (return_columns read_params) ->
   _init_return_columns read_params r = Fault OutOfBounds).
Proof.
  intros Hty. unfold _init_return_columns.
  destruct (classify_columns_cases (tablet_schema (_olap_table r)) (return_columns read_params)
              (_key_cids r) (_value_cids r)) as [[Hall Heq]|[Hall Heq]].
  - split; [intros _|done].
    destruct Hty as [Hq|[Hc Hne]].
    + rewrite bool_decide_true by done. rewrite Heq. simpl. eauto.
    + rewrite bool_decide_false by (rewrite Hc; done).
      rewrite bool_decide_false by (by destruct (return_columns read_params)).
      rewrite bool_decide_true by done. rewrite Heq. simpl. eauto.
  - split; [done|intros _].
    destruct Hty as [Hq|[Hc Hne]].
    + rewrite bool_decide_true by done. rewrite Heq. reflexivity.
    + rewrite bool_decide_false by (rewrite Hc; done).
      rewrite bool_decide_false by (by destruct (return_columns read_params)).
      rewrite bool_decide_true by done. rewrite Heq. reflexivity.
Qed.

Lemma init_return_columns_key_order_witness :
  exists r',
    _init_return_columns (ex_params READER_QUERY false [0; 1; 2])
      (Reader_new ex_two_key_table : Reader (list Z)) = Ok (OLAP_SUCCESS, r') /\
    StronglySorted (flip Z.le) (_key_cids r') /\ _value_cids r' = [2].
Proof.
  destruct (_init_return_columns (ex_params READER_QUERY false [0; 1; 2])
              (Reader_new ex_two_key_table : Reader (list Z))) as [[res r']| |] eqn:E;
    [|vm_compute in E; discriminate..].
  assert (res = OLAP_SUCCESS) as ->.
  { pose proof E as E2. vm_compute in E2. by injection E2 as <- _. }
  destruct (init_return_columns_key_order _ _ _ E) as (ids & [->|(Hq & _)] & _ & Hs & _ & Hv);
    [|done].
  exists r'. split; [done|]. split; [done|]. rewrite Hv. vm_compute. reflexivity.
Defined.

Lemma init_return_columns_bounds_witness :
  _init_return_columns (ex_params READER_QUERY false [0; 5])
    (Reader_new (ex_table AGG_KEYS) : Reader (list Z)) = Fault OutOfBounds.
Proof.
  destruct (init_return_columns_bounds (ex_params READER_QUERY false [0; 5])
              (Reader_new (ex_table AGG_KEYS) : Reader (list Z))
              ltac:(left; reflexivity)) as [_ H].
  apply H. intros Hall.
  apply list.Forall_cons in Hall as [_ Hall]. apply list.Forall_cons in Hall as [Hv _].
  unfold valid_column in Hv. simpl in Hv. lia.
Defined.

(** ** Further properties of the bloom-filter columns *)

Section BloomFilterColumns.
Context {Row : Type}.
Variable MAX_OP_IN_FIELD_NUM : nat.

Lemma elem_of_bf_add_condition_column (s : gset Z) (cond_column : Z * CondColumn) (c : Z) :
  c ∈ bf_add_condition_column MAX_OP_IN_FIELD_NUM s cond_column <->
  c ∈ s \/ (c = to_uint32 cond_column.1 /\
            exists cond, cond ∈ conds cond_column.2 /\ bf_condition MAX_OP_IN_FIELD_NUM cond).
Proof.
  unfold bf_add_condition_column. generalize (conds cond_column.2) as l.
  intros l. revert s. induction l as [|cond l IH]; intros s; simpl.
  - split; [tauto|]. intros [H|(_ & cond & H & _)]; [done|]. by apply elem_of_nil in H.
  - rewrite IH. clear IH.
    assert (Hb : bool_decide (op cond = OP_EQ)
                 || bool_decide (op cond = OP_IN)
                    && bool_decide (length (operand_set cond) < MAX_OP_IN_FIELD_NUM)%nat = true
                 <-> bf_condition MAX_OP_IN_FIELD_NUM cond).
    { unfold bf_condition.
      rewrite orb_true_iff, andb_true_iff, !bool_decide_eq_true. tauto. }
    destruct (bool_decide (op cond = OP_EQ)
              || bool_decide (op cond = OP_IN)
                 && bool_decide (length (operand_set cond) < MAX_OP_IN_FIELD_NUM)%nat) eqn:E.
    + rewrite elem_of_union, elem_of_singleton. split.
      * intros [[->|H]|(-> & cond' & H1 & H2)]; [right|by left|right].
        -- split; [done|]. exists cond. split; [apply elem_of_cons; by left|]. by apply Hb.
        -- split; [done|]. exists cond'. split; [apply elem_of_cons; by right|done].
      * intros [H|(-> & cond' & H1 & H2)]; [by left; right|]. by left; left.
    + split.
      * intros [H|(-> & cond' & H1 & H2)]; [by left|right].
        split; [done|]. exists cond'. split; [apply elem_of_cons; by right|done].
      * intros [H|(-> & cond' & H1 & H2)]; [by left|].
        apply elem_of_cons in H1 as [->|H1].
        -- apply Hb in H2. congruence.
        -- right. split; [done|]. by exists cond'.
Qed.

Lemma elem_of_bf_add_columns (l : list (Z * CondColumn)) (s : gset Z) (c : Z) :
  c ∈ foldl (bf_add_condition_column MAX_OP_IN_FIELD_NUM) s l <->
  c ∈ s \/ has_bf_condition MAX_OP_IN_FIELD_NUM {| columns := l |} c.
Proof.
  unfold has_bf_condition. simpl. revert s. induction l as [|[col cc] l IH]; intros s; simpl.
  - split; [tauto|]. intros [H|(col & cc & cond & H & _)]; [done|]. by apply elem_of_nil in H.
  - rewrite IH, elem_of_bf_add_condition_column. simpl. split.
    + intros [[H|(-> & cond & H1 & H2)]|(col' & cc' & cond & H1 & H2 & H3 & ->)].
      * by left.
      * right. exists col, cc, cond. split; [apply elem_of_cons; by left|done].
      * right. exists col', cc', cond. split; [apply elem_of_cons; by right|done].
    + intros [H|(col' & cc' & cond & H1 & H2 & H3 & ->)]; [by left; left|].
      apply elem_of_cons in H1 as [[= -> ->]|H1].
      * left. right. split; [done|]. by exists cond.
      * right. by exists col', cc', cond.
Qed.

Lemma elem_of_bf_remove_no_bf (schema : list FieldInfo) :
  forall (i : Z) (s : gset Z) (c : Z),
    c ∈ bf_remove_no_bf i schema s <->
    c ∈ s /\ forall fi, i <= c -> schema !! Z.to_nat (c - i) = Some fi -> is_bf_column fi = true.
Proof.
  induction schema as [|f schema IH]; intros i s c; simpl.
  - split; [intros H; split; [done|intros fi _ Hfi; by rewrite lookup_nil in Hfi]|tauto].
  - rewrite IH. clear IH. split.
    + intros [Hc Hrest].
      assert (c ∈ s) as Hs.
      { destruct (is_bf_column f); [done|]. by apply elem_of_difference in Hc as [Hc' _]. }
      split; [done|]. intros fi Hi Hfi.
      destruct (decide (c = i)) as [->|Hne].
      * replace (i - i) with 0 in Hfi by lia. simpl in Hfi. injection Hfi as <-.
        destruct (is_bf_column f); [done|].
        apply elem_of_difference in Hc as [_ Hc']. by rewrite elem_of_singleton in Hc'.
      * apply (Hrest fi); [lia|].
        replace (Z.to_nat (c - i)) with (S (Z.to_nat (c - (i + 1)))) in Hfi by lia. done.
    + intros [Hc Hall]. split.
      * destruct (is_bf_column f) eqn:E; [done|].
        apply elem_of_difference. split; [done|]. rewrite elem_of_singleton. intros ->.
        specialize (Hall f ltac:(lia)). replace (i - i) with 0 in Hall by lia.
        simpl in Hall. specialize (Hall eq_refl). congruence.
      * intros fi Hi Hfi. apply (Hall fi); [lia|].
        replace (Z.to_nat (c - i)) with (S (Z.to_nat (c - (i + 1)))) by lia. done.
Qed.

Lemma elem_of_bf_candidates (r : Reader Row) (c : Z) :
  c ∈ bf_candidates MAX_OP_IN_FIELD_NUM r <->
  (c ∈ _load_bf_columns r \/ has_bf_condition MAX_OP_IN_FIELD_NUM (_conditions r) c) /\
  forall fi, schema_at (tablet_schema (_olap_table r)) c = Ok fi -> is_bf_column fi = true.
Proof.
  unfold bf_candidates. rewrite elem_of_bf_remove_no_bf, elem_of_bf_add_columns.
  destruct (_conditions r) as [l]. simpl.
  apply and_iff_compat_l. unfold schema_at. split.
  - intros H fi. destruct (Z.ltb_spec c 0); [done|].
    replace (c - 0) with c in H by lia.
    destruct (tablet_schema (_olap_table r) !! Z.to_nat c) as [fi'|] eqn:E; [|done].
    intros [= <-]. by apply (H fi').
  - intros H fi Hc Hfi. apply H. destruct (Z.ltb_spec c 0); [lia|].
    replace (c - 0) with c in Hfi by lia. by rewrite Hfi.
Qed.

(** X7. [_init_load_bf_columns] only ever keeps a column in
    [_load_bf_columns] that was there before or that has an equality
    condition or an IN condition with fewer than [MAX_OP_IN_FIELD_NUM]
    operands; and a kept id that is a column of the schema has a bloom
    filter stream. (An id outside the schema is not looked at by the loop
    that removes the columns without one.) *)
Theorem init_load_bf_columns_kept (read_params : ReaderParams) (r r' : Reader Row)
    (res : OLAPStatus) (c : Z) :
  _init_load_bf_columns MAX_OP_IN_FIELD_NUM read_params r = Ok (res, r') ->
  c ∈ _load_bf_columns r' ->
  (c ∈ _load_bf_columns r \/ has_bf_condition MAX_OP_IN_FIELD_NUM (_conditions r) c) /\
  (forall fi, schema_at (tablet_schema (_olap_table r)) c = Ok fi -> is_bf_column fi = true).
Proof.
  unfold _init_load_bf_columns. intros H Hc.
  apply bind_Ok in H as (mei & _ & H). injection H as <- <-. simpl in Hc.
  apply elem_of_bf_candidates.
  destruct (bf_erase_max (_olap_table r) mei).
  - apply elem_of_difference in Hc as [Hc _]. by apply elem_of_bf_erase_below in Hc as [Hc' _].
  - by apply elem_of_bf_erase_below in Hc as [Hc' _].
Qed.

Lemma min_key_len_pos (keys : list OlapTuple) (m : Z) :
  0 < min_key_len keys m <-> 0 < m /\ Forall (fun k => k <> []) keys.
Proof.
  revert m. induction keys as [|k keys IH]; intros m; simpl.
  - split; [intros H; split; [done|constructor]|tauto].
  - rewrite IH, list.Forall_cons. clear IH.
    assert (Hk : k <> [] <-> 0 < Z.of_nat (length k)).
    { destruct k; simpl; split; intros H; try done; lia. }
    rewrite Hk. destruct (Z.ltb_spec (Z.of_nat (length k)) m); split; intros H'; 
      (split; [lia|]; try split; try tauto; lia).
Qed.

Lemma equal_prefix_no_turn (j : Z) (s : OlapTuple) (ends : list OlapTuple) (i : nat) (m : Z) :
  m <= 0 -> equal_prefix (Z.to_nat m) j s ends i = Ok j.
Proof. intros H. replace (Z.to_nat m) with 0%nat by lia. reflexivity. Qed.

Lemma max_equal_loop_no_turn (starts : list OlapTuple) :
  forall (i : nat) (ends : list OlapTuple) (m mei : Z),
    m <= 0 -> exists mei', max_equal_loop i starts ends m mei = Ok mei'.
Proof.
  induction starts as [|s starts IH]; intros i ends m mei Hm; cbn [max_equal_loop]; [by eexists|].
  rewrite equal_prefix_no_turn by done. simpl. by apply IH.
Qed.

Lemma max_equal_loop_faults (starts : list OlapTuple) :
  forall (i : nat) (ends : list OlapTuple) (m mei : Z),
    Forall (fun k => m <= Z.of_nat (length k)) starts ->
    Forall (fun k => m <= Z.of_nat (length k)) ends ->
    0 < m -> (i <= length ends)%nat -> (length ends < i + length starts)%nat ->
    max_equal_loop i starts ends m mei = Fault OutOfBounds.
Proof.
  induction starts as [|s starts IH]; intros i ends m mei Hs He Hm Hi0 Hlen;
    cbn [max_equal_loop]; simpl in Hlen; [lia|].
  apply list.Forall_cons in Hs as [Hs Hrest].
  destruct (ends !! i) as [e|] eqn:Hi.
  - assert (Hle : m <= Z.of_nat (length e)).
    { rewrite list.Forall_forall in He. apply He. by eapply list_elem_of_lookup_2. }
    destruct (equal_prefix_returns (Z.to_nat m) 0 s e ends i Hi) as [j ->]; [lia..|].
    apply lookup_lt_Some in Hi.
    simpl. apply IH; [done|done|done|lia|lia].
  - destruct (Z.to_nat m) as [|todo] eqn:Em; [lia|]. cbn [equal_prefix]. by rewrite Hi.
Qed.

(** X8. The loop that compares the scan keys reads [end_key[i]] for every
    start key, without looking at the number of end keys.
    [_init_load_bf_columns] reads past the end of [end_key] exactly when
    there are fewer end keys than start keys and the keys are compared at
    all (the schema and every scan key have a field); in every other case
    it returns [OLAP_SUCCESS]. *)
Theorem init_load_bf_columns_end_key_bounds (read_params : ReaderParams) (r : Reader Row) :
  ((length (end_key read_params) < length (start_key read_params))%nat /\
   reads_end_key (_olap_table r) read_params ->
   _init_load_bf_columns MAX_OP_IN_FIELD_NUM read_params r = Fault OutOfBounds) /\
  (~ ((length (end_key read_params) < length (start_key read_params))%nat /\
      reads_end_key (_olap_table r) read_params) ->
   exists r', _init_load_bf_columns MAX_OP_IN_FIELD_NUM read_params r = Ok (OLAP_SUCCESS, r')).
Proof.
  unfold _init_load_bf_columns, max_equal_index_of, reads_end_key.
  set (m0 := Z.of_nat (length (tablet_schema (_olap_table r)))).
  set (m1 := min_key_len (start_key read_params) m0).
  set (m2 := min_key_len (end_key read_params) m1).
  destruct (min_key_len_le (start_key read_params) m0) as [_ Hs].
  destruct (min_key_len_le (end_key read_params) m1) as [Hm He].
  fold m1 in Hs. fold m2 in He.
  assert (Hs' : Forall (fun k => m2 <= Z.of_nat (length k)) (start_key read_params)).
  { eapply list.Forall_impl; [exact Hs|]. simpl. intros k Hk. lia. }
  assert (Hpos : 0 < m2 <->
                 tablet_schema (_olap_table r) <> [] /\
                 Forall (fun k => k <> []) (start_key read_params) /\
                 Forall (fun k => k <> []) (end_key read_params)).
  { unfold m2, m1. rewrite !min_key_len_pos. unfold m0.
    assert (Hsch : tablet_schema (_olap_table r) <> [] <->
                   0 < Z.of_nat (length (tablet_schema (_olap_table r)))).
    { destruct (tablet_schema (_olap_table r)); simpl; split; intros H; try done; lia. }
    rewrite Hsch. tauto. }
  split.
  - intros [Hlen Hr]. apply Hpos in Hr.
    rewrite (max_equal_loop_faults (start_key read_params) 0 (end_key read_params) m2 (-1));
      [reflexivity|done|done|done|lia|simpl; lia].
  - intros Hn.
    destruct (decide (0 < m2)) as [Hp|Hp].
    + destruct (max_equal_loop_returns (start_key read_params) 0 (end_key read_params) m2 (-1))
        as [mei ->]; [done|done| |by eexists].
      assert (~ (length (end_key read_params) < length (start_key read_params))%nat) as Hge.
      { intros Hlt. apply Hn. split; [done|by apply Hpos]. }
      simpl. lia.
    + destruct (max_equal_loop_no_turn (start_key read_params) 0 (end_key read_params) m2 (-1))
        as [mei ->]; [lia|by eexists].
Qed.

End BloomFilterColumns.

Lemma init_load_bf_columns_kept_witness :
  (0 ∈ _load_bf_columns ex_bf_reader \/ has_bf_condition 100 (_conditions ex_bf_reader) 0) /\
  (forall fi, schema_at (tablet_schema (_olap_table ex_bf_reader)) 0 = Ok fi ->
              is_bf_column fi = true).
Proof.
  apply (init_load_bf_columns_kept 100 ex_bf_params ex_bf_reader
           (with_load_bf_columns {[ 0 ]} ex_bf_reader) OLAP_SUCCESS 0).
  - vm_compute. reflexivity.
  - simpl. apply elem_of_singleton. reflexivity.
Defined.

Lemma init_load_bf_columns_end_key_bounds_witness :
  _init_load_bf_columns 100 ex_missing_end_key_params ex_bf_reader = Fault OutOfBounds.
Proof.
  apply (init_load_bf_columns_end_key_bounds 100 ex_missing_end_key_params ex_bf_reader).
  split; [simpl; lia|]. split; [done|]. split; repeat constructor; done.
Defined.

(** ** The seek columns *)

Section SeekColumns.
Context {Row : Type} {key_ops : ScanKeyOps Row}.

Lemma max_field_count_spec (keys : list Row) :
  forall m, 0 <= m < 4294967296 -> Forall field_count_fits keys ->
    0 <= max_field_count keys m < 4294967296 /\
    forall c, c < max_field_count keys m <->
              c < m \/ exists key, key ∈ keys /\ c < field_count key.
Proof.
  unfold max_field_count.
  induction keys as [|key keys IH]; intros m Hm Hfit; simpl.
  - split; [done|]. intros c. split; [by left|]. intros [H|(key & H & _)]; [done|].
    by apply elem_of_nil in H.
  - apply list.Forall_cons in Hfit as [Hkey Hfit]. unfold field_count_fits in Hkey.
    assert (Hu : to_uint32 (field_count key) = field_count key).
    { unfold to_uint32. apply Z.mod_small. lia. }
    destruct (IH (if field_count key >? m then to_uint32 (field_count key) else m))
      as [Hr Hc]; [|done|].
    { destruct (field_count key >? m); [rewrite Hu|]; lia. }
    split; [exact Hr|]. intros c. rewrite Hc. clear IH Hc Hr. rewrite Hu.
    destruct (Z.gtb_spec (field_count key) m) as [Hgt|Hle]; split.
    + intros [H|(k & Hk & H)]; [right; exists key; split; [apply elem_of_cons; by left|done]|].
      right. exists k. split; [apply elem_of_cons; by right|done].
    + intros [H|(k & Hk & H)]; [left; lia|].
      apply elem_of_cons in Hk as [->|Hk]; [by left|]. right. by exists k.
    + intros [H|(k & Hk & H)]; [by left|].
      right. exists k. split; [apply elem_of_cons; by right|done].
    + intros [H|(k & Hk & H)]; [by left|].
      apply elem_of_cons in Hk as [->|Hk]; [left; lia|]. right. by exists k.
Qed.

Lemma elem_of_seek_column_set (r : Reader Row) (c : Z) :
  c ∈ seek_column_set r <->
  c ∈ _return_columns r \/
  exists col cc, (col, cc) ∈ columns (_conditions r) /\ c = to_uint32 col.
Proof.
  unfold seek_column_set.
  assert (H : forall (l : list (Z * CondColumn)) (s : gset Z),
             c ∈ foldl (fun s (it : Z * CondColumn) => {[ to_uint32 it.1 ]} ∪ s) s l <->
             c ∈ s \/ exists col cc, (col, cc) ∈ l /\ c = to_uint32 col).
  { induction l as [|[col cc] l IH]; intros s; simpl.
    - split; [by left|]. intros [H|(col & cc & H & _)]; [done|]. by apply elem_of_nil in H.
    - rewrite IH, elem_of_union, elem_of_singleton. split.
      + intros [[->|H]|(col' & cc' & H & ->)].
        * right. exists col, cc. split; [apply elem_of_cons; by left|done].
        * by left.
        * right. exists col', cc'. split; [apply elem_of_cons; by right|done].
      + intros [H|(col' & cc' & H & ->)]; [by left; right|].
        apply elem_of_cons in H as [[= -> ->]|H]; [by left; left|].
        right. by exists col', cc'. }
  rewrite H, elem_of_list_to_set. done.
Qed.

Lemma foldl_push_filter (f : Z -> bool) (l : list Z) :
  forall sc, foldl (fun sc i => if f i then sc ++ [i] else sc) sc l = sc ++ filter (fun i => f i = true) l.
Proof.
  induction l as [|i l IH]; intros sc; simpl; [by rewrite app_nil_r|].
  rewrite IH. destruct (f i) eqn:E.
  - rewrite filter_cons_True by done. by rewrite <- app_assoc.
  - rewrite filter_cons_False by congruence. done.
Qed.

Lemma seqZ_strictly_sorted (n : nat) : forall m, StronglySorted Z.lt (seqZ m (Z.of_nat n)).
Proof.
  induction n as [|n IH]; intros m.
  - rewrite seqZ_nil by lia. constructor.
  - rewrite seqZ_cons by lia. replace (Z.pred (Z.of_nat (S n))) with (Z.of_nat n) by lia.
    constructor; [apply IH|].
    apply list.Forall_forall. intros x Hx. apply elem_of_seqZ in Hx. lia.
Qed.

Lemma StronglySorted_filter_lt (f : Z -> bool) (l : list Z) :
  StronglySorted Z.lt l -> StronglySorted Z.lt (filter (fun i => f i = true) l).
Proof.
  induction 1 as [|x l Hl IH Hx]; [constructor|].
  destruct (f x) eqn:E.
  - rewrite filter_cons_True by done. constructor; [done|].
    apply list.Forall_forall. intros y Hy. apply list_elem_of_filter in Hy as [_ Hy].
    rewrite list.Forall_forall in Hx. by apply Hx.
  - rewrite filter_cons_False by congruence. done.
Qed.

(** X9. [_init_seek_columns], on a Reader whose [_seek_columns] is still
    empty, succeeds and leaves in it, in ascending order and each once,
    exactly the columns of the schema that are returned, that have a
    condition, or that are a field of a start key or an end key. (A
    return column or a condition column outside the schema is left
    out.) *)
Theorem init_seek_columns_members (r : Reader Row) (res : OLAPStatus) (sc : list Z) :
  Forall field_count_fits (start_keys (_keys_param r) ++ end_keys (_keys_param r)) ->
  _init_seek_columns r [] = (res, sc) ->
  res = OLAP_SUCCESS /\
  StronglySorted Z.lt sc /\
  forall c, c ∈ sc <-> valid_column (tablet_schema (_olap_table r)) c /\ seek_wanted r c.
Proof.
  intros Hfit. unfold _init_seek_columns. rewrite foldl_push_filter. simpl.
  intros [= <- <-]. split; [done|]. split.
  { apply StronglySorted_filter_lt, seqZ_strictly_sorted. }
  apply list.Forall_app in Hfit as [Hs He].
  destruct (max_field_count_spec (start_keys (_keys_param r)) 0 ltac:(lia) Hs) as [Hm1 Hc1].
  destruct (max_field_count_spec (end_keys (_keys_param r)) _ Hm1 He) as [_ Hc2].
  intros c. rewrite list_elem_of_filter, elem_of_seqZ, orb_true_iff, Z.ltb_lt,
    bool_decide_eq_true, Hc2, Hc1, elem_of_seek_column_set.
  unfold valid_column, seek_wanted. split.
  - intros [Hw Hv]. split; [lia|].
    destruct Hw as [[[H|(k & Hk & H)]|(k & Hk & H)]|[H|H]].
    + lia.
    + right. right. exists k. split; [apply elem_of_app; by left|done].
    + right. right. exists k. split; [apply elem_of_app; by right|done].
    + by left.
    + right. by left.
  - intros [Hv Hw]. split; [|lia].
    destruct Hw as [H|[H|(k & Hk & H)]].
    + right. by left.
    + right. by right.
    + left. apply elem_of_app in Hk as [Hk|Hk].
      * left. right. by exists k.
      * right. by exists k.
Qed.

End SeekColumns.

Lemma init_seek_columns_members_witness :
  StronglySorted Z.lt [0; 1] /\
  (0 ∈ [0; 1] <->
   valid_column (tablet_schema (_olap_table ex_seek_reader)) 0 /\
   @seek_wanted _ ZScanKeyOps ex_seek_reader 0).
Proof.
  destruct (@init_seek_columns_members _ ZScanKeyOps ex_seek_reader OLAP_SUCCESS [0; 1])
    as (_ & Hs & Hc).
  - repeat constructor; unfold field_count_fits; simpl; lia.
  - vm_compute. reflexivity.
  - split; [exact Hs|apply Hc].
Defined.

(** ** The scan keys *)

Section ScanKeys.
Context {Row : Type} {key_ops : ScanKeyOps Row}.

(** The loop over the tuples: either every cursor was allocated and
    built, or the loop returned at the first tuple [j] for which that
    failed, with the cursors before it built and the rest of the vector as
    it was. *)
Lemma init_scan_keys_spec (schema : list FieldInfo) (tuples : list OlapTuple) :
  forall (i : nat) (keys : list (ptr Row)) (heap : list bool)
         (res : OLAPStatus) (keys' : list (ptr Row)) (heap' : list bool),
    (i + length tuples <= length keys)%nat ->
    init_scan_keys schema tuples i keys heap = (res, keys', heap') ->
    length keys' = length keys /\ take i keys' = take i keys /\
    ((res = OLAP_SUCCESS /\
      take (length tuples) heap = replicate (length tuples) true /\
      heap' = drop (length tuples) heap /\
      Forall (fun t => (build_scan_key schema t).1 = OLAP_SUCCESS) tuples /\
      drop i keys' =
        ((fun t => live (build_scan_key schema t).2) <$> tuples) ++
        drop (i + length tuples) keys) \/
     (res <> OLAP_SUCCESS /\
      exists (j : nat) (t : OlapTuple),
        tuples !! j = Some t /\
        take j heap = replicate j true /\
        heap' = drop (S j) heap /\
        Forall (fun t => (build_scan_key schema t).1 = OLAP_SUCCESS) (take j tuples) /\
        (heap !! j = Some true -> res = (build_scan_key schema t).1) /\
        (heap !! j <> Some true -> res = OLAP_ERR_MALLOC_ERROR /\ keys' !! (i + j)%nat = Some nullptr) /\
        drop (i + S j) keys' = drop (i + S j) keys)).
Proof.
  induction tuples as [|t tuples IH]; intros i keys heap res keys' heap' Hlen H;
    cbn [init_scan_keys] in H.
  - injection H as <- <- <-. split; [done|]. split; [done|]. left.
    split; [done|]. split; [done|]. split; [by rewrite drop_0|].
    split; [constructor|]. simpl. by rewrite Nat.add_0_r.
  - simpl in Hlen.
    assert (Hfail : forall p, keys' = <[i := p]> keys ->
              length keys' = length keys /\ take i keys' = take i keys /\
              drop (i + 1) keys' = drop (i + 1) keys).
    { intros p ->. rewrite length_insert. split; [done|]. split.
      - by rewrite take_insert_ge by lia.
      - by rewrite drop_insert_lt by lia. }
    assert (Hnull : forall heap0,
              (res, keys', heap') = (OLAP_ERR_MALLOC_ERROR, <[i := nullptr]> keys, heap0) ->
              heap !! 0%nat <> Some true -> heap0 = drop 1 heap ->
              length keys' = length keys /\ take i keys' = take i keys /\
              (res <> OLAP_SUCCESS /\
               exists (j : nat) (t0 : OlapTuple),
                 (t :: tuples) !! j = Some t0 /\
                 take j heap = replicate j true /\
                 heap' = drop (S j) heap /\
                 Forall (fun t => (build_scan_key schema t).1 = OLAP_SUCCESS)
                        (take j (t :: tuples)) /\
                 (heap !! j = Some true -> res = (build_scan_key schema t0).1) /\
                 (heap !! j <> Some true ->
                  res = OLAP_ERR_MALLOC_ERROR /\ keys' !! (i + j)%nat = Some nullptr) /\
                 drop (i + S j) keys' = drop (i + S j) keys)).
    { intros heap0 [= -> -> ->] Hh ->.
      destruct (Hfail nullptr eq_refl) as (H1 & H2 & H3). split; [done|]. split; [done|].
      split; [done|]. exists 0%nat, t.
      split; [done|]. split; [done|]. split; [done|]. split; [constructor|].
      split; [done|]. split; [|first [exact H3|by rewrite Nat.add_1_r in H3]].
      intros _. split; [done|]. rewrite Nat.add_0_r. apply list_lookup_insert_eq. lia. }
    destruct heap as [|b heap]; [|destruct b]; cbn [new_RowCursor] in H.
    + destruct (Hnull [] (eq_sym H)) as (H1 & H2 & H3); [done|done|]. eauto.
    + assert (Hone : forall res0 k0,
                (res, keys', heap') = (res0, <[i := live k0]> keys, heap) ->
                res0 <> OLAP_SUCCESS -> res0 = (build_scan_key schema t).1 ->
                length keys' = length keys /\ take i keys' = take i keys /\
                (res <> OLAP_SUCCESS /\
                 exists (j : nat) (t0 : OlapTuple),
                   (t :: tuples) !! j = Some t0 /\
                   take j (true :: heap) = replicate j true /\
                   heap' = drop (S j) (true :: heap) /\
                   Forall (fun t => (build_scan_key schema t).1 = OLAP_SUCCESS)
                          (take j (t :: tuples)) /\
                   ((true :: heap) !! j = Some true -> res = (build_scan_key schema t0).1) /\
                   ((true :: heap) !! j <> Some true ->
                    res = OLAP_ERR_MALLOC_ERROR /\ keys' !! (i + j)%nat = Some nullptr) /\
                   drop (i + S j) keys' = drop (i + S j) keys)).
      { intros res0 k0 [= -> -> ->] Hne Hb.
        destruct (Hfail (live k0) eq_refl) as (H1 & H2 & H3). split; [done|]. split; [done|].
        split; [done|]. exists 0%nat, t.
        split; [done|]. split; [done|]. split; [done|]. split; [constructor|].
        split; [done|]. split; [done|]. first [exact H3|by rewrite Nat.add_1_r in H3]. }
      pose proof (eq_refl (build_scan_key schema t)) as Hb. unfold build_scan_key at 2 in Hb.
      destruct (init_scan_key schema t RowCursor_new) as [res1 k1] eqn:E1.
      case_bool_decide as Hr1.
      { destruct (Hone res1 k1 (eq_sym H)) as (H1 & H2 & H3); [done|by rewrite Hb|]. eauto. }
      destruct (from_tuple t k1) as [res2 k2] eqn:E2.
      case_bool_decide as Hr2.
      { destruct (Hone res2 k2 (eq_sym H)) as (H1 & H2 & H3); [done|by rewrite Hb|]. eauto. }
      subst res1 res2. clear Hone Hnull.
      apply IH in H; [|rewrite length_insert; lia].
      destruct H as (Hl & Ht & H). rewrite length_insert in Hl.
      assert (Hhead : keys' !! i = Some (live k2)).
      { assert (take (S i) keys' !! i = take (S i) (<[i:=live k2]> keys) !! i) as Hx
          by (by rewrite Ht).
        rewrite !lookup_take_lt in Hx by lia. rewrite Hx.
        apply list_lookup_insert_eq. lia. }
      assert (Hpre : take i keys' = take i keys).
      { assert (take i (take (S i) keys') = take i (take (S i) (<[i:=live k2]> keys))) as Hx
          by (by rewrite Ht).
        rewrite !take_take in Hx. replace (i `min` S i)%nat with i in Hx by lia.
        rewrite Hx. by rewrite take_insert_ge by lia. }
      split; [done|]. split; [done|].
      destruct H as [(-> & Hh & -> & Hall & Hd)|(Hne & j & t' & Hj & Hh & -> & Hall & Hs & Hm & Hd)].
      * left. split; [done|]. simpl. rewrite Hh. split; [done|]. split; [done|].
        rewrite Hb. simpl.
        split; [constructor; [by rewrite Hb|done]|].
        rewrite (drop_S _ _ _ Hhead). f_equal.
        rewrite Hd. f_equal. rewrite drop_insert_lt by lia. f_equal. lia.
      * right. split; [done|]. exists (S j), t'. simpl. rewrite Hh.
        split; [done|]. split; [done|]. split; [done|].
        split; [constructor; [by rewrite Hb|done]|].
        split; [done|]. split.
        { intros Hx. destruct (Hm Hx) as [-> Hk]. split; [done|].
          by replace (i + S j)%nat with (S i + j)%nat by lia. }
        replace (i + S (S j))%nat with (S i + S j)%nat by lia.
        rewrite Hd. by rewrite drop_insert_lt by lia.
    + destruct (Hnull heap (eq_sym H)) as (H1 & H2 & H3); [done|done|]. eauto.
Qed.

End ScanKeys.

Section KeysParamInit.
Context {Row : Type} {key_ops : ScanKeyOps Row}.

Lemma length_resize {A : Type} (n : nat) (x : A) (l : list A) : length (resize n x l) = n.
Proof. unfold resize. rewrite length_app, length_take, length_replicate. lia. Qed.

Lemma take_add_replicate (a b : nat) (h : list bool) :
  take (a + b) h = replicate (a + b) true <->
  take a h = replicate a true /\ take b (drop a h) = replicate b true.
Proof.
  rewrite <- (take_drop a h) at 1. rewrite take_app, length_take, replicate_add. split.
  - intros H.
    assert (length (take a h) = a) as Hl.
    { apply (f_equal length) in H. rewrite !length_app, !length_take, !length_replicate,
        length_drop in H. rewrite length_take. lia. }
    rewrite take_take in H. replace ((a + b) `min` a)%nat with a in H by lia.
    apply app_inj_1 in H as [H1 H2]; [|by rewrite length_replicate].
    split; [done|]. rewrite <- H2. f_equal. rewrite length_take in Hl. lia.
  - intros [H1 H2].
    assert (length (take a h) = a) as Hl.
    { apply (f_equal length) in H1. by rewrite length_replicate in H1. }
    rewrite take_take. replace ((a + b) `min` a)%nat with a by lia.
    rewrite H1. f_equal. rewrite <- H2. f_equal. rewrite length_take in Hl. lia.
Qed.

Lemma take_replicate_lookup (n j : nat) (h : list bool) :
  take n h = replicate n true -> (j < n)%nat -> h !! j = Some true.
Proof.
  intros H Hj. rewrite <- (lookup_take_lt h n j) by done. rewrite H.
  by apply lookup_replicate_2.
Qed.

(** What the loop answers, read off [init_scan_keys_spec] for a vector of
    the size of the tuples. *)
Lemma init_scan_keys_all (schema : list FieldInfo) (tuples : list OlapTuple)
    (keys : list (ptr Row)) (heap : list bool)
    (res : OLAPStatus) (keys' : list (ptr Row)) (heap' : list bool) :
  length keys = length tuples ->
  init_scan_keys schema tuples 0 keys heap = (res, keys', heap') ->
  (res = OLAP_SUCCESS <->
   take (length tuples) heap = replicate (length tuples) true /\
   Forall (fun t => (build_scan_key schema t).1 = OLAP_SUCCESS) tuples) /\
  (res = OLAP_SUCCESS ->
   keys' = (fun t => live (build_scan_key schema t).2) <$> tuples /\
   heap' = drop (length tuples) heap).
Proof.
  intros Hlen H. apply init_scan_keys_spec in H; [|simpl; lia].
  destruct H as (Hl & _ & [(-> & Hh & -> & Hall & Hd)|(Hne & j & t & Hj & Hh & -> & Hall & Hs & Hm & Hd)]).
  - split; [done|]. intros _. split; [|done].
    rewrite drop_0 in Hd. rewrite Hd. simpl. rewrite drop_ge by lia. by rewrite app_nil_r.
  - split; [|done]. split; [done|]. intros [Hh' Hall'].
    assert (j < length tuples)%nat as Hlt by (by eapply lookup_lt_Some).
    pose proof (take_replicate_lookup _ _ _ Hh' Hlt) as Hjt.
    rewrite (Hs Hjt) in Hne. rewrite list.Forall_forall in Hall'.
    exfalso. apply Hne, Hall'. by eapply list_elem_of_lookup_2.
Qed.

(** X10. [_init_keys_param] sets [_next_key_index] to 0. With no start
    key it returns [OLAP_SUCCESS] at once and leaves [_keys_param] as it
    was: the end keys and the range tokens of the request are not looked
    at. With a start key, it succeeds exactly when a cursor can be
    allocated for every start key and every end key and each is built from
    its tuple ([init_scan_key], then [from_tuple]) with success; then
    [_keys_param] holds the range tokens of the request and, in the order
    of the request and with no NULL left, one cursor for each start key and
    one for each end key, whatever the vectors held before. *)
Theorem init_keys_param_built (read_params : ReaderParams) (range end_range : string)
    (table : OLAPTable) (kp : KeysParamPtrs Row) (heap : list bool) :
  let n := (length (start_key read_params) + length (end_key read_params))%nat in
  let build := fun t => (build_scan_key (tablet_schema table) t).2 in
  (start_key read_params = [] ->
   _init_keys_param read_params range end_range table kp heap = (OLAP_SUCCESS, 0%nat, kp, heap)) /\
  (start_key read_params <> [] ->
   forall res idx kp' heap',
     _init_keys_param read_params range end_range table kp heap = (res, idx, kp', heap') ->
     idx = 0%nat /\
     (res = OLAP_SUCCESS <->
      take n heap = replicate n true /\
      Forall (fun t => (build_scan_key (tablet_schema table) t).1 = OLAP_SUCCESS)
             (start_key read_params ++ end_key read_params)) /\
     (res = OLAP_SUCCESS ->
      kp' = KeysParam_ptrs {| range := range; end_range := end_range;
                              start_keys := build <$> start_key read_params;
                              end_keys := build <$> end_key read_params |} /\
      heap' = drop n heap)).
Proof.
  intros n build. unfold _init_keys_param. split.
  { intros ->. reflexivity. }
  intros Hne res idx kp' heap'.
  rewrite bool_decide_false by (by destruct (start_key read_params)).
  destruct (init_scan_keys (tablet_schema table) (start_key read_params) 0
              (resize (length (start_key read_params)) nullptr (ptrs_start_keys kp)) heap)
    as [[res1 starts] heap1] eqn:E1.
  apply init_scan_keys_all in E1 as [Hiff1 Hok1]; [|apply length_resize].
  unfold n. rewrite take_add_replicate, list.Forall_app.
  case_bool_decide as Hr1.
  { intros [= <- <- <- <-]. split; [done|]. split; [|done].
    split; [done|]. intros [[Hh _] [Hall _]]. exfalso. apply Hr1, Hiff1. done. }
  destruct (Hok1 Hr1) as [-> ->]. apply Hiff1 in Hr1 as [Hh1 Hall1].
  destruct (init_scan_keys (tablet_schema table) (end_key read_params) 0
              (resize (length (end_key read_params)) nullptr (ptrs_end_keys kp))
              (drop (length (start_key read_params)) heap))
    as [[res2 ends] heap2] eqn:E2.
  apply init_scan_keys_all in E2 as [Hiff2 Hok2]; [|apply length_resize].
  intros [= <- <- <- <-]. split; [done|]. split.
  - rewrite Hiff2. tauto.
  - intros Hr2. destruct (Hok2 Hr2) as [-> ->]. split.
    + unfold KeysParam_ptrs. simpl. by rewrite <- !list_fmap_compose.
    + by rewrite drop_drop.
Qed.

(** X11. When [_init_keys_param] fails, it has returned at the first scan
    key (the start keys, then the end keys) for which no cursor could be
    allocated or built: the status is [OLAP_ERR_MALLOC_ERROR] if the
    allocation failed, the status of [init_scan_key] or [from_tuple]
    otherwise; every key before was allocated and built, and nothing is
    allocated after the failing one. The vector of start keys has been
    resized to the number of start keys; when it is a start key that
    failed, the vector of end keys is untouched. *)
Theorem init_keys_param_first_failure (read_params : ReaderParams) (range end_range : string)
    (table : OLAPTable) (kp kp' : KeysParamPtrs Row) (heap heap' : list bool)
    (res : OLAPStatus) (idx : nat) :
  _init_keys_param read_params range end_range table kp heap = (res, idx, kp', heap') ->
  res <> OLAP_SUCCESS ->
  exists (j : nat) (t : OlapTuple),
    (start_key read_params ++ end_key read_params) !! j = Some t /\
    take j heap = replicate j true /\
    Forall (fun t => (build_scan_key (tablet_schema table) t).1 = OLAP_SUCCESS)
           (take j (start_key read_params ++ end_key read_params)) /\
    (heap !! j = Some true -> res = (build_scan_key (tablet_schema table) t).1) /\
    (heap !! j <> Some true -> res = OLAP_ERR_MALLOC_ERROR) /\
    heap' = drop (S j) heap /\
    length (ptrs_start_keys kp') = length (start_key read_params) /\
    ((j < length (start_key read_params))%nat -> ptrs_end_keys kp' = ptrs_end_keys kp).
Proof.
  unfold _init_keys_param. case_bool_decide as Hs; [by intros [= <- _ _ _]|].
  destruct (init_scan_keys (tablet_schema table) (start_key read_params) 0
              (resize (length (start_key read_params)) nullptr (ptrs_start_keys kp)) heap)
    as [[res1 starts] heap1] eqn:E1.
  pose proof E1 as E1'.
  apply init_scan_keys_spec in E1; [|rewrite length_resize; simpl; lia].
  rewrite length_resize in E1.
  destruct E1 as (Hl1 & _ & [(-> & Hh1 & -> & Hall1 & Hd1)|(Hne1 & j & t & Hj & Hh & -> & Hall & Hsome & Hnone & _)]).
  - rewrite bool_decide_false by (intros H; by apply H).
    destruct (init_scan_keys (tablet_schema table) (end_key read_params) 0
                (resize (length (end_key read_params)) nullptr (ptrs_end_keys kp))
                (drop (length (start_key read_params)) heap))
      as [[res2 ends] heap2] eqn:E2.
    apply init_scan_keys_spec in E2; [|rewrite length_resize; simpl; lia].
    destruct E2 as (Hl2 & _ & [(-> & _)|(Hne2 & j & t & Hj & Hh & -> & Hall & Hsome & Hnone & _)]).
    { by intros [= <- _ _ _]. }
    intros [= <- <- <- <-] _. simpl.
    exists (length (start_key read_params) + j)%nat, t.
    split; [by rewrite lookup_app_r, Nat.add_comm, Nat.add_sub by lia|].
    split; [by apply take_add_replicate|].
    split.
    { rewrite take_app_add. apply list.Forall_app. done. }
    rewrite lookup_drop in Hsome, Hnone.
    split; [done|]. split; [intros H; by apply Hnone|].
    split; [rewrite drop_drop; f_equal; lia|].
    split; [done|]. lia.
  - rewrite bool_decide_true by done. intros [= <- <- <- <-] _. simpl.
    assert (j < length (start_key read_params))%nat as Hlt by (by eapply lookup_lt_Some).
    exists j, t.
    split; [by rewrite lookup_app_l|].
    split; [done|].
    split; [by rewrite take_app_le by lia|].
    split; [done|]. split; [intros H; by apply Hnone|].
    done.
Qed.

End KeysParamInit.

Lemma init_keys_param_built_witness :
  @_init_keys_param _ ZScanKeyOps ex_range_params "ge" "le" (ex_table AGG_KEYS) ex_no_key_ptrs [true; true; false] =
    (OLAP_SUCCESS, 0%nat, KeysParam_ptrs (ex_keys "ge" "le" [[1]] [[2]]), [false]).
Proof.
  destruct (@init_keys_param_built _ ZScanKeyOps ex_range_params "ge" "le" (ex_table AGG_KEYS)
              ex_no_key_ptrs [true; true; false]) as [_ H].
  destruct (@_init_keys_param _ ZScanKeyOps ex_range_params "ge" "le" (ex_table AGG_KEYS) ex_no_key_ptrs
              [true; true; false]) as [[[res idx] kp'] heap'] eqn:E.
  destruct (H ltac:(done) res idx kp' heap' eq_refl) as (-> & Hiff & Hok).
  assert (res = OLAP_SUCCESS) as Hres.
  { apply Hiff. split; [reflexivity|]. repeat constructor. }
  destruct (Hok Hres) as [-> ->]. rewrite Hres. reflexivity.
Defined.

Lemma init_keys_param_first_failure_witness :
  exists (j : nat) (t : OlapTuple),
    (start_key ex_range_params ++ end_key ex_range_params) !! j = Some t /\
    ([true] !! j <> Some true -> OLAP_ERR_MALLOC_ERROR = OLAP_ERR_MALLOC_ERROR) /\
    [] = drop (S j) [true].
Proof.
  destruct (@init_keys_param_first_failure _ ZScanKeyOps ex_range_params "ge" "le"
              (ex_table AGG_KEYS) ex_no_key_ptrs
              {| ptrs_range := "ge"; ptrs_end_range := "le";
                 ptrs_start_keys := [live [1]]; ptrs_end_keys := [nullptr] |}
              [true] [] OLAP_ERR_MALLOC_ERROR 0%nat)
    as (j & t & H1 & _ & _ & _ & H2 & H3 & _).
  - vm_compute. reflexivity.
  - done.
  - exists j, t. done.
Defined.

(** ** The data sources *)

Section AcquireSources.
Context {Row : Type} {seg_ops : SegmentOps Row}.

Lemma acquire_body_fate (r : Reader Row) (sc : list Z) (cache : bool)
    (walked ds : list (ColumnData Row)) (stats : OlapReaderStatistics) (d : ColumnData Row) :
  acquire_body r sc cache (walked, ds, stats) d =
    (walked ++ [segment_after r sc cache d],
     ds ++ (if decide (is_kept (fate_of r sc cache d)) then [segment_after r sc cache d] else []),
     {| rows_stats_filtered :=
          rows_stats_filtered stats +
          (if decide (fate_of r sc cache d = SegmentStatsFiltered)
           then num_rows (prepared r sc cache d) else 0);
        rows_del_filtered :=
          rows_del_filtered stats +
          (if decide (fate_of r sc cache d = SegmentDelFiltered)
           then num_rows (prepared r sc cache d) else 0) |}).
Proof.
  unfold acquire_body, segment_after, fate_of. fold (prepared r sc cache d).
  destruct stats as [a b]. simpl.
  destruct (is_empty d || zero_num_rows d); simpl.
  { rewrite app_nil_r, !Z.add_0_r. done. }
  destruct (delta_pruning_filter (prepared r sc cache d)); simpl.
  { unfold add_rows_stats_filtered. simpl. rewrite app_nil_r, !Z.add_0_r. done. }
  destruct (delete_pruning_filter (prepared r sc cache d)); simpl.
  - unfold add_rows_del_filtered. simpl. rewrite app_nil_r, !Z.add_0_r. done.
  - rewrite !Z.add_0_r. done.
  - rewrite !Z.add_0_r. done.
Qed.

Lemma acquire_loop_fate (r : Reader Row) (sc : list Z) (cache : bool)
    (sources : list (ColumnData Row)) :
  forall (walked ds : list (ColumnData Row)) (stats : OlapReaderStatistics),
    foldl (acquire_body r sc cache) (walked, ds, stats) sources =
      (walked ++ (segment_after r sc cache <$> sources),
       ds ++ (segment_after r sc cache <$>
              filter (fun d => is_kept (fate_of r sc cache d)) sources),
       {| rows_stats_filtered :=
            rows_stats_filtered stats + rows_of_fate r sc cache SegmentStatsFiltered sources;
          rows_del_filtered :=
            rows_del_filtered stats + rows_of_fate r sc cache SegmentDelFiltered sources |}).
Proof.
  unfold rows_of_fate.
  induction sources as [|d sources IH]; intros walked ds stats; cbn [foldl].
  - simpl. rewrite !app_nil_r, !Z.add_0_r. by destruct stats.
  - rewrite acquire_body_fate, IH. simpl. rewrite <- !app_assoc. simpl.
    f_equal; [f_equal|].
    + f_equal. rewrite filter_cons. destruct (decide (is_kept (fate_of r sc cache d))); done.
    + f_equal.
      * rewrite (filter_cons (fun d => fate_of r sc cache d = SegmentStatsFiltered)).
        destruct (decide (fate_of r sc cache d = SegmentStatsFiltered)); rewrite ?fmap_cons; cbn [foldr]; lia.
      * rewrite (filter_cons (fun d => fate_of r sc cache d = SegmentDelFiltered)).
        destruct (decide (fate_of r sc cache d = SegmentDelFiltered)); rewrite ?fmap_cons; cbn [foldr]; lia.
Qed.

Lemma brings_sources_spec (rt : ReaderType) :
  bool_decide (rt = READER_ALTER_TABLE) || bool_decide (rt = READER_BASE_COMPACTION)
  || bool_decide (rt = READER_CUMULATIVE_COMPACTION) = true <-> brings_sources rt.
Proof.
  unfold brings_sources. rewrite !orb_true_iff, !bool_decide_eq_true. tauto.
Qed.

(** X12. [_acquire_data_sources] fails only with
    [OLAP_ERR_VERSION_NOT_EXIST], and it does exactly when the reader is
    not an alter-table or a compaction reader and the table has no segment
    for the version; nothing is added to [_data_sources] or counted then.
    An alter-table or compaction reader succeeds on any [olap_data_arr],
    the empty one too, and does not ask the table. *)
Theorem acquire_data_sources_status (read_params : ReaderParams)
    (olap_data_arr : list (ColumnData Row)) (_version : Z * Z) (_seek_columns : list Z)
    (r r' : Reader Row) (res : OLAPStatus) (arr' : list (ColumnData Row)) :
  _acquire_data_sources read_params olap_data_arr _version _seek_columns r = (res, r', arr') ->
  (res = OLAP_SUCCESS \/ res = OLAP_ERR_VERSION_NOT_EXIST) /\
  (res = OLAP_ERR_VERSION_NOT_EXIST <->
   ~ brings_sources (reader_type read_params) /\
   acquire_data_sources (_olap_table r) _version (_own_data_sources r) = []) /\
  (res = OLAP_ERR_VERSION_NOT_EXIST ->
   _data_sources r' = _data_sources r /\ _stats r' = _stats r /\ arr' = olap_data_arr) /\
  (brings_sources (reader_type read_params) ->
   _own_data_sources r' = _own_data_sources r).
Proof.
  unfold _acquire_data_sources. intros H.
  destruct (bool_decide (reader_type read_params = READER_ALTER_TABLE)
            || bool_decide (reader_type read_params = READER_BASE_COMPACTION)
            || bool_decide (reader_type read_params = READER_CUMULATIVE_COMPACTION)) eqn:Eb.
  - apply brings_sources_spec in Eb. rewrite acquire_loop_fate in H.
    injection H as <- <- <-. split; [by left|]. split; [|split; [done|done]].
    split; [done|]. intros [Hn _]. done.
  - assert (~ brings_sources (reader_type read_params)) as Hn.
    { rewrite <- brings_sources_spec. congruence. }
    case_bool_decide as Hl.
    + injection H as <- <- <-. split; [by right|]. split; [|split; [done|done]].
      split; [|done]. intros _. split; [done|].
      destruct (acquire_data_sources (_olap_table r) _version (_own_data_sources r));
        [done|simpl in Hl; lia].
    + rewrite acquire_loop_fate in H. injection H as <- <- <-.
      split; [by left|]. split; [|split; [done|done]].
      split; [done|]. intros [_ He]. rewrite He in Hl. simpl in Hl. lia.
Qed.

(** X13. When [_acquire_data_sources] succeeds, every segment it walked
    (the [olap_data_arr] of an alter-table or compaction reader, what the
    table gave for the version otherwise) has met one fate: skipped as
    empty; pruned by the conditions, its rows added to
    [rows_stats_filtered]; deleted as a whole, its rows added to
    [rows_del_filtered]; or kept. The kept ones are appended to
    [_data_sources] in the order walked, each with its delete status set
    to [DEL_PARTIAL_SATISFIED] or [DEL_NOT_SATISFIED] as the delete
    conditions answered, so that no segment that is empty, or pruned, or
    deleted as a whole becomes a data source. *)
Theorem acquire_data_sources_fates (read_params : ReaderParams)
    (olap_data_arr : list (ColumnData Row)) (_version : Z * Z) (_seek_columns : list Z)
    (r r' : Reader Row) (arr' : list (ColumnData Row)) :
  let cache := bool_decide (reader_type read_params = READER_QUERY) in
  let sources := sources_walked read_params olap_data_arr _version r in
  _acquire_data_sources read_params olap_data_arr _version _seek_columns r
    = (OLAP_SUCCESS, r', arr') ->
  _data_sources r' =
    _data_sources r ++
    (segment_after r _seek_columns cache <$>
     filter (fun d => is_kept (fate_of r _seek_columns cache d)) sources) /\
  rows_stats_filtered (_stats r') =
    rows_stats_filtered (_stats r) +
    rows_of_fate r _seek_columns cache SegmentStatsFiltered sources /\
  rows_del_filtered (_stats r') =
    rows_del_filtered (_stats r) +
    rows_of_fate r _seek_columns cache SegmentDelFiltered sources /\
  Forall (fun d => exists d0 status,
            d0 ∈ sources /\ is_empty d0 = false /\ zero_num_rows d0 = false /\
            delta_pruning_filter (prepared r _seek_columns cache d0) = false /\
            delete_pruning_filter (prepared r _seek_columns cache d0) = status /\
            status <> DEL_SATISFIED /\
            d = set_delete_status status (prepared r _seek_columns cache d0))
         (drop (length (_data_sources r)) (_data_sources r')).
Proof.
  intros cache sources.
  assert (Hkept : Forall (fun d => exists d0 status,
            d0 ∈ sources /\ is_empty d0 = false /\ zero_num_rows d0 = false /\
            delta_pruning_filter (prepared r _seek_columns cache d0) = false /\
            delete_pruning_filter (prepared r _seek_columns cache d0) = status /\
            status <> DEL_SATISFIED /\
            d = set_delete_status status (prepared r _seek_columns cache d0))
         (segment_after r _seek_columns cache <$>
          filter (fun d => is_kept (fate_of r _seek_columns cache d)) sources)).
  { apply list.Forall_forall. intros d Hd.
    apply list_elem_of_fmap in Hd as (d0 & -> & Hd0).
    apply list_elem_of_filter in Hd0 as [Hk Hd0].
    unfold segment_after. unfold fate_of in *.
    destruct (is_empty d0) eqn:E1; [done|]. destruct (zero_num_rows d0) eqn:E2; [done|].
    simpl in *.
    destruct (delta_pruning_filter (prepared r _seek_columns cache d0)) eqn:E3; [done|].
    destruct (delete_pruning_filter (prepared r _seek_columns cache d0)) eqn:E4; [done| |].
    - exists d0, DEL_NOT_SATISFIED. by rewrite E1, E2, E3, E4.
    - exists d0, DEL_PARTIAL_SATISFIED. by rewrite E1, E2, E3, E4. }
  unfold _acquire_data_sources, sources, sources_walked. fold cache.
  destruct (bool_decide (reader_type read_params = READER_ALTER_TABLE)
            || bool_decide (reader_type read_params = READER_BASE_COMPACTION)
            || bool_decide (reader_type read_params = READER_CUMULATIVE_COMPACTION)) eqn:Eb.
  - rewrite acquire_loop_fate. intros H. cbn beta iota in H. injection H as <- <-. simpl.
    split; [done|]. split; [done|]. split; [done|].
    rewrite drop_app_length. unfold sources, sources_walked in Hkept. by rewrite Eb in Hkept.
  - destruct (bool_decide (length (acquire_data_sources (_olap_table r) _version
                                      (_own_data_sources r)) < 1)%nat); [done|].
    rewrite acquire_loop_fate. intros H. cbn beta iota in H. injection H as <- <-. simpl.
    split; [done|]. split; [done|]. split; [done|].
    rewrite drop_app_length. unfold sources, sources_walked in Hkept. by rewrite Eb in Hkept.
Qed.

End AcquireSources.

Lemma acquire_data_sources_status_witness :
  _data_sources (with_own_data_sources [] (ex_reader AGG_KEYS READER_QUERY false
                                             (ex_keys "ge" "le" [] []) [])) = [] /\
  _stats (with_own_data_sources [] (ex_reader AGG_KEYS READER_QUERY false
                                      (ex_keys "ge" "le" [] []) [])) =
    {| rows_stats_filtered := 0; rows_del_filtered := 0 |}.
Proof.
  destruct (@acquire_data_sources_status _ (ex_SegmentOps [])
              (ex_params READER_QUERY false [0; 1]) [] (0, 5) [0; 1]
              (ex_reader AGG_KEYS READER_QUERY false (ex_keys "ge" "le" [] []) [])
              (with_own_data_sources [] (ex_reader AGG_KEYS READER_QUERY false
                                           (ex_keys "ge" "le" [] []) []))
              OLAP_ERR_VERSION_NOT_EXIST [] ltac:(vm_compute; reflexivity))
    as (_ & _ & H & _).
  destruct (H eq_refl) as (H1 & H2 & _). split; [exact H1|exact H2].
Defined.

Lemma acquire_data_sources_fates_witness :
  exists r' arr',
    @_acquire_data_sources _ (ex_SegmentOps ex_stored)
      (ex_params READER_QUERY false [0; 1]) [] (0, 5) [0; 1]
      (ex_reader AGG_KEYS READER_QUERY false (ex_keys "ge" "le" [] []) [])
      = (OLAP_SUCCESS, r', arr') /\
    length (_data_sources r') = 1%nat /\
    rows_stats_filtered (_stats r') = 1 /\
    rows_del_filtered (_stats r') = 2.
Proof.
  destruct (@_acquire_data_sources _ (ex_SegmentOps ex_stored)
              (ex_params READER_QUERY false [0; 1]) [] (0, 5) [0; 1]
              (ex_reader AGG_KEYS READER_QUERY false (ex_keys "ge" "le" [] []) []))
    as [[res r'] arr'] eqn:E.
  assert (res = OLAP_SUCCESS) as ->.
  { apply (f_equal (fun x => x.1.1)) in E. vm_compute in E. by symmetry. }
  destruct (@acquire_data_sources_fates _ (ex_SegmentOps ex_stored) _ _ _ _ _ _ _ E)
    as (H1 & H2 & H3 & _).
  exists r', arr'. split; [done|]. rewrite H1, H2, H3.
  vm_compute. done.
Defined.

(** ** The merge of the iterator *)

Section IteratorMerge.

Context {Row : Type} {ops : RowCursorOps Row}.
Context (key_cids value_cids : list Z).
Context {laws : RowCursorLaws ops key_cids value_cids}.


End IteratorMerge.


(** ** Reading without merge *)

Section ConcatCursors.

Context {Row : Type} {ops : RowCursorOps Row}.

Lemma visible_block_standing (dh : DeleteHandler Row) (v : Z) (b : RowBlock Row) (row : Row) :
  rows b !! pos b = Some row -> row_filtered dh v b row = false ->
  visible_block dh v (Some b) = row :: visible_block dh v (Some (pos_inc b)).
Proof.
  intros Hrow Hf. unfold visible_block. rewrite (drop_S _ _ _ Hrow). simpl.
  unfold row_filtered in *. simpl. by rewrite Hf.
Qed.

Lemma visible_block_filtered (dh : DeleteHandler Row) (v : Z) (b : RowBlock Row) (row : Row) :
  rows b !! pos b = Some row -> row_filtered dh v b row = true ->
  visible_block dh v (Some b) = visible_block dh v (Some (pos_inc b)).
Proof.
  intros Hrow Hf. unfold visible_block. rewrite (drop_S _ _ _ Hrow). simpl.
  unfold row_filtered in *. simpl. by rewrite Hf.
Qed.

Lemma visible_block_done (dh : DeleteHandler Row) (v : Z) (b : RowBlock Row) :
  has_remaining b = false -> visible_block dh v (Some b) = [].
Proof.
  intros H. apply no_remaining_rows in H. unfold visible_block.
  simpl in H. by rewrite H.
Qed.

Lemma refresh_body_visible (dh : DeleteHandler Row) (c : ChildCtx Row)
    (st : ChildCtx Row * OlapReaderStatistics)
    (k : ctrl (ChildCtx Row * OlapReaderStatistics)
              (OLAPStatus * ChildCtx Row * OlapReaderStatistics)) :
  refreshing dh c st ->
  _refresh_current_row_body dh st = Ok k ->
  match k with
  | Continue st' => refreshing dh c st'
  | Break st' => False
  | Return ret =>
      refreshing dh c (ret.1.2, ret.2) /\
      ((ret.1.1 = OLAP_SUCCESS /\ standing dh ret.1.2) \/
       (ret.1.1 = OLAP_ERR_DATA_EOF /\ visible dh c = [] /\ _current_row ret.1.2 = None))
  end.
Proof.
  destruct st as [c0 s0]. unfold refreshing. simpl.
  intros (Hclean & Hvis & Hv & Hdel) Hb.
  unfold _refresh_current_row_body in Hb.
  destruct (_row_block c0) as [b|] eqn:Hblk; [|discriminate].
  destruct (has_remaining b) eqn:Hrem.
  - destruct (has_remaining_row b Hrem) as [row Hrow]. rewrite Hrow in Hb.
    unfold get_row in Hrow.
    fold (row_filtered dh (version (_data c0)).2 b row) in Hb.
    fold (ChildCtx_version c0) in Hb.
    destruct (row_filtered dh (ChildCtx_version c0) b row) eqn:Hf; injection Hb as <-; simpl.
    + split; [done|]. split; [|done].
      rewrite <- Hvis. unfold visible. simpl. rewrite Hblk.
      change (ChildCtx_version (set_row_block (Some (pos_inc b)) (set_row_cursor (Some row) c0)))
        with (ChildCtx_version c0).
      by rewrite (visible_block_filtered _ _ _ _ Hrow Hf).
    + split; [done|]. left. split; [done|]. split; [|done].
      exists b, row. simpl. done.
  - destruct (get_next_block (_data c0)) as [[res0 blk] d] eqn:Hnext.
    unfold get_next_block in Hnext.
    destruct (next_blocks (_data c0)) as [|[r1 b1] later] eqn:Hnb.
    + injection Hnext as <- <- <-. simpl in Hb. injection Hb as <-. simpl.
      assert (Hnil : visible dh c0 = []).
      { unfold visible. rewrite Hblk, Hnb. by rewrite (visible_block_done _ _ _ Hrem). }
      split.
      * split; [by rewrite Hnb|]. split; [|done].
        rewrite <- Hvis, Hnil. unfold visible. simpl. by rewrite Hnb.
      * right. split; [done|]. split; [|done]. by rewrite <- Hvis.
    + injection Hnext as <- <- <-.
      apply list.Forall_cons in Hclean as [[Hr1 [b' Hb1]] Hlater]. simpl in Hr1, Hb1.
      subst r1 b1. simpl in Hb. injection Hb as <-. simpl.
      split; [done|]. split; [|done].
      rewrite <- Hvis. unfold visible at 2.
      rewrite Hblk, Hnb, (visible_block_done _ _ _ Hrem). reflexivity.
Qed.

(** [_refresh_current_row] on a cursor with a clean script returns: with
    [OLAP_SUCCESS] and the cursor standing on the first row to come, or
    with EOF when there is none. *)
Lemma refresh_visible (dh : DeleteHandler Row) (c : ChildCtx Row)
    (stats : OlapReaderStatistics) :
  is_Some (_row_block c) -> clean_script (next_blocks (_data c)) ->
  exists fuel0 res c' stats',
    (forall fuel, (fuel0 <= fuel)%nat ->
       _refresh_current_row fuel dh c stats = Ok (res, c', stats')) /\
    visible dh c' = visible dh c /\
    ChildCtx_version c' = ChildCtx_version c /\ _is_delete c' = _is_delete c /\
    ((res = OLAP_SUCCESS /\ standing dh c') \/
     (res = OLAP_ERR_DATA_EOF /\ visible dh c = [] /\ _current_row c' = None)).
Proof.
  intros Hblk Hclean.
  destruct (refresh_returns dh c stats Hblk) as (f0 & [[res c'] stats'] & Hx).
  exists f0, res, c', stats'. split; [exact Hx|].
  pose proof (Hx f0 (le_n _)) as H. unfold _refresh_current_row in H.
  apply bind_Ok in H as (x & Hloop & H).
  assert (Hinit : refreshing dh c (c, stats)) by done.
  loop_inv Hloop (refresh_body_visible dh c) Hinit Hfin.
  destruct x as [[c0 s0]|[[res0 c0] s0]]; [done|].
  injection H as <- <- <-. simpl in Hfin.
  destruct Hfin as [(_ & Hvis & Hv & Hdel) Hcases]. done.
Qed.

(** [ChildCtx::next] on a standing cursor hands out the row after the
    current one. *)
Lemma ChildCtx_next_visible (dh : DeleteHandler Row) (c : ChildCtx Row)
    (stats : OlapReaderStatistics) :
  standing dh c ->
  exists fuel0 res row flag c' stats' row0,
    (forall fuel, (fuel0 <= fuel)%nat ->
       ChildCtx_next fuel dh c stats = Ok (res, row, flag, c', stats')) /\
    _current_row c = Some row0 /\
    visible dh c = row0 :: visible dh c' /\
    row = _current_row c' /\ flag = _is_delete c' /\ _is_delete c' = _is_delete c /\
    ((res = OLAP_SUCCESS /\ standing dh c') \/
     (res = OLAP_ERR_DATA_EOF /\ visible dh c' = [] /\ _current_row c' = None)).
Proof.
  intros [(b & row0 & Hblk & Hrow & Hcur & Hf) Hclean].
  destruct (refresh_visible dh (set_row_block (Some (pos_inc b)) c) stats)
    as (f0 & res & c' & stats' & Hx & Hvis & Hv & Hdel & Hcases); [by eexists|done|].
  exists f0, res, (_current_row c'), (_is_delete c'), c', stats', row0.
  split.
  { intros fuel Hfuel. unfold ChildCtx_next. rewrite Hblk.
    rewrite (Hx fuel Hfuel). reflexivity. }
  split; [done|]. split.
  { rewrite Hvis. unfold visible at 1. rewrite Hblk.
    rewrite (visible_block_standing _ _ _ _ Hrow Hf). reflexivity. }
  split; [done|]. split; [done|]. split; [done|].
  destruct Hcases as [?|(Hres & Hnil & Hnone)]; [by left|].
  right. split; [done|]. split; [|done]. by rewrite Hvis.
Qed.

End ConcatCursors.

Section ConcatIterator.

Context {Row : Type} {ops : RowCursorOps Row}.

Lemma drop_insert_here {A : Type} (l : list A) (t : nat) (x : A) :
  (t < length l)%nat -> drop t (<[t := x]> l) = x :: drop (S t) l.
Proof.
  intros Ht. rewrite insert_take_drop by done.
  rewrite drop_app_length'; [done|]. rewrite length_take. lia.
Qed.

(** Without merge, [CollectIterator::next] hands out the row after the
    current one: the next row of the current child, or the first row of
    the child after it. *)
Lemma normal_next_visible (dh : DeleteHandler Row) (ci : CollectIterator Row)
    (stats : OlapReaderStatistics) (t : nat) :
  concat_ok dh ci -> _cur_child ci = Some t ->
  exists fuel0 res row flag ci' stats' row0,
    (forall fuel, (fuel0 <= fuel)%nat ->
       CollectIterator_next fuel dh ci stats = Ok (res, row, flag, ci', stats')) /\
    concat_ok dh ci' /\
    (exists c, _children ci !! t = Some c /\ _current_row c = Some row0) /\
    pending dh ci = row0 :: pending dh ci' /\
    head_is ci' row flag /\
    ((res = OLAP_SUCCESS /\ is_Some row) \/ (res = OLAP_ERR_DATA_EOF /\ row = None)).
Proof.
  intros (Hm & Hcur & Hall) Ht. rewrite Ht in Hcur. destruct Hcur as [Hidx Hlt].
  destruct (lookup_lt_is_Some_2 _ _ Hlt) as [c Hc].
  assert (Hdrop : drop t (_children ci) = c :: drop (S t) (_children ci))
    by (by apply drop_S).
  rewrite <- Hidx, Hdrop in Hall. apply list.Forall_cons in Hall as [Hc_ok Hrest].
  destruct (ChildCtx_next_visible dh c stats Hc_ok)
    as (f0 & res1 & row1 & flag1 & c' & stats' & row0 & Hnext & Hrow0 & Hvis & Hrow1 &
        Hflag1 & Hdel & Hcases).
  set (children' := <[t := c']> (_children ci)).
  assert (Hlen' : length children' = length (_children ci)) by apply length_insert.
  assert (Hc' : children' !! t = Some c') by (by apply list_lookup_insert_eq).
  assert (Hdrop' : drop t children' = c' :: drop (S t) (_children ci))
    by (by apply drop_insert_here).
  assert (HdropS : drop (S t) children' = drop (S t) (_children ci))
    by (apply drop_insert_lt; lia).
  assert (Hpend : pending dh ci = row0 :: visible dh c'
                                  ++ flat_map (visible dh) (drop (S t) (_children ci))).
  { unfold pending. rewrite <- Hidx, Hdrop. simpl. by rewrite Hvis. }
  assert (Hpre : forall fuel, (f0 <= fuel)%nat ->
            CollectIterator_next fuel dh ci stats =
            let ci1 := set_children children' ci in
            if bool_decide (res1 = OLAP_SUCCESS) then Ok (OLAP_SUCCESS, row1, flag1, ci1, stats')
            else if bool_decide (res1 = OLAP_ERR_DATA_EOF) then
              let ci2 := set_child_idx (S (_child_idx ci1)) ci1 in
              if bool_decide (_child_idx ci2 < length (_children ci2))%nat then
                let ci3 := set_cur_child (Some (_child_idx ci2)) ci2 in
                '(row, flag') ← CollectIterator_current_row ci3;
                Ok (OLAP_SUCCESS, row, default flag1 flag', ci3, stats')
              else Ok (OLAP_ERR_DATA_EOF, row1, flag1, set_cur_child None ci2, stats')
            else Ok (res1, row1, flag1, ci1, stats')).
  { intros fuel Hf. unfold CollectIterator_next. rewrite Hm.
    unfold _normal_next, cur_child_next. rewrite Ht, Hc, (Hnext fuel Hf). reflexivity. }
  destruct Hcases as [[-> Hst']|(-> & Hnil & Hnone)].
  - exists f0, OLAP_SUCCESS, row1, flag1, (set_children children' ci), stats', row0.
    split; [intros fuel Hf; by rewrite (Hpre fuel Hf)|].
    split.
    { split; [done|]. simpl. rewrite Ht. split; [by rewrite Hlen'|].
      rewrite <- Hidx, Hdrop'. by constructor. }
    split; [by exists c|]. split.
    { rewrite Hpend. unfold pending. simpl. by rewrite <- Hidx, Hdrop'. }
    split.
    { unfold head_is. simpl. rewrite Ht. by exists c'. }
    left. split; [done|]. rewrite Hrow1.
    destruct Hst' as [(b & row & _ & _ & -> & _) _]. by eexists.
  - destruct (decide (S t < length (_children ci))%nat) as [Hmore|Hlast].
    + destruct (lookup_lt_is_Some_2 _ _ Hmore) as [c2 Hc2].
      assert (Hc2' : children' !! S t = Some c2).
      { unfold children'. rewrite list_lookup_insert_ne by lia. done. }
      assert (Hc2_ok : standing dh c2).
      { rewrite (drop_S _ _ _ Hc2) in Hrest. by apply list.Forall_cons in Hrest as [? _]. }
      exists f0, OLAP_SUCCESS, (_current_row c2), (_is_delete c2),
        (set_cur_child (Some (S t))
           (set_child_idx (S t) (set_children children' ci))), stats', row0.
      split.
      { intros fuel Hf. rewrite (Hpre fuel Hf). cbn zeta.
        rewrite bool_decide_false by done. rewrite bool_decide_true by done.
        cbn [_child_idx set_children set_child_idx _children]. rewrite <- Hidx.
        rewrite bool_decide_true by (by rewrite Hlen').
        unfold CollectIterator_current_row.
        cbn [_cur_child set_cur_child _children set_child_idx set_children].
        rewrite Hc2'. reflexivity. }
      split.
      { split; [done|]. simpl. split; [split; [done|by rewrite Hlen']|].
        by rewrite HdropS. }
      split; [by exists c|]. split.
      { rewrite Hpend, Hnil. unfold pending. simpl. by rewrite HdropS. }
      split.
      { unfold head_is. simpl. by exists c2. }
      left. split; [done|].
      destruct Hc2_ok as [(b & row & _ & _ & -> & _) _]. by eexists.
    + exists f0, OLAP_ERR_DATA_EOF, row1, flag1,
        (set_cur_child None (set_child_idx (S t) (set_children children' ci))), stats', row0.
      split.
      { intros fuel Hf. rewrite (Hpre fuel Hf). cbn zeta.
        rewrite bool_decide_false by done. rewrite bool_decide_true by done.
        cbn [_child_idx set_children set_child_idx _children]. rewrite <- Hidx.
        rewrite bool_decide_false by (by rewrite Hlen'). reflexivity. }
      split.
      { split; [done|]. simpl. split; [rewrite Hlen'; lia|]. by rewrite HdropS. }
      split; [by exists c|]. split.
      { rewrite Hpend, Hnil. unfold pending. simpl. by rewrite HdropS. }
      split.
      { unfold head_is. simpl. by rewrite Hrow1. }
      right. split; [done|]. by rewrite Hrow1.
Qed.

End ConcatIterator.

Section ConcatReader.

Context {Row : Type} {ops : RowCursorOps Row}.
Variable doris_scanner_row_num : Z.

Lemma reader_concat_head (r : Reader Row) :
  reader_concat_ok r ->
  match _next_key r with
  | Some row0 => exists ci t, _collect_iter r = live ci /\ _cur_child ci = Some t
  | None => reader_pending r = []
  end.
Proof.
  intros (ci & Hci & (Hm & Hcur & Hall) & Hhead). unfold head_is in Hhead.
  destruct (_cur_child ci) as [t|] eqn:Ht.
  - destruct Hhead as (c & Hc & Hrow & _). destruct Hcur as [Hidx Hlt].
    assert (standing (_delete_handler r) c) as [(b & row & _ & _ & Hcr & _) _].
    { rewrite <- Hidx in Hall. eapply list.Forall_lookup_1; [exact Hall|].
      rewrite lookup_drop, Nat.add_0_r. exact Hc. }
    rewrite Hrow, Hcr. by exists ci, t.
  - rewrite Hhead. unfold reader_pending, pending. rewrite Hci.
    by rewrite drop_ge by done.
Qed.

Lemma collect_next_concat (r : Reader Row) (row0 : Row) :
  reader_concat_ok r -> _next_key r = Some row0 ->
  exists fuel0 res r',
    (forall fuel, (fuel0 <= fuel)%nat -> Reader_collect_next fuel r = Ok (res, r')) /\
    reader_concat_ok r' /\ reader_pending r = row0 :: reader_pending r' /\
    same_config r r' /\ _next_key_index r' = _next_key_index r /\
    ((res = OLAP_SUCCESS /\ is_Some (_next_key r')) \/
     (res = OLAP_ERR_DATA_EOF /\ _next_key r' = None)).
Proof.
  intros Hok Hnk. pose proof (reader_concat_head r Hok) as Hhead0. rewrite Hnk in Hhead0.
  destruct Hhead0 as (ci0 & t & Hci0 & Ht).
  destruct Hok as (ci & Hci & Hcok & Hhead).
  assert (ci0 = ci) as -> by congruence. clear Hci0.
  destruct (normal_next_visible (_delete_handler r) ci (_stats r) t Hcok Ht)
    as (f0 & res & row & flag & ci' & stats' & row1 & Hnext & Hok' & (c & Hc & Hrow1) &
        Hpend & Hhead' & Hcases).
  assert (row1 = row0) as ->.
  { unfold head_is in Hhead. rewrite Ht in Hhead. destruct Hhead as (c0 & Hc0 & Hr & _).
    congruence. }
  eexists f0, res, _. split.
  { intros fuel Hf. unfold Reader_collect_next. rewrite Hci. cbn [deref mbind result_bind].
    rewrite (Hnext fuel Hf). reflexivity. }
  split; [by exists ci'|]. split.
  { unfold reader_pending. simpl. by rewrite Hci. }
  split; [unfold same_config; simpl; tauto|]. split; [done|]. exact Hcases.
Qed.

(** [_dup_key_next_row] with a head row: the row is copied out and the
    iterator moved on. *)
Lemma dup_next_row_concat (r : Reader Row) (row_cursor row0 : Row) :
  reader_concat_ok r -> _next_key r = Some row0 ->
  exists fuel0 r',
    (forall fuel, (fuel0 <= fuel)%nat ->
       _dup_key_next_row fuel r row_cursor
       = Ok (OLAP_SUCCESS, false, copy_without_pool row_cursor row0, r')) /\
    reader_concat_ok r' /\ reader_pending r = row0 :: reader_pending r' /\
    same_config r r' /\ _next_key_index r' = _next_key_index r.
Proof.
  intros Hok Hnk.
  destruct (collect_next_concat r row0 Hok Hnk)
    as (f0 & res & r' & Hnext & Hok' & Hpend & Hcfg & Hidx & Hcases).
  exists f0, r'. split; [|done].
  intros fuel Hf. unfold _dup_key_next_row, Reader_rearm. rewrite Hnk.
  cbn [mbind result_bind]. rewrite Hnk. rewrite (Hnext fuel Hf). cbn [mbind result_bind].
  destruct Hcases as [[-> _]|[-> _]]; reflexivity.
Qed.

(** The caller's loop on a DUP_KEYS table read without merge, with no
    scan range left: it hands out the rows pending, one a call. *)
Lemma pull_rows_dup_concat (l : list Row) :
  forall (r : Reader Row) (row_cursor : Row),
    keys_type (_olap_table r) = DUP_KEYS ->
    reader_concat_ok r -> ranges_done r -> reader_pending r = l ->
    exists fuel0, forall fuel n, (fuel0 <= fuel)%nat ->
      exists r', pull_rows doris_scanner_row_num fuel n r row_cursor
                 = Ok (copies row_cursor (take n l), OLAP_SUCCESS, r').
Proof.
  induction l as [|row0 l IH]; intros r row_cursor Hdup Hok Hdone Hpend.
  - exists 1%nat. intros fuel n Hf. rewrite take_nil. simpl.
    destruct n as [|n]; [by eexists|].
    pose proof (reader_concat_head r Hok) as Hhead.
    destruct (_next_key r) as [row0|] eqn:Hnk.
    { destruct Hhead as (ci & t & Hci & Ht).
      destruct (collect_next_concat r row0 Hok Hnk) as (_ & _ & r' & _ & _ & Hp & _).
      rewrite Hpend in Hp. discriminate. }
    destruct Hok as (ci & Hci & _).
    destruct fuel as [|fuel]; [lia|].
    cbn [pull_rows]. unfold next_row_with_aggregation. rewrite Hdup.
    unfold _dup_key_next_row, Reader_rearm. rewrite Hnk.
    rewrite (attach_exhausted fuel false r ci Hci I Hdone). simpl. by eexists.
  - pose proof (reader_concat_head r Hok) as Hhead.
    destruct (_next_key r) as [row1|] eqn:Hnk; [|rewrite Hpend in Hhead; discriminate].
    destruct (dup_next_row_concat r row_cursor row1 Hok Hnk)
      as (f0 & r' & Hstep & Hok' & Hp & Hcfg & Hidx).
    rewrite Hpend in Hp. injection Hp as <- Hl.
    destruct (IH r' (copy_without_pool row_cursor row0)) as (f1 & Hrest).
    { destruct Hcfg as (-> & _). done. }
    { done. }
    { unfold ranges_done in *. destruct Hcfg as (_ & _ & _ & _ & _ & _ & _ & ->).
      by rewrite Hidx. }
    { done. }
    exists (Nat.max f0 f1). intros fuel n Hf.
    destruct n as [|n]; [by eexists|].
    destruct (Hrest fuel n ltac:(lia)) as [r'' Hr''].
    exists r''. cbn [pull_rows take copies]. unfold next_row_with_aggregation. rewrite Hdup.
    rewrite (Hstep fuel ltac:(lia)). cbn [mbind result_bind].
    rewrite bool_decide_false by (intros H; by apply H). rewrite Hr''. reflexivity.
Qed.

End ConcatReader.

Section ConcatAttach.

Context {Row : Type} {ops : RowCursorOps Row}.

Lemma filling_concat_ok (dh : DeleteHandler Row) (ci : CollectIterator Row) :
  filling dh ci -> concat_ok dh ci /\ pending dh ci = flat_map (visible dh) (_children ci).
Proof.
  intros (Hm & Hidx & Hcur & Hall). unfold concat_ok, pending. rewrite Hidx, Hcur, drop_0.
  split; [|done]. split; [done|]. split; [|done].
  case_bool_decide as He; [by rewrite He|].
  split; [done|]. destruct (_children ci); [done|simpl; lia].
Qed.

(** The loop over [_data_sources] without merge: every segment that has
    a row to give gets a cursor, in the order of the segments. *)
Lemma attach_sources_concat (dh : DeleteHandler Row) (sources : list (ColumnData Row))
    (sk : option Row) (flr : bool) (ek : option Row) (ekflr : bool) :
  forall (ci : CollectIterator Row) (stats : OlapReaderStatistics),
    filling dh ci ->
    Forall (fun d => clean_seek d sk flr ek ekflr) sources ->
    exists fuel0 ci' stats',
      (forall fuel, (fuel0 <= fuel)%nat ->
         attach_data_sources fuel dh sources sk flr ek ekflr ci stats
         = Ok (OLAP_SUCCESS, ci', stats')) /\
      filling dh ci' /\
      flat_map (visible dh) (_children ci') =
        flat_map (visible dh) (_children ci)
        ++ flat_map (fun d => visible_seek dh d sk flr ek ekflr) sources.
Proof.
  induction sources as [|d sources IH]; intros ci stats Hfill Hclean.
  - exists 0%nat, ci, stats. split; [done|]. split; [done|]. simpl. by rewrite app_nil_r.
  - apply list.Forall_cons in Hclean as [(Hinit & Hseek) Hrest].
    cbn [attach_data_sources flat_map]. unfold prepare_block_read, visible_seek.
    destruct (seek d sk flr ek ekflr) as [[res block] later] eqn:Es. simpl in Hseek.
    destruct Hseek as [->|(-> & [b ->] & Hlater)].
    + destruct (IH ci stats Hfill Hrest) as (f0 & ci' & stats' & Hx & Hf' & Hvis).
      exists f0, ci', stats'. split; [|split; [done|]].
      * intros fuel Hf. rewrite bool_decide_false by done. rewrite bool_decide_true by done.
        by apply Hx.
      * rewrite bool_decide_false by done. simpl. done.
    + set (data' := set_next_blocks later d).
      destruct (refresh_visible dh (ChildCtx_new data' (Some b)) stats)
        as (f0 & res1 & c' & stats1 & Hx & Hvis1 & Hv1 & Hdel1 & Hcases);
        [by eexists|done|].
      assert (Hvis0 : visible dh (ChildCtx_new data' (Some b)) =
                      visible_block dh (version d).2 (Some b)
                      ++ visible_script dh (version d).2 later) by reflexivity.
      assert (Hinit1 : forall fuel, (f0 <= fuel)%nat ->
                ChildCtx_init fuel dh (ChildCtx_new data' (Some b)) stats
                = Ok (res1, c', stats1)).
      { intros fuel Hf. unfold ChildCtx_init.
        change (row_cursor_init (_data (ChildCtx_new data' (Some b))))
          with (row_cursor_init d).
        rewrite Hinit. rewrite bool_decide_false by (intros H; by apply H).
        rewrite (Hx fuel Hf). cbn [mbind result_bind].
        destruct Hcases as [[-> _]|[-> _]].
        - by rewrite bool_decide_false by (intros H; by apply H).
        - by rewrite bool_decide_true by done. }
      rewrite bool_decide_true by done.
      destruct Hcases as [[-> Hst]|(-> & Hnil & Hnone)].
      * destruct Hfill as (Hm & Hidx & Hcur & Hall).
        pose proof Hst as [(b' & row & _ & _ & Hrow & _) _].
        set (ci1 := set_children (_children ci ++ [c']) ci).
        set (ci2 := if bool_decide (_children ci = [])
                    then set_cur_child (Some 0%nat) ci1 else ci1).
        assert (Hfill2 : filling dh ci2).
        { unfold ci2, ci1. case_bool_decide as He.
          - split; [done|]. split; [done|]. simpl. split.
            + rewrite bool_decide_false; [done|]. rewrite He. done.
            + rewrite He. simpl. by constructor.
          - split; [done|]. split; [done|]. simpl. split.
            + rewrite Hcur. rewrite ?(bool_decide_eq_false_2 _ He).
              rewrite bool_decide_eq_false_2; [done|].
              intros H. apply app_eq_nil in H as [_ ?]. done.
            + apply list.Forall_app. split; [done|]. by constructor. }
        assert (Hch2 : _children ci2 = _children ci ++ [c']).
        { unfold ci2, ci1. by case_bool_decide. }
        destruct (IH ci2 stats1 Hfill2 Hrest) as (f1 & ci' & stats' & Hx' & Hf' & Hvis).
        exists (Nat.max f0 f1), ci', stats'. split; [|split; [done|]].
        -- intros fuel Hf. unfold add_child. rewrite (Hinit1 fuel ltac:(lia)).
           cbn [mbind result_bind]. rewrite bool_decide_false by (intros H; by apply H).
           rewrite Hrow. cbn zeta. fold ci1.
           change (_merge ci1) with (_merge ci). rewrite Hm.
           change (_cur_child ci1) with (_cur_child ci). rewrite Hcur.
           assert (Hrec : attach_data_sources fuel dh sources sk flr ek ekflr ci2 stats1
                          = Ok (OLAP_SUCCESS, ci', stats')) by (apply Hx'; lia).
           unfold ci2 in Hrec. case_bool_decide as He.
           ++ change (_child_idx ci1) with (_child_idx ci). rewrite Hidx.
              rewrite bool_decide_true by (simpl; rewrite length_app; simpl; lia).
              cbn [mbind result_bind]. simpl. exact Hrec.
           ++ cbn [mbind result_bind]. simpl. exact Hrec.
        -- rewrite Hvis, Hch2, flat_map_app. simpl. rewrite app_nil_r, <- app_assoc.
           rewrite Hvis1, Hvis0. reflexivity.
      * destruct (IH ci stats1 Hfill Hrest) as (f1 & ci' & stats' & Hx' & Hf' & Hvis).
        exists (Nat.max f0 f1), ci', stats'. split; [|split; [done|]].
        -- intros fuel Hf. unfold add_child. rewrite (Hinit1 fuel ltac:(lia)).
           cbn [mbind result_bind]. rewrite bool_decide_true by done.
           cbn [mbind result_bind]. simpl. apply Hx'. lia.
        -- rewrite Hvis, <- Hvis0, Hnil. reflexivity.
Qed.

End ConcatAttach.

Section ConcatDriver.

Context {Row : Type} {ops : RowCursorOps Row}.

(** Resolving a range does not look at the iterator. *)
Lemma attach_resolve_range_iter (first : bool) (r r2 : Reader Row)
    (x : ptr (CollectIterator Row)) (step : range_step) :
  attach_resolve_range first r = Ok (step, r2) ->
  attach_resolve_range first (with_collect_iter x r) = Ok (step, with_collect_iter x r2).
Proof.
  unfold attach_resolve_range. cbn [_keys_param with_collect_iter _next_key_index].
  intros H.
  repeat (case_bool_decide || case_match || simplify_eq/= ||
          match goal with
          | H : _ ≫= _ = Ok _ |- _ => apply bind_Ok in H as (? & ? & ?)
          end); try done.
Qed.

Lemma loop_unfold {S R : Type} (n : nat) (body : S -> result (ctrl S R)) (s : S) :
  loop (Datatypes.S n) body s =
  c ← body s;
  match c with
  | Continue s' => loop n body s'
  | Break s' => Ok (inl s')
  | Return r => Ok (inr r)
  end.
Proof. reflexivity. Qed.

(** The driver without merge, on a range that is the last one: it
    returns with the cursors of the segments that have a row in the
    range, in the order of [_data_sources]. *)
Lemma attach_concat (first : bool) (r r2 : Reader Row) (ci : CollectIterator Row)
    (sk ek : option Row) (flr ekflr : bool) :
  _collect_iter r = live ci -> _merge ci = false ->
  attach_resolve_range first r = Ok (RangeScan sk ek flr ekflr, r2) ->
  (length (start_keys (_keys_param r)) <= 1)%nat ->
  Forall (fun d => clean_seek d sk flr ek ekflr) (_data_sources r) ->
  exists fuel0 eof r',
    (forall fuel, (fuel0 <= fuel)%nat ->
       _attach_data_to_merge_set fuel first r = Ok (OLAP_SUCCESS, eof, r')) /\
    reader_concat_ok r' /\ ranges_done r' /\ same_config r r' /\
    reader_pending r' =
      flat_map (fun d => visible_seek (_delete_handler r) d sk flr ek ekflr) (_data_sources r).
Proof.
  intros Hci Hm Hres Hone Hclean.
  pose proof (attach_resolve_range_frame _ _ _ _ Hres)
    as (Hcfg & _ & _ & _ & _ & _ & _ & _ & Hdone & _).
  specialize (Hdone Hone).
  pose proof Hcfg as (Htab & Hrt & Hagg & Hk & Hv & Hdh & Hds & Hkp).
  apply (attach_resolve_range_iter _ _ _ (live (clear ci))) in Hres.
  assert (Hfill : filling (_delete_handler r) (clear ci)).
  { split; [done|]. split; [done|]. split; [done|]. constructor. }
  destruct (attach_sources_concat (_delete_handler r) (_data_sources r) sk flr ek ekflr
              (clear ci) (_stats r2) Hfill Hclean)
    as (f0 & ci' & stats' & Hx & Hfill' & Hvis).
  simpl in Hvis.
  destruct (filling_concat_ok _ _ Hfill') as [Hok' Hpend'].
  set (r3 := with_stats stats' (with_collect_iter (live ci')
                                  (with_collect_iter (live (clear ci)) r2))).
  assert (Hbody : forall fuel, (f0 <= fuel)%nat ->
            _attach_data_to_merge_set_body fuel (first, r) =
            '(row, flag) ← CollectIterator_current_row ci';
            let r4 := with_next_delete_flag (default (_next_delete_flag r3) flag)
                        (with_next_key row r3) in
            match row with
            | Some _ => Ok (Break (first, r4))
            | None => Ok (Continue (false, r4))
            end).
  { intros fuel Hf. unfold _attach_data_to_merge_set_body. rewrite Hci.
    cbn [deref mbind result_bind]. rewrite Hres. cbn [mbind result_bind].
    cbn [_collect_iter with_collect_iter deref mbind result_bind _delete_handler
         _data_sources _stats].
    rewrite Hdh, Hds, (Hx fuel Hf). cbn [mbind result_bind].
    rewrite bool_decide_false by (intros H; by apply H). reflexivity. }
  destruct Hfill' as (Hm' & Hidx' & Hcur' & Hall').
  destruct (_children ci') as [|c cs] eqn:Hch.
  - rewrite bool_decide_true in Hcur' by done.
    set (r4 := with_next_delete_flag (_next_delete_flag r3) (with_next_key None r3)).
    exists (Nat.max f0 2), true, (with_collect_iter (live (clear ci')) r4).
    split; [|split; [|split; [|split]]].
    + intros fuel Hf. destruct fuel as [|[|fuel]]; [lia|lia|].
      pose proof (attach_exhausted fuel false r4 ci' eq_refl I) as Hend.
      unfold _attach_data_to_merge_set in *. rewrite loop_unfold.
      rewrite (Hbody (S (S fuel)) ltac:(lia)).
      unfold CollectIterator_current_row. rewrite Hcur'. cbn [mbind result_bind].
      cbn [default]. fold r4.
      assert (Hmono : forall x,
                loop (S fuel) (_attach_data_to_merge_set_body (S fuel)) (false, r4) = Ok x ->
                loop (S fuel) (_attach_data_to_merge_set_body (S (S fuel))) (false, r4) = Ok x).
      { intros x. apply loop_mono; [lia|]. intros s c0. apply attach_body_mono. lia. }
      assert (Hd4 : ranges_done r4) by exact Hdone.
      specialize (Hend Hd4).
      destruct (loop (S fuel) (_attach_data_to_merge_set_body (S fuel)) (false, r4))
        as [x| |] eqn:El; [|discriminate..].
      rewrite (Hmono x eq_refl). exact Hend.
    + exists (clear ci'). split; [done|]. split; [|done].
      split; [done|]. split; [simpl; lia|]. constructor.
    + exact Hdone.
    + unfold same_config. simpl. tauto.
    + unfold reader_pending, pending. simpl. rewrite <- Hvis. done.
  - rewrite bool_decide_false in Hcur' by done.
    apply list.Forall_cons in Hall' as [Hc _].
    pose proof Hc as [(b & row & _ & _ & Hrow & _) _].
    set (r4 := with_next_delete_flag (_is_delete c) (with_next_key (Some row) r3)).
    exists (Nat.max f0 1), false, r4.
    split; [|split; [|split; [|split]]].
    + intros fuel Hf. destruct fuel as [|fuel]; [lia|].
      unfold _attach_data_to_merge_set. rewrite loop_unfold.
      rewrite (Hbody (S fuel) ltac:(lia)).
      unfold CollectIterator_current_row. rewrite Hcur', Hch. cbn [lookup list_lookup].
      cbn [mbind result_bind]. rewrite Hrow. reflexivity.
    + exists ci'. split; [done|]. split.
      { change (_delete_handler r4) with (_delete_handler r2). rewrite Hdh. exact Hok'. }
      unfold head_is. rewrite Hcur', Hch. exists c. done.
    + exact Hdone.
    + unfold same_config. simpl. tauto.
    + unfold reader_pending.
      change (_collect_iter r4) with (live ci').
      change (_delete_handler r4) with (_delete_handler r2).
      rewrite Hdh, Hpend'. exact Hvis.
Qed.

End ConcatDriver.

Section DupKeyQuery.

Context {Row : Type} {ops : RowCursorOps Row}.

(** X15. A query on a DUP_KEYS table is read without merge. With one
    scan range at most, over segments that answer the seek of the range
    cleanly, a scan returns, without an error, the rows of the range that
    the delete handler leaves: the rows of the first segment of
    [_data_sources] in the order the segment gives them, then those of
    the second, and so on, each copied into the output cursor; [n] calls
    give the first [n] of them. No row is handed out twice, none is left
    out, and the rows of different segments are not put in key order. *)
Theorem dup_key_query_scan (doris_scanner_row_num : Z) (n : nat) (r : Reader Row)
    (row_cursor : Row) (sk ek : option Row) (flr ekflr : bool) :
  keys_type (_olap_table r) = DUP_KEYS ->
  _reader_type r = READER_QUERY ->
  (length (start_keys (_keys_param r)) <= 1)%nat ->
  (exists r2, attach_resolve_range true r = Ok (RangeScan sk ek flr ekflr, r2)) ->
  Forall (fun d => clean_seek d sk flr ek ekflr) (_data_sources r) ->
  exists fuel0, forall fuel, (fuel0 <= fuel)%nat ->
    exists r',
      scan doris_scanner_row_num fuel n r row_cursor
      = Ok (copies row_cursor
              (take n (flat_map (fun d => visible_seek (_delete_handler r) d sk flr ek ekflr)
                                (_data_sources r))),
            OLAP_SUCCESS, r').
Proof.
  intros Hdup Hq Hone [r2 Hres] Hclean.
  set (ci0 := CollectIterator_init r CollectIterator_new).
  set (r1 := with_collect_iter (live ci0) r).
  assert (Hm0 : _merge ci0 = false).
  { unfold ci0, CollectIterator_init. rewrite Hq, Hdup.
    rewrite !bool_decide_true by done. rewrite orb_true_r. reflexivity. }
  apply (attach_resolve_range_iter _ _ _ (live ci0)) in Hres.
  destruct (attach_concat true r1 _ ci0 sk ek flr ekflr eq_refl Hm0 Hres Hone Hclean)
    as (f0 & eof & r3 & Hattach & Hok & Hdone & Hcfg & Hpend).
  assert (Hdup3 : keys_type (_olap_table r3) = DUP_KEYS).
  { destruct Hcfg as (-> & _). exact Hdup. }
  destruct (pull_rows_dup_concat doris_scanner_row_num _ r3 row_cursor Hdup3 Hok Hdone Hpend)
    as (f1 & Hpull).
  exists (Nat.max f0 f1). intros fuel Hf.
  destruct (Hpull fuel n ltac:(lia)) as [r' Hr'].
  exists r'. unfold scan. fold ci0. fold r1.
  rewrite (Hattach fuel ltac:(lia)). cbn [mbind result_bind].
  rewrite bool_decide_false by (intros H; by apply H). exact Hr'.
Qed.

End DupKeyQuery.

Lemma ex_segment_clean_seek (v : Z) (del : bool) (l : list (list Z))
    (sk : option (list Z)) (flr : bool) (ek : option (list Z)) (ekflr : bool) :
  clean_seek (ex_segment v del l) sk flr ek ekflr.
Proof.
  split; [reflexivity|]. simpl.
  destruct (List.filter (ex_in_range sk flr ek ekflr) l); simpl.
  - by left.
  - right. split; [done|]. split; [by eexists|constructor].
Qed.

Lemma dup_key_query_scan_witness :
  exists fuel0, forall fuel, (fuel0 <= fuel)%nat ->
    exists r',
      @scan _ (ZRowOps 1) 16384 fuel 10 ex_dup_query_reader []
      = Ok ([[1; 10]; [3; 30]; [2; 20]], OLAP_SUCCESS, r').
Proof.
  destruct (@dup_key_query_scan _ (ZRowOps 1) 16384 10 ex_dup_query_reader []
              (Some [1]) (Some [3]) false true) as [f0 H].
  - reflexivity.
  - reflexivity.
  - simpl. lia.
  - eexists. vm_compute. reflexivity.
  - simpl. repeat (apply List.Forall_cons; [apply ex_segment_clean_seek|]).
    apply List.Forall_nil.
  - exists f0. intros fuel Hf. destruct (H fuel Hf) as [r' Hr']. exists r'.
    rewrite Hr'. vm_compute. reflexivity.
Defined.

(** ** Reading with merge, row by row *)

Section MergeRows.

Context {Row : Type} {ops : RowCursorOps Row}.
Context (key_cids value_cids : list Z).
Context {laws : RowCursorLaws ops key_cids value_cids}.

Lemma standing_entry (dh : DeleteHandler Row) (children : list (ChildCtx Row)) (i : nat)
    (c : ChildCtx Row) :
  children !! i = Some c -> standing dh c -> is_Some (child_entry children i).
Proof.
  intros Hc [(b & row & _ & _ & Hrow & _) _]. unfold child_entry. rewrite Hc, Hrow. eauto.
Qed.

Lemma remove_first_Permutation (t : nat) (h : list nat) :
  t ∈ h -> h ≡ₚ t :: remove_first t h.
Proof.
  induction h as [|y h IH]; intros Hin; [by apply elem_of_nil in Hin|]. simpl.
  case_bool_decide as E; [by subst|].
  apply elem_of_cons in Hin as [->|Hin]; [done|].
  rewrite (IH Hin) at 1. apply perm_swap.
Qed.

Lemma bind_visible_others (dh : DeleteHandler Row) (children : list (ChildCtx Row))
    (t : nat) (c' : ChildCtx Row) (h : list nat) :
  t ∉ h -> h ≫= visible_at dh (<[t := c']> children) = h ≫= visible_at dh children.
Proof.
  induction h as [|y h IH]; intros Ht; [done|].
  apply not_elem_of_cons in Ht as [Hne Ht]. cbn [mbind list_bind]. rewrite (IH Ht).
  unfold visible_at at 1 3. by rewrite list_lookup_insert_ne.
Qed.

(** In merge mode [CollectIterator::next] takes the head row out of what
    the cursors of the heap have to hand out, and nothing else. *)
Lemma merge_next_visible (dh : DeleteHandler Row) (ci : CollectIterator Row)
    (stats : OlapReaderStatistics) (t : nat) :
  merge_standing dh ci -> _cur_child ci = Some t ->
  exists fuel0 res row flag ci' stats' row0,
    (forall fuel, (fuel0 <= fuel)%nat ->
       CollectIterator_next fuel dh ci stats = Ok (res, row, flag, ci', stats')) /\
    merge_standing dh ci' /\
    (exists c, _children ci !! t = Some c /\ _current_row c = Some row0) /\
    heap_pending dh ci ≡ₚ row0 :: heap_pending dh ci' /\
    Forall (fun y => full_key_cmp row0 y <= 0) (heap_pending dh ci) /\
    head_is ci' row flag /\
    ((res = OLAP_SUCCESS /\ is_Some row) \/ (res = OLAP_ERR_DATA_EOF /\ row = None)).
Proof.
  intros (Hm & Hnd & Hch & Htop) Hcur.
  destruct (_heap ci) as [|x0 h0] eqn:Hheap; [congruence|].
  destruct Htop as (t0 & Htop & Hcur0).
  assert (t0 = t) as -> by congruence. clear Hcur0.
  assert (Hentries : forall x, x ∈ x0 :: h0 -> is_Some (child_entry (_children ci) x)).
  { intros x Hx. destruct (Hch x Hx) as (c & Hc & Hok & _). by eapply standing_entry. }
  destruct (heap_top_min key_cids value_cids _ _ _ Hentries Htop) as (Htin & et & Het & Hmin).
  set (h1 := remove_first t (x0 :: h0)) in *.
  destruct (remove_first_NoDup t _ Hnd) as [Hnd1 Hnot1]. fold h1 in Hnd1, Hnot1.
  assert (Hsub : forall x, x ∈ h1 -> x ∈ x0 :: h0) by (intros x; apply elem_of_remove_first).
  destruct (Hch t Htin) as (c & Hc & Hcok & Hasc).
  destruct (ChildCtx_next_visible dh c stats Hcok)
    as (f0 & res1 & row1 & flag1 & c' & stats1 & row0 & Hnext & Hrow0 & Hvis & Hrow1 &
        Hflag1 & Hdel & Hcases).
  set (children' := <[t := c']> (_children ci)).
  assert (Hlt : (t < length (_children ci))%nat) by (by eapply lookup_lt_Some).
  assert (Hc' : children' !! t = Some c') by (by apply list_lookup_insert_eq).
  assert (Hasc' : ascending (visible dh c')).
  { rewrite Hvis in Hasc. by apply ascending_inv in Hasc as [_ ?]. }
  assert (Hkeep : forall i, i ∈ h1 ->
            exists ci0, children' !! i = Some ci0 /\ standing dh ci0 /\
                        ascending (visible dh ci0)).
  { intros i Hi. destruct (Hch i (Hsub i Hi)) as (c0 & Hc0 & Hok0).
    exists c0. split; [|done]. unfold children'. rewrite list_lookup_insert_ne; [done|].
    intros ->. done. }
  assert (Hold : forall x, x ∈ h1 -> is_Some (child_entry children' x)).
  { intros x Hx. destruct (Hkeep x Hx) as (c0 & Hc0 & Hok0 & _). by eapply standing_entry. }
  assert (Hlow : Forall (fun y => full_key_cmp row0 y <= 0) (heap_pending dh ci)).
  { unfold heap_pending. rewrite Hheap. apply list.Forall_forall. intros y Hy.
    apply list_elem_of_bind in Hy as (i & Hy & Hi).
    destruct (Hch i Hi) as (c0 & Hc0 & [(b0 & r0 & Hb0 & Hr0 & Hcr0 & Hf0) _] & Hasc0).
    destruct (Hmin i Hi) as (ei & Hei & Hle).
    unfold child_entry in Het, Hei. rewrite Hc, Hrow0 in Het. rewrite Hc0, Hcr0 in Hei.
    injection Het as <-. injection Hei as <-. apply entry_le_key in Hle. simpl in Hle.
    unfold visible_at in Hy. rewrite Hc0 in Hy.
    assert (Hv0 : visible dh c0 = r0 :: visible_block dh (ChildCtx_version c0)
                                          (Some (pos_inc b0))
                                 ++ visible_script dh (ChildCtx_version c0)
                                      (next_blocks (_data c0))).
    { unfold visible. rewrite Hb0. by rewrite (visible_block_standing _ _ _ _ Hr0 Hf0). }
    rewrite Hv0 in Hy, Hasc0. apply ascending_inv in Hasc0 as [Hall0 _].
    apply elem_of_cons in Hy as [->|Hy]; [done|].
    rewrite list.Forall_forall in Hall0.
    eapply (full_key_cmp_trans (RowCursorLaws := laws)); [exact Hle|]. by apply Hall0. }
  assert (Hpend : heap_pending dh ci ≡ₚ
                  row0 :: visible dh c' ++ (h1 ≫= visible_at dh children')).
  { unfold heap_pending. rewrite Hheap.
    rewrite (remove_first_Permutation t (x0 :: h0) Htin). fold h1.
    cbn [mbind list_bind]. unfold visible_at at 1. rewrite Hc, Hvis.
    unfold children'. by rewrite bind_visible_others. }
  assert (Hpre : forall fuel, (f0 <= fuel)%nat ->
            CollectIterator_next fuel dh ci stats =
            let ci1 := set_children children' (set_heap h1 ci) in
            if bool_decide (res1 = OLAP_SUCCESS) then
              let ci2 := set_heap (heap_push t (_heap ci1)) ci1 in
              t' ← heap_top (_children ci2) (_heap ci2);
              let ci3 := set_cur_child (Some t') ci2 in
              '(row, flag') ← CollectIterator_current_row ci3;
              Ok (OLAP_SUCCESS, row, default flag1 flag', ci3, stats1)
            else if bool_decide (res1 = OLAP_ERR_DATA_EOF) then
              if bool_decide (0 < length (_heap ci1))%nat then
                t' ← heap_top (_children ci1) (_heap ci1);
                let ci3 := set_cur_child (Some t') ci1 in
                '(row, flag') ← CollectIterator_current_row ci3;
                Ok (OLAP_SUCCESS, row, default flag1 flag', ci3, stats1)
              else Ok (OLAP_ERR_DATA_EOF, row1, flag1, set_cur_child None ci1, stats1)
            else Ok (res1, row1, flag1, ci1, stats1)).
  { intros fuel Hf. unfold CollectIterator_next. rewrite Hm.
    unfold _merge_next, heap_pop. rewrite Hheap, Htop. cbn [mbind result_bind].
    unfold cur_child_next. cbn [_cur_child set_heap _children].
    rewrite Hcur, Hc, (Hnext fuel Hf). cbn [mbind result_bind].
    cbn [_cur_child set_children set_heap _heap _children]. rewrite Hcur. reflexivity. }
  assert (Hhead : forall (h : list nat) (t' : nat),
            h <> [] -> NoDup h ->
            (forall i, i ∈ h -> exists ci0, children' !! i = Some ci0 /\ standing dh ci0 /\
                                            ascending (visible dh ci0)) ->
            heap_top children' h = Ok t' -> t' ∈ h ->
            exists ct', children' !! t' = Some ct' /\ is_Some (_current_row ct') /\
              merge_standing dh (set_cur_child (Some t')
                                   (set_children children' (set_heap h ci)))).
  { intros h t' Hne Hndh Hall Ht' Hin'.
    destruct (Hall t' Hin') as (ct' & Hct' & Hst' & _).
    exists ct'. split; [done|]. split.
    { destruct Hst' as [(b & row & _ & _ & -> & _) _]. by eexists. }
    split; [done|]. split; [done|]. split; [done|].
    simpl. destruct h; [done|]. by exists t'. }
  destruct Hcases as [[-> Hst']|(-> & Hnil & Hnone)].
  - assert (Hall : forall i, i ∈ heap_push t h1 ->
              exists ci0, children' !! i = Some ci0 /\ standing dh ci0 /\
                          ascending (visible dh ci0)).
    { intros i Hi. apply elem_of_app in Hi as [Hi|Hi]; [by apply Hkeep|].
      apply list_elem_of_singleton in Hi as ->. by exists c'. }
    destruct (heap_top_returns key_cids value_cids children' (heap_push t h1))
      as (t' & Htop' & Hin').
    { intros E. by apply app_eq_nil in E as [_ ?]. }
    { intros x Hx. destruct (Hall x Hx) as (c0 & Hc0 & Hok0 & _). by eapply standing_entry. }
    destruct (Hhead (heap_push t h1) t') as (ct' & Hct' & Hrow' & Hms); [| |done|done|done|].
    { intros E. by apply app_eq_nil in E as [_ ?]. }
    { unfold heap_push. apply list.NoDup_app. split; [done|]. split; [|apply NoDup_singleton].
      intros x Hx Hx'. apply list_elem_of_singleton in Hx' as ->. done. }
    eexists f0, OLAP_SUCCESS, (_current_row ct'), (_is_delete ct'), _, stats1, row0.
    split.
    { intros fuel Hf. rewrite (Hpre fuel Hf). cbn zeta.
      rewrite bool_decide_true by done.
      cbn [_cur_child set_children set_heap _heap _children].
      rewrite Htop'. cbn [mbind result_bind].
      unfold CollectIterator_current_row.
      cbn [_cur_child set_children set_heap set_cur_child _heap _children].
      rewrite Hct'. reflexivity. }
    split; [exact Hms|]. split; [by exists c|]. split.
    { rewrite Hpend. unfold heap_pending. simpl. unfold heap_push.
      rewrite bind_app. cbn [mbind list_bind]. unfold visible_at at 3. rewrite Hc'.
      rewrite app_nil_r. apply Permutation_skip. apply Permutation_app_comm. }
    split; [exact Hlow|].
    split; [unfold head_is; simpl; by exists ct'|].
    left. done.
  - destruct (decide (0 < length h1)%nat) as [Hsize|Hsize].
    + destruct (heap_top_returns key_cids value_cids children' h1) as (t' & Htop' & Hin');
        [by destruct h1; [simpl in Hsize; lia|]|done|].
      destruct (Hhead h1 t') as (ct' & Hct' & Hrow' & Hms); [|done|done|done|done|].
      { by destruct h1; [simpl in Hsize; lia|]. }
      eexists f0, OLAP_SUCCESS, (_current_row ct'), (_is_delete ct'), _, stats1, row0.
      split.
      { intros fuel Hf. rewrite (Hpre fuel Hf). cbn zeta.
        rewrite bool_decide_false by done. rewrite bool_decide_true by done.
        cbn [_cur_child set_children set_heap _heap _children].
        rewrite (bool_decide_eq_true_2 (0 < length h1)%nat) by done.
        rewrite Htop'. cbn [mbind result_bind].
        unfold CollectIterator_current_row.
        cbn [_cur_child set_children set_heap set_cur_child _heap _children].
        rewrite Hct'. reflexivity. }
      split; [exact Hms|]. split; [by exists c|]. split.
      { rewrite Hpend, Hnil. unfold heap_pending. simpl. done. }
      split; [exact Hlow|].
      split; [unfold head_is; simpl; by exists ct'|].
      left. done.
    + assert (h1 = []) as Hh1 by (destruct h1; [done|simpl in Hsize; lia]).
      eexists f0, OLAP_ERR_DATA_EOF, row1, flag1, _, stats1, row0.
      split.
      { intros fuel Hf. rewrite (Hpre fuel Hf). cbn zeta.
        rewrite bool_decide_false by done. rewrite bool_decide_true by done.
        cbn [_cur_child set_children set_heap _heap _children].
        rewrite (bool_decide_eq_false_2 (0 < length h1)%nat) by done.
        reflexivity. }
      split.
      { split; [done|]. split; [done|]. split; [done|]. simpl. by rewrite Hh1. }
      split; [by exists c|]. split.
      { rewrite Hpend, Hnil. unfold heap_pending. simpl. done. }
      split; [exact Hlow|].
      split; [unfold head_is; simpl; by rewrite Hrow1|].
      right. split; [done|]. by rewrite Hrow1.
Qed.

End MergeRows.

Section MergeAttach.

Context {Row : Type} {ops : RowCursorOps Row}.
Context (key_cids value_cids : list Z).
Context {laws : RowCursorLaws ops key_cids value_cids}.

Lemma bind_visible_app (dh : DeleteHandler Row) (children : list (ChildCtx Row))
    (c' : ChildCtx Row) (h : list nat) :
  (forall i, i ∈ h -> (i < length children)%nat) ->
  h ≫= visible_at dh (children ++ [c']) = h ≫= visible_at dh children.
Proof.
  induction h as [|y h IH]; intros Hlt; [done|].
  cbn [mbind list_bind]. rewrite IH by (intros i Hi; apply Hlt; by right).
  unfold visible_at at 1 3. rewrite lookup_app_l by (apply Hlt; by left). done.
Qed.

(** The loop over [_data_sources] in merge mode: every segment that has
    a row to give gets a cursor in the heap. *)
Lemma attach_sources_merge (dh : DeleteHandler Row) (sources : list (ColumnData Row))
    (sk : option Row) (flr : bool) (ek : option Row) (ekflr : bool) :
  forall (ci : CollectIterator Row) (stats : OlapReaderStatistics),
    merge_standing dh ci ->
    Forall (fun d => clean_seek d sk flr ek ekflr) sources ->
    Forall (fun d => ascending (visible_seek dh d sk flr ek ekflr)) sources ->
    exists fuel0 ci' stats',
      (forall fuel, (fuel0 <= fuel)%nat ->
         attach_data_sources fuel dh sources sk flr ek ekflr ci stats
         = Ok (OLAP_SUCCESS, ci', stats')) /\
      merge_standing dh ci' /\
      heap_pending dh ci' =
        heap_pending dh ci ++ flat_map (fun d => visible_seek dh d sk flr ek ekflr) sources.
Proof.
  induction sources as [|d sources IH]; intros ci stats Hms Hclean Hsorted.
  - exists 0%nat, ci, stats. split; [done|]. split; [done|]. simpl. by rewrite app_nil_r.
  - apply list.Forall_cons in Hclean as [(Hinit & Hseek) Hrest].
    apply list.Forall_cons in Hsorted as [Hasc Hsrest].
    cbn [attach_data_sources flat_map]. unfold prepare_block_read.
    pose proof (eq_refl (visible_seek dh d sk flr ek ekflr)) as Hvs.
    unfold visible_seek at 2 in Hvs.
    destruct (seek d sk flr ek ekflr) as [[res block] later] eqn:Es. simpl in Hseek.
    destruct Hseek as [->|(-> & [b ->] & Hlater)].
    + rewrite bool_decide_false in Hvs by done.
      destruct (IH ci stats Hms Hrest Hsrest) as (f0 & ci' & stats' & Hx & Hf' & Hvis).
      exists f0, ci', stats'. split; [|split; [done|]].
      * intros fuel Hf. rewrite bool_decide_false by done. rewrite bool_decide_true by done.
        by apply Hx.
      * rewrite Hvs. simpl. done.
    + rewrite bool_decide_true in Hvs by done.
      set (data' := set_next_blocks later d).
      destruct (refresh_visible dh (ChildCtx_new data' (Some b)) stats)
        as (f0 & res1 & c' & stats1 & Hx & Hvis1 & Hv1 & Hdel1 & Hcases);
        [by eexists|done|].
      assert (Hvis0 : visible dh (ChildCtx_new data' (Some b)) =
                      visible_block dh (version d).2 (Some b)
                      ++ visible_script dh (version d).2 later) by reflexivity.
      assert (Hinit1 : forall fuel, (f0 <= fuel)%nat ->
                ChildCtx_init fuel dh (ChildCtx_new data' (Some b)) stats
                = Ok (res1, c', stats1)).
      { intros fuel Hf. unfold ChildCtx_init.
        change (row_cursor_init (_data (ChildCtx_new data' (Some b))))
          with (row_cursor_init d).
        rewrite Hinit. rewrite bool_decide_false by (intros H; by apply H).
        rewrite (Hx fuel Hf). cbn [mbind result_bind].
        destruct Hcases as [[-> _]|[-> _]].
        - by rewrite bool_decide_false by (intros H; by apply H).
        - by rewrite bool_decide_true by done. }
      rewrite bool_decide_true by done.
      destruct Hcases as [[-> Hst]|(-> & Hnil & Hnone)].
      * destruct Hms as (Hm & Hnd & Hch & Htop).
        pose proof Hst as [(b' & row & _ & _ & Hrow & _) _].
        set (ptr := length (_children ci)).
        set (children' := _children ci ++ [c']).
        set (heap' := heap_push ptr (_heap ci)).
        assert (Hlt : forall i, i ∈ _heap ci -> (i < length (_children ci))%nat).
        { intros i Hi. destruct (Hch i Hi) as (c0 & Hc0 & _). by eapply lookup_lt_Some. }
        assert (Hall : forall i, i ∈ heap' ->
                  exists c0, children' !! i = Some c0 /\ standing dh c0 /\
                             ascending (visible dh c0)).
        { intros i Hi. apply elem_of_app in Hi as [Hi|Hi].
          - destruct (Hch i Hi) as (c0 & Hc0 & Hok0). exists c0. split; [|done].
            unfold children'. rewrite lookup_app_l by (by apply Hlt). done.
          - apply list_elem_of_singleton in Hi as ->. exists c'. split; [|split; [done|]].
            + unfold children', ptr. rewrite lookup_app_r by lia.
              by rewrite Nat.sub_diag.
            + by rewrite Hvis1, Hvis0, <- Hvs. }
        destruct (heap_top_returns key_cids value_cids children' heap') as (t' & Htop' & Hin').
        { intros E. by apply app_eq_nil in E as [_ ?]. }
        { intros x Hx'. destruct (Hall x Hx') as (c0 & Hc0 & Hok0 & _).
          by eapply standing_entry. }
        set (ci2 := set_cur_child (Some t')
                      (set_heap heap' (set_children children' ci))).
        assert (Hms2 : merge_standing dh ci2).
        { split; [done|]. split.
          { simpl. unfold heap', heap_push. apply list.NoDup_app. split; [done|].
            split; [|apply NoDup_singleton].
            intros x Hx1 Hx2. apply list_elem_of_singleton in Hx2 as ->.
            apply Hlt in Hx1. unfold ptr in Hx1. lia. }
          split; [done|]. simpl.
          destruct heap' eqn:E; [by apply app_eq_nil in E as [_ ?]|].
          by exists t'. }
        destruct (IH ci2 stats1 Hms2 Hrest Hsrest) as (f1 & ci' & stats' & Hx' & Hf' & Hvis).
        exists (Nat.max f0 f1), ci', stats'. split; [|split; [done|]].
        -- intros fuel Hf. unfold add_child. rewrite (Hinit1 fuel ltac:(lia)).
           cbn [mbind result_bind]. rewrite bool_decide_false by (intros H; by apply H).
           rewrite Hrow. cbn zeta.
           cbn [_merge set_children _children set_heap _heap]. rewrite Hm.
           fold ptr. fold children'. fold heap'. rewrite Htop'.
           cbn [mbind result_bind]. simpl. apply Hx'. lia.
        -- rewrite Hvis. unfold heap_pending at 1 2. simpl. unfold heap', heap_push.
           rewrite bind_app. cbn [mbind list_bind]. rewrite app_nil_r.
           unfold children'. rewrite bind_visible_app by done.
           unfold visible_at at 2. unfold ptr. rewrite lookup_app_r by lia.
           rewrite Nat.sub_diag. simpl. rewrite <- app_assoc. rewrite Hvis1, Hvis0, Hvs. done.
      * destruct (IH ci stats1 Hms Hrest Hsrest) as (f1 & ci' & stats' & Hx' & Hf' & Hvis).
        exists (Nat.max f0 f1), ci', stats'. split; [|split; [done|]].
        -- intros fuel Hf. unfold add_child. rewrite (Hinit1 fuel ltac:(lia)).
           cbn [mbind result_bind]. rewrite bool_decide_true by done.
           cbn [mbind result_bind]. simpl. apply Hx'. lia.
        -- rewrite Hvis, Hvs, <- Hvis0, Hnil. reflexivity.
Qed.

End MergeAttach.

Section MergeReader.

Context {Row : Type} {ops : RowCursorOps Row}.
Context (key_cids value_cids : list Z).
Context {laws : RowCursorLaws ops key_cids value_cids}.
Variable doris_scanner_row_num : Z.

Lemma ascending_sublist (l1 l2 : list Row) : sublist l1 l2 -> ascending l2 -> ascending l1.
Proof.
  induction 1 as [|x l1 l2 Hsub IH|x l1 l2 Hsub IH]; intros Hasc.
  - apply ascending_nil.
  - apply ascending_inv in Hasc as [Hx Hl]. apply ascending_cons; [|auto].
    rewrite list.Forall_forall in Hx. apply list.Forall_forall. intros y Hy.
    apply Hx. by eapply elem_of_sublist.
  - apply ascending_inv in Hasc as [_ Hl]. auto.
Qed.

Lemma sublist_List_filter (f : Row -> bool) (l : list Row) : sublist (List.filter f l) l.
Proof.
  induction l as [|x l IH]; simpl; [constructor|].
  destruct (f x); by constructor.
Qed.

Lemma visible_block_sublist (dh : DeleteHandler Row) (v : Z) (b : option (RowBlock Row)) :
  sublist (visible_block dh v b) (block_rows b).
Proof. destruct b as [b|]; simpl; [apply sublist_List_filter|constructor]. Qed.

Lemma visible_script_sublist (dh : DeleteHandler Row) (v : Z)
    (later : list (OLAPStatus * option (RowBlock Row))) :
  sublist (visible_script dh v later) (script_rows later).
Proof.
  induction later as [|x later IH]; [constructor|].
  unfold visible_script, script_rows. simpl. apply sublist_app; [|exact IH].
  apply visible_block_sublist.
Qed.

(** The rows of a sorted segment that the delete handler leaves are in
    key order. *)
Lemma sorted_visible_seek (dh : DeleteHandler Row) (d : ColumnData Row)
    (sk : option Row) (flr : bool) (ek : option Row) (ekflr : bool) :
  sorted_segment d -> ascending (visible_seek dh d sk flr ek ekflr).
Proof.
  intros Hs. specialize (Hs sk flr ek ekflr). unfold visible_seek.
  destruct (seek d sk flr ek ekflr) as [[res block] later]. simpl in Hs.
  case_bool_decide; [|apply ascending_nil].
  eapply ascending_sublist; [|exact Hs].
  apply sublist_app; [apply visible_block_sublist|apply visible_script_sublist].
Qed.

Lemma reader_merge_head (r : Reader Row) :
  reader_merge_standing r ->
  match _next_key r with
  | Some row0 => exists ci t, _collect_iter r = live ci /\ _cur_child ci = Some t
  | None => reader_heap_pending r = []
  end.
Proof.
  intros (ci & Hci & (Hm & Hnd & Hch & Htop) & Hhead). unfold head_is in Hhead.
  destruct (_heap ci) as [|x0 h0] eqn:Hheap.
  - rewrite Htop in Hhead. rewrite Hhead.
    unfold reader_heap_pending, heap_pending. by rewrite Hci, Hheap.
  - destruct Htop as (t & Htop & Hcur). rewrite Hcur in Hhead.
    destruct Hhead as (c & Hc & Hrow & _).
    assert (Hentries : forall x, x ∈ x0 :: h0 -> is_Some (child_entry (_children ci) x)).
    { intros x Hx. destruct (Hch x Hx) as (c0 & Hc0 & Hok & _). by eapply standing_entry. }
    destruct (heap_top_min key_cids value_cids _ _ _ Hentries Htop) as (Htin & _).
    destruct (Hch t Htin) as (c0 & Hc0 & [(b & row & _ & _ & Hcr & _) _] & _).
    assert (c0 = c) as -> by congruence.
    rewrite Hrow, Hcr. by exists ci, t.
Qed.

Lemma collect_next_merge_rows (r : Reader Row) (row0 : Row) :
  reader_merge_standing r -> _next_key r = Some row0 ->
  exists fuel0 res r',
    (forall fuel, (fuel0 <= fuel)%nat -> Reader_collect_next fuel r = Ok (res, r')) /\
    reader_merge_standing r' /\
    reader_heap_pending r ≡ₚ row0 :: reader_heap_pending r' /\
    Forall (fun y => full_key_cmp row0 y <= 0) (reader_heap_pending r) /\
    same_config r r' /\ _next_key_index r' = _next_key_index r /\
    ((res = OLAP_SUCCESS /\ is_Some (_next_key r')) \/
     (res = OLAP_ERR_DATA_EOF /\ _next_key r' = None)).
Proof.
  intros Hok Hnk. pose proof (reader_merge_head r Hok) as Hhead0. rewrite Hnk in Hhead0.
  destruct Hhead0 as (ci0 & t & Hci0 & Ht).
  destruct Hok as (ci & Hci & Hcok & Hhead).
  assert (ci0 = ci) as -> by congruence. clear Hci0.
  destruct (merge_next_visible key_cids value_cids (_delete_handler r) ci (_stats r) t Hcok Ht)
    as (f0 & res & row & flag & ci' & stats' & row1 & Hnext & Hok' & (c & Hc & Hrow1) &
        Hpend & Hlow & Hhead' & Hcases).
  assert (row1 = row0) as ->.
  { unfold head_is in Hhead. rewrite Ht in Hhead. destruct Hhead as (c0 & Hc0 & Hr & _).
    congruence. }
  eexists f0, res, _. split.
  { intros fuel Hf. unfold Reader_collect_next. rewrite Hci. cbn [deref mbind result_bind].
    rewrite (Hnext fuel Hf). reflexivity. }
  split; [by exists ci'|]. split.
  { unfold reader_heap_pending. simpl. by rewrite Hci. }
  split.
  { unfold reader_heap_pending. by rewrite Hci. }
  split; [unfold same_config; simpl; tauto|]. split; [done|]. exact Hcases.
Qed.

Lemma dup_next_row_merge (r : Reader Row) (row_cursor row0 : Row) :
  reader_merge_standing r -> _next_key r = Some row0 ->
  exists fuel0 r',
    (forall fuel, (fuel0 <= fuel)%nat ->
       _dup_key_next_row fuel r row_cursor
       = Ok (OLAP_SUCCESS, false, copy_without_pool row_cursor row0, r')) /\
    reader_merge_standing r' /\
    reader_heap_pending r ≡ₚ row0 :: reader_heap_pending r' /\
    Forall (fun y => full_key_cmp row0 y <= 0) (reader_heap_pending r) /\
    same_config r r' /\ _next_key_index r' = _next_key_index r.
Proof.
  intros Hok Hnk.
  destruct (collect_next_merge_rows r row0 Hok Hnk)
    as (f0 & res & r' & Hnext & Hok' & Hpend & Hlow & Hcfg & Hidx & Hcases).
  exists f0, r'. split; [|done].
  intros fuel Hf. unfold _dup_key_next_row, Reader_rearm. rewrite Hnk.
  cbn [mbind result_bind]. rewrite Hnk. rewrite (Hnext fuel Hf). cbn [mbind result_bind].
  destruct Hcases as [[-> _]|[-> _]]; reflexivity.
Qed.

(** The caller's loop on a DUP_KEYS table read with merge, with no scan
    range left: it hands out the rows pending in key order, one a call. *)
Lemma pull_rows_dup_merge (k : nat) :
  forall (r : Reader Row) (row_cursor : Row),
    length (reader_heap_pending r) = k ->
    keys_type (_olap_table r) = DUP_KEYS ->
    reader_merge_standing r -> ranges_done r ->
    exists fuel0, forall fuel n, (fuel0 <= fuel)%nat ->
      exists rows r',
        pull_rows doris_scanner_row_num fuel n r row_cursor
        = Ok (copies row_cursor rows, OLAP_SUCCESS, r') /\
        length rows = Nat.min n k /\
        keys_non_descending rows /\
        exists rest, rows ++ rest ≡ₚ reader_heap_pending r.
Proof.
  induction k as [|k IH]; intros r row_cursor Hlen Hdup Hok Hdone.
  - exists 1%nat. intros fuel n Hf. exists [].
    apply nil_length_inv in Hlen.
    destruct n as [|n].
    { exists r. split; [done|]. split; [done|]. split; [done|]. exists []. by rewrite Hlen. }
    pose proof (reader_merge_head r Hok) as Hhead.
    destruct (_next_key r) as [row0|] eqn:Hnk.
    { destruct (collect_next_merge_rows r row0 Hok Hnk) as (_ & _ & r' & _ & _ & Hp & _).
      rewrite Hlen in Hp. by apply Permutation_nil_cons in Hp. }
    destruct Hok as (ci & Hci & _).
    destruct fuel as [|fuel]; [lia|].
    eexists. split.
    { cbn [pull_rows]. unfold next_row_with_aggregation. rewrite Hdup.
      unfold _dup_key_next_row, Reader_rearm. rewrite Hnk.
      rewrite (attach_exhausted fuel false r ci Hci I Hdone). simpl. reflexivity. }
    split; [by rewrite Nat.min_0_r|]. split; [done|]. exists []. by rewrite Hlen.
  - pose proof (reader_merge_head r Hok) as Hhead.
    destruct (_next_key r) as [row0|] eqn:Hnk; [|by rewrite Hhead in Hlen].
    destruct (dup_next_row_merge r row_cursor row0 Hok Hnk)
      as (f0 & r1 & Hstep & Hok1 & Hp & Hlow & Hcfg & Hidx).
    destruct (IH r1 (copy_without_pool row_cursor row0)) as (f1 & Hrest).
    { apply Permutation_length in Hp. rewrite Hlen in Hp. simpl in Hp. lia. }
    { destruct Hcfg as (-> & _). done. }
    { done. }
    { unfold ranges_done in *. destruct Hcfg as (_ & _ & _ & _ & _ & _ & _ & ->).
      by rewrite Hidx. }
    exists (Nat.max f0 f1). intros fuel n Hf.
    destruct n as [|n].
    { exists [], r. split; [done|]. split; [done|]. split; [done|].
      by exists (reader_heap_pending r). }
    destruct (Hrest fuel n ltac:(lia)) as (rows' & r' & Hr' & Hlen' & Hsorted' & rest & Hperm').
    exists (row0 :: rows'), r'. split.
    { cbn [pull_rows copies]. unfold next_row_with_aggregation. rewrite Hdup.
      rewrite (Hstep fuel ltac:(lia)). cbn [mbind result_bind].
      rewrite bool_decide_false by (intros H; by apply H). rewrite Hr'. reflexivity. }
    split; [simpl; lia|]. split.
    { destruct rows' as [|y rows'']; [done|]. split; [|done].
      rewrite list.Forall_forall in Hlow. apply Hlow. rewrite Hp.
      apply elem_of_cons. right. rewrite <- Hperm'. apply elem_of_cons. by left. }
    exists rest. simpl. by rewrite Hperm', Hp.
Qed.

(** The driver in merge mode, on a range that is the last one: it
    returns with a cursor in the heap for every segment that has a row in
    the range. *)
Lemma attach_merge_rows (first : bool) (r r2 : Reader Row) (ci : CollectIterator Row)
    (sk ek : option Row) (flr ekflr : bool) :
  _collect_iter r = live ci -> _merge ci = true ->
  attach_resolve_range first r = Ok (RangeScan sk ek flr ekflr, r2) ->
  (length (start_keys (_keys_param r)) <= 1)%nat ->
  Forall (fun d => clean_seek d sk flr ek ekflr) (_data_sources r) ->
  Forall sorted_segment (_data_sources r) ->
  exists fuel0 eof r',
    (forall fuel, (fuel0 <= fuel)%nat ->
       _attach_data_to_merge_set fuel first r = Ok (OLAP_SUCCESS, eof, r')) /\
    reader_merge_standing r' /\ ranges_done r' /\ same_config r r' /\
    reader_heap_pending r' =
      flat_map (fun d => visible_seek (_delete_handler r) d sk flr ek ekflr) (_data_sources r).
Proof.
  intros Hci Hm Hres Hone Hclean Hsorted.
  pose proof (attach_resolve_range_frame _ _ _ _ Hres)
    as (Hcfg & _ & _ & _ & _ & _ & _ & _ & Hdone & _).
  specialize (Hdone Hone).
  pose proof Hcfg as (Htab & Hrt & Hagg & Hk & Hv & Hdh & Hds & Hkp).
  apply (attach_resolve_range_iter _ _ _ (live (clear ci))) in Hres.
  assert (Hfill : merge_standing (_delete_handler r) (clear ci)).
  { split; [done|]. split; [constructor|]. split; [|done].
    intros i Hi. by apply elem_of_nil in Hi. }
  assert (Hasc : Forall (fun d => ascending (visible_seek (_delete_handler r) d sk flr ek ekflr))
                        (_data_sources r)).
  { eapply list.Forall_impl; [exact Hsorted|]. intros d Hd. by apply sorted_visible_seek. }
  destruct (attach_sources_merge key_cids value_cids (_delete_handler r) (_data_sources r)
              sk flr ek ekflr (clear ci) (_stats r2) Hfill Hclean Hasc)
    as (f0 & ci' & stats' & Hx & Hms' & Hvis).
  simpl in Hvis.
  set (r3 := with_stats stats' (with_collect_iter (live ci')
                                  (with_collect_iter (live (clear ci)) r2))).
  assert (Hbody : forall fuel, (f0 <= fuel)%nat ->
            _attach_data_to_merge_set_body fuel (first, r) =
            '(row, flag) ← CollectIterator_current_row ci';
            let r4 := with_next_delete_flag (default (_next_delete_flag r3) flag)
                        (with_next_key row r3) in
            match row with
            | Some _ => Ok (Break (first, r4))
            | None => Ok (Continue (false, r4))
            end).
  { intros fuel Hf. unfold _attach_data_to_merge_set_body. rewrite Hci.
    cbn [deref mbind result_bind]. rewrite Hres. cbn [mbind result_bind].
    cbn [_collect_iter with_collect_iter deref mbind result_bind _delete_handler
         _data_sources _stats].
    rewrite Hdh, Hds, (Hx fuel Hf). cbn [mbind result_bind].
    rewrite bool_decide_false by (intros H; by apply H). reflexivity. }
  pose proof Hms' as (Hm' & Hnd' & Hch' & Htop').
  destruct (_heap ci') as [|x0 h0] eqn:Hheap.
  - set (r4 := with_next_delete_flag (_next_delete_flag r3) (with_next_key None r3)).
    exists (Nat.max f0 2), true, (with_collect_iter (live (clear ci')) r4).
    split; [|split; [|split; [|split]]].
    + intros fuel Hf. destruct fuel as [|[|fuel]]; [lia|lia|].
      pose proof (attach_exhausted fuel false r4 ci' eq_refl I) as Hend.
      unfold _attach_data_to_merge_set in *. rewrite loop_unfold.
      rewrite (Hbody (S (S fuel)) ltac:(lia)).
      unfold CollectIterator_current_row. rewrite Htop'. cbn [mbind result_bind].
      cbn [default]. fold r4.
      assert (Hmono : forall x,
                loop (S fuel) (_attach_data_to_merge_set_body (S fuel)) (false, r4) = Ok x ->
                loop (S fuel) (_attach_data_to_merge_set_body (S (S fuel))) (false, r4) = Ok x).
      { intros x. apply loop_mono; [lia|]. intros s c0. apply attach_body_mono. lia. }
      assert (Hd4 : ranges_done r4) by exact Hdone.
      specialize (Hend Hd4).
      destruct (loop (S fuel) (_attach_data_to_merge_set_body (S fuel)) (false, r4))
        as [x| |] eqn:El; [|discriminate..].
      rewrite (Hmono x eq_refl). exact Hend.
    + exists (clear ci'). split; [done|]. split; [|done].
      split; [done|]. split; [constructor|]. split; [|done].
      intros i Hi. by apply elem_of_nil in Hi.
    + exact Hdone.
    + unfold same_config. simpl. tauto.
    + unfold reader_heap_pending. simpl. rewrite <- Hvis.
      unfold heap_pending. rewrite Hheap. done.
  - destruct Htop' as (t & Htop' & Hcur').
    assert (Hentries : forall x, x ∈ x0 :: h0 -> is_Some (child_entry (_children ci') x)).
    { intros x Hin. destruct (Hch' x Hin) as (c0 & Hc0 & Hok & _). by eapply standing_entry. }
    destruct (heap_top_min key_cids value_cids _ _ _ Hentries Htop') as (Htin & _).
    destruct (Hch' t Htin) as (c & Hc & Hst & _).
    pose proof Hst as [(b & row & _ & _ & Hrow & _) _].
    set (r4 := with_next_delete_flag (_is_delete c) (with_next_key (Some row) r3)).
    exists (Nat.max f0 1), false, r4.
    split; [|split; [|split; [|split]]].
    + intros fuel Hf. destruct fuel as [|fuel]; [lia|].
      unfold _attach_data_to_merge_set. rewrite loop_unfold.
      rewrite (Hbody (S fuel) ltac:(lia)).
      unfold CollectIterator_current_row. rewrite Hcur', Hc.
      cbn [mbind result_bind]. rewrite Hrow. reflexivity.
    + exists ci'. split; [done|]. split.
      { change (_delete_handler r4) with (_delete_handler r2). rewrite Hdh.
        rewrite <- Hheap in Hnd', Hch'. split; [done|]. split; [done|]. split; [done|].
        rewrite Hheap. by exists t. }
      unfold head_is. rewrite Hcur'. exists c. done.
    + exact Hdone.
    + unfold same_config. simpl. tauto.
    + unfold reader_heap_pending.
      change (_collect_iter r4) with (live ci').
      change (_delete_handler r4) with (_delete_handler r2).
      rewrite Hdh. exact Hvis.
Qed.

End MergeReader.


